(* ===== verification/_CoqProject ===== *)
-Q . S2P
Prelude.v
Scalar.v
NumPy.v
Exact.v
Sorting.v
Binary64.v
Rounding.v
RealLemmas.v
FloatError.v
Reconstructor.v
Evaluator.v
Loop.v
Reference.v
Ideal.v
RealModel.v
Signs.v
Nan.v
Zeros.v
Frame.v
Ranks.v
Shapes.v
Broadcast.v
Accepts.v
Order.v
Projection.v
Accuracy.v
Roundoff.v
Range.v
Pipeline.v
Script.v
Fixtures.v
Figures.v
