(* ===== verification/Prelude.v ===== *)
(** * Verification of the Hipparcos IAD log-likelihood evaluator

    ** The program

    The program ([src/compute_chi2.py]) is one Python class,
    [HipparcosLogProb].  Its constructor fetches a star's catalogue
    solution, reads the per-scan intermediate astrometric data (IAD),
    asks an ephemeris for the Earth's barycentric position at every scan
    and reconstructs, once, the abscissa point of every scan.  Its method
    [compute_lnprob] scores a batch of candidate parameter vectors against
    that series: per epoch it predicts the photocentre of every candidate
    (NumPy array arithmetic over the batch), with five parameters from
    the astrometry alone and with thirteen also from the orbit of a
    companion, projects the disagreement on the scan direction, reduces
    to a chi-square per candidate, masks the candidates of non-positive
    parallax with minus infinity and optionally negates the result.
    The [__main__] block of the file is a script: it builds the object
    for one star, draws a hundred thousand candidates (four rows from a
    normal distribution, nine from a posterior of radial-velocity fits
    that [compute_sep] turns into orbital elements), scores them with
    [compute_lnprob], ranks them with [argsort] and plots the thousand
    best against all of them in a figure of five panels.

    ** Files, in dependency order

    - [Prelude] (this file): the exception monad [py] that models Python
      control flow ([Ok], [Raise]) with its notation scope [py_scope],
      [getitem] (indexing that raises [IndexError]), [py_mapM] (a loop
      whose body may raise), the tactics [py_inv] and [case_ok], the
      rewrite databases [pyrw] and [shape], and the list lemmas the
      components share.
    - [Scalar]: the interface [Scalar] of the floating-point operations
      the program uses (literals, [+ - * /], unary minus, [abs], [<=],
      infinity) and the interface [Trig] of [np.sin], [np.cos],
      [np.radians]; the instance [binary64] on the kernel's primitive
      IEEE-754 floats, which is what NumPy computes with.
    - [NumPy]: one-dimensional arrays as lists, with NumPy's broadcasting
      rule for binary operations ([np_binop]), for augmented assignment
      ([np_ibinop]) and for row assignment ([np_setrow]); [np_column],
      [np_transpose], [np_sum], [np_sum_axis1], [np_where], [np_put];
      the lemmas that say what each returns on operands of equal length
      and when each raises; the rewrite database [batch] and the tactic
      of the same name, which evaluate array code on arrays of the form
      [g <$> l].
    - [Exact]: the class [OrderedField] (operations and laws, with the
      derived [ring]/[field] theory), its instance on the canonical
      rationals [Qc], and the instance [ext_scalar] of [Scalar] on
      [ext K]: exact arithmetic on an ordered field extended with the two
      infinities and NaN, i.e. IEEE arithmetic without rounding and
      without a signed zero.
    - [Sorting]: what the script asks of NumPy beyond arithmetic:
      [np_argsort] (a merge sort of the entries tagged with their
      index, in the order [sort_le] of [numpy.sort], which puts NaN
      last), the slice [np_slice_last] ([a[-k:]]), fancy indexing
      [np_take] and [np_array] (stacking rows into a matrix).  The
      indices returned are a permutation of the indices of the array;
      over an instance whose order is total and transitive (the exact
      ones here, binary64 in [Binary64]) every entry the slice leaves
      out is below every entry it takes.
    - [Binary64]: facts of binary64 proved from the specification of
      the IEEE-754 operations ([SpecFloat]) that the kernel's floats
      satisfy: what rounding, the product and the sum do to the sign;
      that NaN passes through every operation and fails every
      comparison; that the product with [-1] is the negation, exactly
      ([float_mul_minus_one]), and that the negation is an involution;
      that [<=] is total on the numbers and transitive, so that the
      order of [np.sort] is a total preorder on binary64.
    - [Rounding]: the rounding of binary64 on the integers.  [located
      N D mrs] says that the record [mrs] the rounding works on holds
      the integer part of [N / D] and the position of the rest against
      one half; every shift keeps it with a doubled scale; so
      [binary_round_aux_spec]: the result of a rounding is never NaN,
      has the sign it was given, is a number of the format and lies
      within half a unit in the last place of [N / D], or is the
      infinity when a number of the format that near is beyond the
      largest.  The operands of the product, the aligned sum and the
      quotient are located values.
    - [RealLemmas]: sums of lists of reals and the steps by which
      rounding errors compose.
    - [FloatError]: the value [SF2R] of a float as a real number and the
      standard model of the four operations on the specification's
      floats ([op_result]): a finite result is within [2 ^ -prec]
      times the exact one, plus [2 ^ (emin - 1)] for a product or a
      quotient that falls below the normal range; sums and differences
      are exact there; a result that is not finite comes from operands
      that are not or from an exact result at the edge of the format.
    - [Reconstructor]: the object state [HipparcosLogProb] (a record of
      the attributes [__init__] sets), the interface [Collaborators] of
      the external services (Vizier, [np.loadtxt], astropy [Time], the
      ephemeris) with the shapes they promise ([CollaboratorsOk]), the
      constructor [init] (lines 30-92) as [load] (lines 30-72, itself
      [load_catalog] followed by [load_iad]) followed by
      [reconstruct] (lines 74-92), the invariant [wf] (all per-epoch
      arrays have the same length), and the view of an object as a list
      of scans ([Scan], [scans], [with_scans]).  [init_spec]: once the
      collaborators have answered the constructor does not fail, the
      object is well formed and every abscissa point is the formula
      [abscissa] of its scan.  The failures of the construction: a star
      the catalogue does not know, a file that cannot be read, arrays
      of different lengths.
    - [Evaluator]: [compute_lnprob] (lines 94-208) as the source writes
      it: the rows read (lines 134-138), the parameter-count dispatch
      [orbit_rows] (lines 139-155), the body of the epoch loop
      [epoch_dist] ([alpha_C_st], [delta_C], [add_perturbation] through
      the interface [OrbitModel], [scan_distance]), the reduction
      [chi2_of], the prior [apply_prior] and the flag [apply_negative];
      the theorems on the error paths and on the flag, which hold for
      every instance of [Scalar], primitive floats included.
    - [Loop]: the epoch loop as the interpreter runs it: a machine whose
      state is the counter [i] and the matrix [dist] that [np.empty]
      preallocated (of arbitrary contents), and whose step runs the body
      for epoch [i] and assigns row [i] or stops at the exception
      ([loop_step], executable as [loop_next] and [loop_run]).  The
      invariant [loop_inv] (rows below [i] computed, rows from [i] on
      untouched), its preservation, termination in at most [n_epochs]
      steps, and the equivalence of the machine with the functional
      loop [py_mapM] that [Evaluator] uses ([lnprob_body_loop_spec]).
    - [Reference]: the scalar evaluator [lnprob_candidate] of one
      candidate, and the theorems that the batched code computes it entry
      by entry, for five parameters ([compute_lnprob_batch_5]) and for
      thirteen ([compute_lnprob_batch_13], against a Kepler solver that
      treats the orbits of a batch independently, [OrbitPointwise]); the
      prior, the length of the result, the independence of the
      candidates ([compute_lnprob_app], [compute_lnprob_app_13]) and
      the empty batch follow.
    - [Ideal]: the specification over an ordered field ([kresidual],
      [kchi2], [klnprob], [kabscissa], [kposition]) and the theorem that
      the program, run in [ext K] on finite data, computes it
      ([compute_lnprob_ideal_5], and [compute_lnprob_ideal_13] with a
      companion).  Consequences: the reconstructed object
      scores the catalogue solution with minus half the sum of the
      squared measured residuals ([catalogue_solution_lnprob]), no result
      is positive, the result is zero exactly for a perfect fit, the flag
      is a negation, and a companion without mass changes nothing
      ([compute_lnprob_massless]).
    - [RealModel]: the instance of [OrderedField] on the real numbers
      with the true sine and cosine, and the formulas of the method in
      the notation of the reals ([spec_alpha_C], [spec_delta_C],
      [spec_dist], [spec_chi2], [spec_lnprob]); [compute_lnprob_real]:
      on finite real data the program computes them.
    - [Signs]: what the operations do to the sign, as the interface
      [SignLaws] (a square and a sum of squares are not negative, their
      product with [-0.5] is not positive, NaN being both), the theorem
      that no entry [compute_lnprob] returns is a positive number, proved
      against the interface for every object and every batch, and the
      two instances: binary64, from the lemmas of [Binary64], and
      exact arithmetic.  On binary64 the flag [negative] is an exact
      negation ([compute_lnprob_negative_binary64]).
    - [Nan]: the interface [NanLaws] (NaN passes through the
      operations and fails [<=]), its instances on binary64 and on
      [ext K], and the theorems that a candidate whose parallax is NaN
      is scored NaN, with or without a companion, and so is a candidate
      whose mass ratio [-m1 / mtot] is NaN
      ([compute_lnprob_nan_mass_ratio]).
    - [Zeros]: the sign of zero.  [eqz], equality up to the sign of
      zero, is an equivalence that the operations between the position
      and the distance respect and the absolute value forgets
      (interface [ZeroLaws], with [Proper] instances; binary64 from the
      IEEE specification, and exact arithmetic).  With it a companion
      without mass changes no score, on binary64 bit for bit
      ([compute_lnprob_massless_any]).
    - [Frame]: what the method reads of the object.  [series self] is
      the object with the attributes the method does not read reset;
      [same_series], equality of the series, is an equivalence that
      [compute_lnprob] respects ([Proper] instances), so that an object
      can be rewritten under the method ([compute_lnprob_frame]).
    - [Ranks]: arrays of rank zero and one where the program expects
      rank one and two.  [np_squeeze] is what [np.loadtxt] makes of the
      data rows (a matrix, a vector for a single row or a single
      column, a number); [init_any] is the constructor on a file of any
      rank ([load_point] is lines 57-72 on a vector, with the services
      [PointCollaborators] called with a number), [compute_lnprob_any]
      the method on a matrix or a vector of parameters and on an object
      whose per-epoch attributes are arrays ([Series]) or numbers
      ([Single]), with the [TypeError] of [len] of a number.  On a
      table of two rows or more [init_any] is [init]
      ([init_any_series]).
    - [Shapes]: the relation between two runs of the program on data of
      the same shapes, possibly on two instances of the arithmetic
      ([same_len], [py_rel], [same_shape]); every array operation and
      every step of the program respects it, so the exception raised
      and the shape returned are functions of the shapes of the data,
      and in the method of the mask of the non-positive parallaxes
      ([compute_lnprob_shape_only], [reconstruct_rel]).
    - [Broadcast]: NumPy's broadcasting rule on a list of lengths
      ([compatible], [joint], [broadcast_all]), which a chain of array
      operations follows whatever its bracketing; the reconstruction
      run on lengths ([reconstruct_lengths]), related to the program
      by [py_rel], and with it the complete characterisation of the
      failures of the reconstruction ([reconstruct_accepts]).
    - [Accepts]: the same for the method on five rows: the body of the
      epoch loop run on lengths ([epoch_dist_lengths]), and the
      exception or the length of the result as a function of the
      lengths of the rows, for an object the constructor built
      ([compute_lnprob_accepts]).  An operand of one entry behaves as
      the operand that repeats it, but the prior does not broadcast
      ([compute_lnprob_shared_parallax]).  On an object whose Earth
      positions are fewer than its epochs the method raises
      [IndexError] ([compute_lnprob_short_ephemeris]).
    - [Order]: the sums of the specification respect the permutations
      of the scans ([Proper] instances for [≡ₚ]), and so does the
      program in exact arithmetic: the constructor followed by the
      method gives the same scores for the scans in any order
      ([compute_lnprob_scan_order]).
    - [Projection]: the residual of a scan as a difference of
      projections on the scan direction ([along]); [same_view], the
      candidates that the scans and the prior cannot tell apart, is an
      equivalence that the method respects in exact arithmetic
      ([compute_lnprob_same_view]).
    - [Accuracy]: the rounding error of the method, against the
      interface [RoundingModel] (a value map into the reals, the unit
      roundoff [fl_u], the underflow threshold [fl_eta] and the
      standard model of each operation on results [np.isfinite]
      accepts).  With [g n = (1 + u) ^ n - 1]: the abscissa point
      the constructor stores is accurate to [g 4] times the sizes of
      its terms ([abscissa_error]), the expected position
      ([position_error]) and the distance from the scan line
      ([distance_error]) to [g 3] times theirs; chi-square to
      [g (n + 2)] times itself for [n] scans ([chi2_of_error]), in
      whatever order the terms are added
      ([sums_to], [chi2_terms_any_order]); the score to half of that
      and one rounding ([lnprob_candidate_error],
      [compute_lnprob_error], [compute_lnprob_error_13] with a
      companion).  The stages compose ([residual_error],
      [compute_lnprob_spec_error]): the score against minus half the
      chi-square of Eqs 6-8 on the real values of the inputs, with the
      errors of the positions carried through the distance and the
      square by their sensitivities ([quotient_slack]).
    - [Roundoff]: the instances of [RoundingModel]: binary64, with
      [fl_u = 2 ^ -53] and [fl_eta = 2 ^ -1075], from [FloatError] and
      the specification of the kernel's floats, and the exact reals,
      with both zero, where every bound becomes an equation
      ([chi2_of_exact]).  In figures ([chi2_of_binary64]): up to 1022
      scans, chi-square has a relative error below [2 ^ -42].
    - [Range]: when the results are finite.  The interface
      [NoOverflow]: an operation on finite operands returns a finite
      result when the exact result, rounded, stays below [fl_max];
      discharged for binary64 with [2 ^ 1024].  The accumulation of
      [np_sum], the chi-square and the score of a candidate are finite
      as long as the quotients of the distances by the uncertainties
      are bounded ([lnprob_candidate_finite]); on binary64, for
      distances below [2 ^ 250] and uncertainties of at least
      [2 ^ -250], tests on the exponents of the floats ([tame]), the
      score is finite and accurate to [2 ^ -42]
      ([compute_lnprob_binary64]).
    - [Pipeline]: the constructor followed by the method ([fit]), as
      the script composes them.  The constructor establishes what the
      theorems of the method assume (a well-formed object with a scan),
      so they hold of the program from the answers of the
      collaborators on: [fit_accepts], [fit_batch_5], [fit_batch_13].
    - [Script]: the [__main__] block (lines 211-300) in the monad [io]
      of a state (the random generator), an exception and an output (the
      list of [Event]s: [print], [plt.subplots], [hist], [set_xlabel],
      [legend], [plt.savefig], with their arguments).  What the script
      reads from outside (pandas, [compute_sep], [np.random.normal]) is
      the interface [ScriptServices]; [draw_samples] is lines 217-248,
      [score_and_plot] lines 250-300, [main] the whole block.  The
      triple [io_spec] (every event written satisfies a predicate, the
      result satisfies another, whether the run ends or raises) and the
      predicate [io_writes] (the run ends and writes exactly these
      events) carry the theorems: [main_outcome] (what the script does in
      every case), [draw_samples_spec],
      [main_no_usage_error], the bounds of the indices of the best
      orbits, that they are the best for any instance whose [<=] is a
      total preorder on the numbers and hold every NaN
      ([best_orbit_indices_best], [best_orbit_indices_nan]), and what
      the fifth panel plots.
    - [Fixtures]: in-memory collaborators on binary64 ([Fix64]), the
      end-to-end scenario of the specification ([Scenario]), services
      for the script ([FixScript]), exact data on [Qc] ([FixQ]); the
      theorems above applied to them, and the runs that show what the
      code does where the specification is silent.
    - [Figures]: the theorems of [Accuracy], [Roundoff] and [Range]
      applied to the binary64 object of [Fixtures], and a run outside
      the range, where chi-square overflows.

    ** Conventions

    Python values: a 1-D [ndarray] of floats is a [list F]; the 2-D
    [samples] matrix is the list of its rows; a Python exception is
    [Raise e]; [print(...); return] is the value [RetNone msg].  The
    order of the binds in a definition is Python's evaluation order, so
    that the exception a definition raises is the one the interpreter
    raises first.

    Numbers: every definition that models code is generic in the instance
    of [Scalar].  Theorems about shapes, errors, masking and batching hold
    for all instances; theorems about the value of chi-square are stated
    in exact arithmetic ([Exact.ext]), where the field laws hold, over
    any ordered field and in particular over the reals.  On binary64
    the sign of the result, the exactness of the negation, the
    propagation of NaN and the indifference to a companion without
    mass are proved for all inputs ([Binary64], [Signs], [Nan],
    [Zeros]), and the failures are those of exact arithmetic ([Shapes]).
    The size of the rounding error is bounded in [Accuracy] for every
    result that is finite: the hypothesis is on what the program
    computed ([np.isfinite] of the result), never on intermediate
    values, whose finiteness follows.  The real number a binary64 value
    stands for is [Roundoff.B2R]; the bounds are a priori, in terms of
    the number of scans.  The values of [np.sin] and [np.cos] enter as
    the floats they returned: nothing is assumed of their accuracy.

    Bounds chosen: the figures of [Roundoff] and [Range] are stated
    for at most 1022 scans, so that [n + 2 <= 1024] roundings
    accumulate and [(n + 2) * 2 ^ -53 <= 2 ^ -43]; the Hipparcos mission
    observed a star at most a few hundred times.  The general bound
    [chi2_bound] has no such limit.  The range [2 ^ 250] for the
    distances and [2 ^ -250] for the uncertainties, both in
    milliarcseconds, leaves the squares of the quotients below
    [2 ^ 1006] and the sum of 1022 of them below [2 ^ 1024]; it is far
    wider than any measurement.

    Termination: the two loops of the program run over [np.arange] of a
    length and are [py_mapM] over [seq 0 n]; every definition is
    structurally recursive and total.  The only fuel is that of
    [Loop.loop_run], which is given [n_epochs]: [loop_terminates] shows
    that the machine is stuck, with its result, after at most that many
    steps, so the fuel is always enough.

    State and output: within [compute_lnprob] the only mutable object is
    [dist], modelled in [Loop]; the object [self] is not written after
    the constructor.  In the script the random generator is global
    state, threaded through every call that draws from it, and the
    output is the list of events in the order of the calls.

    ** What the theorems show about the code

    - A batch of fewer than five rows raises [IndexError] before the check
      of the number of parameters is reached; with five rows or more that
      are neither five nor thirteen the message is printed and nothing is
      computed.
    - Every object the constructor returns is well formed and has a
      scan, so the method scores every non-empty batch of rows of one
      length against it.
    - An empty batch raises [AxisError] in the reduction, and rows of
      different lengths raise [ValueError] in the first pass of the
      loop, unless the rows that differ from the first have one entry;
      on an object the constructor built nothing else fails with five
      rows.
    - The constructor does not check that the scan vectors have length
      one: the reconstruction succeeds or fails by the shapes of the
      attributes alone, and it fails, with [ValueError], exactly when
      two of the lengths that meet in an attribute differ and neither
      is one.  So it accepts an ephemeris of a single position for
      several scans, which NumPy broadcasts; the method then raises
      [IndexError] at the first epoch that has no position, whatever
      the candidates.
    - A row of parallaxes of one entry is broadcast to the candidates
      in the epoch loop and masked at its first position only: with a
      shared parallax that is not positive every candidate but the
      first keeps a finite score.
    - A file with a single data row gives an object the constructor
      accepts and the method cannot score, and a single candidate
      passed as a vector raises [TypeError]: both fail at [len] of a
      number.
    - The method reads the reconstructed series only; the catalogue
      values and the measured residuals enter a score through the
      abscissa points and in no other way.
    - Whether the method raises, and what, does not depend on rounding,
      overflow or NaN: a run on binary64 fails exactly when the run in
      exact arithmetic on data of the same shapes and parallax signs
      fails.
    - In exact arithmetic the scores do not depend on the order of the
      scans; on binary64 they do, in the last bits
      ([Fixtures.scan_order_binary64]).
    - A score depends on a candidate only through the projections of
      its predicted positions on the scan directions: a motion across
      every scan is not seen.
    - On binary64 no score is a positive number, whatever the data:
      overflow gives minus infinity or NaN, never a wrong sign; and the
      flag [negative] changes the sign bit of every entry and nothing
      else.
    - On binary64 a finite chi-square is the real sum of the squared
      quotients of the distances by the uncertainties up to a relative
      error of [2 ^ -42] (for up to 1022 scans) and a multiple of the
      smallest positive number, in whatever order [np.sum] adds; the
      score is minus half of it up to one more rounding.  The
      distances themselves are accurate relative to the sizes of the
      terms of Eq 6 and Eq 8, not to their difference: the residual of
      a candidate close to the observations is a cancellation.
    - The score of a candidate of positive parallax overflows to minus
      infinity, the value of the prior, only outside that range
      ([Figures.overflow_scores_minus_infinity]).
    - In exact arithmetic a score of zero is a perfect fit; on
      binary64 a residual below [2^-538] squares to zero, and a
      candidate that misses every scan by so little gets the perfect
      score ([Fixtures.zero_score_binary64]).
    - The prior does not catch a NaN parallax: such a candidate is
      scored NaN on every object with a scan.  A companion without
      mass yields NaN when the total mass is zero as well, because the
      ratio [0 / 0] is NaN whatever the Kepler solver answers.
    - A companion without mass in a system whose total mass is a number
      other than zero leaves every score as the five-parameter fit
      gives it, on binary64 bit for bit, provided the offsets of the
      Kepler solver are finite.
    - The script always calls [compute_lnprob] with thirteen rows, so the
      message of the parameter count is never printed; once the object
      is built and the candidates are drawn it runs to the end and
      writes the figure, unless no candidate was drawn: then it stops
      with [AxisError] after its message.  Before that, nothing is
      written.
    - The ranking takes every candidate whose score is NaN before any
      candidate whose score is a number,
      and the fifth panel, labelled with the offset in right ascension,
      plots the offsets in declination.

    ** Not modelled

    The internals of the collaborators (Vizier, astropy, orbitize's
    Kepler solver and [compute_sep], pandas, the random generator, which
    appear as interfaces), what matplotlib draws for a call (the calls
    and their arguments are modelled, the figure is not), the order
    [argsort] gives to equal entries with the default, unstable, kind
    (the model is a merge sort; no theorem depends on the order of
    ties), the conversion [int(1e5)] (the count is the number 100000),
    NumPy's pairwise summation order (the sum is a left fold: in exact
    arithmetic the order is immaterial, on binary64 a sum of eight
    terms or more can differ from NumPy's in the last bits, within the
    bound of [Accuracy.chi2_terms_any_order], which holds for every
    order; the runs of [Fixtures] have fewer than eight scans),
    the accuracy of [np.sin], [np.cos] and [np.radians] and of the
    Kepler solver (their results are inputs of the bounds: the
    parallax factors and the companion's offsets enter the real
    formulas as the values of the floats that were computed),
    arrays of rank three or more, and the parsing of the data file
    ([np.loadtxt] is given by the rows it reads). *)

From Stdlib Require Export String.
From stdpp Require Export base list strings.

(** ** Python exceptions and the exception monad *)

Inductive pyerr : Type :=
| IndexError
| ValueError
| AxisError
| AttributeError
| TypeError
| ExternalError (msg : string).

#[export] Instance pyerr_eq_dec : EqDecision pyerr.
Proof. solve_decision. Defined.

Inductive py (A : Type) : Type :=
| Ok (a : A)
| Raise (e : pyerr).

Arguments Ok {A} a.
Arguments Raise {A} e.

Definition py_bind {A B} (m : py A) (k : A -> py B) : py B :=
  match m with
  | Ok a => k a
  | Raise e => Raise e
  end.

Definition py_map {A B} (f : A -> B) (m : py A) : py B :=
  py_bind m (fun a => Ok (f a)).

Declare Scope py_scope.
Delimit Scope py_scope with py.
Notation "x <- m ;; k" := (py_bind m (fun x => k))
  (at level 100, m at next level, right associativity) : py_scope.
Open Scope py_scope.

Definition is_ok {A} (m : py A) : bool :=
  match m with Ok _ => true | Raise _ => false end.

(** [l[i]]: indexing a sequence with a non-negative index. *)
Definition getitem {A} (l : list A) (i : nat) : py A :=
  match l !! i with
  | Some x => Ok x
  | None => Raise IndexError
  end.

(** A [for] loop (or comprehension) whose body may raise: the results
    of the iterations in order, or the first exception. *)
Fixpoint py_mapM {A B} (f : A -> py B) (l : list A) : py (list B) :=
  match l with
  | [] => Ok []
  | x :: l' => y <- f x ;; ys <- py_mapM f l' ;; Ok (y :: ys)
  end.

(** ** Tactics and hint databases *)

Create HintDb py discriminated.
Create Rewrite HintDb shape.
Create Rewrite HintDb pyrw.

(** [py_inv H]: case analysis on the first bind of a hypothesis
    [x <- m ;; k = Ok r]. *)
Ltac py_inv H :=
  match type of H with
  | py_bind ?m _ = Ok _ =>
      let E := fresh "E" in
      destruct m eqn:E; simpl in H; [| discriminate H]
  end.

(** [case_ok]: case analysis on the computation an innermost bind of
    the goal waits for. *)
Ltac case_ok :=
  match goal with
  | |- context [py_bind ?m _] =>
      lazymatch m with
      | py_bind _ _ => fail
      | _ => let E := fresh "E" in destruct m eqn:E; simpl
      end
  end.

(** ** Laws of the monad *)

Section PyLaws.
Context {A B C : Type}.

Lemma py_bind_ok (a : A) (k : A -> py B) : py_bind (Ok a) k = k a.
Proof. reflexivity. Qed.

Lemma py_bind_raise e (k : A -> py B) : py_bind (Raise e) k = Raise e.
Proof. reflexivity. Qed.

Lemma py_bind_ret (m : py A) : py_bind m Ok = m.
Proof. by destruct m. Qed.

Lemma py_bind_assoc (m : py A) (k : A -> py B) (h : B -> py C) :
  py_bind (py_bind m k) h = py_bind m (fun a => py_bind (k a) h).
Proof. by destruct m. Qed.

Lemma py_bind_ok_inv (m : py A) (k : A -> py B) r :
  py_bind m k = Ok r <-> exists a, m = Ok a /\ k a = Ok r.
Proof.
  destruct m as [a|e]; simpl; split.
- intros H. by exists a.
- by intros (a' & [= <-] & H).
- discriminate.
- by intros (a' & [=] & _).
Qed.

Lemma py_bind_ext (m : py A) (k k' : A -> py B) :
  (forall a, m = Ok a -> k a = k' a) -> py_bind m k = py_bind m k'.
Proof. destruct m; simpl; auto. Qed.

Lemma py_map_ok (f : A -> B) a : py_map f (Ok a) = Ok (f a).
Proof. reflexivity. Qed.

Lemma py_map_raise (f : A -> B) e : py_map f (Raise e) = Raise e.
Proof. reflexivity. Qed.
End PyLaws.

#[export] Hint Rewrite @py_bind_ok @py_bind_raise @py_map_ok @py_map_raise : pyrw.

(** ** Indexing *)

Section Getitem.
Context {A : Type}.
Implicit Types (l : list A) (i : nat).

Lemma getitem_ok l i x : l !! i = Some x -> getitem l i = Ok x.
Proof. unfold getitem. by intros ->. Qed.

Lemma getitem_ok_iff l i x : getitem l i = Ok x <-> l !! i = Some x.
Proof. unfold getitem. destruct (l !! i); naive_solver. Qed.

Lemma getitem_raise l i : length l <= i -> getitem l i = Raise IndexError.
Proof. intros H. unfold getitem. by rewrite lookup_ge_None_2. Qed.

Lemma getitem_raise_iff l i e :
  getitem l i = Raise e <-> e = IndexError /\ length l <= i.
Proof.
  unfold getitem. destruct (l !! i) eqn:E.
  - apply lookup_lt_Some in E. split; [done | lia].
  - apply lookup_ge_None in E. split; [by intros [= <-] | by intros [-> _]].
Qed.

Lemma getitem_lt l i : i < length l -> exists x, getitem l i = Ok x.
Proof.
  intros H. destruct (lookup_lt_is_Some_2 l i H) as [x Hx].
  exists x. by apply getitem_ok.
Qed.

Lemma getitem_map {B} (f : A -> B) l i :
  getitem (f <$> l) i = py_map f (getitem l i).
Proof. unfold getitem. rewrite list_lookup_fmap. by destruct (l !! i). Qed.
End Getitem.

(** ** Loops *)

Section MapM.
Context {A B : Type}.
Implicit Types (f : A -> py B) (l : list A).

Lemma py_mapM_ok_iff f l r :
  py_mapM f l = Ok r <-> Forall2 (fun x y => f x = Ok y) l r.
Proof.
  revert r. induction l as [|x l IH]; intros r; simpl.
  - split; [intros [= <-]; constructor | by inversion 1].
  - split.
    + intros H. py_inv H. py_inv H. injection H as <-.
      constructor; [done | by apply IH].
    + inversion 1 as [|? y ? r' Hx Hl]; subst.
      rewrite Hx. simpl. apply IH in Hl. by rewrite Hl.
Qed.

Lemma py_mapM_length f l r : py_mapM f l = Ok r -> length r = length l.
Proof.
  rewrite py_mapM_ok_iff. intros H. symmetry. by eapply Forall2_length.
Qed.

Lemma py_mapM_lookup f l r i x :
  py_mapM f l = Ok r -> l !! i = Some x ->
  exists y, r !! i = Some y /\ f x = Ok y.
Proof.
  rewrite py_mapM_ok_iff. intros H Hx.
  destruct (Forall2_lookup_l _ _ _ _ _ H Hx) as (y & Hy & Hf). eauto.
Qed.

Lemma py_mapM_lookup_r f l r i y :
  py_mapM f l = Ok r -> r !! i = Some y ->
  exists x, l !! i = Some x /\ f x = Ok y.
Proof.
  rewrite py_mapM_ok_iff. intros H Hy.
  destruct (Forall2_lookup_r _ _ _ _ _ H Hy) as (x & Hx & Hf). eauto.
Qed.

(** What holds of every result of the body holds of every element of
    the result of the loop. *)
Lemma py_mapM_Forall (P : B -> Prop) f l r :
  py_mapM f l = Ok r -> (forall x y, f x = Ok y -> P y) -> Forall P r.
Proof.
  rewrite py_mapM_ok_iff. intros H HP.
  induction H; constructor; eauto.
Qed.

(** A loop whose body never raises on the elements it visits. *)
Lemma py_mapM_pure f (g : A -> B) l :
  Forall (fun x => f x = Ok (g x)) l -> py_mapM f l = Ok (g <$> l).
Proof.
  induction 1 as [|x l Hx _ IH]; simpl; [done |].
  by rewrite Hx, IH.
Qed.

(** The loop raises the exception of the first iteration that does. *)
Lemma py_mapM_raise f l1 x l2 e r1 :
  py_mapM f l1 = Ok r1 -> f x = Raise e ->
  py_mapM f (l1 ++ x :: l2) = Raise e.
Proof.
  revert r1. induction l1 as [|y l1 IH]; intros r1 H1 Hx; simpl.
  - by rewrite Hx.
  - simpl in H1. py_inv H1. py_inv H1. erewrite IH; eauto.
Qed.

Lemma py_mapM_snoc f l x :
  py_mapM f (l ++ [x])
  = (r <- py_mapM f l ;; y <- f x ;; Ok (r ++ [y])).
Proof.
  induction l as [|z l IH]; simpl; [by destruct (f x) |].
  destruct (f z); simpl; [| done]. rewrite IH.
  destruct (py_mapM f l); simpl; [| done]. by destruct (f x).
Qed.

(** A loop over the indices of a list whose body only reads the
    element at its index is a loop over the list. *)
Lemma py_mapM_seq_lookup (body : nat -> py B) f l j :
  (forall i x, l !! i = Some x -> body (j + i) = f x) ->
  py_mapM body (seq j (length l)) = py_mapM f l.
Proof.
  revert j. induction l as [|x l IH]; intros j Hb; simpl; [done |].
  rewrite <- (Hb 0 x), Nat.add_0_r by done.
  rewrite (IH (S j)); [done |].
  intros i y Hy. rewrite <- (Hb (S i) y) by done. f_equal. lia.
Qed.

Lemma py_mapM_fmap {D} f (h : D -> A) (l : list D) :
  py_mapM f (h <$> l) = py_mapM (fun d => f (h d)) l.
Proof. induction l as [|d l IH]; csimpl; [done |]. by rewrite IH. Qed.

Lemma py_mapM_ext f f' l :
  Forall (fun x => f x = f' x) l -> py_mapM f l = py_mapM f' l.
Proof.
  induction 1 as [|x l Hx _ IH]; simpl; [done |].
  by rewrite Hx, IH.
Qed.
End MapM.

(** ** Lists *)

Section Lists.
Context {A B C : Type}.

Lemma zip_with_const_r (f : A -> B -> C) (l : list A) (y : B) :
  zip_with f l (replicate (length l) y) = (fun x => f x y) <$> l.
Proof. induction l; simpl; by f_equal. Qed.

Lemma zip_with_const_l (f : A -> B -> C) (x : A) (k : list B) :
  zip_with f (replicate (length k) x) k = f x <$> k.
Proof. induction k; simpl; by f_equal. Qed.

Lemma zip_with_fmap_same {D} (f : A -> B -> C) (g : D -> A) (h : D -> B)
    (l : list D) :
  zip_with f (g <$> l) (h <$> l) = (fun x => f (g x) (h x)) <$> l.
Proof. induction l; simpl; by f_equal. Qed.

Lemma Forall_seq (P : nat -> Prop) (j n : nat) :
  Forall P (seq j n) <-> forall i, j <= i < j + n -> P i.
Proof.
  rewrite Forall_forall. setoid_rewrite elem_of_seq. naive_solver.
Qed.

Lemma fmap_seq_lookup (l : list A) (d : A) :
  (fun i => default d (l !! i)) <$> seq 0 (length l) = l.
Proof.
  apply list_eq. intros i. rewrite list_lookup_fmap.
  destruct (decide (i < length l)) as [Hi|Hi].
  - rewrite lookup_seq_lt by done. simpl.
    destruct (lookup_lt_is_Some_2 l i Hi) as [x Hx]. by rewrite Hx.
  - rewrite lookup_seq_ge, lookup_ge_None_2 by lia. done.
Qed.
Lemma fmap_seq_lookup_total `{Inhabited A} (l : list A) n :
  n = length l -> (fun i => l !!! i) <$> seq 0 n = l.
Proof.
  intros ->. rewrite <- (fmap_seq_lookup l inhabitant) at 2.
  apply list_fmap_ext. intros i j _. apply list_lookup_total_alt.
Qed.

Lemma lookup_total_fmap_Some `{Inhabited B} (g : A -> B) (l : list A) i d :
  l !! i = Some d -> (g <$> l) !!! i = g d.
Proof.
  intros Hd. apply list_lookup_total_correct. by rewrite list_lookup_fmap, Hd.
Qed.

End Lists.
