(* ===== verification/Scalar.v ===== *)
(** * Scalar: the floating-point interface of the program

    [compute_chi2.py] computes with NumPy [float64] values.  Every
    definition of this development that models code is written against
    the interface [Scalar] below, which lists the scalar operations the
    source uses and nothing else; [Trig] lists the three NumPy functions
    it calls on the catalogue angles.  The instance [binary64] interprets
    the interface with the kernel's primitive IEEE-754 binary64 floats;
    the instance of exact arithmetic is in [Exact]. *)

From Stdlib Require Import ZArith QArith.
From Stdlib Require Import PrimFloat.
From Stdlib Require Uint63.
From S2P Require Import Prelude.

(** ** The interface *)

Class Scalar (F : Type) : Type := {
  flit : Q -> F;          (* a numeric literal of the source, e.g. [1991.25] *)
  fadd : F -> F -> F;     (* [x + y] *)
  fsub : F -> F -> F;     (* [x - y] *)
  fmul : F -> F -> F;     (* [x * y] *)
  fdiv : F -> F -> F;     (* [x / y]; NumPy does not raise on a zero divisor *)
  fneg : F -> F;          (* [-x] *)
  fabs : F -> F;          (* [np.abs(x)] *)
  fle : F -> F -> bool;   (* [x <= y] *)
  finf : F                (* [np.inf] *)
}.

Class Trig (F : Type) : Type := {
  np_sin : F -> F;
  np_cos : F -> F;
  np_radians : F -> F
}.

Declare Scope F_scope.
Delimit Scope F_scope with F.
Notation "x + y" := (fadd x y) : F_scope.
Notation "x - y" := (fsub x y) : F_scope.
Notation "x * y" := (fmul x y) : F_scope.
Notation "x / y" := (fdiv x y) : F_scope.
Notation "- x" := (fneg x) : F_scope.
Notation "x <=? y" := (fle x y) : F_scope.

(** [x ** 2]: NumPy evaluates a power with the scalar exponent 2 as
    [np.square], i.e. as the product of [x] with itself. *)
Definition fsquare {F} `{Scalar F} (x : F) : F := fmul x x.

(** Total list lookups need a default; it is never read in range. *)
#[export] Instance Scalar_inhabited {F} `{Scalar F} : Inhabited F | 100 :=
  populate (flit 0).

(** ** IEEE-754 binary64 *)

(** The integer [z] as a float; exact for [|z| < 2^53]. *)
Definition float_of_Z (z : Z) : PrimFloat.float :=
  match z with
  | Z0 => PrimFloat.zero
  | Zpos _ => PrimFloat.of_uint63 (Uint63.of_Z z)
  | Zneg p => PrimFloat.opp (PrimFloat.of_uint63 (Uint63.of_Z (Zpos p)))
  end.

(** A literal denotes the float nearest to the rational it spells.  The
    quotient of two exactly represented integers is correctly rounded,
    so this is that float whenever numerator and denominator are below
    [2^53], which holds for the literals of the source. *)
Definition float_of_Q (q : Q) : PrimFloat.float :=
  PrimFloat.div (float_of_Z (Qnum q)) (float_of_Z (Zpos (Qden q))).

#[export] Instance binary64 : Scalar PrimFloat.float := {
  flit := float_of_Q;
  fadd := PrimFloat.add;
  fsub := PrimFloat.sub;
  fmul := PrimFloat.mul;
  fdiv := PrimFloat.div;
  fneg := PrimFloat.opp;
  fabs := PrimFloat.abs;
  fle := PrimFloat.leb;
  finf := PrimFloat.infinity
}.

(** ** The literals of the source, as binary64 values *)

Lemma binary64_lit_1991_25 : flit 1991.25 = 1991.25%float.
Proof. vm_compute. reflexivity. Qed.

Lemma binary64_lit_minus_half : flit (-0.5) = (-0.5)%float.
Proof. vm_compute. reflexivity. Qed.

Lemma binary64_lit_minus_one : flit (-1) = (-1)%float.
Proof. vm_compute. reflexivity. Qed.

Lemma binary64_lit_zero : flit 0 = 0%float.
Proof. vm_compute. reflexivity. Qed.

(** [nan <= 0] is false: a NaN parallax is not caught by the prior. *)
Lemma binary64_nan_not_le_0 : fle PrimFloat.nan (float_of_Q 0) = false.
Proof. vm_compute. reflexivity. Qed.

Lemma binary64_neg_inf : fneg finf = PrimFloat.neg_infinity.
Proof. vm_compute. reflexivity. Qed.

(** Minus zero counts as non-positive. *)
Lemma binary64_neg_zero_le_0 : fle (fneg (flit 0)) (flit 0) = true.
Proof. vm_compute. reflexivity. Qed.
