(* ===== verification/NumPy.v ===== *)
(** * NumPy: the array operations the program calls

    A one-dimensional [ndarray] of floats is a list.  The operations
    below are the ones [compute_chi2.py] applies to arrays, with the
    shape rules NumPy applies to one-dimensional operands: a binary
    operation accepts operands of equal length or broadcasts an operand
    of length one, and raises [ValueError] otherwise; an augmented
    assignment cannot grow its target; indexing out of range raises
    [IndexError]; [np.sum(..., axis=1)] of an empty list raises
    [AxisError].  Each operation comes with the lemma that gives its
    result on well-shaped operands and the lemma that says when it
    raises. *)

From Stdlib Require Import QArith.
From S2P Require Import Prelude Scalar.

Create Rewrite HintDb batch.

Section NumPy.
Context {F : Type} `{Scalar F}.
Implicit Types (a b v : list F) (f : F -> F -> F) (s x : F).

(** ** Elementwise operations *)

(** [a op b] on two one-dimensional arrays. *)
Definition np_binop f a b : py (list F) :=
  if decide (length a = length b) then Ok (zip_with f a b)
  else match a, b with
       | [x], _ => Ok (f x <$> b)
       | _, [y] => Ok ((fun x => f x y) <$> a)
       | _, _ => Raise ValueError
       end.

(** [a op= b]: the result has the shape of [a]. *)
Definition np_ibinop f a b : py (list F) :=
  if decide (length a = length b) then Ok (zip_with f a b)
  else match b with
       | [y] => Ok ((fun x => f x y) <$> a)
       | _ => Raise ValueError
       end.

(** [a op s] and [s op a] with a scalar [s]. *)
Definition np_rscalar f a s : list F := (fun x => f x s) <$> a.
Definition np_lscalar f s a : list F := f s <$> a.

Definition np_add := np_binop fadd.
Definition np_sub := np_binop fsub.
Definition np_mul := np_binop fmul.
Definition np_div := np_binop fdiv.
Definition np_iadd := np_ibinop fadd.
Definition np_imul := np_ibinop fmul.
Definition np_neg a : list F := fneg <$> a.
Definition np_abs a : list F := fabs <$> a.
Definition np_square a : list F := fsquare <$> a.

(** [a <= s]: the boolean mask. *)
Definition np_le_scalar a s : list bool := (fun x => fle x s) <$> a.

(** ** Two-dimensional storage: a matrix is the list of its rows *)

(** [m[i, :] = v] for a matrix of [n] columns: the row that is stored. *)
Definition np_setrow (n : nat) v : py (list F) :=
  if decide (length v = n) then Ok v
  else match v with
       | [x] => Ok (replicate n x)
       | _ => Raise ValueError
       end.

(** [m[:, j]] for a matrix [m] of [n] columns. *)
Definition np_column (n : nat) (m : list (list F)) (j : nat) : py (list F) :=
  if decide (j < n) then py_mapM (fun row => getitem row j) m
  else Raise IndexError.

(** [np.transpose(m)] for a matrix [m] of [n] columns. *)
Definition np_transpose (n : nat) (m : list (list F)) : list (list F) :=
  foldr (zip_with cons) (replicate n []) m.

(** ** Reductions *)

(** The sum of a one-dimensional array, accumulated from its first
    element; the sum of the empty array is zero. *)
Definition np_sum a : F :=
  match a with
  | [] => flit 0
  | x :: a' => foldl fadd x a'
  end.

(** [np.sum(arrays, axis=1)] for a Python list of one-dimensional
    arrays: the list becomes a matrix, which needs rows of one length,
    and an empty list has no second axis. *)
Definition np_sum_axis1 (arrays : list (list F)) : py (list F) :=
  match arrays with
  | [] => Raise AxisError
  | r :: _ =>
      if decide (Forall (fun r' => length r' = length r) arrays)
      then Ok (np_sum <$> arrays)
      else Raise ValueError
  end.

(** ** Index arrays *)

(** [np.where(mask)[0]]: the indices at which the mask holds. *)
Fixpoint np_where_from (i : nat) (mask : list bool) : list nat :=
  match mask with
  | [] => []
  | c :: mask' =>
      (if c then [i] else []) ++ np_where_from (S i) mask'
  end.

Definition np_where (mask : list bool) : list nat := np_where_from 0 mask.

(** [a[idx] = x] for an index array [idx]. *)
Fixpoint np_put a (idx : list nat) x : py (list F) :=
  match idx with
  | [] => Ok a
  | i :: idx' =>
      if decide (i < length a) then np_put (<[i := x]> a) idx' x
      else Raise IndexError
  end.

(** The elementwise meaning of a masked assignment. *)
Definition mask_select (mask : list bool) a x : list F :=
  zip_with (fun (c : bool) y => if c then x else y) mask a.

(** ** What the operations return *)

Lemma np_binop_same f a b :
  length a = length b -> np_binop f a b = Ok (zip_with f a b).
Proof. intros Hl. unfold np_binop. by rewrite decide_True. Qed.

Lemma np_binop_raise f a b :
  length a <> length b -> length a <> 1 -> length b <> 1 ->
  np_binop f a b = Raise ValueError.
Proof.
  intros Hab Ha Hb. unfold np_binop. rewrite decide_False by done.
  destruct a as [|? [|? ?]], b as [|? [|? ?]]; simpl in *; done.
Qed.

(** An operand of length one takes the length of the other, also when
    that is zero. *)
Lemma np_binop_length f a b r :
  np_binop f a b = Ok r ->
  length r = if decide (length a = 1) then length b else length a.
Proof.
  unfold np_binop. case_decide as Hl.
  - intros [= <-]. rewrite length_zip_with. case_decide; lia.
  - destruct a as [|x [|? ?]], b as [|y [|? ?]]; simpl in *;
      intros [= <-]; simpl; rewrite ?length_fmap; simpl; done.
Qed.

Lemma np_ibinop_same f a b :
  length a = length b -> np_ibinop f a b = Ok (zip_with f a b).
Proof. intros Hl. unfold np_ibinop. by rewrite decide_True. Qed.

Lemma np_ibinop_length f a b r :
  np_ibinop f a b = Ok r -> length r = length a.
Proof.
  unfold np_ibinop. case_decide as Hl.
  - intros [= <-]. rewrite length_zip_with. lia.
  - destruct b as [|y [|? ?]]; intros [= <-]. by rewrite length_fmap.
Qed.

Lemma np_ibinop_raise f a b :
  length a <> length b -> length b <> 1 -> np_ibinop f a b = Raise ValueError.
Proof.
  intros Hab Hb. unfold np_ibinop. rewrite decide_False by done.
  by destruct b as [|? [|? ?]].
Qed.

Lemma np_rscalar_length f a s : length (np_rscalar f a s) = length a.
Proof. apply length_fmap. Qed.

Lemma np_lscalar_length f s a : length (np_lscalar f s a) = length a.
Proof. apply length_fmap. Qed.

Lemma np_abs_length a : length (np_abs a) = length a.
Proof. apply length_fmap. Qed.

Lemma np_setrow_same n v : length v = n -> np_setrow n v = Ok v.
Proof. intros Hl. unfold np_setrow. by rewrite decide_True. Qed.

Lemma np_setrow_length n v r : np_setrow n v = Ok r -> length r = n.
Proof.
  unfold np_setrow. case_decide as Hl; [by intros [= <-] |].
  destruct v as [|x [|? ?]]; intros [= <-]. apply length_replicate.
Qed.

(** A column of a matrix whose rows all have [n] entries. *)
Lemma np_column_ok n (m : list (list F)) j d :
  Forall (fun row => length row = n) m -> j < n ->
  np_column n m j = Ok ((fun row => default d (row !! j)) <$> m).
Proof.
  intros Hm Hj. unfold np_column. rewrite decide_True by done.
  apply py_mapM_pure. eapply Forall_impl; [exact Hm |].
  intros row Hrow. simpl in *.
  destruct (lookup_lt_is_Some_2 row j) as [x Hx]; [lia |].
  rewrite (getitem_ok _ _ _ Hx). by rewrite Hx.
Qed.

Lemma np_sum_axis1_empty : np_sum_axis1 [] = Raise AxisError.
Proof. reflexivity. Qed.

Lemma np_sum_axis1_ok (arrays : list (list F)) k :
  arrays <> [] -> Forall (fun r => length r = k) arrays ->
  np_sum_axis1 arrays = Ok (np_sum <$> arrays).
Proof.
  intros Hne Hk. destruct arrays as [|r rest]; [done |]. simpl.
  rewrite decide_True; [done |].
  assert (length r = k) as -> by (by inversion Hk). done.
Qed.

Lemma np_sum_axis1_length (arrays : list (list F)) r :
  np_sum_axis1 arrays = Ok r -> length r = length arrays.
Proof.
  destruct arrays as [|r0 rest]; [done |]. simpl.
  case_decide; [| done]. intros [= <-]. simpl. by rewrite length_fmap.
Qed.

Lemma np_sum_axis1_inv (arrays : list (list F)) r :
  np_sum_axis1 arrays = Ok r -> r = np_sum <$> arrays.
Proof.
  destruct arrays as [|r0 rest]; [done |]. simpl.
  case_decide; [| done]. by intros [= <-].
Qed.

Lemma np_sum_snoc a x : a <> [] -> np_sum (a ++ [x]) = fadd (np_sum a) x.
Proof.
  destruct a as [|y a]; [done |]. intros _. simpl. by rewrite foldl_app.
Qed.

(** ** Masked assignment *)

Lemma np_where_from_bound i mask j :
  j ∈ np_where_from i mask -> i <= j < i + length mask.
Proof.
  revert i. induction mask as [|c mask IH]; intros i; simpl.
  - by intros ?%elem_of_nil.
  - rewrite elem_of_app. intros [Hj|Hj].
    + destruct c; [apply list_elem_of_singleton in Hj; lia |].
      by apply elem_of_nil in Hj.
    + apply IH in Hj. lia.
Qed.

(** An assignment through an index array keeps what holds of the
    entries and of the value assigned. *)
Lemma np_put_Forall (P : F -> Prop) a idx x r :
  np_put a idx x = Ok r -> Forall P a -> P x -> Forall P r.
Proof.
  revert a. induction idx as [|i idx IH]; intros a; simpl.
  - by intros [= <-].
  - case_decide; [| done]. intros Hr Ha Hx.
    apply (IH _ Hr); [| done]. by apply Forall_insert.
Qed.

(** Assigning [x] at the indices of a mask, behind a prefix the mask
    does not reach. *)
Lemma np_put_where_from (pre : list F) mask a x :
  length mask = length a ->
  np_put (pre ++ a) (np_where_from (length pre) mask) x
  = Ok (pre ++ mask_select mask a x).
Proof.
  revert pre a. induction mask as [|c mask IH]; intros pre [|y a] Hl;
    try done.
  injection Hl as Hl.
  specialize (IH (pre ++ [if c then x else y]) a Hl).
  rewrite length_app, Nat.add_1_r in IH. simpl in IH.
  rewrite <- !(assoc_L (++)) in IH. simpl in IH.
  destruct c; simpl; [| done].
  rewrite decide_True by (rewrite length_app; simpl; lia).
  replace (<[length pre:=x]> (pre ++ y :: a)) with (pre ++ x :: a); [done |].
  rewrite insert_app_r_alt, Nat.sub_diag by lia. done.
Qed.

(** [a[np.where(mask)[0]] = x] replaces exactly the masked entries. *)
Lemma np_put_where mask a x :
  length mask = length a ->
  np_put a (np_where mask) x = Ok (mask_select mask a x).
Proof. intros Hl. by apply (np_put_where_from [] mask a x). Qed.

Lemma mask_select_length mask a x :
  length mask = length a -> length (mask_select mask a x) = length a.
Proof. intros Hl. unfold mask_select. rewrite length_zip_with. lia. Qed.

Lemma mask_select_lookup mask a x j (c : bool) y :
  mask !! j = Some c -> a !! j = Some y ->
  mask_select mask a x !! j = Some (if c then x else y).
Proof.
  intros Hc Hy. unfold mask_select. by rewrite lookup_zip_with, Hc, Hy.
Qed.

(** ** Transposition *)

Lemma np_transpose_length n (m : list (list F)) :
  Forall (fun row => length row = n) m -> length (np_transpose n m) = n.
Proof.
  induction 1 as [|row m Hrow _ IH]; simpl.
  - apply length_replicate.
  - rewrite length_zip_with. lia.
Qed.

Lemma np_transpose_rows n (m : list (list F)) :
  Forall (fun row => length row = n) m ->
  Forall (fun col => length col = length m) (np_transpose n m).
Proof.
  induction 1 as [|row m Hrow Hm IH]; simpl.
  - apply Forall_forall. by intros col ->%elem_of_replicate_inv.
  - apply Forall_forall. intros col Hcol.
    apply elem_of_lookup_zip_with in Hcol as (i & x & c & -> & Hx & Hc).
    simpl. f_equal. rewrite Forall_forall in IH. apply IH.
    by eapply list_elem_of_lookup_2.
Qed.

Lemma np_transpose_lookup n (m : list (list F)) i j row x :
  Forall (fun row => length row = n) m ->
  m !! i = Some row -> row !! j = Some x ->
  exists col, np_transpose n m !! j = Some col /\ col !! i = Some x.
Proof.
  intros Hm. revert i. induction Hm as [|row0 m Hrow0 Hm IH]; intros i Hi Hj.
  - done.
  - assert (Hjn : j < n).
    { apply lookup_lt_Some in Hj.
      destruct i; simplify_eq/=; [lia |].
      rewrite Forall_forall in Hm.
      rewrite (Hm row) in Hj; [lia | by eapply list_elem_of_lookup_2]. }
    destruct (lookup_lt_is_Some_2 (np_transpose n m) j) as [c Hc].
    { by rewrite np_transpose_length. }
    destruct (lookup_lt_is_Some_2 row0 j) as [x0 Hx0]; [lia |].
    exists (x0 :: c). simpl. fold (np_transpose n m).
    rewrite lookup_zip_with, Hx0, Hc. simpl. split; [done |].
    destruct i as [|i]; simplify_eq/=; [done |].
    destruct (IH i Hi Hj) as (c' & Hc' & Hx). by simplify_eq.
Qed.

(** ** Arrays that are columns of one table

    When the operands of an array expression are all computed from the
    entries of one list [l] (the candidates of a batch, the scans of a
    star), every operation is a map over [l]. *)

Section Batched.
Context {D : Type}.
Implicit Types (g h : D -> F) (l : list D).

Lemma np_binop_fmap f g h l :
  np_binop f (g <$> l) (h <$> l) = Ok ((fun d => f (g d) (h d)) <$> l).
Proof.
  rewrite np_binop_same by (by rewrite !length_fmap).
  by rewrite zip_with_fmap_same.
Qed.

Lemma np_ibinop_fmap f g h l :
  np_ibinop f (g <$> l) (h <$> l) = Ok ((fun d => f (g d) (h d)) <$> l).
Proof.
  rewrite np_ibinop_same by (by rewrite !length_fmap).
  by rewrite zip_with_fmap_same.
Qed.

Lemma np_rscalar_fmap f g l s :
  np_rscalar f (g <$> l) s = (fun d => f (g d) s) <$> l.
Proof. unfold np_rscalar. by rewrite <- list_fmap_compose. Qed.

Lemma np_lscalar_fmap f s g l :
  np_lscalar f s (g <$> l) = (fun d => f s (g d)) <$> l.
Proof. unfold np_lscalar. by rewrite <- list_fmap_compose. Qed.

Lemma np_neg_fmap g l : np_neg (g <$> l) = (fun d => fneg (g d)) <$> l.
Proof. unfold np_neg. by rewrite <- list_fmap_compose. Qed.

Lemma np_abs_fmap g l : np_abs (g <$> l) = (fun d => fabs (g d)) <$> l.
Proof. unfold np_abs. by rewrite <- list_fmap_compose. Qed.

Lemma np_square_fmap g l :
  np_square (g <$> l) = (fun d => fsquare (g d)) <$> l.
Proof. unfold np_square. by rewrite <- list_fmap_compose. Qed.

Lemma np_le_scalar_fmap g l s :
  np_le_scalar (g <$> l) s = (fun d => fle (g d) s) <$> l.
Proof. unfold np_le_scalar. by rewrite <- list_fmap_compose. Qed.

Lemma np_setrow_fmap g l : np_setrow (length l) (g <$> l) = Ok (g <$> l).
Proof. apply np_setrow_same, length_fmap. Qed.

Lemma getitem_fmap_lookup g l i d :
  l !! i = Some d -> getitem (g <$> l) i = Ok (g d).
Proof. intros Hd. apply getitem_ok. by rewrite list_lookup_fmap, Hd. Qed.

(** Column [j] of the matrix whose row for [e] is [k e] mapped over [l]. *)
Lemma np_column_fmap {E} (k : E -> D -> F) (rows : list E) l j d :
  l !! j = Some d ->
  np_column (length l) ((fun e => k e <$> l) <$> rows) j
  = Ok ((fun e => k e d) <$> rows).
Proof.
  intros Hd. unfold np_column.
  rewrite decide_True by (by eapply lookup_lt_Some).
  rewrite py_mapM_fmap. apply py_mapM_pure, Forall_forall.
  intros e _. by apply getitem_fmap_lookup.
Qed.

Lemma np_sum_axis1_fmap {E} (k : D -> E -> F) (cols : list E) l :
  l <> [] ->
  np_sum_axis1 ((fun d => k d <$> cols) <$> l)
  = Ok ((fun d => np_sum (k d <$> cols)) <$> l).
Proof.
  intros Hl. rewrite (np_sum_axis1_ok _ (length cols)).
  - by rewrite <- list_fmap_compose.
  - by destruct l.
  - apply Forall_fmap, Forall_forall. intros d _. simpl. apply length_fmap.
Qed.

(** The masked assignment of the entries of [g <$> l] selected by a
    test on the entries of [l]. *)
Lemma np_put_where_fmap (c : D -> bool) g l x :
  np_put (g <$> l) (np_where (c <$> l)) x
  = Ok ((fun d => if c d then x else g d) <$> l).
Proof.
  rewrite np_put_where by (by rewrite !length_fmap).
  unfold mask_select. by rewrite zip_with_fmap_same.
Qed.

End Batched.

End NumPy.

#[export] Hint Rewrite @np_binop_fmap @np_ibinop_fmap @np_rscalar_fmap
  @np_lscalar_fmap @np_neg_fmap @np_abs_fmap @np_square_fmap
  @np_le_scalar_fmap @np_setrow_fmap @np_put_where_fmap
  @py_bind_ok : batch.

(** [batch]: evaluate an array expression whose operands are columns
    of one table. *)
Ltac batch :=
  unfold np_add, np_sub, np_mul, np_div, np_iadd, np_imul;
  repeat (progress (autorewrite with batch; cbn [fst snd])).

#[export] Hint Rewrite @np_rscalar_length @np_lscalar_length @np_abs_length
  @length_zip_with @length_fmap @length_replicate @length_seq : shape.
