(* ===== verification/Exact.v ===== *)
(** * Exact: exact arithmetic as an instance of the scalar interface

    The formulas of [compute_chi2.py] are identities of real arithmetic;
    binary64 only approximates them.  This file gives the instance of
    [Scalar] in which they hold exactly: [ext K], an ordered field [K]
    extended with the two infinities and NaN, with IEEE-754's rules for
    the special values and no rounding.  [OrderedField] is the interface
    of [K] (operations and laws); the facts about squares, sums and
    absolute values that the chi-square theorems need are proved once
    against it.  [Qc], the canonical rationals, is the executable
    instance. *)

From Stdlib Require Import ZArith QArith Qcanon Field.
From S2P Require Import Prelude Scalar NumPy.

(** ** Ordered fields *)

Class FieldOps (K : Type) : Type := {
  kzero : K;
  kone : K;
  kadd : K -> K -> K;
  kmul : K -> K -> K;
  ksub : K -> K -> K;
  kopp : K -> K;
  kdiv : K -> K -> K;
  kinv : K -> K;
  kleb : K -> K -> bool
}.

Declare Scope K_scope.
Delimit Scope K_scope with K.
Notation "0" := kzero : K_scope.
Notation "1" := kone : K_scope.
Notation "x + y" := (kadd x y) : K_scope.
Notation "x * y" := (kmul x y) : K_scope.
Notation "x - y" := (ksub x y) : K_scope.
Notation "- x" := (kopp x) : K_scope.
Notation "x / y" := (kdiv x y) : K_scope.
Notation "x <=? y" := (kleb x y) : K_scope.

Definition kle {K} `{FieldOps K} (x y : K) : Prop := kleb x y = true.
Notation "x <= y" := (kle x y) : K_scope.

Class OrderedField (K : Type) `{FieldOps K} : Prop := {
  K_field : field_theory kzero kone kadd kmul ksub kopp kdiv kinv eq;
  kle_total : forall x y : K, (x <= y)%K \/ (y <= x)%K;
  kle_antisym : forall x y : K, (x <= y)%K -> (y <= x)%K -> x = y;
  kle_trans : forall x y z : K, (x <= y)%K -> (y <= z)%K -> (x <= z)%K;
  kle_add_r : forall x y z : K, (x <= y)%K -> (x + z <= y + z)%K;
  kle_mul_nonneg : forall x y : K, (0 <= x)%K -> (0 <= y)%K -> (0 <= x * y)%K
}.

(** Derived operations. *)

Definition kabs {K} `{FieldOps K} (x : K) : K :=
  if (0 <=? x)%K then x else (- x)%K.

Definition keqb {K} `{FieldOps K} (x y : K) : bool :=
  (x <=? y)%K && (y <=? x)%K.

Fixpoint k_of_pos {K} `{FieldOps K} (p : positive) : K :=
  match p with
  | xH => 1%K
  | xO p' => ((1 + 1) * k_of_pos p')%K
  | xI p' => (1 + (1 + 1) * k_of_pos p')%K
  end.

Definition k_of_Z {K} `{FieldOps K} (z : Z) : K :=
  match z with
  | Z0 => 0%K
  | Zpos p => k_of_pos p
  | Zneg p => (- k_of_pos p)%K
  end.

(** The value a decimal literal denotes. *)
Definition k_of_Q {K} `{FieldOps K} (q : Q) : K :=
  (k_of_Z (Qnum q) / k_of_pos (Qden q))%K.

(** ** The extension with infinities and NaN *)

Inductive ext (K : Type) : Type :=
| Fin (x : K)
| PInf
| NInf
| NaN.

Arguments Fin {K} x.
Arguments PInf {K}.
Arguments NInf {K}.
Arguments NaN {K}.

Section ExtOps.
Context {K : Type} `{FieldOps K}.

(** The sign of a finite value decides the product or quotient with an
    infinity; zero times infinity is NaN. *)
Definition ext_signed (pos : ext K) (neg : ext K) (x : K) : ext K :=
  if keqb x 0%K then NaN else if (0 <=? x)%K then pos else neg.

Definition ext_neg (a : ext K) : ext K :=
  match a with
  | Fin x => Fin (- x)%K
  | PInf => NInf
  | NInf => PInf
  | NaN => NaN
  end.

Definition ext_add (a b : ext K) : ext K :=
  match a, b with
  | Fin x, Fin y => Fin (x + y)%K
  | NaN, _ | _, NaN => NaN
  | PInf, NInf | NInf, PInf => NaN
  | PInf, _ | _, PInf => PInf
  | NInf, _ | _, NInf => NInf
  end.

Definition ext_sub (a b : ext K) : ext K :=
  match a, b with
  | Fin x, Fin y => Fin (x - y)%K
  | _, _ => ext_add a (ext_neg b)
  end.

Definition ext_mul (a b : ext K) : ext K :=
  match a, b with
  | Fin x, Fin y => Fin (x * y)%K
  | NaN, _ | _, NaN => NaN
  | PInf, PInf | NInf, NInf => PInf
  | PInf, NInf | NInf, PInf => NInf
  | PInf, Fin x | Fin x, PInf => ext_signed PInf NInf x
  | NInf, Fin x | Fin x, NInf => ext_signed NInf PInf x
  end.

(** Division by a finite zero gives an infinity of the sign of the
    numerator (the zero of [K] stands for IEEE's [+0]), and NaN for
    [0 / 0]. *)
Definition ext_div (a b : ext K) : ext K :=
  match a, b with
  | Fin x, Fin y =>
      if keqb y 0%K then ext_signed PInf NInf x else Fin (x / y)%K
  | NaN, _ | _, NaN => NaN
  | Fin _, (PInf | NInf) => Fin 0%K
  | (PInf | NInf), (PInf | NInf) => NaN
  | PInf, Fin y => if (0 <=? y)%K then PInf else NInf
  | NInf, Fin y => if (0 <=? y)%K then NInf else PInf
  end.

Definition ext_abs (a : ext K) : ext K :=
  match a with
  | Fin x => Fin (kabs x)
  | PInf | NInf => PInf
  | NaN => NaN
  end.

Definition ext_le (a b : ext K) : bool :=
  match a, b with
  | Fin x, Fin y => (x <=? y)%K
  | NaN, _ | _, NaN => false
  | NInf, _ | _, PInf => true
  | _, _ => false
  end.

#[export] Instance ext_scalar : Scalar (ext K) := {
  flit q := Fin (k_of_Q q);
  fadd := ext_add;
  fsub := ext_sub;
  fmul := ext_mul;
  fdiv := ext_div;
  fneg := ext_neg;
  fabs := ext_abs;
  fle := ext_le;
  finf := PInf
}.

Definition is_fin (a : ext K) : bool :=
  match a with Fin _ => true | _ => false end.

End ExtOps.

(** The trigonometric functions of the field, as far as the program
    needs them: three functions, of which no property is used. *)
Class KTrig (K : Type) : Type := {
  ksin : K -> K;
  kcos : K -> K;
  kradians : K -> K
}.

(** Their extension: finite at finite arguments, NaN elsewhere. *)
Definition ext_lift {K} (f : K -> K) (a : ext K) : ext K :=
  match a with
  | Fin x => Fin (f x)
  | _ => NaN
  end.

#[export] Instance ext_trig {K} `{KTrig K} : Trig (ext K) := {
  np_sin := ext_lift ksin;
  np_cos := ext_lift kcos;
  np_radians := ext_lift kradians
}.

(** The sum of a list in the field. *)
Definition ksum {K} `{FieldOps K} (xs : list K) : K := foldr kadd 0%K xs.

(** ** Facts of ordered fields *)

Section OrderedFieldFacts.
Context {K : Type} `{OrderedField K}.
Add Field Kfield : K_field.
Local Open Scope K_scope.
Implicit Types x y z : K.

Lemma kle_refl x : x <= x.
Proof. by destruct (kle_total x x). Qed.

Lemma kle_add_l x y z : x <= y -> z + x <= z + y.
Proof.
  intros Hxy. replace (z + x) with (x + z) by ring.
  replace (z + y) with (y + z) by ring. by apply kle_add_r.
Qed.

Lemma kle_opp_nonneg x : x <= 0 -> 0 <= - x.
Proof.
  intros Hx. apply (kle_add_r _ _ (- x)) in Hx.
  replace (x + - x) with 0 in Hx by ring.
  by replace (0 + - x) with (- x) in Hx by ring.
Qed.

Lemma kle_opp_nonpos x : 0 <= x -> - x <= 0.
Proof.
  intros Hx. apply (kle_add_r _ _ (- x)) in Hx.
  replace (x + - x) with 0 in Hx by ring.
  by replace (0 + - x) with (- x) in Hx by ring.
Qed.

Lemma ksquare_nonneg x : 0 <= x * x.
Proof.
  destruct (kle_total 0 x) as [Hx|Hx].
  - by apply kle_mul_nonneg.
  - replace (x * x) with (- x * - x) by ring.
    apply kle_mul_nonneg; by apply kle_opp_nonneg.
Qed.

Lemma kadd_nonneg x y : 0 <= x -> 0 <= y -> 0 <= x + y.
Proof.
  intros Hx Hy. apply kle_trans with y; [done |].
  replace y with (0 + y) at 1 by ring. by apply kle_add_r.
Qed.

Lemma kadd_nonneg_eq_0 x y : 0 <= x -> 0 <= y -> x + y = 0 -> x = 0 /\ y = 0.
Proof.
  intros Hx Hy Hxy. split; apply kle_antisym; try done.
  - rewrite <- Hxy. replace x with (x + 0) at 1 by ring. by apply kle_add_l.
  - rewrite <- Hxy. replace y with (0 + y) at 1 by ring. by apply kle_add_r.
Qed.

Lemma keqb_eq x y : keqb x y = true <-> x = y.
Proof.
  unfold keqb. rewrite andb_true_iff. split.
  - intros [? ?]. by apply kle_antisym.
  - intros ->. split; apply kle_refl.
Qed.

Lemma keqb_neq x y : keqb x y = false <-> x <> y.
Proof.
  rewrite <- keqb_eq. destruct (keqb x y); split; congruence.
Qed.

Lemma kmul_eq_0 x y : x * y = 0 -> x = 0 \/ y = 0.
Proof.
  intros Hxy. destruct (keqb x 0) eqn:E.
  - left. by apply keqb_eq.
  - right. apply keqb_neq in E.
    replace y with (x * y / x) by (field; done). rewrite Hxy. by field.
Qed.

Lemma ksquare_eq_0 x : x * x = 0 -> x = 0.
Proof. intros Hx. by destruct (kmul_eq_0 _ _ Hx). Qed.

Lemma kdiv_eq_0 x y : y <> 0 -> x / y = 0 -> x = 0.
Proof.
  intros Hy Hxy. replace x with (x / y * y) by (field; done).
  rewrite Hxy. ring.
Qed.

Lemma kabs_nonneg x : 0 <= kabs x.
Proof.
  unfold kabs. destruct (0 <=? x) eqn:E; [done |].
  apply kle_opp_nonneg. destruct (kle_total 0 x) as [Hx|Hx]; [| done].
  unfold kle in Hx. congruence.
Qed.

Lemma kabs_square x : kabs x * kabs x = x * x.
Proof. unfold kabs. destruct (0 <=? x); ring. Qed.

Lemma kabs_eq_0 x : kabs x = 0 <-> x = 0.
Proof.
  unfold kabs. destruct (0 <=? x) eqn:E; [done |]. split.
  - intros Hx. replace x with (- - x) by ring. rewrite Hx. ring.
  - intros ->. ring.
Qed.

Lemma kabs_of_nonneg x : 0 <= x -> kabs x = x.
Proof. unfold kabs, kle. by intros ->. Qed.

Lemma kabs_opp x : kabs (- x) = kabs x.
Proof.
  unfold kabs. destruct (0 <=? x) eqn:Ex, (0 <=? - x) eqn:Eo; try ring.
  - apply kle_opp_nonpos in Eo. replace (- - x) with x in Eo by ring.
    assert (x = 0) as -> by (by apply kle_antisym). ring.
  - destruct (kle_total 0 x) as [Hx|Hx]; [unfold kle in Hx; congruence |].
    apply kle_opp_nonneg in Hx. unfold kle in Hx. congruence.
Qed.

Lemma k_01 : (0 : K) <= 1.
Proof. replace 1 with (1 * 1 : K) by ring. apply ksquare_nonneg. Qed.

Lemma k_1_neq_0 : (1 : K) <> 0.
Proof. apply (F_1_neq_0 K_field). Qed.

Lemma k_of_pos_pos p : 0 <= k_of_pos p /\ k_of_pos p <> 0.
Proof.
  assert (Hstep : forall x, 0 <= x -> x <> 0 -> 0 <= 1 + x /\ 1 + x <> 0).
  { intros x Hx Hne. split; [apply kadd_nonneg; [apply k_01 | done] |].
    intros H1. apply (kadd_nonneg_eq_0 1 x) in H1 as [H1 _];
      [by apply k_1_neq_0 | apply k_01 | done]. }
  assert (Htwo : (0 : K) <= 1 + 1 /\ (1 + 1 : K) <> 0).
  { apply Hstep; [apply k_01 | apply k_1_neq_0]. }
  assert (Hdbl : forall x, 0 <= x -> x <> 0 ->
                   0 <= (1 + 1) * x /\ (1 + 1) * x <> 0).
  { intros x Hx Hne. split; [apply kle_mul_nonneg; [apply Htwo | done] |].
    intros Hm. apply kmul_eq_0 in Hm as [Hm|Hm]; [by apply Htwo | done]. }
  induction p as [p [IH1 IH2]|p [IH1 IH2]|]; simpl.
  - apply Hstep; by apply Hdbl.
  - by apply Hdbl.
  - split; [apply k_01 | apply k_1_neq_0].
Qed.

Lemma kdiv_nonneg x y : 0 <= x -> 0 <= y -> y <> 0 -> 0 <= x / y.
Proof.
  intros Hx Hy Hne.
  replace (x / y) with (x * y * (1 / y * (1 / y))) by (field; done).
  apply kle_mul_nonneg; [by apply kle_mul_nonneg | apply ksquare_nonneg].
Qed.

(** *** Literals *)

Lemma k_of_Q_0 : k_of_Q 0 = (0 : K).
Proof. unfold k_of_Q. simpl. field. apply k_1_neq_0. Qed.

Lemma k_of_Q_nonpos q : (Qnum q <= 0)%Z -> k_of_Q q <= 0.
Proof.
  intros Hq. unfold k_of_Q.
  destruct (k_of_pos_pos (Qden q)) as [Hd Hdne].
  destruct (Qnum q) as [|p|p]; simpl; [| lia |].
  - replace (0 / k_of_pos (Qden q)) with (0 : K) by (field; done).
    apply kle_refl.
  - destruct (k_of_pos_pos p) as [Hp _].
    replace (- k_of_pos p / k_of_pos (Qden q))
      with (- (k_of_pos p / k_of_pos (Qden q))) by (field; done).
    apply kle_opp_nonpos. by apply kdiv_nonneg.
Qed.

Lemma k_of_Q_neq_0 q : Qnum q <> 0%Z -> k_of_Q q <> (0 : K).
Proof.
  intros Hq Hz. unfold k_of_Q in Hz.
  apply kdiv_eq_0 in Hz; [| apply k_of_pos_pos].
  destruct (Qnum q) as [|p|p]; simpl in Hz; [done | |].
  - by apply (k_of_pos_pos p).
  - apply (proj2 (k_of_pos_pos p)).
    replace (k_of_pos p) with (- - k_of_pos p) by ring. rewrite Hz. ring.
Qed.

Lemma k_of_Q_minus_one x : k_of_Q (-1) * x = - x.
Proof. unfold k_of_Q. simpl. field. apply k_1_neq_0. Qed.

Lemma kmul_nonpos_nonneg x y : x <= 0 -> 0 <= y -> x * y <= 0.
Proof.
  intros Hx Hy. replace (x * y) with (- (- x * y)) by ring.
  apply kle_opp_nonpos, kle_mul_nonneg; [by apply kle_opp_nonneg | done].
Qed.

(** *** Sums *)

Lemma ksum_nonneg (xs : list K) : Forall (fun x => 0 <= x) xs -> 0 <= ksum xs.
Proof.
  induction 1 as [|x xs Hx _ IH]; simpl; [apply kle_refl |].
  by apply kadd_nonneg.
Qed.

Lemma ksum_nonneg_eq_0 (xs : list K) :
  Forall (fun x => 0 <= x) xs -> ksum xs = 0 -> Forall (fun x => x = 0) xs.
Proof.
  induction 1 as [|x xs Hx Hxs IH]; simpl; [constructor |].
  intros Hsum.
  apply kadd_nonneg_eq_0 in Hsum as [-> Hsum];
    [| done | by apply ksum_nonneg].
  constructor; [done | by apply IH].
Qed.

Lemma ksum_all_0 (xs : list K) : Forall (fun x => x = 0) xs -> ksum xs = 0.
Proof.
  induction 1 as [|x xs -> _ IH]; simpl; [done |]. rewrite IH. ring.
Qed.

Lemma foldl_kadd (x : K) (xs : list K) : foldl kadd x xs = x + ksum xs.
Proof.
  revert x. induction xs as [|y xs IH]; intros x; simpl; [ring |].
  rewrite IH. ring.
Qed.

(** *** The extension at finite values *)

Lemma ext_div_fin x y : y <> 0 -> ext_div (Fin x) (Fin y) = Fin (x / y).
Proof. intros Hy. simpl. apply keqb_neq in Hy. by rewrite Hy. Qed.

(** A sum of finite values is the finite sum. *)
Lemma np_sum_fin {D} (g : D -> K) (l : list D) :
  np_sum ((fun d => Fin (g d)) <$> l) = Fin (ksum (g <$> l)).
Proof.
  destruct l as [|d l]; simpl; [by rewrite k_of_Q_0 |].
  f_equal. rewrite <- foldl_kadd. generalize (g d). clear d.
  induction l as [|d l IH]; intros x; simpl; [done |]. apply IH.
Qed.

End OrderedFieldFacts.

(** ** The canonical rationals *)

#[export] Instance Qc_ops : FieldOps Qc := {
  kzero := Q2Qc 0;
  kone := Q2Qc 1;
  kadd := Qcplus;
  kmul := Qcmult;
  ksub := Qcminus;
  kopp := Qcopp;
  kdiv := Qcdiv;
  kinv := Qcinv;
  kleb x y := Qle_bool x y
}.

Lemma Qc_kle (x y : Qc) : (x <= y)%K <-> (x <= y)%Qc.
Proof. unfold kle. simpl. apply Qle_bool_iff. Qed.

#[export] Instance Qc_ordered_field : OrderedField Qc.
Proof.
  split; try setoid_rewrite Qc_kle.
  - exact Qcft.
  - intros x y. destruct (Qclt_le_dec x y) as [Hlt|Hle]; [left | by right].
    by apply Qclt_le_weak.
  - apply Qcle_antisym.
  - apply Qcle_trans.
  - intros x y z Hxy. apply Qcplus_le_compat; [done | apply Qcle_refl].
  - intros x y Hx Hy. change (0 * y <= x * y)%Qc.
    by apply Qcmult_le_compat_r.
Qed.

(** Equations and disequations between canonical rationals, decided by
    evaluation. *)
Lemma Qc_eq_by_compute (x y : Qc) : Qeq_bool x y = true -> x = y.
Proof. intros Hxy. by apply Qc_is_canon, Qeq_bool_iff. Qed.

Lemma Qc_neq_by_compute (x y : Qc) : Qeq_bool x y = false -> x <> y.
Proof.
  intros Hxy ->. rewrite (proj2 (Qeq_bool_iff y y)) in Hxy; [done |].
  apply Qeq_refl.
Qed.
