(* ===== verification/Sorting.v ===== *)
(** * Sorting: [argsort], slices from the end and index arrays

    The script ranks the candidates with [logprobs.argsort()[-1000:]]
    and selects their parameters with an index array
    ([samples[5][best_orbit_indices]]).  [np_argsort] sorts the indices
    of an array by its values in NumPy's order, numbers by [<=] and NaN
    last.  NumPy does not promise the order of equal values (its default
    sort is not stable); the theorems use only that the result is a
    permutation of the indices sorted by value, which holds of every
    order NumPy may return. *)

From stdpp Require Import sorting.
From S2P Require Import Prelude Scalar NumPy Exact.

Section Sorting.
Context {F : Type} `{Scalar F}.
Implicit Types (a : list F) (idx : list nat).

(** [np.isnan(x)]: a NaN is the only value that is not [<=] itself. *)
Definition is_nan (x : F) : bool := negb (fle x x).

(** The order of [np.sort]: NaN after every number. *)
Definition sort_le (x y : F) : bool :=
  is_nan y || (negb (is_nan x) && fle x y).

Definition sort_rel : relation (F * nat) :=
  fun p q => Is_true (sort_le p.1 q.1).

#[export] Instance sort_rel_dec p q : Decision (sort_rel p q).
Proof. unfold sort_rel. apply _. Defined.

(** The values with their indices. *)
Definition tagged a : list (F * nat) := zip a (seq 0 (length a)).

(** [a.argsort()] *)
Definition np_argsort a : list nat := (merge_sort sort_rel (tagged a)).*2.

(** [a[-k:]] for [k > 0]: the last [k] entries, all of them when there
    are fewer. *)
Definition np_slice_last {A} (k : nat) (l : list A) : list A :=
  drop (length l - k) l.

(** [a[idx]] for an array of indices. *)
Definition np_take {A} (l : list A) idx : py (list A) :=
  py_mapM (getitem l) idx.

(** [np.array(rows)] for a list of one-dimensional arrays: they must
    have one length (NumPy 1.24 and later raise [ValueError] on ragged
    rows; earlier versions built an array of objects). *)
Definition np_array (rows : list (list F)) : py (list (list F)) :=
  match rows with
  | [] => Ok []
  | r :: rs =>
      if decide (Forall (fun r' => length r' = length r) rs) then Ok rows
      else Raise ValueError
  end.

(** ** Facts *)

Lemma elem_of_tagged a x i : (x, i) ∈ tagged a <-> a !! i = Some x.
Proof.
  unfold tagged. rewrite elem_of_lookup_zip_with. split.
  - intros (j & x' & i' & [= -> ->] & Hx & Hi).
    apply lookup_seq in Hi as [-> _]. done.
  - intros Hx. exists i, x, i. repeat split; [done |].
    apply lookup_seq. split; [done |]. by eapply lookup_lt_Some.
Qed.

Lemma np_argsort_perm a : np_argsort a ≡ₚ seq 0 (length a).
Proof.
  unfold np_argsort. rewrite merge_sort_Permutation.
  unfold tagged. rewrite snd_zip; [done |]. by rewrite length_seq.
Qed.

Lemma np_argsort_length a : length (np_argsort a) = length a.
Proof. by rewrite np_argsort_perm, length_seq. Qed.

Lemma np_argsort_NoDup a : NoDup (np_argsort a).
Proof. rewrite np_argsort_perm. apply NoDup_seq. Qed.

Lemma elem_of_np_argsort a i : i ∈ np_argsort a <-> i < length a.
Proof. rewrite np_argsort_perm, elem_of_seq. lia. Qed.

Lemma np_slice_last_length {A} k (l : list A) :
  length (np_slice_last k l) = min k (length l).
Proof. unfold np_slice_last. rewrite length_drop. lia. Qed.

Lemma np_slice_last_sublist {A} k (l : list A) : np_slice_last k l `sublist_of` l.
Proof. apply sublist_drop. Qed.

Lemma elem_of_drop_1 {A} n (l : list A) x : x ∈ drop n l -> x ∈ l.
Proof.
  intros Hx. rewrite <- (take_drop n l). apply elem_of_app. by right.
Qed.

Lemma elem_of_np_slice_last {A} k (l : list A) x :
  x ∈ np_slice_last k l -> x ∈ l.
Proof. apply elem_of_drop_1. Qed.

Lemma np_take_ok {A} `{Inhabited A} (l : list A) idx :
  Forall (fun i => i < length l) idx ->
  np_take l idx = Ok ((fun i => l !!! i) <$> idx).
Proof.
  intros Hidx. apply py_mapM_pure. eapply Forall_impl; [exact Hidx |].
  intros i Hi. apply getitem_ok. by apply list_lookup_lookup_total_lt.
Qed.

Lemma np_take_raise {A} (l : list A) idx1 i idx2 :
  Forall (fun j => j < length l) idx1 -> length l <= i ->
  np_take l (idx1 ++ i :: idx2) = Raise IndexError.
Proof.
  intros Hidx Hi. unfold np_take.
  destruct (py_mapM (getitem l) idx1) as [r|e] eqn:E.
  - eapply py_mapM_raise; [done |]. by apply getitem_raise.
  - exfalso. revert e E. induction Hidx as [|j idx1 Hj _ IH]; [done |].
    intros e. simpl. destruct (getitem_lt l j Hj) as [x ->]. simpl.
    destruct (py_mapM (getitem l) idx1); [done |]. intros [= <-]. eauto.
Qed.

Lemma np_array_ok (rows : list (list F)) n :
  Forall (fun r => length r = n) rows -> np_array rows = Ok rows.
Proof.
  intros Hrows. destruct Hrows as [|r rs Hr Hrs]; [done |]. simpl.
  rewrite decide_True; [done |]. eapply Forall_impl; [exact Hrs |].
  intros r' Hr'. congruence.
Qed.

Lemma np_array_inv (rows m : list (list F)) :
  np_array rows = Ok m ->
  m = rows /\ exists n, Forall (fun r => length r = n) rows.
Proof.
  destruct rows as [|r rs]; simpl.
  - intros [= <-]. split; [done |]. by exists 0.
  - destruct (decide _) as [Hrs|]; [| done]. intros [= <-].
    split; [done |]. exists (length r). by constructor.
Qed.

(** ** Sortedness, where the order is a total preorder *)

Section Sorted.
Context `{!Total sort_rel, !Transitive sort_rel}.

Lemma sorted_tagged a : StronglySorted sort_rel (merge_sort sort_rel (tagged a)).
Proof. apply StronglySorted_merge_sort; apply _. Qed.

(** Every entry outside the last [k] of the sorted indices is below
    every entry among them. *)
Lemma np_slice_last_argsort_dominates a k i j x y :
  i ∈ np_slice_last k (np_argsort a) ->
  j ∉ np_slice_last k (np_argsort a) ->
  a !! i = Some x -> a !! j = Some y ->
  sort_le y x = true.
Proof.
  unfold np_slice_last, np_argsort. rewrite length_fmap, <- fmap_drop.
  set (s := merge_sort sort_rel (tagged a)). set (m := length s - k).
  intros Hi Hj Hx Hy.
  assert (Hin : forall z l, a !! l = Some z -> (z, l) ∈ s).
  { intros z l Hz. unfold s. rewrite merge_sort_Permutation.
    by apply elem_of_tagged. }
  assert (Hxi : (x, i) ∈ drop m s).
  { apply list_elem_of_fmap in Hi as ([x' i'] & -> & Hi). simpl in *.
    assert (Hx' : (x', i') ∈ s) by (by eapply elem_of_drop_1).
    unfold s in Hx'. rewrite merge_sort_Permutation in Hx'.
    apply elem_of_tagged in Hx'. by simplify_eq. }
  assert (Hyj : (y, j) ∈ take m s).
  { specialize (Hin y j Hy). rewrite <- (take_drop m s) in Hin.
    apply elem_of_app in Hin as [Hin|Hin]; [done |].
    exfalso. apply Hj. apply list_elem_of_fmap. by exists (y, j). }
  apply Is_true_true.
  apply (StronglySorted_app_1_elem_of sort_rel (take m s) (drop m s)
           (y, j) (x, i)); [| done | done].
  rewrite take_drop. apply sorted_tagged.
Qed.

End Sorted.

End Sorting.

(** ** The order of exact arithmetic is a total preorder *)

Section ExactOrder.
Context {K : Type} `{OrderedField K}.

Lemma sort_le_ext_total (x y : ext K) :
  sort_le x y = true \/ sort_le y x = true.
Proof.
  destruct x as [x| | |], y as [y| | |]; unfold sort_le, is_nan; simpl;
    rewrite ?(kle_refl _ : (_ <=? _)%K = true); simpl; auto.
  apply kle_total.
Qed.

Lemma sort_le_ext_trans (x y z : ext K) :
  sort_le x y = true -> sort_le y z = true -> sort_le x z = true.
Proof.
  destruct x as [x| | |], y as [y| | |], z as [z| | |];
    unfold sort_le, is_nan; simpl;
    rewrite ?(kle_refl _ : (_ <=? _)%K = true); simpl; try done.
  apply kle_trans.
Qed.

#[export] Instance sort_rel_ext_total : Total (sort_rel (F := ext K)).
Proof.
  intros p q. unfold sort_rel. rewrite !Is_true_true.
  apply sort_le_ext_total.
Qed.

#[export] Instance sort_rel_ext_trans : Transitive (sort_rel (F := ext K)).
Proof.
  intros p q r. unfold sort_rel. rewrite !Is_true_true.
  apply sort_le_ext_trans.
Qed.

End ExactOrder.
