(* ===== verification/Binary64.v ===== *)
(** * Binary64: what the IEEE-754 specification says of the operations

    The instance [binary64] of [Scalar] computes with the kernel's
    primitive floats.  Their operations satisfy the executable
    specification of [SpecFloat] (the equations of [FloatAxioms]:
    [mul_spec], [add_spec], ...), which includes the rounding to
    nearest-even, the overflow to an infinity and the subnormal
    numbers.  This file derives from it the facts the theorems on
    binary64 use, for all floats:
    - signs: rounding keeps the sign, the sign of a product is the
      exclusive or of the signs, a sum of two values of one sign has
      that sign ([float_mul_sign], [float_add_sign],
      [float_square_sign]);
    - NaN: every operation of the program returns NaN on a NaN operand,
      and no comparison with NaN holds ([float_nan_add_l], ...);
    - negation: the product with [-1] is the negation, bit for bit
      ([float_mul_minus_one]), so [lnprob *= -1] changes signs and
      nothing else;
    - order: [<=] is total on the numbers and transitive, so the order
      of [np.sort], which puts NaN last, is a total preorder
      ([sort_rel_float_total], [sort_rel_float_trans]). *)

From Stdlib Require Import ZArith QArith Lia.
From Stdlib Require Import Floats SpecFloat.
From S2P Require Import Prelude Scalar NumPy Exact Sorting.

(** ** Signs *)

(** The sign bit of a float of the specification, NaN having any. *)
Definition sf_sign (b : bool) (s : spec_float) : Prop :=
  match s with
  | S754_nan => True
  | S754_zero b' | S754_infinity b' | S754_finite b' _ _ => b' = b
  end.

Definition float_sign (b : bool) (x : float) : Prop :=
  sf_sign b (Prim2SF x).

Section Signs.

(** Rounding keeps the sign it is given. *)
Lemma binary_round_aux_sign prec emax b m e l :
  sf_sign b (binary_round_aux prec emax b m e l).
Proof.
  unfold binary_round_aux.
  destruct (shr_fexp _ _ _ _ _) as [mrs' e'].
  destruct (shr_fexp _ _ _ _ _) as [mrs'' e''].
  destruct (shr_m mrs''); [done | | done].
  by destruct (Z.leb _ _).
Qed.

Lemma binary_round_sign prec emax b m e :
  sf_sign b (binary_round prec emax b m e).
Proof.
  unfold binary_round. destruct (shl_align _ _ _).
  apply binary_round_aux_sign.
Qed.

(** The sign of a product is the exclusive or of the signs. *)
Lemma SFmul_sign prec emax b1 b2 x y :
  sf_sign b1 x -> sf_sign b2 y ->
  sf_sign (xorb b1 b2) (SFmul prec emax x y).
Proof.
  destruct x, y; simpl; intros; subst; try done.
  apply binary_round_aux_sign.
Qed.

(** A sum of two values of the same sign has that sign. *)
Lemma SFadd_sign prec emax b x y :
  sf_sign b x -> sf_sign b y -> sf_sign b (SFadd prec emax x y).
Proof.
  destruct b, x as [[]|[]| |[] mx ex], y as [[]|[]| |[] my ey]; simpl;
    intros; try done; apply binary_round_sign.
Qed.

Lemma sf_sign_le_0 s :
  sf_sign true s -> s = S754_nan \/ SFleb s (S754_zero false) = true.
Proof. destruct s; simpl; intros; subst; auto. Qed.

Lemma sf_sign_ge_0 s :
  sf_sign false s -> s = S754_nan \/ SFleb (S754_zero false) s = true.
Proof. destruct s; simpl; intros; subst; auto. Qed.

Lemma float_is_nan x : Prim2SF x = S754_nan -> is_nan x = true.
Proof.
  intros Hx. unfold is_nan. simpl. by rewrite leb_spec, Hx.
Qed.

Lemma float_mul_sign b1 b2 x y :
  float_sign b1 x -> float_sign b2 y -> float_sign (xorb b1 b2) (x * y).
Proof. unfold float_sign. rewrite mul_spec. apply SFmul_sign. Qed.

Lemma float_add_sign b x y :
  float_sign b x -> float_sign b y -> float_sign b (x + y).
Proof. unfold float_sign. rewrite add_spec. apply SFadd_sign. Qed.

Lemma float_square_sign x : float_sign false (x * x).
Proof.
  unfold float_sign. rewrite mul_spec.
  destruct (Prim2SF x) as [b|b| |b m e] eqn:Hx; simpl; try done;
    try (by destruct b).
  replace false with (xorb b b) by (by destruct b).
  apply binary_round_aux_sign.
Qed.

End Signs.

(** ** NaN *)

Section NaN.
Implicit Types (x y : float) (s : spec_float).
Local Open Scope float_scope.

Lemma SFleb_refl s : s <> S754_nan -> SFleb s s = true.
Proof.
  destruct s as [[]|[]| |[] m e]; unfold SFleb; try done; simpl;
    by rewrite Z.compare_refl, Pos.compare_cont_refl.
Qed.

(** [x <= x] fails exactly for NaN. *)
Lemma float_is_nan_iff x : is_nan x = true <-> Prim2SF x = S754_nan.
Proof.
  unfold is_nan. simpl. rewrite leb_spec, negb_true_iff. split.
  - intros Hle. destruct (Prim2SF x) eqn:Hx; try done;
      by rewrite SFleb_refl in Hle.
  - by intros ->.
Qed.

Lemma float_is_nan_eq x : is_nan x = true <-> x = nan.
Proof.
  rewrite float_is_nan_iff. split; [| by intros ->].
  intros Hx. by apply Prim2SF_inj.
Qed.

Lemma float_nan_add_l x y : is_nan x = true -> is_nan (x + y) = true.
Proof. rewrite !float_is_nan_iff, add_spec. by intros ->. Qed.

Lemma float_nan_add_r x y : is_nan y = true -> is_nan (x + y) = true.
Proof.
  rewrite !float_is_nan_iff, add_spec. intros ->. by destruct (Prim2SF x).
Qed.

Lemma float_nan_sub_l x y : is_nan x = true -> is_nan (x - y) = true.
Proof. rewrite !float_is_nan_iff, sub_spec. by intros ->. Qed.

Lemma float_nan_sub_r x y : is_nan y = true -> is_nan (x - y) = true.
Proof.
  rewrite !float_is_nan_iff, sub_spec. intros ->. by destruct (Prim2SF x).
Qed.

Lemma float_nan_mul_l x y : is_nan x = true -> is_nan (x * y) = true.
Proof. rewrite !float_is_nan_iff, mul_spec. by intros ->. Qed.

Lemma float_nan_mul_r x y : is_nan y = true -> is_nan (x * y) = true.
Proof.
  rewrite !float_is_nan_iff, mul_spec. intros ->. by destruct (Prim2SF x).
Qed.

Lemma float_nan_div_l x y : is_nan x = true -> is_nan (x / y) = true.
Proof. rewrite !float_is_nan_iff, div_spec. by intros ->. Qed.

Lemma float_nan_abs x : is_nan x = true -> is_nan (abs x) = true.
Proof. rewrite !float_is_nan_iff, abs_spec. by intros ->. Qed.

Lemma float_nan_le x y : is_nan x = true -> (x <=? y)%float = false.
Proof. rewrite float_is_nan_iff, leb_spec. by intros ->. Qed.

End NaN.

(** ** Negation *)

Section Negation.
Implicit Types (x : float) (m : positive) (e : Z).

(** [-1] is the mantissa [2^52] at the exponent [-52]. *)
Lemma Prim2SF_minus_one :
  Prim2SF (-1) = S754_finite true 4503599627370496 (-52).
Proof. reflexivity. Qed.

Lemma digits2_pos_shift m :
  Zpos (digits2_pos (m * 4503599627370496))
  = (Zpos (digits2_pos m) + 52)%Z.
Proof.
  rewrite Pos.mul_comm.
  change (4503599627370496 * m)%positive with (Pos.iter xO m 52).
  cbn [Pos.iter digits2_pos]. lia.
Qed.

(** The product of the mantissas is the mantissa shifted by 52 bits;
    the first rounding step shifts it back without losing a bit. *)
Lemma shr_fexp_shift m e :
  canonical_mantissa prec emax m e = true ->
  shr_fexp prec emax (Zpos (m * 4503599627370496)) (e + -52) loc_Exact
  = ({| shr_m := Zpos m; shr_r := false; shr_s := false |}, e).
Proof.
  unfold canonical_mantissa. intros He%Z.eqb_eq.
  unfold shr_fexp. cbn [Zdigits2]. rewrite digits2_pos_shift.
  replace (Z.pos (digits2_pos m) + 52 + (e + -52))%Z
    with (Z.pos (digits2_pos m) + e)%Z by lia.
  rewrite He. replace (e - (e + -52))%Z with 52%Z by lia.
  unfold shr. f_equal; [| lia].
  rewrite Pos.mul_comm.
  change (4503599627370496 * m)%positive with (Pos.iter xO m 52).
  reflexivity.
Qed.

(** A canonical mantissa is not shifted. *)
Lemma shr_fexp_canonical m e :
  canonical_mantissa prec emax m e = true ->
  shr_fexp prec emax (Zpos m) e loc_Exact
  = ({| shr_m := Zpos m; shr_r := false; shr_s := false |}, e).
Proof.
  unfold canonical_mantissa. intros He%Z.eqb_eq.
  unfold shr_fexp. cbn [Zdigits2]. by rewrite He, Z.sub_diag.
Qed.

Lemma SFmul_minus_one (s : bool) m e :
  bounded prec emax m e = true ->
  SFmul prec emax (S754_finite s m e)
    (S754_finite true 4503599627370496 (-52))
  = S754_finite (negb s) m e.
Proof.
  unfold bounded. intros [Hc He]%andb_prop.
  cbn [SFmul]. unfold binary_round_aux.
  rewrite (shr_fexp_shift m e Hc).
  cbn [shr_m loc_of_shr_record round_nearest_even].
  rewrite (shr_fexp_canonical m e Hc). cbn [shr_m].
  rewrite He. by destruct s.
Qed.

(** [x * -1] is [-x], for every float: finite, zero, infinite or NaN. *)
Lemma float_mul_minus_one x : (x * -1)%float = (- x)%float.
Proof.
  apply Prim2SF_inj. rewrite mul_spec, opp_spec, Prim2SF_minus_one.
  pose proof (Prim2SF_valid x) as Hv.
  destruct (Prim2SF x) as [s|s| |s m e];
    [by destruct s | by destruct s | done |].
  by apply SFmul_minus_one.
Qed.

Lemma float_opp_involutive x : (- - x)%float = x.
Proof.
  apply Prim2SF_inj. rewrite !opp_spec.
  destruct (Prim2SF x); simpl; by rewrite ?negb_involutive.
Qed.

End Negation.

(** ** The order *)

Section FloatOrder.
Local Open Scope Z_scope.

(** A key that orders the floats of the specification as [<=] does:
    the class (minus infinity, negative, zero, positive, plus
    infinity), then the exponent and the mantissa, negated for the
    negative numbers. *)
Definition sf_key (s : spec_float) : Z * Z * Z :=
  match s with
  | S754_nan => (3, 0, 0)
  | S754_infinity true => (-2, 0, 0)
  | S754_infinity false => (2, 0, 0)
  | S754_zero _ => (0, 0, 0)
  | S754_finite true m e => (-1, - e, - Zpos m)
  | S754_finite false m e => (1, e, Zpos m)
  end.

Definition key_le (k1 k2 : Z * Z * Z) : Prop :=
  k1.1.1 < k2.1.1 \/
  k1.1.1 = k2.1.1 /\ (k1.1.2 < k2.1.2 \/ k1.1.2 = k2.1.2 /\ k1.2 <= k2.2).

Lemma key_le_total k1 k2 : key_le k1 k2 \/ key_le k2 k1.
Proof. unfold key_le. lia. Qed.

Lemma key_le_trans k1 k2 k3 : key_le k1 k2 -> key_le k2 k3 -> key_le k1 k3.
Proof. unfold key_le. lia. Qed.

Lemma SFleb_key s1 s2 :
  s1 <> S754_nan -> s2 <> S754_nan ->
  SFleb s1 s2 = true <-> key_le (sf_key s1) (sf_key s2).
Proof.
  intros H1 H2. unfold SFleb, key_le.
  destruct s1 as [[]|[]| |[] m1 e1], s2 as [[]|[]| |[] m2 e2];
    try done; simpl; try (split; [intros; lia | done]);
    try (split; [done | intros; lia]).
  all: rewrite Pos.compare_cont_spec; simpl.
  all: destruct (Z.compare_spec e1 e2), (Pos.compare_spec m1 m2);
    simpl; split; try done; try lia.
Qed.

Local Open Scope float_scope.

(** On binary64 [<=] is total on the numbers and transitive. *)
Lemma float_le_total (x y : float) :
  is_nan x = false -> is_nan y = false ->
  (x <=? y) = true \/ (y <=? x) = true.
Proof.
  intros Hx Hy. rewrite !leb_spec.
  assert (Prim2SF x <> S754_nan) as Hx'
    by (intros E; apply float_is_nan_iff in E; congruence).
  assert (Prim2SF y <> S754_nan) as Hy'
    by (intros E; apply float_is_nan_iff in E; congruence).
  rewrite !SFleb_key by done. apply key_le_total.
Qed.

Lemma float_le_not_nan (x y : float) :
  (x <=? y) = true -> Prim2SF x <> S754_nan /\ Prim2SF y <> S754_nan.
Proof.
  rewrite leb_spec. intros Hle.
  split; intros E; rewrite E in Hle; [done |].
  by destruct (Prim2SF x) as [| | |[]].
Qed.

Lemma float_le_trans (x y z : float) :
  (x <=? y) = true -> (y <=? z) = true -> (x <=? z) = true.
Proof.
  intros Hxy Hyz.
  destruct (float_le_not_nan _ _ Hxy) as [Hx Hy].
  destruct (float_le_not_nan _ _ Hyz) as [_ Hz].
  rewrite leb_spec, SFleb_key in * by done. by eapply key_le_trans.
Qed.

(** The order of [np.sort] on binary64, with NaN last. *)
Lemma sort_le_float_total (x y : float) :
  sort_le x y = true \/ sort_le y x = true.
Proof.
  unfold sort_le.
  destruct (is_nan y) eqn:Hy; [by left |].
  destruct (is_nan x) eqn:Hx; [by right |]. simpl.
  by apply float_le_total.
Qed.

Lemma sort_le_float_trans (x y z : float) :
  sort_le x y = true -> sort_le y z = true -> sort_le x z = true.
Proof.
  unfold sort_le. destruct (is_nan z) eqn:Hz; [done |].
  destruct (is_nan y) eqn:Hy; [done |].
  destruct (is_nan x) eqn:Hx; [done |]. simpl. apply float_le_trans.
Qed.

#[export] Instance sort_rel_float_total : Total (sort_rel (F := float)).
Proof.
  intros p q. unfold sort_rel. rewrite !Is_true_true.
  apply sort_le_float_total.
Qed.

#[export] Instance sort_rel_float_trans : Transitive (sort_rel (F := float)).
Proof.
  intros p q r. unfold sort_rel. rewrite !Is_true_true.
  apply sort_le_float_trans.
Qed.

End FloatOrder.
