(* ===== verification/Rounding.v ===== *)
(** * Rounding: what rounding to nearest does, from the specification

    The operations of binary64 round their exact result with
    [SpecFloat.binary_round_aux]: the mantissa is shifted right to the
    exponent of the format ([shr], which keeps a round bit and a sticky
    bit), rounded to nearest with ties to even, and shifted once more
    when the rounding carried.  This file proves, on integers, what
    that function returns: a number of the format within half a unit in
    the last place of the exact value.

    The exact value is a fraction [N / D] scaled by [2 ^ e]: [D = 1]
    for a product and a sum, the divisor for a quotient.  [located N D
    mrs] says that the record [mrs] holds the integer part of [N / D]
    and the position of the rest with respect to one half. *)

From Stdlib Require Import ZArith Lia Bool.
From Stdlib Require Import Floats SpecFloat.
From S2P Require Import Prelude.

Local Open Scope Z_scope.

(** ** Powers of two and binary digits *)

Lemma pow2_pos k : 0 <= k -> 0 < 2 ^ k.
Proof. intros. by apply Z.pow_pos_nonneg. Qed.

Lemma pow2_add a b : 0 <= a -> 0 <= b -> 2 ^ (a + b) = 2 ^ a * 2 ^ b.
Proof. intros. by apply Z.pow_add_r. Qed.

Lemma pow2_succ k : 0 <= k -> 2 ^ (k + 1) = 2 * 2 ^ k.
Proof. intros. rewrite pow2_add by lia. change (2 ^ 1) with 2. lia. Qed.

Lemma pow2_le a b : 0 <= a <= b -> 2 ^ a <= 2 ^ b.
Proof. intros. apply Z.pow_le_mono_r; lia. Qed.

Lemma pow2_lt a b : 0 <= a < b -> 2 ^ a < 2 ^ b.
Proof. intros. apply Z.pow_lt_mono_r; lia. Qed.

(** The number of binary digits of a positive number. *)
Lemma Zdigits2_log2 m : 0 < m -> Zdigits2 m = Z.log2 m + 1.
Proof.
  destruct m as [|p|p]; [lia | | lia]. intros _. simpl.
  induction p as [p IH|p IH|]; simpl in *; [| | done];
    rewrite Pos2Z.inj_succ, IH; destruct p; simpl; lia.
Qed.

Lemma Zdigits2_bounds m :
  0 < m -> 2 ^ (Zdigits2 m - 1) <= m < 2 ^ Zdigits2 m.
Proof.
  intros Hm. rewrite Zdigits2_log2 by done.
  replace (Z.log2 m + 1 - 1) with (Z.log2 m) by lia.
  apply Z.log2_spec, Hm.
Qed.

Lemma Zdigits2_unique m d : 2 ^ (d - 1) <= m < 2 ^ d -> 0 < d -> Zdigits2 m = d.
Proof.
  intros Hm Hd. assert (0 < m) by (pose proof (pow2_pos (d - 1)); lia).
  rewrite Zdigits2_log2 by done.
  rewrite (Z.log2_unique m (d - 1)); [lia | lia |].
  by replace (Z.succ (d - 1)) with d by lia.
Qed.

Lemma Zdigits2_nonneg m : 0 <= m -> 0 <= Zdigits2 m.
Proof. destruct m; simpl; lia. Qed.

Lemma Zdigits2_le m d : 0 <= m < 2 ^ d -> 0 <= d -> Zdigits2 m <= d.
Proof.
  intros [Hm Hd] Hd0. destruct (decide (m = 0)) as [->|Hne]; [done |].
  destruct (Z_le_gt_dec (Zdigits2 m) d) as [|Hgt]; [done |].
  pose proof (Zdigits2_bounds m ltac:(lia)) as [Hlo _].
  pose proof (pow2_le d (Zdigits2 m - 1) ltac:(lia)). lia.
Qed.

(** ** The shift to the right *)

(** [mrs] holds the integer part of [N / D], and its two bits say
    where the rest lies: the round bit that it is at least one half,
    the sticky bit that it is neither zero nor one half. *)
Definition located (N D : Z) (mrs : shr_record) : Prop :=
  exists rho,
    N = shr_m mrs * D + rho /\ 0 <= rho < D /\
    (shr_r mrs = true <-> D <= 2 * rho) /\
    (shr_s mrs = true <-> rho <> 0 /\ 2 * rho <> D).

Lemma located_exact m : located m 1 (shr_record_of_loc m loc_Exact).
Proof. exists 0. simpl. repeat split; intros; try done; lia. Qed.

Lemma located_nonneg N D mrs : located N D mrs -> 0 <= shr_m mrs -> 0 <= N.
Proof. intros (rho & -> & ? & _) ?. nia. Qed.

(** One shift doubles the scale. *)
Lemma shr_1_located N D mrs :
  located N D mrs -> 0 <= shr_m mrs ->
  located N (2 * D) (shr_1 mrs) /\ 0 <= shr_m (shr_1 mrs).
Proof.
  destruct mrs as [m r s]. intros (rho & -> & Hrho & Hr & Hs) Hm.
  simpl in *.
  assert (orb r s = true <-> rho <> 0) as Hrs.
  { rewrite orb_true_iff, Hr, Hs. lia. }
  destruct m as [|[p|p|]|p]; [| | | | lia]; simpl; (split; [| lia]).
  - exists rho. simpl. rewrite Hrs. repeat split; intros; try lia; done.
  - exists (D + rho). simpl. rewrite Hrs. repeat split; intros; try lia.
  - exists rho. simpl. rewrite Hrs. repeat split; intros; try lia; done.
  - exists (D + rho). simpl. rewrite Hrs. repeat split; intros; try lia.
Qed.

Lemma iter_pos_nat {A} (f : A -> A) p x :
  SpecFloat.iter_pos f p x = Nat.iter (Pos.to_nat p) f x.
Proof.
  revert x. induction p as [p IH|p IH|]; intros x;
    cbn [SpecFloat.iter_pos]; [| | done].
  - rewrite !IH, Pos2Nat.inj_xI.
    replace (S (2 * Pos.to_nat p)) with (Pos.to_nat p + (Pos.to_nat p + 1))%nat
      by lia.
    by rewrite !Nat.iter_add.
  - rewrite !IH, Pos2Nat.inj_xO.
    replace (2 * Pos.to_nat p)%nat with (Pos.to_nat p + Pos.to_nat p)%nat
      by lia.
    by rewrite Nat.iter_add.
Qed.

Lemma iter_shr_1_located N D mrs (n : nat) :
  located N D mrs -> 0 <= shr_m mrs ->
  located N (D * 2 ^ Z.of_nat n) (Nat.iter n shr_1 mrs) /\
  0 <= shr_m (Nat.iter n shr_1 mrs).
Proof.
  intros HN Hm. induction n as [|n [IH1 IH2]].
  - simpl. by rewrite Z.mul_1_r.
  - rewrite Nat2Z.inj_succ, <- Z.add_1_r, pow2_succ by lia. simpl.
    replace (D * (2 * 2 ^ Z.of_nat n)) with (2 * (D * 2 ^ Z.of_nat n)) by lia.
    by apply shr_1_located.
Qed.

(** [k] shifts multiply the scale by [2 ^ k]. *)
Lemma shr_located N D mrs e k :
  located N D mrs -> 0 <= shr_m mrs -> 0 <= k ->
  located N (D * 2 ^ k) (shr mrs e k).1 /\ 0 <= shr_m (shr mrs e k).1 /\
  (shr mrs e k).2 = e + k.
Proof.
  intros HN Hm Hk. destruct k as [|p|p]; [| | lia]; simpl.
  - rewrite Z.mul_1_r, Z.add_0_r. done.
  - rewrite iter_pos_nat.
    destruct (iter_shr_1_located N D mrs (Pos.to_nat p) HN Hm) as [H1 H2].
    by rewrite positive_nat_Z in H1.
Qed.

(** ** Rounding to nearest, ties to even *)

Lemma round_nearest_even_located N D mrs :
  located N D mrs ->
  let m := round_nearest_even (shr_m mrs) (loc_of_shr_record mrs) in
  shr_m mrs <= m <= shr_m mrs + 1 /\ 2 * Z.abs (m * D - N) <= D.
Proof.
  destruct mrs as [m [] []]; intros (rho & -> & Hrho & Hr & Hs); simpl in *;
    try (destruct (Z.even m)); lia.
Qed.

(** ** The rounding function of the format *)

Section Format.
Variables prec emax : Z.
Hypothesis Hprec : 0 < prec.

#[local] Abbreviation emin := (SpecFloat.emin prec emax).
#[local] Abbreviation fexp := (SpecFloat.fexp prec emax).

Lemma fexp_ge_emin e : emin <= fexp e.
Proof. unfold SpecFloat.fexp. lia. Qed.

(** The integer part after a shift is the quotient by the power of
    two. *)
Lemma located_floor N D P mrs mrs' :
  located N D mrs -> located N (D * P) mrs' -> 0 < P ->
  shr_m mrs' * P <= shr_m mrs < (shr_m mrs' + 1) * P.
Proof.
  intros (r0 & HN & Hr0 & _) (r1 & HN' & Hr1 & _) HP. nia.
Qed.

(** What the first shift leaves has at most [prec] digits, and exactly
    [prec] outside the subnormal range. *)
Lemma shifted_mantissa m e m1 :
  0 <= m -> e <= fexp (Zdigits2 m + e) -> 0 <= m1 ->
  m1 * 2 ^ (fexp (Zdigits2 m + e) - e) <= m
    < (m1 + 1) * 2 ^ (fexp (Zdigits2 m + e) - e) ->
  m1 < 2 ^ prec /\
  (fexp (Zdigits2 m + e) = emin \/ 2 ^ (prec - 1) <= m1).
Proof.
  intros Hm He Hm1. set (k := fexp (Zdigits2 m + e) - e). intros Hfl.
  assert (0 <= k) as Hk by lia. pose proof (pow2_pos k Hk) as HP.
  destruct (decide (m = 0)) as [->|Hne].
  - assert (m1 = 0) as -> by nia. split; [by apply pow2_pos; lia |].
    left. unfold SpecFloat.fexp in *. simpl in *. lia.
  - pose proof (Zdigits2_bounds m ltac:(lia)) as [Hlo Hhi].
    pose proof (Zdigits2_nonneg m Hm) as Hd.
    assert (0 < Zdigits2 m) as Hd'
      by (rewrite Zdigits2_log2 by lia; pose proof (Z.log2_nonneg m); lia).
    assert (Zdigits2 m <= prec + k) as Hdk
      by (unfold k, SpecFloat.fexp; lia).
    split.
    + pose proof (pow2_le (Zdigits2 m) (prec + k) ltac:(lia)) as Hle.
      rewrite pow2_add in Hle by lia. nia.
    + destruct (decide (fexp (Zdigits2 m + e) = emin)) as [|Hn]; [by left |].
      right. assert (k = Zdigits2 m - prec) as Hk'
        by (unfold k, SpecFloat.fexp in *; lia).
      assert (2 ^ (Zdigits2 m - 1) = 2 ^ (prec - 1) * 2 ^ k) as Heq.
      { rewrite <- pow2_add by lia. f_equal. lia. }
      pose proof (pow2_pos (prec - 1) ltac:(lia)). nia.
Qed.

(** Outside the subnormal range the last place is small: the unit in
    the last place is at most [2 ^ (1 - prec)] times the exact value. *)
Lemma ulp_small m e l N D :
  0 <= m -> located N D (shr_record_of_loc m l) ->
  e <= fexp (Zdigits2 m + e) ->
  fexp (Zdigits2 m + e) = emin \/
  2 ^ (fexp (Zdigits2 m + e) - e) * 2 ^ (prec - 1) * D <= N.
Proof.
  intros Hm (rho & HN & Hrho & _) He.
  assert (shr_m (shr_record_of_loc m l) = m) as Hml by (by destruct l as [|[]]).
  rewrite Hml in HN.
  destruct (decide (fexp (Zdigits2 m + e) = emin)) as [|Hn]; [by left |].
  right. destruct (decide (m = 0)) as [->|Hne].
  { unfold SpecFloat.fexp in *. simpl in *. lia. }
  pose proof (Zdigits2_bounds m ltac:(lia)) as [Hlo _].
  assert (0 < Zdigits2 m)
    by (rewrite Zdigits2_log2 by lia; pose proof (Z.log2_nonneg m); lia).
  assert (fexp (Zdigits2 m + e) - e = Zdigits2 m - prec) as ->
    by (unfold SpecFloat.fexp in *; lia).
  rewrite <- pow2_add by (unfold SpecFloat.fexp in *; lia).
  replace (Zdigits2 m - prec + (prec - 1)) with (Zdigits2 m - 1) by lia.
  nia.
Qed.

(** The second shift: after rounding the mantissa is in the format, or
    it is [2 ^ prec] and one more shift, which loses nothing, puts it
    there. *)
Lemma shr_fexp_rounded m e :
  0 <= m <= 2 ^ prec -> emin <= e -> e = emin \/ 2 ^ (prec - 1) <= m ->
  exists m' e',
    shr_fexp prec emax m e loc_Exact
    = ({| shr_m := m'; shr_r := false; shr_s := false |}, e') /\
    e <= e' /\ m = m' * 2 ^ (e' - e) /\ 0 <= m' /\
    (m' <> 0 -> fexp (Zdigits2 m' + e') = e').
Proof.
  intros [Hm0 Hm] He Hn. unfold shr_fexp.
  destruct (decide (m = 2 ^ prec)) as [->|Hne].
  - rewrite (Zdigits2_unique (2 ^ prec) (prec + 1)).
    2:{ replace (prec + 1 - 1) with prec by lia.
        split; [lia | apply pow2_lt; lia]. }
    2: lia.
    assert (fexp (prec + 1 + e) - e = 1) as -> by (unfold SpecFloat.fexp; lia).
    destruct (shr_1_located (2 ^ prec) 1 _ (located_exact (2 ^ prec)))
      as [(rho & HN & Hrho & Hr & Hs) Hpos]; [simpl; lia |].
    cbn [shr SpecFloat.iter_pos shr_record_of_loc].
    destruct (shr_1 _) as [m' r s]. simpl in *.
    replace (2 ^ prec) with (2 * 2 ^ (prec - 1)) in HN
      by (rewrite <- pow2_succ by lia; f_equal; lia).
    assert (rho = 0) as -> by lia. assert (m' = 2 ^ (prec - 1)) as -> by lia.
    assert (r = false) as -> by (destruct r; [lia | done]).
    assert (s = false) as -> by (destruct s; [lia | done]).
    exists (2 ^ (prec - 1)), (e + 1). split; [done |].
    replace (e + 1 - e) with 1 by lia.
    replace (2 ^ prec) with (2 * 2 ^ (prec - 1))
      by (rewrite <- pow2_succ by lia; f_equal; lia).
    repeat split; try lia. intros _.
    rewrite (Zdigits2_unique (2 ^ (prec - 1)) prec);
      [unfold SpecFloat.fexp; lia | | lia].
    replace (prec - 1) with (prec - 1) by lia.
    split; [lia | apply pow2_lt; lia].
  - assert (Zdigits2 m <= prec) as Hd by (apply Zdigits2_le; lia).
    assert (m <> 0 -> fexp (Zdigits2 m + e) = e) as Hcanon.
    { intros Hm'. destruct Hn as [-> | Hlo]; [unfold SpecFloat.fexp; lia |].
      rewrite (Zdigits2_unique m prec); [unfold SpecFloat.fexp; lia | lia | lia]. }
    assert (fexp (Zdigits2 m + e) - e <= 0) as Hk.
    { pose proof (Zdigits2_nonneg m Hm0). unfold SpecFloat.fexp. lia. }
    exists m, e. replace (e - e) with 0 by lia.
    split; [| repeat split; try lia; done].
    by destruct (fexp (Zdigits2 m + e) - e) as [|p|p]; [| lia |].
Qed.

(** The value [mf * 2 ^ ef] is within half a unit in the last place
    of [N / D * 2 ^ e], the last place being [e1]. *)
Definition nearest (N D e e1 mf ef : Z) : Prop :=
  e1 <= ef /\
  2 * Z.abs (mf * 2 ^ (ef - e) * D - N) <= D * 2 ^ (e1 - e).

(** What [binary_round_aux] returns: never NaN, the sign it was given,
    and a number of the format, or zero, within half a unit in the last
    place of the exact value; an infinity only when the rounded
    mantissa needs an exponent above that of the format. *)
Theorem binary_round_aux_spec s m e l N D :
  0 <= m -> located N D (shr_record_of_loc m l) ->
  e <= fexp (Zdigits2 m + e) ->
  match binary_round_aux prec emax s m e l with
  | S754_zero s' => s' = s /\ nearest N D e (fexp (Zdigits2 m + e)) 0 (fexp (Zdigits2 m + e))
  | S754_finite s' mf ef =>
      s' = s /\ bounded prec emax mf ef = true /\
      nearest N D e (fexp (Zdigits2 m + e)) (Zpos mf) ef
  | S754_infinity s' =>
      s' = s /\ exists mf ef,
        emax - prec < ef /\ canonical_mantissa prec emax mf ef = true /\
        nearest N D e (fexp (Zdigits2 m + e)) (Zpos mf) ef
  | S754_nan => False
  end.
Proof.
  intros Hm HN He. set (e1 := fexp (Zdigits2 m + e)) in *.
  assert (0 < D) as HD by (destruct HN as (? & _ & ? & _); lia).
  unfold binary_round_aux, shr_fexp at 1. fold e1.
  destruct (shr_located N D _ e (e1 - e) HN) as (HN1 & Hm1 & He1);
    [by destruct l as [|[]] | lia |].
  destruct (shr _ e (e1 - e)) as [mrs1 e']. simpl in HN1, Hm1, He1.
  assert (e' = e1) as -> by lia.
  pose proof (pow2_pos (e1 - e) ltac:(lia)) as HP.
  destruct (round_nearest_even_located _ _ _ HN1) as [Hm2 Herr].
  set (m2 := round_nearest_even _ _) in *.
  assert (shr_m (shr_record_of_loc m l) = m) as Hml by (by destruct l as [|[]]).
  pose proof (located_floor _ _ _ _ _ HN HN1 HP) as Hfl. rewrite Hml in Hfl.
  destruct (shifted_mantissa m e (shr_m mrs1) Hm He Hm1 Hfl) as [Hlt Hnorm].
  destruct (shr_fexp_rounded m2 e1) as (m3 & e3 & -> & He3 & Hm3 & Hm3' & Hc);
    [lia | apply fexp_ge_emin | lia |].
  simpl. pose proof (pow2_pos (e3 - e1) ltac:(lia)) as HP3.
  assert (forall mf, mf = m3 -> nearest N D e e1 mf e3) as Hnear.
  { intros mf ->. split; [done |].
    replace (e3 - e) with ((e3 - e1) + (e1 - e)) by lia.
    rewrite pow2_add by lia.
    replace (m3 * (2 ^ (e3 - e1) * 2 ^ (e1 - e)) * D)
      with (m2 * (D * 2 ^ (e1 - e))) by (subst m2; rewrite Hm3; lia).
    done. }
  destruct m3 as [|mf|mf]; [| | lia].
  - split; [done |]. assert (m2 = 0) as Hz by lia.
    split; [done |]. replace (e1 - e) with (e1 - e) by lia.
    rewrite Hz in Herr. replace (e1 - e1) with 0 in * by lia.
    simpl. lia.
  - specialize (Hc ltac:(lia)).
    destruct (Z.leb_spec e3 (emax - prec)) as [Hle|Hgt].
    + split; [done |]. split; [| by apply Hnear].
      unfold bounded, canonical_mantissa.
      apply andb_true_iff. split; [by apply Z.eqb_eq | by apply Z.leb_le].
    + split; [done |]. exists mf, e3. split; [done |].
      split; [by apply Z.eqb_eq | by apply Hnear].
Qed.

End Format.

(** ** The operands of the operations *)

Lemma pos_iter_xO m d : Zpos (Pos.iter xO m d) = Zpos m * 2 ^ Zpos d.
Proof.
  induction d as [|d IH] using Pos.peano_ind.
  - simpl. lia.
  - rewrite Pos.iter_succ, Pos2Z.inj_xO, IH, Pos2Z.inj_succ.
    rewrite Z.pow_succ_r by lia. lia.
Qed.

(** [shl_align] lowers the exponent to the smaller of the two and
    keeps the value. *)
Lemma shl_align_spec mx ex ez :
  (shl_align mx ex ez).2 = Z.min ex ez /\
  Zpos (shl_align mx ex ez).1 = Zpos mx * 2 ^ (ex - Z.min ex ez).
Proof.
  unfold shl_align. destruct (ez - ex) as [|d|d] eqn:Hd; simpl.
  - replace (Z.min ex ez) with ex by lia. rewrite Z.sub_diag. simpl. lia.
  - replace (Z.min ex ez) with ex by lia. rewrite Z.sub_diag. simpl. lia.
  - replace (Z.min ex ez) with ez by lia.
    rewrite pos_iter_xO. split; [done |]. do 2 f_equal. lia.
Qed.

Lemma Zdigits2_shift m k :
  0 < m -> 0 <= k -> Zdigits2 (m * 2 ^ k) = Zdigits2 m + k.
Proof.
  intros Hm Hk. pose proof (Zdigits2_bounds m Hm) as [Hlo Hhi].
  assert (0 < Zdigits2 m)
    by (rewrite Zdigits2_log2 by lia; pose proof (Z.log2_nonneg m); lia).
  pose proof (pow2_pos k Hk).
  apply Zdigits2_unique; [| lia].
  replace (Zdigits2 m + k - 1) with ((Zdigits2 m - 1) + k) by lia.
  rewrite !pow2_add by lia. nia.
Qed.

Lemma Zdigits2_mul a b :
  0 < a -> 0 < b -> Zdigits2 a + Zdigits2 b - 1 <= Zdigits2 (a * b).
Proof.
  intros Ha Hb.
  pose proof (Zdigits2_bounds a Ha) as [Hla _].
  pose proof (Zdigits2_bounds b Hb) as [Hlb _].
  pose proof (Zdigits2_bounds (a * b) ltac:(nia)) as [_ Hh].
  assert (0 < Zdigits2 a)
    by (rewrite Zdigits2_log2 by lia; pose proof (Z.log2_nonneg a); lia).
  assert (0 < Zdigits2 b)
    by (rewrite Zdigits2_log2 by lia; pose proof (Z.log2_nonneg b); lia).
  destruct (Z_le_gt_dec (Zdigits2 a + Zdigits2 b - 1) (Zdigits2 (a * b)))
    as [|Hgt]; [done |].
  pose proof (Zdigits2_nonneg (a * b) ltac:(nia)).
  pose proof (pow2_le (Zdigits2 (a * b)) (Zdigits2 a - 1 + (Zdigits2 b - 1))
                ltac:(lia)) as Hle.
  rewrite pow2_add in Hle by lia.
  pose proof (pow2_pos (Zdigits2 a - 1) ltac:(lia)).
  pose proof (pow2_pos (Zdigits2 b - 1) ltac:(lia)). nia.
Qed.

Section Operands.
Variables prec emax : Z.
Hypothesis Hprec : 0 < prec.
Hypothesis Hemax : prec < emax.

#[local] Abbreviation emin := (SpecFloat.emin prec emax).
#[local] Abbreviation fexp := (SpecFloat.fexp prec emax).

(** A mantissa of the format has [prec] digits, or fewer at the
    smallest exponent. *)
Lemma canonical_digits m e :
  canonical_mantissa prec emax m e = true ->
  emin <= e /\ 0 < Zdigits2 (Zpos m) <= prec /\
  (e = emin \/ Zdigits2 (Zpos m) = prec).
Proof.
  intros Hc%Z.eqb_eq. unfold SpecFloat.fexp in Hc. simpl. lia.
Qed.

(** The product of two mantissas of the format is shifted to the
    right, never to the left. *)
Lemma mul_shift mx ex my ey :
  canonical_mantissa prec emax mx ex = true ->
  canonical_mantissa prec emax my ey = true ->
  ex + ey <= fexp (Zdigits2 (Zpos (mx * my)) + (ex + ey)).
Proof.
  intros (Hex & Hdx & Hx)%canonical_digits (Hey & Hdy & Hy)%canonical_digits.
  pose proof (Zdigits2_mul (Zpos mx) (Zpos my) ltac:(lia) ltac:(lia)) as Hd.
  rewrite <- Pos2Z.inj_mul in Hd.
  unfold SpecFloat.fexp, SpecFloat.emin in *. lia.
Qed.

(** The quotient and the rest of the division of the mantissas locate
    the numerator at the scale of the divisor. *)
Lemma new_location_located m' m2 :
  0 <= m' -> 0 < m2 ->
  located m' m2
    (shr_record_of_loc (Z.div_eucl m' m2).1
       (new_location m2 (Z.div_eucl m' m2).2)).
Proof.
  intros Hm' Hm2.
  pose proof (Z_div_mod m' m2 ltac:(lia)) as Hdiv.
  destruct (Z.div_eucl m' m2) as [q r]. destruct Hdiv as [Hq Hr]. simpl.
  exists r. unfold new_location, new_location_even, new_location_odd.
  destruct (Z.even m2) eqn:Hev.
  - destruct (Z.eqb_spec r 0) as [->|Hne]; simpl; [repeat split; lia |].
    destruct (Z.compare_spec (2 * r) m2); simpl; repeat split; lia.
  - assert (Z.odd m2 = true) as Hodd by (by rewrite <- Z.negb_even, Hev).
    apply Z.odd_spec in Hodd as [h Hh].
    destruct (Z.eqb_spec r 0) as [->|Hne]; simpl; [repeat split; lia |].
    destruct (Z.compare_spec (2 * r + 1) m2); simpl; repeat split; lia.
Qed.

Lemma Zdigits2_ge m d : 0 < d -> 2 ^ (d - 1) <= m -> d <= Zdigits2 m.
Proof.
  intros Hd Hm. pose proof (pow2_pos (d - 1) ltac:(lia)).
  pose proof (Zdigits2_bounds m ltac:(lia)) as [_ Hhi].
  destruct (Z_le_gt_dec d (Zdigits2 m)) as [|Hgt]; [done |].
  pose proof (Zdigits2_nonneg m ltac:(lia)).
  pose proof (pow2_le (Zdigits2 m) (d - 1) ltac:(lia)). lia.
Qed.

(** The core of the division: the quotient of the mantissas, the
    numerator scaled so that the quotient has the digits of the
    format, and the position of the rest. *)
Lemma SFdiv_core_binary_spec mx ex my ey :
  canonical_mantissa prec emax mx ex = true ->
  canonical_mantissa prec emax my ey = true ->
  exists q e' l s,
    SFdiv_core_binary prec emax (Zpos mx) ex (Zpos my) ey = (q, e', l) /\
    0 <= s /\ e' = ex - ey - s /\ 0 <= q /\
    located (Zpos mx * 2 ^ s) (Zpos my) (shr_record_of_loc q l) /\
    e' <= fexp (Zdigits2 q + e').
Proof.
  intros (Hex & Hdx & Hx)%canonical_digits (Hey & Hdy & Hy)%canonical_digits.
  unfold SFdiv_core_binary.
  set (d1 := Zdigits2 (Zpos mx)) in *. set (d2 := Zdigits2 (Zpos my)) in *.
  set (e' := Z.min (fexp (d1 + ex - (d2 + ey))) (ex - ey)).
  set (s := ex - ey - e'). assert (0 <= s) as Hs by lia.
  set (m' := match s with Z.pos _ => Z.shiftl (Zpos mx) s | 0 => Zpos mx
             | Z.neg _ => 0 end).
  assert (m' = Zpos mx * 2 ^ s) as Hm'.
  { unfold m'. destruct s as [|p|p] eqn:Hp; [simpl; lia | | lia].
    by rewrite Z.shiftl_mul_pow2. }
  pose proof (pow2_pos s Hs) as HP.
  pose proof (new_location_located m' (Zpos my) ltac:(lia) ltac:(lia)) as HN.
  pose proof (Z_div_mod m' (Zpos my) ltac:(lia)) as Hdiv.
  destruct (Z.div_eucl m' (Zpos my)) as [q r]. simpl in HN.
  destruct Hdiv as [Hq Hr].
  assert (0 <= q) as Hq0 by nia.
  exists q, e', (new_location (Zpos my) r), s.
  split; [done |]. split; [done |]. split; [lia |]. split; [done |].
  split; [by rewrite <- Hm' |].
  pose proof (Zdigits2_nonneg q Hq0) as Hdq.
  destruct (Z_le_gt_dec e' emin) as [|Hgt];
    [unfold SpecFloat.fexp; lia |].
  assert (prec + d2 - d1 <= s) as Hsp
    by (unfold s, e', SpecFloat.fexp in *; lia).
  assert (prec <= Zdigits2 q); [| unfold SpecFloat.fexp; lia].
  apply Zdigits2_ge; [lia |].
  pose proof (Zdigits2_bounds (Zpos mx) ltac:(lia)) as [Hl1 _].
  pose proof (Zdigits2_bounds (Zpos my) ltac:(lia)) as [_ Hh2].
  fold d1 in Hl1. fold d2 in Hh2.
  pose proof (pow2_le (prec - 1 + d2) (d1 - 1 + s) ltac:(lia)) as Hle.
  rewrite !pow2_add in Hle by lia.
  pose proof (pow2_pos (prec - 1) ltac:(lia)).
  pose proof (pow2_pos (d1 - 1) ltac:(lia)). nia.
Qed.

End Operands.
