(* ===== verification/RealLemmas.v ===== *)
(** * RealLemmas: sums and distances of real numbers

    What the error analysis of the arithmetic needs of the real
    numbers: sums of lists, the triangle inequality in the shapes the
    proofs use, and the three steps by which rounding errors compose
    (one more addition, a square after a quotient, a sum of
    approximated terms). *)

Set Warnings "-hiding-delimiting-key".
From Stdlib Require Import Reals Lra.
From S2P Require Import Prelude.

Local Open Scope R_scope.

(** ** Absolute values *)

Lemma Rabs_le_between x a : Rabs x <= a <-> - a <= x <= a.
Proof. unfold Rabs. destruct (Rcase_abs x); lra. Qed.

Lemma Rabs_dist_triang x y z : Rabs (x - z) <= Rabs (x - y) + Rabs (y - z).
Proof.
  replace (x - z) with ((x - y) + (y - z)) by lra. apply Rabs_triang.
Qed.

(** A value within [e] of [y] is at most [|y| + e] in size. *)
Lemma Rabs_near x y e : Rabs (x - y) <= e -> Rabs x <= Rabs y + e.
Proof.
  intros He. pose proof (Rabs_triang (x - y) y) as Ht.
  replace (x - y + y) with x in Ht by lra. lra.
Qed.

Lemma Rabs_sqr x : Rabs x * Rabs x = x * x.
Proof. unfold Rabs. destruct (Rcase_abs x); lra. Qed.

(** ** Sums of reals *)

Definition sumR (l : list R) : R := foldr Rplus 0 l.

Lemma sumR_nil : sumR [] = 0.
Proof. reflexivity. Qed.

Lemma sumR_cons x l : sumR (x :: l) = x + sumR l.
Proof. reflexivity. Qed.

Ltac sumR_simpl :=
  rewrite ?fmap_nil, ?fmap_cons, ?sumR_nil, ?sumR_cons, ?length_cons, ?S_INR.

Lemma sumR_app a b : sumR (a ++ b) = sumR a + sumR b.
Proof.
  induction a as [|x a IH]; [rewrite app_nil_l, sumR_nil; lra |].
  rewrite <- app_comm_cons, !sumR_cons, IH. lra.
Qed.

Lemma sumR_nonneg l : Forall (fun x => 0 <= x) l -> 0 <= sumR l.
Proof. induction 1; sumR_simpl; lra. Qed.

Lemma sumR_le {A} (f g : A -> R) l :
  Forall (fun x => f x <= g x) l -> sumR (f <$> l) <= sumR (g <$> l).
Proof. induction 1; sumR_simpl; lra. Qed.

Lemma sumR_plus {A} (f g : A -> R) l :
  sumR ((fun x => f x + g x) <$> l) = sumR (f <$> l) + sumR (g <$> l).
Proof. induction l as [|x l IH]; sumR_simpl; lra. Qed.

Lemma sumR_scale {A} (k : R) (f : A -> R) l :
  sumR ((fun x => k * f x) <$> l) = k * sumR (f <$> l).
Proof. induction l as [|x l IH]; sumR_simpl; lra. Qed.

Lemma sumR_const {A} (k : R) (l : list A) :
  sumR ((fun _ => k) <$> l) = INR (length l) * k.
Proof. induction l as [|x l IH]; sumR_simpl; simpl; lra. Qed.

Lemma sumR_Rabs l : Rabs (sumR l) <= sumR (Rabs <$> l).
Proof.
  induction l as [|x l IH]; sumR_simpl; [rewrite Rabs_R0; lra |].
  pose proof (Rabs_triang x (sumR l)). lra.
Qed.

(** The distance of two sums is at most the sum of the distances. *)
Lemma sumR_dist {A} (f g : A -> R) l :
  Rabs (sumR (f <$> l) - sumR (g <$> l))
  <= sumR ((fun x => Rabs (f x - g x)) <$> l).
Proof.
  induction l as [|x l IH]; sumR_simpl; [rewrite Rminus_diag, Rabs_R0; lra |].
  pose proof (Rabs_triang (f x - g x) (sumR (f <$> l) - sumR (g <$> l))).
  replace (f x + sumR (f <$> l) - (g x + sumR (g <$> l)))
    with (f x - g x + (sumR (f <$> l) - sumR (g <$> l))) by lra.
  lra.
Qed.

(** ** How rounding errors compose *)

(** An addition, with a relative error of [u], of two terms each known
    up to [G] times its magnitude and an absolute error. *)
Lemma add_mag_error u G s X Y A B MA MB EA EB :
  0 <= u -> 0 <= G ->
  Rabs (s - (X + Y)) <= u * Rabs (X + Y) ->
  Rabs (X - A) <= G * MA + EA -> Rabs (Y - B) <= G * MB + EB ->
  Rabs A <= MA -> Rabs B <= MB ->
  Rabs (s - (A + B))
  <= ((1 + u) * G + u) * (MA + MB) + (1 + u) * (EA + EB).
Proof.
  intros Hu HG Hs HX HY HA HB.
  pose proof (Rabs_near _ _ _ HX) as HX'.
  pose proof (Rabs_near _ _ _ HY) as HY'.
  pose proof (Rabs_triang X Y) as HXY.
  assert (Rabs (X + Y) <= (G + 1) * (MA + MB) + (EA + EB)) as Ht by lra.
  pose proof (Rmult_le_compat_l u _ _ Hu Ht) as Hut.
  pose proof (Rabs_dist_triang s (X + Y) (A + B)) as H1.
  pose proof (Rabs_triang (X - A) (Y - B)) as H2.
  replace (X - A + (Y - B)) with (X + Y - (A + B)) in H2 by lra.
  lra.
Qed.

(** One more addition: two sums known to the factor [G]. *)
Lemma add_error_step u G s X Y A B A' B' :
  0 <= u -> 0 <= G ->
  Rabs (s - (X + Y)) <= u * Rabs (X + Y) ->
  Rabs (X - A) <= G * A' -> Rabs (Y - B) <= G * B' ->
  Rabs A <= A' -> Rabs B <= B' ->
  Rabs (s - (A + B)) <= ((1 + u) * G + u) * (A' + B').
Proof.
  intros Hu HG Hs HX HY HA HB.
  pose proof (add_mag_error u G s X Y A B A' B' 0 0 Hu HG Hs) as H.
  rewrite !Rplus_0_r, Rmult_0_r, Rplus_0_r in H. by apply H.
Qed.

(** A square after a quotient: [q] approximates [x], [t] approximates
    [q * q], both to the relative error [u] and the absolute error
    [eta]. *)
Lemma square_error u eta q x t :
  0 <= u -> 0 <= eta ->
  Rabs (q - x) <= u * Rabs x + eta ->
  Rabs (t - q * q) <= u * Rabs (q * q) + eta ->
  Rabs (t - x * x)
  <= ((1 + u) ^ 3 - 1) * (x * x)
     + eta * (2 * (1 + u) ^ 2 * Rabs x + (1 + u) * eta + 1).
Proof.
  intros Hu He Hq Ht. pose proof (Rabs_sqr x) as Hsq.
  pose proof (Rabs_pos x) as Ha. pose proof (Rabs_near _ _ _ Hq) as HQ.
  pose proof (Rabs_triang q x) as Hqx. set (a := Rabs x) in *.
  assert (Rabs (q * q) <= ((1 + u) * a + eta) * ((1 + u) * a + eta)) as Hqq.
  { rewrite Rabs_mult. pose proof (Rabs_pos q).
    apply Rmult_le_compat; lra. }
  assert (Rabs (q * q - x * x)
          <= (u * a + eta) * ((1 + u) * a + eta + a)) as Hd.
  { replace (q * q - x * x) with ((q - x) * (q + x)) by lra.
    rewrite Rabs_mult. apply Rmult_le_compat; try apply Rabs_pos; lra. }
  pose proof (Rmult_le_compat_l u _ _ Hu Hqq) as Huq.
  pose proof (Rabs_dist_triang t (q * q) (x * x)) as H1.
  apply Rle_trans
    with (u * (((1 + u) * a + eta) * ((1 + u) * a + eta)) + eta
          + (u * a + eta) * ((1 + u) * a + eta + a)); [lra |].
  right. rewrite <- Hsq. ring.
Qed.

(** A computed sum of approximated terms: [s] is the sum of the terms
    [that] to the factor [G], each of which is within [E] of the
    non-negative [x]. *)
Lemma sum_error_compose {A} (l : list A) (that x E : A -> R) G s :
  0 <= G ->
  Rabs (s - sumR (that <$> l))
  <= G * sumR ((fun p => Rabs (that p)) <$> l) ->
  Forall (fun p => 0 <= x p /\ Rabs (that p - x p) <= E p) l ->
  Rabs (s - sumR (x <$> l))
  <= G * sumR (x <$> l) + (1 + G) * sumR (E <$> l).
Proof.
  intros HG Hs Hl.
  pose proof (sumR_dist that x l) as Hd.
  assert (sumR ((fun p => Rabs (that p - x p)) <$> l) <= sumR (E <$> l))
    as HE by (apply sumR_le; eapply Forall_impl; [exact Hl |]; by intros ? []).
  assert (sumR ((fun p => Rabs (that p)) <$> l)
          <= sumR ((fun p => x p + E p) <$> l)) as Habs.
  { apply sumR_le. eapply Forall_impl; [exact Hl |].
    intros p [Hx Hp]. simpl. pose proof (Rabs_near _ _ _ Hp) as Hn.
    rewrite (Rabs_pos_eq (x p)) in Hn by done. lra. }
  rewrite sumR_plus in Habs.
  pose proof (Rmult_le_compat_l G _ _ HG Habs).
  pose proof (Rabs_dist_triang s (sumR (that <$> l)) (sumR (x <$> l))).
  lra.
Qed.

(** The same with the terms themselves as magnitudes and one absolute
    error. *)
Lemma add_abs_error u eta G s X Y A B :
  0 <= u -> 0 <= G ->
  Rabs (s - (X + Y)) <= u * Rabs (X + Y) ->
  Rabs (X - A) <= G * Rabs A + eta ->
  Rabs (Y - B) <= G * Rabs B + eta ->
  Rabs (s - (A + B))
  <= ((1 + u) * G + u) * (Rabs A + Rabs B) + 2 * (1 + u) * eta.
Proof.
  intros Hu HG Hs HX HY.
  pose proof (add_mag_error u G s X Y A B _ _ _ _ Hu HG Hs HX HY
                (Rle_refl _) (Rle_refl _)). lra.
Qed.

(** The error of a scaled value known up to [B]. *)
Lemma scale_error u eta k l c T B :
  0 <= u -> 0 <= T ->
  Rabs (l - k * c) <= u * Rabs (k * c) + eta ->
  Rabs (c - T) <= B ->
  Rabs (l - k * T) <= Rabs k * (u * T + (1 + u) * B) + eta.
Proof.
  intros Hu HT Hl Hc. pose proof (Rabs_near _ _ _ Hc) as Hc'.
  rewrite (Rabs_pos_eq T HT) in Hc'. pose proof (Rabs_pos k) as Hk.
  rewrite Rabs_mult in Hl.
  pose proof (Rmult_le_compat_l _ _ _ Hk Hc') as H1.
  pose proof (Rmult_le_compat_l _ _ _ Hu H1) as H2.
  assert (Rabs (k * c - k * T) <= Rabs k * B) as H3.
  { replace (k * c - k * T) with (k * (c - T)) by lra.
    rewrite Rabs_mult. by apply Rmult_le_compat_l. }
  pose proof (Rabs_dist_triang l (k * c) (k * T)). lra.
Qed.

(** ** The sensitivity of the formulas *)

(** Eq 6 as a function of the position: it moves by at most the
    projection of the displacement. *)
Lemma projection_lipschitz a c d s p1 p2 q1 q2 :
  Rabs (Rabs ((a - p1) * c + (d - p2) * s)
        - Rabs ((a - q1) * c + (d - q2) * s))
  <= Rabs c * Rabs (p1 - q1) + Rabs s * Rabs (p2 - q2).
Proof.
  etrans; [apply Rabs_triang_inv2 |].
  replace ((a - p1) * c + (d - p2) * s - ((a - q1) * c + (d - q2) * s))
    with (c * (q1 - p1) + s * (q2 - p2)) by lra.
  etrans; [apply Rabs_triang |].
  rewrite !Rabs_mult, (Rabs_minus_sym q1), (Rabs_minus_sym q2). lra.
Qed.

Lemma magnitude_lipschitz a c p q :
  Rabs ((a - p) * c) <= Rabs ((a - q) * c) + Rabs c * Rabs (p - q).
Proof.
  replace ((a - p) * c) with ((a - q) * c + c * (q - p)) by lra.
  etrans; [apply Rabs_triang |].
  rewrite (Rabs_mult c), (Rabs_minus_sym q). lra.
Qed.

(** A square moves by at most [(2 |x| + e) e] when its argument moves
    by [e]. *)
Lemma square_lipschitz x y e :
  Rabs (y - x) <= e -> Rabs (Rsqr y - Rsqr x) <= (2 * Rabs x + e) * e.
Proof.
  intros He. pose proof (Rabs_pos (y - x)) as H0.
  pose proof (Rabs_near _ _ _ He) as Hy. pose proof (Rabs_triang y x) as Ht.
  pose proof (Rabs_pos x). unfold Rsqr.
  replace (y * y - x * x) with ((y - x) * (y + x)) by lra.
  rewrite Rabs_mult.
  assert (Rabs (y + x) <= 2 * Rabs x + e) as Hs by lra.
  pose proof (Rmult_le_compat _ _ _ _ H0 (Rabs_pos (y + x)) He Hs). lra.
Qed.

(** A quotient moves by the displacement of the numerator over the
    size of the denominator. *)
Lemma quotient_lipschitz x y e k :
  k <> 0 -> Rabs (y - x) <= e -> Rabs (y / k - x / k) <= e / Rabs k.
Proof.
  intros Hk He. replace (y / k - x / k) with ((y - x) / k) by (field; done).
  unfold Rdiv. rewrite Rabs_mult, Rabs_inv.
  apply Rmult_le_compat_r; [| done].
  left. apply Rinv_0_lt_compat. by apply Rabs_pos_lt.
Qed.
