(* ===== verification/FloatError.v ===== *)
(** * FloatError: the error of one operation

    The value of a float of the specification as a real number
    ([SF2R]) and, from the integer statement of [Rounding], the error
    of a rounding in real numbers ([rounded_to]): half a unit in the
    last place, which is at most [2 ^ -prec] times the value above the
    smallest exponent and [2 ^ (emin - 1)] at it.  Then the standard
    model of the operations ([op_result]): [SFmul_model],
    [SFadd_model], [SFsub_model], [SFdiv_model], for any precision and
    any largest exponent above it. *)

From Stdlib Require Import ZArith Reals Lra Lia Bool.
From Stdlib Require Import Floats SpecFloat.
From S2P Require Import Prelude Rounding RealLemmas.

Local Open Scope R_scope.

(** ** Powers of two *)

Definition pow2 (e : Z) : R := powerRZ 2 e.

Lemma pow2_gt_0 e : 0 < pow2 e.
Proof. apply powerRZ_lt. lra. Qed.

Lemma pow2_plus a b : pow2 (a + b) = pow2 a * pow2 b.
Proof. apply powerRZ_add. lra. Qed.

Lemma pow2_IZR k : (0 <= k)%Z -> IZR (2 ^ k) = pow2 k.
Proof.
  intros Hk. destruct k as [|p|p]; [done | | lia].
  apply Zpower_pos_powerRZ.
Qed.

Lemma pow2_mono a b : (a <= b)%Z -> pow2 a <= pow2 b.
Proof.
  intros Hab. replace b with (a + (b - a))%Z by lia.
  rewrite pow2_plus, <- (pow2_IZR (b - a)) by lia.
  pose proof (pow2_gt_0 a).
  assert (1 <= IZR (2 ^ (b - a))); [| nra].
  apply IZR_le. pose proof (Rounding.pow2_pos (b - a) ltac:(lia)). lia.
Qed.

Lemma pow2_succ_R e : pow2 (e + 1) = 2 * pow2 e.
Proof. rewrite pow2_plus. unfold pow2 at 2. simpl. lra. Qed.

Lemma pow2_pred e : pow2 (e - 1) = pow2 e / 2.
Proof.
  replace e with ((e - 1) + 1)%Z at 2 by lia. rewrite pow2_succ_R. lra.
Qed.

(** ** The value of a float *)

Definition SF2R (x : spec_float) : R :=
  match x with
  | S754_finite s m e => IZR (cond_Zopp s (Zpos m)) * pow2 e
  | _ => 0
  end.

(** The sign as a factor. *)
Definition sign_R (s : bool) : R := if s then -1 else 1.

Lemma SF2R_finite s m e :
  SF2R (S754_finite s m e) = sign_R s * (IZR (Zpos m) * pow2 e).
Proof.
  destruct s; unfold SF2R, cond_Zopp, sign_R; [rewrite opp_IZR |]; lra.
Qed.

Lemma sign_R_xorb s1 s2 : sign_R (xorb s1 s2) = sign_R s1 * sign_R s2.
Proof. destruct s1, s2; simpl; lra. Qed.

Lemma Rabs_sign_R s v : 0 <= v -> Rabs (sign_R s * v) = v.
Proof.
  intros Hv. rewrite Rabs_mult, (Rabs_pos_eq v Hv).
  destruct s; unfold sign_R, Rabs; destruct (Rcase_abs _); lra.
Qed.

(** ** The error of a rounding *)

(** The statement of [Rounding.nearest] on the reals. *)
Lemma nearest_R N D e e1 mf ef :
  (0 < D)%Z -> (e <= e1)%Z -> nearest N D e e1 mf ef ->
  Rabs (IZR mf * pow2 ef - IZR N / IZR D * pow2 e) <= pow2 e1 / 2.
Proof.
  intros HD He [Hef Hb]. apply IZR_le in Hb.
  rewrite !mult_IZR, abs_IZR, minus_IZR, !mult_IZR, !pow2_IZR in Hb by lia.
  replace ef with ((ef - e) + e)%Z at 1 by lia.
  replace e1 with ((e1 - e) + e)%Z by lia. rewrite !pow2_plus.
  pose proof (pow2_gt_0 e) as Hc. apply IZR_lt in HD.
  set (a := pow2 (ef - e)) in *. set (b := pow2 (e1 - e)) in *.
  set (c := pow2 e) in *. set (d := IZR D) in *.
  replace (IZR mf * (a * c) - IZR N / d * c)
    with (c / d * (IZR mf * a * d - IZR N)) by (field; lra).
  rewrite Rabs_mult, (Rabs_pos_eq (c / d)).
  2:{ apply Rlt_le, Rdiv_lt_0_compat; lra. }
  apply Rmult_le_reg_l with (2 * d / c).
  { apply Rdiv_lt_0_compat; lra. }
  replace (2 * d / c * (c / d * Rabs (IZR mf * a * d - IZR N)))
    with (2 * Rabs (IZR mf * a * d - IZR N)) by (field; lra).
  replace (2 * d / c * (b * c / 2)) with (d * b) by (field; lra).
  done.
Qed.

Definition SFfinite (x : spec_float) : bool :=
  match x with
  | S754_zero _ | S754_finite _ _ _ => true
  | _ => false
  end.

Section Error.
Variables prec emax : Z.
Hypothesis Hprec : (0 < prec)%Z.
Hypothesis Hemax : (prec < emax)%Z.

#[local] Abbreviation emin := (SpecFloat.emin prec emax).
#[local] Abbreviation fexp := (SpecFloat.fexp prec emax).

(** [r] is the float of sign [s] whose magnitude is within [err] of
    [x], or the infinity of that sign when that magnitude is beyond
    the format. *)
Definition rounded_to (x err : R) (s : bool) (r : spec_float) : Prop :=
  exists v,
    0 <= v /\ Rabs (v - x) <= err /\
    ((r = S754_infinity s /\ pow2 emax <= v) \/
     (SFfinite r = true /\ valid_binary prec emax r = true /\
      SF2R r = sign_R s * v)).

(** A mantissa of the format with an exponent above the largest is a
    magnitude of [2 ^ emax] at least. *)
Lemma canonical_overflow mf ef :
  (emax - prec < ef)%Z -> canonical_mantissa prec emax mf ef = true ->
  pow2 emax <= IZR (Zpos mf) * pow2 ef.
Proof.
  intros Hef Hc%Z.eqb_eq. unfold SpecFloat.fexp, SpecFloat.emin in Hc.
  assert (Zdigits2 (Zpos mf) = prec) as Hd by (simpl; lia).
  pose proof (Zdigits2_bounds (Zpos mf) ltac:(lia)) as [Hlo _].
  rewrite Hd in Hlo. apply IZR_le in Hlo. rewrite pow2_IZR in Hlo by lia.
  pose proof (pow2_mono (emax - prec + 1) ef ltac:(lia)) as Hm.
  pose proof (pow2_gt_0 (emax - prec + 1)).
  pose proof (pow2_gt_0 (prec - 1)).
  replace emax with ((prec - 1) + (emax - prec + 1))%Z at 1 by lia.
  rewrite pow2_plus. nra.
Qed.

Lemma binary_round_aux_rounded s m e l N D err :
  (0 <= m)%Z -> located N D (shr_record_of_loc m l) ->
  (e <= fexp (Zdigits2 m + e))%Z ->
  (forall mf ef,
     nearest N D e (fexp (Zdigits2 m + e)) mf ef ->
     Rabs (IZR mf * pow2 ef - IZR N / IZR D * pow2 e) <= err) ->
  rounded_to (IZR N / IZR D * pow2 e) err s
    (binary_round_aux prec emax s m e l).
Proof.
  intros Hm HN He Herr.
  pose proof (binary_round_aux_spec prec emax Hprec s m e l N D Hm HN He) as Hs.
  destruct (binary_round_aux prec emax s m e l) as [s'|s'| |s' mf ef].
  - destruct Hs as [-> Hn]. exists 0. split; [lra |].
    split; [| right; simpl; repeat split; lra].
    specialize (Herr _ _ Hn). by rewrite Rmult_0_l in Herr.
  - destruct Hs as (-> & mf & ef & Hef & Hc & Hn).
    exists (IZR (Zpos mf) * pow2 ef).
    pose proof (pow2_gt_0 ef). pose proof (IZR_lt 0 (Zpos mf) ltac:(lia)).
    split; [nra |]. split; [by apply Herr |]. left.
    split; [done | by apply canonical_overflow].
  - done.
  - destruct Hs as (-> & Hb & Hn). exists (IZR (Zpos mf) * pow2 ef).
    pose proof (pow2_gt_0 ef). pose proof (IZR_lt 0 (Zpos mf) ltac:(lia)).
    split; [nra |]. split; [by apply Herr |]. right.
    split; [done |]. split; [done | apply SF2R_finite].
Qed.

(** The error of a rounding is at most half a unit in the last
    place. *)
Theorem binary_round_aux_error s m e l N D :
  (0 <= m)%Z -> located N D (shr_record_of_loc m l) ->
  (e <= fexp (Zdigits2 m + e))%Z ->
  rounded_to (IZR N / IZR D * pow2 e) (pow2 (fexp (Zdigits2 m + e)) / 2) s
    (binary_round_aux prec emax s m e l).
Proof.
  intros Hm HN He. apply binary_round_aux_rounded; try done.
  intros mf ef Hn. apply nearest_R; [| done | done].
  destruct HN as (? & _ & ? & _). lia.
Qed.

(** A mantissa that needs no shift is not changed. *)
Theorem binary_round_aux_exact s m e :
  (0 <= m)%Z -> fexp (Zdigits2 m + e) = e ->
  rounded_to (IZR m * pow2 e) 0 s
    (binary_round_aux prec emax s m e loc_Exact).
Proof.
  intros Hm He.
  replace (IZR m * pow2 e) with (IZR m / IZR 1 * pow2 e) by (field; lra).
  apply binary_round_aux_rounded; [done | apply located_exact | lia |].
  intros mf ef [Hef Hn]. rewrite He in *.
  replace (e - e)%Z with 0%Z in Hn by lia.
  assert (mf * 2 ^ (ef - e) = m)%Z as <- by lia.
  rewrite mult_IZR, pow2_IZR by lia.
  replace ef with ((ef - e) + e)%Z at 1 by lia. rewrite pow2_plus.
  replace (_ - _) with 0 by (field; lra). rewrite Rabs_R0. lra.
Qed.

(** Outside the subnormal range half a unit in the last place is at
    most [2 ^ - prec] times the exact value. *)
Lemma ulp_small_R m e l N D :
  (0 <= m)%Z -> located N D (shr_record_of_loc m l) ->
  (e <= fexp (Zdigits2 m + e))%Z ->
  fexp (Zdigits2 m + e) = emin \/
  pow2 (fexp (Zdigits2 m + e)) / 2
  <= pow2 (- prec) * (IZR N / IZR D * pow2 e).
Proof.
  intros Hm HN He.
  destruct (ulp_small prec emax Hprec m e l N D Hm HN He) as [|Hu];
    [by left | right].
  assert (0 < D)%Z as HD by (destruct HN as (? & _ & ? & _); lia).
  apply IZR_le in Hu. rewrite !mult_IZR, !pow2_IZR in Hu by lia.
  apply IZR_lt in HD.
  set (e1 := fexp (Zdigits2 m + e)) in *.
  replace e1 with ((e1 - e) + e)%Z at 1 by lia. rewrite pow2_plus.
  pose proof (pow2_gt_0 e). pose proof (pow2_gt_0 (e1 - e)).
  pose proof (pow2_gt_0 (- prec)).
  assert (pow2 (prec - 1) * pow2 (- prec) = / 2) as Hp.
  { rewrite <- pow2_plus. replace (prec - 1 + - prec)%Z with (- 1)%Z by lia.
    unfold pow2. simpl. lra. }
  apply Rmult_le_reg_r with (IZR D * pow2 (prec - 1)).
  { pose proof (pow2_gt_0 (prec - 1)). nra. }
  replace (pow2 (- prec) * (IZR N / IZR D * pow2 e)
           * (IZR D * pow2 (prec - 1)))
    with (IZR N * pow2 e * (pow2 (prec - 1) * pow2 (- prec)))
    by (field; lra).
  rewrite Hp. pose proof (pow2_gt_0 (prec - 1)). nra.
Qed.

(** ** The standard model of an operation *)

(** The unit roundoff and the underflow threshold. *)
Definition unit_roundoff : R := pow2 (- prec).
Definition underflow : R := pow2 (emin - 1).

Lemma unit_roundoff_pos : 0 < unit_roundoff.
Proof. apply pow2_gt_0. Qed.

Lemma underflow_pos : 0 < underflow.
Proof. apply pow2_gt_0. Qed.

(** [r] is what an operation of exact result [X] returns: never NaN;
    when it is finite, a number of the format within a relative error
    of one unit roundoff of [X], up to [eta] in absolute value; when it
    is not, [X] is at the edge of the format or beyond. *)
Definition op_result (X eta : R) (r : spec_float) : Prop :=
  r <> S754_nan /\
  (SFfinite r = true ->
   valid_binary prec emax r = true /\
   Rabs (SF2R r - X) <= unit_roundoff * Rabs X + eta) /\
  (SFfinite r = false -> pow2 emax <= (1 + unit_roundoff) * Rabs X + eta).

Lemma rounded_to_result x err s r eta :
  0 <= x -> rounded_to x err s r -> err <= unit_roundoff * x + eta ->
  op_result (sign_R s * x) eta r.
Proof.
  intros Hx (v & Hv & Herr & Hr) Hle. unfold op_result.
  rewrite (Rabs_sign_R s x Hx).
  assert (v <= x + err) by (apply Rabs_le_between in Herr; lra).
  destruct Hr as [[-> Hov] | (Hf & Hval & HR)].
  - split; [done |]. split; [done |]. intros _. lra.
  - split; [by destruct r |]. split; [| by rewrite Hf].
    intros _. split; [done |]. rewrite HR.
    replace (sign_R s * v - sign_R s * x) with (sign_R s * (v - x)) by lra.
    rewrite Rabs_mult. replace (Rabs (sign_R s)) with 1; [lra |].
    destruct s; unfold sign_R, Rabs; destruct (Rcase_abs _); lra.
Qed.

Lemma op_result_exact r :
  SFfinite r = true -> valid_binary prec emax r = true ->
  op_result (SF2R r) 0 r.
Proof.
  intros Hf Hv. split; [by destruct r |]. split; [| by rewrite Hf].
  intros _. split; [done |]. rewrite Rminus_diag, Rabs_R0.
  pose proof unit_roundoff_pos. pose proof (Rabs_pos (SF2R r)). nra.
Qed.

Lemma op_result_weaken X eta eta' r :
  eta <= eta' -> op_result X eta r -> op_result X eta' r.
Proof.
  intros Hle (Hn & Hf & Hi). split; [done |]. split.
  - intros H. destruct (Hf H). split; [done | lra].
  - intros H. specialize (Hi H). lra.
Qed.

Lemma op_result_ext X Y eta r : X = Y -> op_result X eta r -> op_result Y eta r.
Proof. by intros ->. Qed.

(** *** Rounding a mantissa *)

Lemma binary_round_aux_model s m e l N D :
  (0 <= m)%Z -> located N D (shr_record_of_loc m l) ->
  (e <= fexp (Zdigits2 m + e))%Z ->
  op_result (sign_R s * (IZR N / IZR D * pow2 e)) underflow
    (binary_round_aux prec emax s m e l).
Proof.
  intros Hm HN He.
  assert (0 <= IZR N / IZR D * pow2 e) as Hx.
  { pose proof (located_nonneg _ _ _ HN) as HN0.
    assert (0 <= N)%Z by (apply HN0; by destruct l as [|[]]).
    assert (0 < D)%Z by (destruct HN as (? & _ & ? & _); lia).
    pose proof (pow2_gt_0 e). apply Rmult_le_pos; [| lra].
    apply Rmult_le_pos; [by apply IZR_le |].
    left. apply Rinv_0_lt_compat. by apply IZR_lt. }
  eapply rounded_to_result; [done | by apply binary_round_aux_error |].
  pose proof unit_roundoff_pos.
  destruct (ulp_small_R m e l N D Hm HN He) as [-> | Hu].
  - unfold underflow. rewrite pow2_pred. nra.
  - unfold unit_roundoff. pose proof underflow_pos. lra.
Qed.

(** [binary_round] loses nothing at the smallest exponent, so its
    error is relative. *)
Lemma binary_round_model s p e :
  (emin <= e)%Z ->
  op_result (sign_R s * (IZR (Zpos p) * pow2 e)) 0
    (binary_round prec emax s p e).
Proof.
  intros He. unfold binary_round.
  set (f := fexp (Z.pos (digits2_pos p) + e)).
  destruct (shl_align_spec p e f) as [Hez Hmz].
  destruct (shl_align p e f) as [mz ez]. simpl in Hez, Hmz.
  assert (Zdigits2 (Zpos mz) + ez = Zpos (digits2_pos p) + e)%Z as Hd.
  { rewrite Hmz, Zdigits2_shift by lia. simpl. lia. }
  assert (IZR (Zpos mz) * pow2 ez = IZR (Zpos p) * pow2 e) as HR.
  { rewrite Hmz, mult_IZR, pow2_IZR by lia.
    replace (pow2 e) with (pow2 ((e - Z.min e f) + ez)) by (f_equal; lia).
    rewrite pow2_plus. lra. }
  assert (0 <= IZR (Zpos p) * pow2 e) as Hx.
  { pose proof (pow2_gt_0 e). pose proof (IZR_lt 0 (Zpos p) ltac:(lia)). nra. }
  rewrite <- HR in *.
  destruct (Z_le_gt_dec f e) as [Hfe|Hfe].
  - eapply rounded_to_result; [done | | ].
    + apply binary_round_aux_exact; [lia |]. rewrite Hd. fold f. lia.
    + pose proof unit_roundoff_pos. nra.
  - eapply rounded_to_result; [done | |].
    + replace (IZR (Zpos mz) * pow2 ez)
        with (IZR (Zpos mz) / IZR 1 * pow2 ez) by (field; lra).
      apply binary_round_aux_error; [lia | apply located_exact |].
      rewrite Hd. fold f. lia.
    + rewrite Hd. fold f.
      destruct (ulp_small_R (Zpos mz) ez loc_Exact (Zpos mz) 1
                  ltac:(lia) (located_exact _)) as [Hmin | Hu].
      * rewrite Hd. fold f. lia.
      * rewrite Hd in Hmin. fold f in Hmin. lia.
      * rewrite Hd in Hu. fold f in Hu. unfold unit_roundoff.
        replace (IZR (Zpos mz) / 1 * pow2 ez)
          with (IZR (Zpos mz) * pow2 ez) in Hu by (field; lra). lra.
Qed.

(** ** The operations *)

Lemma valid_canonical s m e :
  valid_binary prec emax (S754_finite s m e) = true ->
  canonical_mantissa prec emax m e = true.
Proof. simpl. unfold bounded. by intros [? _]%andb_prop. Qed.

Lemma op_result_zero s eta : 0 <= eta -> op_result 0 eta (S754_zero s).
Proof.
  intros. apply (op_result_weaken 0 0); [done |].
  by apply (op_result_exact (S754_zero s)).
Qed.

Lemma binary_normalize_model m e sz :
  (emin <= e)%Z ->
  op_result (IZR m * pow2 e) 0 (binary_normalize prec emax m e sz).
Proof.
  intros He. destruct m as [|p|p]; simpl.
  - eapply op_result_ext; [| apply op_result_zero; lra]. lra.
  - eapply op_result_ext; [| by apply (binary_round_model false)].
    unfold sign_R. lra.
  - eapply op_result_ext; [| by apply (binary_round_model true)].
    unfold sign_R. change (Z.neg p) with (- Z.pos p)%Z. rewrite opp_IZR. lra.
Qed.

(** An operand of an addition, shifted to the smaller exponent. *)
Lemma aligned_value s mx ex ez :
  (ez <= ex)%Z ->
  IZR (cond_Zopp s (Zpos (shl_align mx ex ez).1)) * pow2 ez
  = SF2R (S754_finite s mx ex).
Proof.
  intros Hle. destruct (shl_align_spec mx ex ez) as [_ Hm].
  rewrite SF2R_finite.
  replace (IZR (cond_Zopp s (Zpos (shl_align mx ex ez).1)))
    with (sign_R s * IZR (Zpos (shl_align mx ex ez).1))
    by (destruct s; unfold cond_Zopp, sign_R; [rewrite opp_IZR |]; lra).
  rewrite Hm, mult_IZR, pow2_IZR by lia.
  replace (pow2 ex) with (pow2 ((ex - Z.min ex ez) + ez))
    by (f_equal; lia).
  rewrite pow2_plus. replace (Z.min ex ez) with ez by lia. lra.
Qed.

Theorem SFmul_model x y :
  valid_binary prec emax x = true -> valid_binary prec emax y = true ->
  SFfinite x = true -> SFfinite y = true ->
  op_result (SF2R x * SF2R y) underflow (SFmul prec emax x y).
Proof.
  intros Hx Hy Hfx Hfy. pose proof underflow_pos.
  destruct x as [sx| | |sx mx ex], y as [sy| | |sy my ey]; try done;
    simpl SFmul;
    try (eapply op_result_ext; [| apply op_result_zero; lra]; simpl; lra).
  eapply op_result_ext;
    [| apply (binary_round_aux_model _ _ _ _ (Zpos (mx * my)) 1)].
  - rewrite !SF2R_finite, sign_R_xorb, Pos2Z.inj_mul, mult_IZR, pow2_plus.
    field.
  - lia.
  - apply located_exact.
  - apply (mul_shift _ _ Hemax); by eapply valid_canonical.
Qed.

Lemma SFadd_sub_model (sy' : bool) sx mx ex sy my ey :
  valid_binary prec emax (S754_finite sx mx ex) = true ->
  valid_binary prec emax (S754_finite sy my ey) = true ->
  op_result (SF2R (S754_finite sx mx ex) + SF2R (S754_finite sy' my ey)) 0
    (binary_normalize prec emax
       (cond_Zopp sx (Zpos (shl_align mx ex (Z.min ex ey)).1)
        + cond_Zopp sy' (Zpos (shl_align my ey (Z.min ex ey)).1))
       (Z.min ex ey) false).
Proof.
  intros (Hex & _)%valid_canonical%canonical_digits.
  intros (Hey & _)%valid_canonical%canonical_digits.
  eapply op_result_ext; [| apply binary_normalize_model; lia].
  rewrite plus_IZR, Rmult_plus_distr_r, !aligned_value by lia. done.
Qed.

Theorem SFadd_model x y :
  valid_binary prec emax x = true -> valid_binary prec emax y = true ->
  SFfinite x = true -> SFfinite y = true ->
  op_result (SF2R x + SF2R y) 0 (SFadd prec emax x y).
Proof.
  intros Hx Hy Hfx Hfy.
  destruct x as [sx| | |sx mx ex], y as [sy| | |sy my ey]; try done.
  - destruct sx, sy; simpl SFadd;
      (eapply op_result_ext; [| apply op_result_zero; lra]); simpl; lra.
  - eapply op_result_ext; [| by apply (op_result_exact (S754_finite sy my ey))].
    simpl. lra.
  - eapply op_result_ext; [| by apply (op_result_exact (S754_finite sx mx ex))].
    simpl. lra.
  - exact (SFadd_sub_model sy _ _ _ _ _ _ Hx Hy).
Qed.

Lemma SFopp_value x : SF2R (SFopp x) = - SF2R x.
Proof.
  destruct x as [| | |s m e]; simpl; try lra.
  destruct s; simpl; rewrite ?opp_IZR; lra.
Qed.

Lemma SF2R_negb s m e :
  SF2R (S754_finite (negb s) m e) = - SF2R (S754_finite s m e).
Proof. exact (SFopp_value (S754_finite s m e)). Qed.

Lemma sub_cond_Zopp a s z :
  (a - cond_Zopp s z = a + cond_Zopp (negb s) z)%Z.
Proof. destruct s; simpl; lia. Qed.

Theorem SFsub_model x y :
  valid_binary prec emax x = true -> valid_binary prec emax y = true ->
  SFfinite x = true -> SFfinite y = true ->
  op_result (SF2R x - SF2R y) 0 (SFsub prec emax x y).
Proof.
  intros Hx Hy Hfx Hfy.
  destruct x as [sx| | |sx mx ex], y as [sy| | |sy my ey]; try done.
  - destruct sx, sy; simpl SFsub;
      (eapply op_result_ext; [| apply op_result_zero; lra]); simpl; lra.
  - eapply op_result_ext;
      [| by apply (op_result_exact (S754_finite (negb sy) my ey))].
    rewrite SF2R_negb. simpl (SF2R (S754_zero _)). lra.
  - eapply op_result_ext; [| by apply (op_result_exact (S754_finite sx mx ex))].
    simpl. lra.
  - unfold SFsub. cbv zeta. rewrite sub_cond_Zopp.
    eapply op_result_ext;
      [| exact (SFadd_sub_model (negb sy) _ _ _ _ _ _ Hx Hy)].
    rewrite SF2R_negb. lra.
Qed.

Theorem SFdiv_model x y :
  valid_binary prec emax x = true -> valid_binary prec emax y = true ->
  SFfinite x = true -> SF2R y <> 0 ->
  op_result (SF2R x / SF2R y) underflow (SFdiv prec emax x y).
Proof.
  intros Hx Hy Hfx Hy0. pose proof underflow_pos.
  destruct x as [sx| | |sx mx ex], y as [sy| | |sy my ey]; try done.
  - eapply op_result_ext; [| apply (op_result_zero (xorb sx sy)); lra].
    simpl (SF2R (S754_zero _)). unfold Rdiv. lra.
  - apply valid_canonical in Hx, Hy.
    destruct (SFdiv_core_binary_spec _ _ Hprec mx ex my ey Hx Hy)
      as (q & e' & l & k & Heq & Hk & He' & Hq & Hloc & Hsh).
    unfold SFdiv. rewrite Heq.
    eapply op_result_ext; [| by apply (binary_round_aux_model _ _ _ _ _ _ Hq Hloc)].
    rewrite !SF2R_finite, sign_R_xorb, mult_IZR, pow2_IZR by lia.
    replace (pow2 ex) with (pow2 (e' + k + ey)) by (f_equal; lia).
    rewrite !pow2_plus.
    pose proof (pow2_gt_0 ey). pose proof (IZR_lt 0 (Zpos my) ltac:(lia)).
    destruct sx, sy; unfold sign_R; field; lra.
Qed.

(** A finite result has finite operands. *)
Lemma SFmul_finite x y :
  SFfinite (SFmul prec emax x y) = true ->
  SFfinite x = true /\ SFfinite y = true.
Proof. by destruct x as [[]|[]| |], y as [[]|[]| |]. Qed.

Lemma SFadd_finite x y :
  SFfinite (SFadd prec emax x y) = true ->
  SFfinite x = true /\ SFfinite y = true.
Proof. by destruct x as [[]|[]| |], y as [[]|[]| |]. Qed.

Lemma SFsub_finite x y :
  SFfinite (SFsub prec emax x y) = true ->
  SFfinite x = true /\ SFfinite y = true.
Proof. by destruct x as [[]|[]| |], y as [[]|[]| |]. Qed.

Lemma SFdiv_finite x y :
  SFfinite (SFdiv prec emax x y) = true -> SF2R y <> 0 ->
  SFfinite x = true.
Proof. by destruct x as [[]|[]| |], y as [[]|[]| |]. Qed.

Lemma SFabs_value x : SF2R (SFabs x) = Rabs (SF2R x).
Proof.
  destruct x as [| | |s m e]; simpl; rewrite ?Rabs_R0; try done.
  fold (SF2R (S754_finite false m e)) (SF2R (S754_finite s m e)).
  rewrite !SF2R_finite, Rabs_sign_R; [unfold sign_R; lra |].
  pose proof (pow2_gt_0 e). pose proof (IZR_lt 0 (Zpos m) ltac:(lia)). nra.
Qed.

Lemma SFabs_finite x : SFfinite (SFabs x) = SFfinite x.
Proof. by destruct x. Qed.

Lemma SFopp_finite x : SFfinite (SFopp x) = SFfinite x.
Proof. by destruct x. Qed.

End Error.
