(* ===== verification/Reconstructor.v ===== *)
(** * Reconstructor: the constructor of [HipparcosLogProb]

    [HipparcosLogProb.__init__] (lines 30-92 of [compute_chi2.py]) reads
    the catalogue solution and the scan data through its collaborators
    and reconstructs the abscissa point of every scan.  The object it
    builds is the record [HipparcosLogProb]; the collaborators (Vizier,
    [np.loadtxt], astropy's [Time] and ephemeris) are the interface
    [Collaborators]; [init] is the constructor and [reconstruct] its
    arithmetic (lines 74-92).  The invariant [wf] says that all per-epoch
    attributes have one length; [CollaboratorsOk] is what the
    collaborators must promise for [init] to establish it. *)

From Stdlib Require Import QArith.
From S2P Require Import Prelude Scalar NumPy.

(** ** Data *)

(** One row of the catalogue table [I/311/hip2], by column name. *)
Record Catalog (F : Type) : Type := {
  cat_RArad : F;
  cat_e_RArad : F;
  cat_DErad : F;
  cat_e_DErad : F;
  cat_Plx : F;
  cat_e_Plx : F;
  cat_pmRA : F;
  cat_e_pmRA : F;
  cat_pmDE : F;
  cat_e_pmDE : F
}.

Arguments cat_RArad {F}.
Arguments cat_e_RArad {F}.
Arguments cat_DErad {F}.
Arguments cat_e_DErad {F}.
Arguments cat_Plx {F}.
Arguments cat_e_Plx {F}.
Arguments cat_pmRA {F}.
Arguments cat_e_pmRA {F}.
Arguments cat_pmDE {F}.
Arguments cat_e_pmDE {F}.

(** The attributes of a constructed object ([self.plx0], ...). *)
Record HipparcosLogProb (F : Type) : Type := {
  self_hip_num : string;
  self_plx0 : F;
  self_pm_ra0 : F;
  self_pm_dec0 : F;
  self_alpha0 : F;
  self_delta0 : F;
  self_plx0_err : F;
  self_pm_ra0_err : F;
  self_pm_dec0_err : F;
  self_alpha0_err : F;
  self_delta0_err : F;
  self_epochs : list F;
  self_epochs_mjd : list F;
  self_cos_phi : list F;
  self_sin_phi : list F;
  self_R : list F;
  self_eps : list F;
  self_X : list F;
  self_Y : list F;
  self_Z : list F;
  self_alpha_abs_st : list F;
  self_delta_abs : list F
}.

Arguments self_hip_num {F}.
Arguments self_plx0 {F}.
Arguments self_pm_ra0 {F}.
Arguments self_pm_dec0 {F}.
Arguments self_alpha0 {F}.
Arguments self_delta0 {F}.
Arguments self_plx0_err {F}.
Arguments self_pm_ra0_err {F}.
Arguments self_pm_dec0_err {F}.
Arguments self_alpha0_err {F}.
Arguments self_delta0_err {F}.
Arguments self_epochs {F}.
Arguments self_epochs_mjd {F}.
Arguments self_cos_phi {F}.
Arguments self_sin_phi {F}.
Arguments self_R {F}.
Arguments self_eps {F}.
Arguments self_X {F}.
Arguments self_Y {F}.
Arguments self_Z {F}.
Arguments self_alpha_abs_st {F}.
Arguments self_delta_abs {F}.

(** Entry [i] of every per-epoch attribute: the data of one scan. *)
Record Scan (F : Type) : Type := {
  s_epoch : F;
  s_mjd : F;
  s_cos_phi : F;
  s_sin_phi : F;
  s_R : F;
  s_eps : F;
  s_X : F;
  s_Y : F;
  s_Z : F;
  s_alpha_abs_st : F;
  s_delta_abs : F
}.

Arguments s_epoch {F}.
Arguments s_mjd {F}.
Arguments s_cos_phi {F}.
Arguments s_sin_phi {F}.
Arguments s_R {F}.
Arguments s_eps {F}.
Arguments s_X {F}.
Arguments s_Y {F}.
Arguments s_Z {F}.
Arguments s_alpha_abs_st {F}.
Arguments s_delta_abs {F}.

(** ** The collaborators *)

(** What the constructor calls outside the program.  Each call may
    raise.  [query_constraints hip] is the list of tables Vizier
    returns, a table being the list of its rows; [loadtxt file] is the
    list of the data rows of the file, which
    [np.loadtxt(file, skiprows=1)] returns as a two-dimensional array
    when there are at least two rows of at least two columns (the case
    [load] models; [Ranks] has the others); [Time_decimalyear] and [Time_mjd] are the two views of
    [Time(times, format='decimalyear')]; [earth_barycentric_pos] is the
    position part of [get_body_barycentric_posvel('earth', epochs)] as
    its three coordinate arrays in au. *)
Class Collaborators (F : Type) : Type := {
  query_constraints : string -> py (list (list (Catalog F)));
  loadtxt : string -> py (list (list F));
  Time_decimalyear : list F -> py (list F);
  Time_mjd : list F -> py (list F);
  earth_barycentric_pos : list F -> py (list F * list F * list F)
}.

(** The number of columns of a table given by its rows. *)
Definition table_ncols {F} (table : list (list F)) : nat :=
  match table with
  | [] => 0
  | row :: _ => length row
  end.

(** What the collaborators promise about shapes: the table is
    rectangular, and the time and ephemeris services answer with one
    value per epoch. *)
Class CollaboratorsOk (F : Type) `{Collaborators F} : Prop := {
  loadtxt_rect : forall file table,
    loadtxt file = Ok table ->
    Forall (fun row => length row = table_ncols table) table;
  Time_decimalyear_length : forall times r,
    Time_decimalyear times = Ok r -> length r = length times;
  Time_mjd_length : forall times r,
    Time_mjd times = Ok r -> length r = length times;
  earth_barycentric_pos_length : forall times x y z,
    earth_barycentric_pos times = Ok (x, y, z) ->
    length x = length times /\ length y = length times /\
    length z = length times
}.

(** ** The constructor *)

(** ['/data/user/sblunt/HipIAD/H{}/HIP{}.d'.format(hip_num[0:3], hip_num)] *)
Definition iad_file_name (hip_num : string) : string :=
  ("/data/user/sblunt/HipIAD/H" ++ String.substring 0 3 hip_num
   ++ "/HIP" ++ hip_num ++ ".d")%string.

Section Reconstructor.
Context {F : Type} `{Scalar F, Trig F}.
Implicit Types (self : HipparcosLogProb F) (sc : Scan F).

(** Lines 35-53: the row of the catalogue from which the attributes of
    the catalogue solution are read. *)
Definition load_catalog `{Collaborators F} (hip_num : string)
    : py (Catalog F) :=
  tables <- query_constraints hip_num ;;
  hip_cat <- getitem tables 0 ;;
  getitem hip_cat 0.

(** Lines 57-72, for a two-dimensional [table]: the per-epoch
    attributes.  The two attributes that lines 91-92 set are still
    empty. *)
Definition load_iad `{Collaborators F} (hip_num : string) (row : Catalog F)
    (table : list (list F)) : py (HipparcosLogProb F) :=
  let iad := np_transpose (table_ncols table) table in
  iad1 <- getitem iad 1 ;;
  let times := np_rscalar fadd iad1 (flit 1991.25) in
  decimalyear <- Time_decimalyear times ;;
  mjd <- Time_mjd times ;;
  cos_phi <- getitem iad 3 ;;
  sin_phi <- getitem iad 4 ;;
  R <- getitem iad 5 ;;
  eps <- getitem iad 6 ;;
  bary_pos <- earth_barycentric_pos times ;;
  Ok {| self_hip_num := hip_num;
        self_plx0 := cat_Plx row;
        self_pm_ra0 := cat_pmRA row;
        self_pm_dec0 := cat_pmDE row;
        self_alpha0 := cat_RArad row;
        self_delta0 := cat_DErad row;
        self_plx0_err := cat_e_Plx row;
        self_pm_ra0_err := cat_e_pmRA row;
        self_pm_dec0_err := cat_e_pmDE row;
        self_alpha0_err := cat_e_RArad row;
        self_delta0_err := cat_e_DErad row;
        self_epochs := decimalyear;
        self_epochs_mjd := mjd;
        self_cos_phi := cos_phi;
        self_sin_phi := sin_phi;
        self_R := R;
        self_eps := eps;
        self_X := bary_pos.1.1;
        self_Y := bary_pos.1.2;
        self_Z := bary_pos.2;
        self_alpha_abs_st := [];
        self_delta_abs := [] |}.

(** Lines 30-72: the attributes read from the collaborators. *)
Definition load `{Collaborators F} (hip_num : string)
    : py (HipparcosLogProb F) :=
  row <- load_catalog hip_num ;;
  table <- loadtxt (iad_file_name hip_num) ;;
  load_iad hip_num row table.

(** Lines 75-80: the expected offset in right ascension of the star
    under the catalogue solution (Nielsen+ 2020, Eq 1), for all epochs
    at once. *)
Definition changein_alpha_st self : py (list F) :=
  let xs := np_rscalar fmul (self_X self)
              (np_sin (np_radians (self_alpha0 self))) in
  let yc := np_rscalar fmul (self_Y self)
              (np_cos (np_radians (self_alpha0 self))) in
  d <- np_sub xs yc ;;
  let par := np_lscalar fmul (self_plx0 self) d in
  let pm := np_rscalar fmul
              (np_rscalar fsub (self_epochs self) (flit 1991.25))
              (self_pm_ra0 self) in
  np_add par pm.

(** Lines 82-88: the same in declination (Eq 2). *)
Definition changein_delta self : py (list F) :=
  let xcs := np_rscalar fmul
               (np_rscalar fmul (self_X self)
                  (np_cos (np_radians (self_alpha0 self))))
               (np_sin (np_radians (self_delta0 self))) in
  let yss := np_rscalar fmul
               (np_rscalar fmul (self_Y self)
                  (np_sin (np_radians (self_alpha0 self))))
               (np_sin (np_radians (self_delta0 self))) in
  s <- np_add xcs yss ;;
  let zc := np_rscalar fmul (self_Z self)
              (np_cos (np_radians (self_delta0 self))) in
  d <- np_sub s zc ;;
  let par := np_lscalar fmul (self_plx0 self) d in
  let pm := np_rscalar fmul
              (np_rscalar fsub (self_epochs self) (flit 1991.25))
              (self_pm_dec0 self) in
  np_add par pm.

(** [self] with the two reconstructed attributes set. *)
Definition set_abscissa self (alpha_abs_st delta_abs : list F)
    : HipparcosLogProb F :=
  {| self_hip_num := self_hip_num self;
     self_plx0 := self_plx0 self;
     self_pm_ra0 := self_pm_ra0 self;
     self_pm_dec0 := self_pm_dec0 self;
     self_alpha0 := self_alpha0 self;
     self_delta0 := self_delta0 self;
     self_plx0_err := self_plx0_err self;
     self_pm_ra0_err := self_pm_ra0_err self;
     self_pm_dec0_err := self_pm_dec0_err self;
     self_alpha0_err := self_alpha0_err self;
     self_delta0_err := self_delta0_err self;
     self_epochs := self_epochs self;
     self_epochs_mjd := self_epochs_mjd self;
     self_cos_phi := self_cos_phi self;
     self_sin_phi := self_sin_phi self;
     self_R := self_R self;
     self_eps := self_eps self;
     self_X := self_X self;
     self_Y := self_Y self;
     self_Z := self_Z self;
     self_alpha_abs_st := alpha_abs_st;
     self_delta_abs := delta_abs |}.

(** Lines 74-92: the reconstruction of the abscissa points (Eq 3). *)
Definition reconstruct self : py (HipparcosLogProb F) :=
  ca <- changein_alpha_st self ;;
  cd <- changein_delta self ;;
  rc <- np_mul (self_R self) (self_cos_phi self) ;;
  alpha_abs_st <- np_add rc ca ;;
  rs <- np_mul (self_R self) (self_sin_phi self) ;;
  delta_abs <- np_add rs cd ;;
  Ok (set_abscissa self alpha_abs_st delta_abs).

(** Lines 30-92. *)
Definition init `{Collaborators F} (hip_num : string)
    : py (HipparcosLogProb F) :=
  self <- load hip_num ;;
  reconstruct self.

(** ** The invariant *)

(** The number of scans. *)
Definition n_epochs self : nat := length (self_epochs self).

(** The attributes read from the collaborators have one entry per
    scan. *)
Definition wf_inputs self : Prop :=
  length (self_epochs_mjd self) = n_epochs self /\
  length (self_cos_phi self) = n_epochs self /\
  length (self_sin_phi self) = n_epochs self /\
  length (self_R self) = n_epochs self /\
  length (self_eps self) = n_epochs self /\
  length (self_X self) = n_epochs self /\
  length (self_Y self) = n_epochs self /\
  length (self_Z self) = n_epochs self.

(** Every per-epoch attribute has one entry per scan. *)
Definition wf self : Prop :=
  wf_inputs self /\
  length (self_alpha_abs_st self) = n_epochs self /\
  length (self_delta_abs self) = n_epochs self.

#[export] Instance wf_inputs_dec self : Decision (wf_inputs self).
Proof. unfold wf_inputs. apply _. Defined.

#[export] Instance wf_dec self : Decision (wf self).
Proof. unfold wf. apply _. Defined.

(** ** The object as a list of scans *)

Definition scan_at self (i : nat) : Scan F :=
  {| s_epoch := self_epochs self !!! i;
     s_mjd := self_epochs_mjd self !!! i;
     s_cos_phi := self_cos_phi self !!! i;
     s_sin_phi := self_sin_phi self !!! i;
     s_R := self_R self !!! i;
     s_eps := self_eps self !!! i;
     s_X := self_X self !!! i;
     s_Y := self_Y self !!! i;
     s_Z := self_Z self !!! i;
     s_alpha_abs_st := self_alpha_abs_st self !!! i;
     s_delta_abs := self_delta_abs self !!! i |}.

Definition scans self : list (Scan F) :=
  scan_at self <$> seq 0 (n_epochs self).

(** The object whose per-epoch attributes are the columns of [l]. *)
Definition with_scans self (l : list (Scan F)) : HipparcosLogProb F :=
  {| self_hip_num := self_hip_num self;
     self_plx0 := self_plx0 self;
     self_pm_ra0 := self_pm_ra0 self;
     self_pm_dec0 := self_pm_dec0 self;
     self_alpha0 := self_alpha0 self;
     self_delta0 := self_delta0 self;
     self_plx0_err := self_plx0_err self;
     self_pm_ra0_err := self_pm_ra0_err self;
     self_pm_dec0_err := self_pm_dec0_err self;
     self_alpha0_err := self_alpha0_err self;
     self_delta0_err := self_delta0_err self;
     self_epochs := s_epoch <$> l;
     self_epochs_mjd := s_mjd <$> l;
     self_cos_phi := s_cos_phi <$> l;
     self_sin_phi := s_sin_phi <$> l;
     self_R := s_R <$> l;
     self_eps := s_eps <$> l;
     self_X := s_X <$> l;
     self_Y := s_Y <$> l;
     self_Z := s_Z <$> l;
     self_alpha_abs_st := s_alpha_abs_st <$> l;
     self_delta_abs := s_delta_abs <$> l |}.

(** ** The formulas for one scan *)

(** The parallax factors of a scan: the brackets of lines 77-78 and
    84-86, which lines 166-167 and 170-172 repeat. *)
Definition par_alpha self sc : F :=
  fsub (fmul (s_X sc) (np_sin (np_radians (self_alpha0 self))))
       (fmul (s_Y sc) (np_cos (np_radians (self_alpha0 self)))).

Definition par_delta self sc : F :=
  fsub (fadd (fmul (fmul (s_X sc) (np_cos (np_radians (self_alpha0 self))))
                   (np_sin (np_radians (self_delta0 self))))
             (fmul (fmul (s_Y sc) (np_sin (np_radians (self_alpha0 self))))
                   (np_sin (np_radians (self_delta0 self)))))
       (fmul (s_Z sc) (np_cos (np_radians (self_delta0 self)))).

(** The abscissa point of a scan: what lines 75-92 store at its index. *)
Definition abscissa self sc : F * F :=
  (fadd (fmul (s_R sc) (s_cos_phi sc))
        (fadd (fmul (self_plx0 self) (par_alpha self sc))
              (fmul (fsub (s_epoch sc) (flit 1991.25)) (self_pm_ra0 self))),
   fadd (fmul (s_R sc) (s_sin_phi sc))
        (fadd (fmul (self_plx0 self) (par_delta self sc))
              (fmul (fsub (s_epoch sc) (flit 1991.25)) (self_pm_dec0 self)))).

(** The scan with its abscissa point set. *)
Definition set_scan_abscissa sc (p : F * F) : Scan F :=
  {| s_epoch := s_epoch sc;
     s_mjd := s_mjd sc;
     s_cos_phi := s_cos_phi sc;
     s_sin_phi := s_sin_phi sc;
     s_R := s_R sc;
     s_eps := s_eps sc;
     s_X := s_X sc;
     s_Y := s_Y sc;
     s_Z := s_Z sc;
     s_alpha_abs_st := p.1;
     s_delta_abs := p.2 |}.

End Reconstructor.

(** ** Facts about the object and its scans *)

Section ReconstructorFacts.
Context {F : Type} `{Scalar F, Trig F}.
Implicit Types (self : HipparcosLogProb F) (sc : Scan F) (l : list (Scan F)).

(** Setting the reconstructed attributes does not change what the
    reconstruction reads. *)
Lemma reconstruct_set_abscissa self a d :
  reconstruct (set_abscissa self a d) = reconstruct self.
Proof. reflexivity. Qed.

Lemma with_scans_inputs self :
  wf_inputs self ->
  with_scans self (scans self)
  = set_abscissa self (s_alpha_abs_st <$> scans self)
      (s_delta_abs <$> scans self).
Proof.
  destruct self. unfold wf_inputs, scans, n_epochs, with_scans, set_abscissa.
  simpl. intros (? & ? & ? & ? & ? & ? & ? & ?).
  rewrite <- !list_fmap_compose. unfold compose. simpl.
  f_equal; by apply fmap_seq_lookup_total.
Qed.

(** A well-formed object is the object of its scans. *)
Lemma wf_with_scans self : wf self -> with_scans self (scans self) = self.
Proof.
  intros (Hin & Ha & Hd). rewrite (with_scans_inputs self Hin).
  destruct self. unfold scans, n_epochs, set_abscissa in *. simpl in *.
  rewrite <- !list_fmap_compose. unfold compose. simpl.
  f_equal; by apply fmap_seq_lookup_total.
Qed.

Lemma with_scans_wf self l : wf (with_scans self l).
Proof.
  unfold wf, wf_inputs, n_epochs. simpl. rewrite !length_fmap. done.
Qed.

Lemma scans_with_scans self l : scans (with_scans self l) = l.
Proof.
  unfold scans, n_epochs. simpl. rewrite length_fmap.
  apply list_eq. intros i. rewrite list_lookup_fmap.
  destruct (l !! i) as [sc|] eqn:Hsc.
  - rewrite lookup_seq_lt by (by eapply lookup_lt_Some). simpl.
    unfold scan_at. simpl. rewrite !(lookup_total_fmap_Some _ _ _ _ Hsc).
    by destruct sc.
  - by rewrite lookup_seq_ge by (by apply lookup_ge_None).
Qed.

Lemma length_scans self : length (scans self) = n_epochs self.
Proof. unfold scans. by rewrite length_fmap, length_seq. Qed.

(** ** The reconstruction, scan by scan *)

Lemma reconstruct_scans self l :
  reconstruct (with_scans self l)
  = Ok (with_scans self
          ((fun sc => set_scan_abscissa sc (abscissa self sc)) <$> l)).
Proof.
  unfold reconstruct, changein_alpha_st, changein_delta. simpl. batch.
  unfold set_abscissa, with_scans. simpl.
  by rewrite <- !list_fmap_compose.
Qed.

(** On inputs of one length the reconstruction does not raise, and it
    stores the abscissa point of every scan. *)
Lemma reconstruct_ok self :
  wf_inputs self ->
  reconstruct self
  = Ok (with_scans self
          ((fun sc => set_scan_abscissa sc (abscissa self sc))
             <$> scans self)).
Proof.
  intros Hin. rewrite <- reconstruct_scans, (with_scans_inputs self Hin).
  by rewrite reconstruct_set_abscissa.
Qed.

(** ** Construction failures *)

(** The scans and the ephemeris must agree in number.  When the
    three coordinate arrays of the Earth have one length and the epochs
    another, and neither is one, the reconstruction raises
    [ValueError]: no object is built. *)
Theorem reconstruct_shape_mismatch self :
  length (self_Y self) = length (self_X self) ->
  length (self_epochs self) <> length (self_X self) ->
  length (self_X self) <> 1 -> length (self_epochs self) <> 1 ->
  reconstruct self = Raise ValueError.
Proof.
  intros Hy Hne Hx He. unfold reconstruct, changein_alpha_st, np_sub, np_add.
  rewrite np_binop_same by (by rewrite !np_rscalar_length). simpl.
  rewrite np_binop_raise; [done | ..];
    rewrite ?np_lscalar_length, ?np_rscalar_length, ?length_zip_with,
      ?np_rscalar_length; lia.
Qed.

Section Failures.
Context `{Collaborators F}.

(** A star the catalogue does not know.  When the query returns no
    table, or a table without rows, the constructor raises
    [IndexError]; the data file is not read. *)
Theorem init_unknown_star hip_num tables :
  query_constraints hip_num = Ok tables ->
  tables = [] \/ (exists rest, tables = [] :: rest) ->
  init hip_num = Raise IndexError.
Proof.
  intros Hq Hempty. unfold init, load, load_catalog. rewrite Hq.
  by destruct Hempty as [-> | [rest ->]].
Qed.

(** A failure of [np.loadtxt] (a missing or malformed file) is
    the failure of the constructor: the exception is raised unchanged
    once the catalogue has answered with a row. *)
Theorem init_loadtxt_raises hip_num row rows tables e :
  query_constraints hip_num = Ok ((row :: rows) :: tables) ->
  loadtxt (iad_file_name hip_num) = Raise e ->
  init hip_num = Raise e.
Proof.
  intros Hq Hl. unfold init, load, load_catalog.
  by rewrite Hq; simpl; rewrite Hl.
Qed.

End Failures.

(** ** The constructor *)

Section WithCollaborators.
Context `{CollaboratorsOk F}.

(** The columns of a rectangular table have one entry per row. *)
Lemma getitem_transpose_length (table : list (list F)) j col :
  Forall (fun row => length row = table_ncols table) table ->
  getitem (np_transpose (table_ncols table) table) j = Ok col ->
  length col = length table.
Proof.
  intros Hrect Hj%getitem_ok_iff.
  pose proof (np_transpose_rows _ _ Hrect) as Hcols.
  rewrite Forall_forall in Hcols. apply Hcols.
  by eapply list_elem_of_lookup_2.
Qed.

Lemma load_iad_wf_inputs hip_num row table self :
  Forall (fun row => length row = table_ncols table) table ->
  load_iad hip_num row table = Ok self -> wf_inputs self.
Proof.
  unfold load_iad. intros Hrect Hload.
  do 8 py_inv Hload.
  repeat match goal with
  | E : getitem (np_transpose _ _) _ = Ok _ |- _ =>
      apply (getitem_transpose_length _ _ _ Hrect) in E
  | E : Time_decimalyear _ = Ok _ |- _ => apply Time_decimalyear_length in E
  | E : Time_mjd _ = Ok _ |- _ => apply Time_mjd_length in E
  | E : earth_barycentric_pos _ = Ok (?x, ?y, ?z) |- _ =>
      apply earth_barycentric_pos_length in E as (? & ? & ?)
  | E : earth_barycentric_pos _ = Ok ?p |- _ => destruct p as [[? ?] ?]
  end.
  injection Hload as <-.
  rewrite np_rscalar_length in *.
  unfold wf_inputs, n_epochs. simpl. repeat split; congruence.
Qed.

Lemma load_wf_inputs hip_num self :
  load hip_num = Ok self -> wf_inputs self.
Proof.
  unfold load. intros Hload. py_inv Hload. py_inv Hload.
  eapply load_iad_wf_inputs; [| done]. by eapply loadtxt_rect.
Qed.

(** The object the constructor returns is well formed. *)
Lemma init_wf hip_num self : init hip_num = Ok self -> wf self.
Proof.
  unfold init. intros Hinit. py_inv Hinit.
  rewrite (reconstruct_ok _ (load_wf_inputs _ _ E)) in Hinit.
  injection Hinit as <-. apply with_scans_wf.
Qed.

(** C7: once the collaborators have answered, the constructor does not
    fail: the reconstruction raises nothing, the object it returns is
    well formed, and the abscissa point stored for every scan is
    [R * (cos phi, sin phi)] plus the offset of the star under the
    catalogue solution at that scan's epoch. *)
Theorem init_spec hip_num self0 :
  load hip_num = Ok self0 ->
  exists self,
    init hip_num = Ok self /\ wf self /\
    n_epochs self = n_epochs self0 /\
    Forall (fun sc => (s_alpha_abs_st sc, s_delta_abs sc) = abscissa self sc)
      (scans self).
Proof.
  intros Hload. pose proof (load_wf_inputs _ _ Hload) as Hin.
  eexists. unfold init. rewrite Hload. simpl.
  split; [by apply reconstruct_ok |]. split; [apply with_scans_wf |].
  split.
  - unfold n_epochs. simpl. by rewrite !length_fmap, length_scans.
  - rewrite scans_with_scans. apply Forall_fmap, Forall_forall.
    by intros sc _.
Qed.

End WithCollaborators.

End ReconstructorFacts.
