(* ===== verification/Evaluator.v ===== *)
(** * Evaluator: [HipparcosLogProb.compute_lnprob]

    The method (lines 94-208 of [compute_chi2.py]) as the source writes
    it.  [samples] is the list of the rows of the parameter matrix, one
    row per fitted parameter and one column per candidate orbit.  The
    definitions follow the statements of the method: the dispatch on the
    number of rows, the loop over epochs ([epoch_dist] is its body), the
    reduction to chi-square ([chi2_of]), the parallax prior and the
    [negative] flag.  The Kepler solver [orbitize.kepler.calc_orbit] is
    the interface [OrbitModel].  The theorems of this file hold for every
    instance of [Scalar]: they are about the control flow and the shapes,
    not about arithmetic. *)

From Stdlib Require Import QArith.
From S2P Require Import Prelude Scalar NumPy Reconstructor.

(** ** Data *)

(** [calc_orbit(epoch, sma, ecc, inc, aop, pan, tau, plx, mtot)] for one
    epoch and a batch of orbits: the offsets in right ascension and
    declination and the radial velocity, one entry per orbit. *)
Class OrbitModel (F : Type) : Type := {
  calc_orbit :
    F -> list F -> list F -> list F -> list F -> list F -> list F ->
    list F -> list F -> py (list F * list F * list F)
}.

(** Rows 5 to 12 of a thirteen-row [samples]. *)
Record OrbitRows (F : Type) : Type := {
  sma : list F;
  ecc : list F;
  inc : list F;
  aop : list F;
  pan : list F;
  tau : list F;
  mtot : list F;
  m1 : list F
}.

Arguments sma {F}.
Arguments ecc {F}.
Arguments inc {F}.
Arguments aop {F}.
Arguments pan {F}.
Arguments tau {F}.
Arguments mtot {F}.
Arguments m1 {F}.

(** What the method returns: the array [lnprob], or [None] after
    printing a message. *)
Inductive retval (F : Type) : Type :=
| RetArray (lnprob : list F)
| RetNone (printed : string).

Arguments RetArray {F} lnprob.
Arguments RetNone {F} printed.

Definition incorrect_params_msg : string :=
  "Incorrect number of fitting params in `samples`.".

Section Evaluator.
Context {F : Type} `{Scalar F, Trig F, OrbitModel F}.
Implicit Types (self : HipparcosLogProb F) (samples : list (list F)).

(** ** The body of the epoch loop (lines 164-195) *)

(** Lines 165-173: the expected offset of every candidate from the
    catalogue photocentre at epoch [i], without a companion. *)
Definition alpha_C_st self (alpha_H0 plx pm_ra : list F) (i : nat)
    : py (list F) :=
  Xi <- getitem (self_X self) i ;;
  Yi <- getitem (self_Y self) i ;;
  let par := fsub (fmul Xi (np_sin (np_radians (self_alpha0 self))))
                  (fmul Yi (np_cos (np_radians (self_alpha0 self)))) in
  t <- np_add alpha_H0 (np_rscalar fmul plx par) ;;
  ei <- getitem (self_epochs self) i ;;
  np_add t (np_lscalar fmul (fsub ei (flit 1991.25)) pm_ra).

Definition delta_C self (delta_H0 plx pm_dec : list F) (i : nat)
    : py (list F) :=
  Xi <- getitem (self_X self) i ;;
  Yi <- getitem (self_Y self) i ;;
  Zi <- getitem (self_Z self) i ;;
  let par :=
    fsub (fadd (fmul (fmul Xi (np_cos (np_radians (self_alpha0 self))))
                     (np_sin (np_radians (self_delta0 self))))
               (fmul (fmul Yi (np_sin (np_radians (self_alpha0 self))))
                     (np_sin (np_radians (self_delta0 self)))))
         (fmul Zi (np_cos (np_radians (self_delta0 self)))) in
  t <- np_add delta_H0 (np_rscalar fmul plx par) ;;
  ei <- getitem (self_epochs self) i ;;
  np_add t (np_lscalar fmul (fsub ei (flit 1991.25)) pm_dec).

(** Lines 176-189: the perturbation by the companion, added in place to
    the two offsets. *)
Definition add_perturbation self (plx : list F) (o : OrbitRows F)
    (pos : list F * list F) (i : nat) : py (list F * list F) :=
  mjd <- getitem (self_epochs_mjd self) i ;;
  orb <- calc_orbit mjd (sma o) (ecc o) (inc o) (aop o) (pan o) (tau o)
           plx (mtot o) ;;
  ratio <- np_div (np_neg (m1 o)) (mtot o) ;;
  raoff <- np_imul orb.1.1 ratio ;;
  decoff <- np_imul orb.1.2 ratio ;;
  a <- np_iadd pos.1 raoff ;;
  d <- np_iadd pos.2 decoff ;;
  Ok (a, d).

(** Lines 191-195: the distance of every candidate from the scan line,
    stored as row [i] of [dist]. *)
Definition scan_distance self (n_samples : nat) (pos : list F * list F)
    (i : nat) : py (list F) :=
  ai <- getitem (self_alpha_abs_st self) i ;;
  ci <- getitem (self_cos_phi self) i ;;
  let ta := np_rscalar fmul (np_lscalar fsub ai pos.1) ci in
  di <- getitem (self_delta_abs self) i ;;
  si <- getitem (self_sin_phi self) i ;;
  let td := np_rscalar fmul (np_lscalar fsub di pos.2) si in
  s <- np_add ta td ;;
  np_setrow n_samples (np_abs s).

Definition epoch_dist self (pm_ra pm_dec alpha_H0 delta_H0 plx : list F)
    (planet : option (OrbitRows F)) (n_samples : nat) (i : nat)
    : py (list F) :=
  a <- alpha_C_st self alpha_H0 plx pm_ra i ;;
  d <- delta_C self delta_H0 plx pm_dec i ;;
  pos <- match planet with
         | None => Ok (a, d)
         | Some o => add_perturbation self plx o (a, d) i
         end ;;
  scan_distance self n_samples pos i.

(** ** The reduction (line 198) *)

(** One term of the list comprehension: [(dist[:, j] / self.eps) ** 2]. *)
Definition chi2_terms self (n_samples : nat) (dist : list (list F)) (j : nat)
    : py (list F) :=
  col <- np_column n_samples dist j ;;
  q <- np_div col (self_eps self) ;;
  Ok (np_square q).

Definition chi2_of self (n_samples : nat) (dist : list (list F))
    : py (list F) :=
  terms <- py_mapM (chi2_terms self n_samples dist) (seq 0 n_samples) ;;
  np_sum_axis1 terms.

(** ** The prior and the sign (lines 199-208) *)

Definition apply_prior (plx chi2 : list F) : py (list F) :=
  let lnprob := np_lscalar fmul (flit (-0.5)) chi2 in
  let bad_plx := np_where (np_le_scalar plx (flit 0)) in
  np_put lnprob bad_plx (fneg finf).

Definition apply_negative (negative : bool) (lnprob : list F) : list F :=
  if negative then np_rscalar fmul lnprob (flit (-1)) else lnprob.

(** ** The method *)

(** Lines 139-155: the layout of [samples] by its number of rows.
    [Some None] is a fit without companion, [Some (Some o)] a fit with
    one, [None] an unsupported number of rows. *)
Definition orbit_rows samples : py (option (option (OrbitRows F))) :=
  let n_params := length samples in
  if decide (n_params = 5) then Ok (Some None)
  else if decide (n_params = 13) then
    sma <- getitem samples 5 ;;
    ecc <- getitem samples 6 ;;
    inc <- getitem samples 7 ;;
    aop <- getitem samples 8 ;;
    pan <- getitem samples 9 ;;
    tau <- getitem samples 10 ;;
    mtot <- getitem samples 11 ;;
    m1 <- getitem samples 12 ;;
    Ok (Some (Some {| sma := sma; ecc := ecc; inc := inc; aop := aop;
                      pan := pan; tau := tau; mtot := mtot; m1 := m1 |}))
  else Ok None.

(** Lines 157-208, once the rows are named. *)
Definition lnprob_body self (pm_ra pm_dec alpha_H0 delta_H0 plx : list F)
    (planet : option (OrbitRows F)) (negative : bool) : py (list F) :=
  let n_samples := length pm_ra in
  let n_epochs := length (self_epochs self) in
  dist <- py_mapM
            (epoch_dist self pm_ra pm_dec alpha_H0 delta_H0 plx planet
               n_samples)
            (seq 0 n_epochs) ;;
  chi2 <- chi2_of self n_samples dist ;;
  lnprob <- apply_prior plx chi2 ;;
  Ok (apply_negative negative lnprob).

Definition compute_lnprob self samples (negative : bool) : py (retval F) :=
  pm_ra <- getitem samples 0 ;;
  pm_dec <- getitem samples 1 ;;
  alpha_H0 <- getitem samples 2 ;;
  delta_H0 <- getitem samples 3 ;;
  plx <- getitem samples 4 ;;
  layout <- orbit_rows samples ;;
  match layout with
  | None => Ok (RetNone incorrect_params_msg)
  | Some planet =>
      lnprob <- lnprob_body self pm_ra pm_dec alpha_H0 delta_H0 plx planet
                  negative ;;
      Ok (RetArray lnprob)
  end.

End Evaluator.

(** ** Theorems for every scalar instance *)

Section EvaluatorFacts.
Context {F : Type} `{Scalar F, Trig F, OrbitModel F}.
Implicit Types (self : HipparcosLogProb F) (samples : list (list F)).

(** The effect of [negative=True] on a returned value. *)
Definition negate_retval (r : retval F) : retval F :=
  match r with
  | RetArray lnprob => RetArray (np_rscalar fmul lnprob (flit (-1)))
  | RetNone msg => RetNone msg
  end.

(** A function applied to the array a call returns, if it returns one. *)
Definition retval_map (g : list F -> list F) (r : retval F) : retval F :=
  match r with
  | RetArray lnprob => RetArray (g lnprob)
  | RetNone msg => RetNone msg
  end.

Lemma orbit_rows_5 samples :
  length samples = 5 -> orbit_rows samples = Ok (Some None).
Proof. intros Hn. unfold orbit_rows. by rewrite decide_True. Qed.

Lemma orbit_rows_other samples :
  length samples <> 5 -> length samples <> 13 -> orbit_rows samples = Ok None.
Proof. intros H5 H13. unfold orbit_rows. by rewrite !decide_False. Qed.

Lemma orbit_rows_13 samples :
  length samples = 13 ->
  exists o, orbit_rows samples = Ok (Some (Some o)) /\
    samples !! 5 = Some (sma o) /\ samples !! 6 = Some (ecc o) /\
    samples !! 7 = Some (inc o) /\ samples !! 8 = Some (aop o) /\
    samples !! 9 = Some (pan o) /\ samples !! 10 = Some (tau o) /\
    samples !! 11 = Some (mtot o) /\ samples !! 12 = Some (m1 o).
Proof.
  intros Hn. unfold orbit_rows.
  rewrite decide_False, decide_True by lia.
  do 13 (destruct samples as [|? samples]; [done |]).
  destruct samples; [| done]. simpl. eexists. split; [done |]. done.
Qed.

(** C35: a [samples] of fewer than five rows makes the method raise
    [IndexError]: the rows are read before the number of rows is
    checked, so the message of the parameter-count check is never
    printed for such an input. *)
Theorem compute_lnprob_too_few_rows self samples negative :
  length samples < 5 ->
  compute_lnprob self samples negative = Raise IndexError.
Proof.
  intros Hn. unfold compute_lnprob.
  do 5 (destruct samples as [|? samples]; [done |]). simpl in Hn. lia.
Qed.

(** With five or thirteen rows the method returns an array or
    raises: the message is not printed. *)
Lemma compute_lnprob_array self samples negative r :
  length samples = 5 \/ length samples = 13 ->
  compute_lnprob self samples negative = Ok r ->
  exists lnprob, r = RetArray lnprob.
Proof.
  intros Hn. unfold compute_lnprob. intros Hr. do 6 py_inv Hr.
  destruct a4 as [planet|].
  - py_inv Hr. injection Hr as <-. by eexists.
  - exfalso. destruct Hn as [Hn|Hn].
    + rewrite (orbit_rows_5 samples Hn) in E4. done.
    + destruct (orbit_rows_13 samples Hn) as (o & Ho & _). congruence.
Qed.

(** With five or more rows, but neither five nor thirteen, the method
    prints the message and returns [None]; it computes nothing. *)
Theorem compute_lnprob_bad_param_count self samples negative :
  5 <= length samples -> length samples <> 5 -> length samples <> 13 ->
  compute_lnprob self samples negative = Ok (RetNone incorrect_params_msg).
Proof.
  intros Hn H5 H13. unfold compute_lnprob.
  rewrite (orbit_rows_other samples H5 H13).
  do 5 (destruct samples as [|? samples]; [simpl in Hn; lia |]). done.
Qed.

(** Rows of different lengths.  For an object with at least one
    scan, five rows in which [alpha_H0] and [plx] differ in length, and
    neither has length one, make the method raise [ValueError] in the
    first pass of the epoch loop. *)
Theorem compute_lnprob_ragged self (pm_ra pm_dec alpha_H0 delta_H0 plx : list F)
    negative :
  wf self -> 0 < n_epochs self ->
  length alpha_H0 <> length plx -> length alpha_H0 <> 1 -> length plx <> 1 ->
  compute_lnprob self [pm_ra; pm_dec; alpha_H0; delta_H0; plx] negative
  = Raise ValueError.
Proof.
  intros [(_ & _ & _ & _ & _ & HX & HY & _) _] Hn Hne Ha Hp.
  destruct (getitem_lt (self_X self) 0) as [x Hx]; [lia |].
  destruct (getitem_lt (self_Y self) 0) as [y Hy]; [lia |].
  unfold compute_lnprob. simpl. unfold lnprob_body.
  change (length (self_epochs self)) with (n_epochs self).
  destruct (n_epochs self) as [|n]; [lia |].
  cbn [seq py_mapM]. unfold epoch_dist, alpha_C_st, np_add.
  rewrite Hx, Hy. cbn [py_bind].
  by rewrite np_binop_raise by (by rewrite ?np_rscalar_length).
Qed.

(** The flag is applied last: a call with the flag raises exactly when
    the call without it does, and returns its array passed through
    [apply_negative]. *)
Lemma compute_lnprob_flag self samples negative :
  compute_lnprob self samples negative
  = py_map (retval_map (apply_negative negative))
      (compute_lnprob self samples false).
Proof.
  unfold compute_lnprob, py_map.
  do 6 (case_ok; [| done]).
  match goal with
  | |- context [match ?layout with _ => _ end] => destruct layout as [planet|]
  end; [| done].
  simpl. unfold lnprob_body.
  repeat (case_ok; [| done]). done.
Qed.

(** C9: [compute_lnprob(samples, negative=True)] is
    [compute_lnprob(samples)] multiplied by [-1] entry by entry, and
    raises exactly when it does. *)
Theorem compute_lnprob_negative self samples :
  compute_lnprob self samples true
  = py_map negate_retval (compute_lnprob self samples false).
Proof.
  rewrite compute_lnprob_flag.
  by destruct (compute_lnprob self samples false) as [[lnprob|msg]|e].
Qed.

End EvaluatorFacts.
