(* ===== verification/Loop.v ===== *)
(** * Loop: the epoch loop as a machine

    [compute_lnprob] allocates [dist = np.empty((n_epochs, n_samples))],
    whose content is whatever the memory held, and assigns row [i] in
    pass [i] of [for i in np.arange(n_epochs)] (lines 159-195).
    [Evaluator] writes that loop as [py_mapM]; this file writes it as
    a machine whose state is the loop counter and the matrix, and
    proves that the machine stops after at most [n_epochs] steps, that
    every row of the matrix has been assigned when it does, and that
    what it leaves is what [py_mapM] returns, whatever [np.empty]
    returned. *)

From stdpp Require Import relations.
From S2P Require Import Prelude Scalar NumPy Reconstructor Evaluator.

(** ** The machine of [for i in np.arange(n): dist[i, :] = body(i)] *)

Section Machine.
Context {A : Type}.
Variables (body : nat -> py (list A)) (n : nat).

(** The loop is running with counter [i] and matrix [dist], or an
    exception left it. *)
Inductive loop_state : Type :=
| Running (i : nat) (dist : list (list A))
| Raised (e : pyerr).

Inductive loop_step : relation loop_state :=
| step_assign i dist row :
    i < n -> body i = Ok row ->
    loop_step (Running i dist) (Running (S i) (<[i := row]> dist))
| step_raise i dist e :
    i < n -> body i = Raise e ->
    loop_step (Running i dist) (Raised e).

(** The step as a function. *)
Definition loop_next (st : loop_state) : option loop_state :=
  match st with
  | Running i dist =>
      if decide (i < n) then
        Some match body i with
             | Ok row => Running (S i) (<[i := row]> dist)
             | Raise e => Raised e
             end
      else None
  | Raised _ => None
  end.

Fixpoint loop_run (fuel : nat) (st : loop_state) : loop_state :=
  match fuel with
  | 0 => st
  | S fuel' =>
      match loop_next st with
      | Some st' => loop_run fuel' st'
      | None => st
      end
  end.

(** What the code after the loop sees. *)
Definition loop_result (st : loop_state) : py (list (list A)) :=
  match st with
  | Running _ dist => Ok dist
  | Raised e => Raise e
  end.

(** The loop on the matrix [empty] that [np.empty] returned; [n] steps
    are enough. *)
Definition run_loop (empty : list (list A)) : py (list (list A)) :=
  loop_result (loop_run n (Running 0 empty)).

(** The invariant: the rows below the counter are the results of the
    passes made, the rows from the counter on are still those of
    [empty]; after an exception, it is the exception of the first pass
    that raises. *)
Definition loop_inv (empty : list (list A)) (st : loop_state) : Prop :=
  match st with
  | Running i dist =>
      i <= n /\ length dist = n /\
      py_mapM body (seq 0 i) = Ok (take i dist) /\
      drop i dist = drop i empty
  | Raised e => py_mapM body (seq 0 n) = Raise e
  end.

(** ** The step function and the step relation *)

Lemma loop_next_step st st' : loop_next st = Some st' <-> loop_step st st'.
Proof.
  split.
  - destruct st as [i dist|e]; simpl; [| done].
    destruct (decide (i < n)) as [Hi|]; [| done].
    destruct (body i) eqn:Hb; intros [= <-]; by constructor.
  - destruct 1 as [i dist row Hi Hb|i dist e Hi Hb]; simpl;
      by rewrite decide_True, Hb.
Qed.

Lemma loop_step_det st st1 st2 :
  loop_step st st1 -> loop_step st st2 -> st1 = st2.
Proof. rewrite <- !loop_next_step. congruence. Qed.

Lemma loop_nf st : nf loop_step st <-> loop_next st = None.
Proof.
  unfold nf, red. split.
  - intros Hnf. destruct (loop_next st) as [st'|] eqn:E; [| done].
    exfalso. apply Hnf. exists st'. by apply loop_next_step.
  - intros Hn [st' Hst%loop_next_step]. congruence.
Qed.

Lemma loop_run_nsteps fuel st :
  exists k, k <= fuel /\ nsteps loop_step k st (loop_run fuel st).
Proof.
  revert st. induction fuel as [|fuel IH]; intros st; simpl.
  - exists 0. split; [lia | constructor].
  - destruct (loop_next st) as [st'|] eqn:E.
    + destruct (IH st') as (k & Hk & Hsteps). exists (S k).
      split; [lia |]. econstructor; [by apply loop_next_step | done].
    + exists 0. split; [lia | constructor].
Qed.

Lemma loop_run_rtc fuel st : rtc loop_step st (loop_run fuel st).
Proof.
  destruct (loop_run_nsteps fuel st) as (k & _ & Hs). by eapply rtc_nsteps_2.
Qed.

Lemma loop_run_raised fuel e : loop_run fuel (Raised e) = Raised e.
Proof. by destruct fuel. Qed.

Lemma loop_run_nf fuel i dist :
  n - i <= fuel -> nf loop_step (loop_run fuel (Running i dist)).
Proof.
  revert i dist. induction fuel as [|fuel IH]; intros i dist Hf.
  - apply loop_nf. simpl. rewrite decide_False; [done | lia].
  - cbn [loop_run loop_next]. destruct (decide (i < n)) as [Hi|Hi].
    + destruct (body i); [apply IH; lia |].
      rewrite loop_run_raised. by apply loop_nf.
    + apply loop_nf. simpl. by rewrite decide_False.
Qed.

(** ** The invariant *)

Lemma loop_inv_init empty : length empty = n -> loop_inv empty (Running 0 empty).
Proof. intros Hl. simpl. repeat split; [lia | done]. Qed.

Lemma loop_inv_step empty st st' :
  loop_inv empty st -> loop_step st st' -> loop_inv empty st'.
Proof.
  intros Hinv Hstep.
  destruct Hstep as [i dist row Hi Hb|i dist e Hi Hb];
    cbn [loop_inv] in *; destruct Hinv as (_ & Hl & Hrows & Hrest).
  - repeat split; [lia | by rewrite length_insert | |].
    + rewrite seq_S, py_mapM_snoc. cbn [plus].
      rewrite Hrows, Hb. cbn [py_bind]. f_equal.
      rewrite (take_S_r _ _ row); [by rewrite take_insert_ge by lia |].
      apply list_lookup_insert_eq. lia.
    + rewrite drop_insert_lt by lia.
      replace (S i) with (i + 1) by lia. by rewrite <- !drop_drop, Hrest.
  - replace n with (i + S (n - S i)) by lia.
    rewrite seq_app, <- cons_seq. simpl. by eapply py_mapM_raise.
Qed.

Lemma loop_inv_rtc empty st st' :
  loop_inv empty st -> rtc loop_step st st' -> loop_inv empty st'.
Proof. induction 2; eauto using loop_inv_step. Qed.

(** The state the loop stops in holds the result of the functional
    loop. *)
Lemma loop_inv_final empty st :
  loop_inv empty st -> nf loop_step st ->
  loop_result st = py_mapM body (seq 0 n).
Proof.
  intros Hinv Hnf%loop_nf. destruct st as [i dist|e]; simpl in *; [| done].
  destruct (decide (i < n)); [done |].
  destruct Hinv as (Hi & Hl & Hrows & _). assert (i = n) as -> by lia.
  by rewrite Hrows, <- Hl, firstn_all.
Qed.

(** The content of [np.empty] does not matter: the loop run on any
    matrix of [n] rows returns what the functional loop returns. *)
Lemma run_loop_mapM empty :
  length empty = n -> run_loop empty = py_mapM body (seq 0 n).
Proof.
  intros Hl. unfold run_loop. apply (loop_inv_final empty).
  - eapply loop_inv_rtc; [by apply loop_inv_init | apply loop_run_rtc].
  - apply loop_run_nf. lia.
Qed.




End Machine.

Arguments Running {A} i dist.
Arguments Raised {A} e.

(** ** The loop of [compute_lnprob] *)

Section EpochLoop.
Context {F : Type} `{Scalar F, Trig F, OrbitModel F}.

(** Lines 159-195: [dist = np.empty((n_epochs, n_samples))] and the
    loop over the epochs, [empty] being the matrix [np.empty]
    returned. *)
Definition epoch_loop (self : HipparcosLogProb F)
    (pm_ra pm_dec alpha_H0 delta_H0 plx : list F)
    (planet : option (OrbitRows F)) (empty : list (list F))
    : py (list (list F)) :=
  let n_samples := length pm_ra in
  let n_epochs := length (self_epochs self) in
  run_loop
    (epoch_dist self pm_ra pm_dec alpha_H0 delta_H0 plx planet n_samples)
    n_epochs empty.

(** Lines 157-208 with the loop as the machine. *)
Definition lnprob_body_loop (self : HipparcosLogProb F)
    (pm_ra pm_dec alpha_H0 delta_H0 plx : list F)
    (planet : option (OrbitRows F)) (negative : bool)
    (empty : list (list F)) : py (list F) :=
  dist <- epoch_loop self pm_ra pm_dec alpha_H0 delta_H0 plx planet empty ;;
  chi2 <- chi2_of self (length pm_ra) dist ;;
  lnprob <- apply_prior plx chi2 ;;
  Ok (apply_negative negative lnprob).

(** C29: the method does not depend on what [np.empty] returned: with
    the loop run as a machine on any matrix of [n_epochs] rows, lines
    157-208 compute what they compute with the functional loop. *)
Theorem lnprob_body_loop_spec self pm_ra pm_dec alpha_H0 delta_H0 plx planet
    negative empty :
  length empty = length (self_epochs self) ->
  lnprob_body_loop self pm_ra pm_dec alpha_H0 delta_H0 plx planet negative
    empty
  = lnprob_body self pm_ra pm_dec alpha_H0 delta_H0 plx planet negative.
Proof.
  intros Hl. unfold lnprob_body_loop, epoch_loop, lnprob_body.
  by rewrite run_loop_mapM.
Qed.

End EpochLoop.
