(* ===== verification/Reference.v ===== *)
(** * Reference: the evaluator of one candidate

    [compute_lnprob] treats a batch of candidates with array operations.
    This file gives the same computation for a single candidate on
    scalars ([lnprob_candidate]): per scan the expected position, its
    distance from the scan line, the sum of the squared normalised
    distances and the prior.  The theorems say that the batched method
    returns, column by column, exactly the scalar evaluator's values: for
    a fit without companion ([compute_lnprob_batch_5]) and for a fit with
    one ([compute_lnprob_batch_13]), the latter against a Kepler solver
    that treats the orbits of a batch independently ([OrbitPointwise]). *)

From Stdlib Require Import QArith.
From S2P Require Import Prelude Scalar NumPy Reconstructor Evaluator.

(** ** Data of one candidate *)

(** Column [j] of rows 0 to 4 of [samples]. *)
Record Astrometry (F : Type) : Type := {
  c_pm_ra : F;
  c_pm_dec : F;
  c_alpha_H0 : F;
  c_delta_H0 : F;
  c_plx : F
}.

Arguments c_pm_ra {F}.
Arguments c_pm_dec {F}.
Arguments c_alpha_H0 {F}.
Arguments c_delta_H0 {F}.
Arguments c_plx {F}.

(** Column [j] of rows 5 to 12 of [samples]. *)
Record Orbit (F : Type) : Type := {
  o_sma : F;
  o_ecc : F;
  o_inc : F;
  o_aop : F;
  o_pan : F;
  o_tau : F;
  o_mtot : F;
  o_m1 : F
}.

Arguments o_sma {F}.
Arguments o_ecc {F}.
Arguments o_inc {F}.
Arguments o_aop {F}.
Arguments o_pan {F}.
Arguments o_tau {F}.
Arguments o_mtot {F}.
Arguments o_m1 {F}.

Section Reference.
Context {F : Type} `{Scalar F, Trig F}.
Implicit Types (self : HipparcosLogProb F) (sc : Scan F)
  (c : Astrometry F) (o : Orbit F).

(** ** Candidates as lists *)

(** The five rows of [samples] for a list of candidates. *)
Definition rows_5 (cands : list (Astrometry F)) : list (list F) :=
  [c_pm_ra <$> cands; c_pm_dec <$> cands; c_alpha_H0 <$> cands;
   c_delta_H0 <$> cands; c_plx <$> cands].

(** The thirteen rows for a list of candidates with a companion. *)
Definition rows_13 (cands : list (Astrometry F * Orbit F)) : list (list F) :=
  rows_5 (fst <$> cands) ++
  [(fun co => o_sma co.2) <$> cands; (fun co => o_ecc co.2) <$> cands;
   (fun co => o_inc co.2) <$> cands; (fun co => o_aop co.2) <$> cands;
   (fun co => o_pan co.2) <$> cands; (fun co => o_tau co.2) <$> cands;
   (fun co => o_mtot co.2) <$> cands; (fun co => o_m1 co.2) <$> cands].

(** ** The scalar evaluator *)

(** The expected offset of the candidate at the scan, without
    companion. *)
Definition position self sc c : F * F :=
  (fadd (fadd (c_alpha_H0 c) (fmul (c_plx c) (par_alpha self sc)))
        (fmul (fsub (s_epoch sc) (flit 1991.25)) (c_pm_ra c)),
   fadd (fadd (c_delta_H0 c) (fmul (c_plx c) (par_delta self sc)))
        (fmul (fsub (s_epoch sc) (flit 1991.25)) (c_pm_dec c))).

(** The displacement of the star by its companion: the companion's
    offset [off] scaled by [-m1 / mtot]. *)
Definition perturbed o (off : F * F) (pos : F * F) : F * F :=
  (fadd pos.1 (fmul off.1 (fdiv (fneg (o_m1 o)) (o_mtot o))),
   fadd pos.2 (fmul off.2 (fdiv (fneg (o_m1 o)) (o_mtot o)))).

(** The distance of a position from the scan line (line 192). *)
Definition distance sc (pos : F * F) : F :=
  fabs (fadd (fmul (fsub (s_alpha_abs_st sc) pos.1) (s_cos_phi sc))
             (fmul (fsub (s_delta_abs sc) pos.2) (s_sin_phi sc))).

(** Chi-square of a candidate whose position at each scan is [pos]. *)
Definition chi2_candidate self (pos : Scan F -> F * F) : F :=
  np_sum ((fun sc => fsquare (fdiv (distance sc (pos sc)) (s_eps sc)))
            <$> scans self).

(** The log-probability from chi-square and the parallax prior. *)
Definition lnprob_of (plx chi2 : F) : F :=
  if fle plx (flit 0) then fneg finf else fmul (flit (-0.5)) chi2.

(** The scalar evaluator; [off] is the companion's offset at each scan
    for a fit with a companion. *)
Definition lnprob_candidate self c (companion : option (Orbit F * (Scan F -> F * F)))
    : F :=
  lnprob_of (c_plx c)
    (chi2_candidate self
       (fun sc =>
          match companion with
          | None => position self sc c
          | Some (o, off) => perturbed o (off sc) (position self sc c)
          end)).

End Reference.

(** ** What the batch theorem needs of the Kepler solver

    [calc_orbit] is called once per epoch with the orbital elements of
    the whole batch.  It treats the orbits independently: entry [j] of
    the offsets it returns is [orbit1] of entry [j] of each argument.
    The radial velocities are not used by the method. *)
Class OrbitPointwise (F : Type) `{OrbitModel F} : Type := {
  orbit1 : F -> F -> F -> F -> F -> F -> F -> F -> F -> F * F;
  calc_orbit_pointwise :
    forall (D : Type) (cands : list D) (mjd : F)
      (sma ecc inc aop pan tau plx mtot : D -> F),
    exists vz,
      calc_orbit mjd (sma <$> cands) (ecc <$> cands) (inc <$> cands)
        (aop <$> cands) (pan <$> cands) (tau <$> cands) (plx <$> cands)
        (mtot <$> cands)
      = Ok ((fun d => (orbit1 mjd (sma d) (ecc d) (inc d) (aop d) (pan d)
                         (tau d) (plx d) (mtot d)).1) <$> cands,
            (fun d => (orbit1 mjd (sma d) (ecc d) (inc d) (aop d) (pan d)
                         (tau d) (plx d) (mtot d)).2) <$> cands,
            vz)
}.

(** The companion of a candidate, as the scalar evaluator takes it: its
    elements and its offset at each scan. *)
Definition companion_of {F} `{OrbitPointwise F} (c : Astrometry F)
    (o : Orbit F) : option (Orbit F * (Scan F -> F * F)) :=
  Some (o, fun sc => orbit1 (s_mjd sc) (o_sma o) (o_ecc o) (o_inc o)
                       (o_aop o) (o_pan o) (o_tau o) (c_plx c) (o_mtot o)).

(** ** The batched method computes the scalar evaluator *)

Section ReferenceFacts.
Context {F : Type} `{Scalar F, Trig F}.
Implicit Types (self : HipparcosLogProb F) (sc : Scan F)
  (c : Astrometry F) (o : Orbit F) (l : list (Scan F)).

Section Batch.
Context {D : Type}.
Implicit Types (cands : list D).

Lemma alpha_C_st_batch self l (aH plx pm : D -> F) cands i sc :
  l !! i = Some sc ->
  alpha_C_st (with_scans self l) (aH <$> cands) (plx <$> cands)
    (pm <$> cands) i
  = Ok ((fun d => fadd (fadd (aH d) (fmul (plx d) (par_alpha self sc)))
                       (fmul (fsub (s_epoch sc) (flit 1991.25)) (pm d)))
          <$> cands).
Proof.
  intros Hsc. unfold alpha_C_st. simpl.
  rewrite !(getitem_fmap_lookup _ _ _ _ Hsc). simpl. by batch.
Qed.

Lemma delta_C_batch self l (dH plx pm : D -> F) cands i sc :
  l !! i = Some sc ->
  delta_C (with_scans self l) (dH <$> cands) (plx <$> cands)
    (pm <$> cands) i
  = Ok ((fun d => fadd (fadd (dH d) (fmul (plx d) (par_delta self sc)))
                       (fmul (fsub (s_epoch sc) (flit 1991.25)) (pm d)))
          <$> cands).
Proof.
  intros Hsc. unfold delta_C. simpl.
  rewrite !(getitem_fmap_lookup _ _ _ _ Hsc). simpl. by batch.
Qed.

Lemma scan_distance_batch self l (pa pd : D -> F) cands i sc :
  l !! i = Some sc ->
  scan_distance (with_scans self l) (length cands)
    (pa <$> cands, pd <$> cands) i
  = Ok ((fun d => distance sc (pa d, pd d)) <$> cands).
Proof.
  intros Hsc. unfold scan_distance. simpl.
  rewrite !(getitem_fmap_lookup _ _ _ _ Hsc). simpl. by batch.
Qed.

Lemma chi2_of_batch self l (dist1 : Scan F -> D -> F) cands :
  cands <> [] ->
  chi2_of (with_scans self l) (length cands)
    ((fun sc => dist1 sc <$> cands) <$> l)
  = Ok ((fun d => np_sum ((fun sc => fsquare (fdiv (dist1 sc d) (s_eps sc)))
                            <$> l)) <$> cands).
Proof.
  intros Hne. unfold chi2_of.
  rewrite (py_mapM_seq_lookup _
    (fun d => Ok ((fun sc => fsquare (fdiv (dist1 sc d) (s_eps sc))) <$> l))).
  - rewrite (py_mapM_pure _ (fun d => (fun sc =>
      fsquare (fdiv (dist1 sc d) (s_eps sc))) <$> l))
      by (by apply Forall_forall).
    simpl. by apply np_sum_axis1_fmap.
  - intros j d Hd. unfold chi2_terms. simpl.
    rewrite (np_column_fmap _ _ _ _ _ Hd). simpl. by batch.
Qed.

Lemma apply_prior_batch (plx chi2 : D -> F) cands :
  apply_prior (plx <$> cands) (chi2 <$> cands)
  = Ok ((fun d => lnprob_of (plx d) (chi2 d)) <$> cands).
Proof. unfold apply_prior. by batch. Qed.

Lemma epoch_loop_batch (body : nat -> py (list F)) l
    (dist1 : Scan F -> D -> F) cands :
  (forall i sc, l !! i = Some sc -> body i = Ok (dist1 sc <$> cands)) ->
  py_mapM body (seq 0 (length l)) = Ok ((fun sc => dist1 sc <$> cands) <$> l).
Proof.
  intros Hbody.
  rewrite (py_mapM_seq_lookup _ (fun sc => Ok (dist1 sc <$> cands)))
    by exact Hbody.
  by apply py_mapM_pure, Forall_forall.
Qed.

Lemma lnprob_body_batch `{OrbitModel F} self l
    (pm_ra pm_dec aH dH plx : D -> F) planet cands negative
    (dist1 : Scan F -> D -> F) :
  cands <> [] ->
  (forall i sc, l !! i = Some sc ->
     epoch_dist (with_scans self l) (pm_ra <$> cands) (pm_dec <$> cands)
       (aH <$> cands) (dH <$> cands) (plx <$> cands) planet (length cands) i
     = Ok (dist1 sc <$> cands)) ->
  lnprob_body (with_scans self l) (pm_ra <$> cands) (pm_dec <$> cands)
    (aH <$> cands) (dH <$> cands) (plx <$> cands) planet negative
  = Ok (apply_negative negative
          ((fun d => lnprob_of (plx d)
                       (np_sum ((fun sc => fsquare (fdiv (dist1 sc d) (s_eps sc)))
                                  <$> l))) <$> cands)).
Proof.
  intros Hne Hbody. unfold lnprob_body. simpl. rewrite !length_fmap.
  rewrite (epoch_loop_batch _ l dist1 cands Hbody). simpl.
  rewrite (chi2_of_batch self l dist1 cands Hne). simpl.
  by rewrite apply_prior_batch.
Qed.

End Batch.

(** *** A fit without companion *)

Lemma epoch_dist_5 `{OrbitModel F} self l (cands : list (Astrometry F)) i sc :
  l !! i = Some sc ->
  epoch_dist (with_scans self l) (c_pm_ra <$> cands) (c_pm_dec <$> cands)
    (c_alpha_H0 <$> cands) (c_delta_H0 <$> cands) (c_plx <$> cands) None
    (length cands) i
  = Ok ((fun c => distance sc (position self sc c)) <$> cands).
Proof.
  intros Hsc. unfold epoch_dist.
  rewrite (alpha_C_st_batch _ _ _ _ _ _ _ _ Hsc),
    (delta_C_batch _ _ _ _ _ _ _ _ Hsc). simpl.
  by rewrite (scan_distance_batch _ _ _ _ _ _ _ Hsc).
Qed.

(** The dispatch on five rows (lines 131-141). *)
Lemma compute_lnprob_rows_5 `{OrbitModel F} self
    (cands : list (Astrometry F)) negative :
  compute_lnprob self (rows_5 cands) negative
  = py_map RetArray
      (lnprob_body self (c_pm_ra <$> cands) (c_pm_dec <$> cands)
         (c_alpha_H0 <$> cands) (c_delta_H0 <$> cands) (c_plx <$> cands)
         None negative).
Proof. reflexivity. Qed.

(** Lines 157-208 on a batch of five-parameter candidates. *)
Lemma lnprob_body_5 `{OrbitModel F} self (cands : list (Astrometry F))
    negative :
  wf self -> cands <> [] ->
  lnprob_body self (c_pm_ra <$> cands) (c_pm_dec <$> cands)
    (c_alpha_H0 <$> cands) (c_delta_H0 <$> cands) (c_plx <$> cands)
    None negative
  = Ok (apply_negative negative
          ((fun c => lnprob_candidate self c None) <$> cands)).
Proof.
  intros Hwf Hne. unfold lnprob_candidate, chi2_candidate.
  rewrite <- (wf_with_scans self Hwf) at 1.
  rewrite (lnprob_body_batch _ _ _ _ _ _ _ _ _ _
             (fun sc c => distance sc (position self sc c)) Hne);
    [done |].
  intros i sc Hsc. by apply epoch_dist_5.
Qed.

(** C1: for a well-formed object and a non-empty batch of five-parameter
    candidates, [compute_lnprob] returns an array, and its entry for
    each candidate is the value of the scalar evaluator on that
    candidate alone (with the sign flipped by [negative]). *)
Theorem compute_lnprob_batch_5 `{OrbitModel F} self
    (cands : list (Astrometry F)) negative :
  wf self -> cands <> [] ->
  compute_lnprob self (rows_5 cands) negative
  = Ok (RetArray (apply_negative negative
                    ((fun c => lnprob_candidate self c None) <$> cands))).
Proof.
  intros Hwf Hne.
  by rewrite compute_lnprob_rows_5, (lnprob_body_5 self cands negative Hwf Hne).
Qed.

(** C10: the parallax prior.  In the array returned for a well-formed
    object and a non-empty batch, the entry of every candidate whose
    parallax is [<= 0] is minus infinity, whatever its other parameters
    and whatever chi-square came to. *)
Theorem compute_lnprob_prior `{OrbitModel F} self
    (cands : list (Astrometry F)) j c :
  wf self -> cands !! j = Some c -> fle (c_plx c) (flit 0) = true ->
  exists lnprob,
    compute_lnprob self (rows_5 cands) false = Ok (RetArray lnprob) /\
    lnprob !! j = Some (fneg finf).
Proof.
  intros Hwf Hc Hplx. eexists. split.
  - rewrite compute_lnprob_rows_5, lnprob_body_5; [done | done |].
    by intros ->.
  - simpl. rewrite list_lookup_fmap, Hc. simpl.
    unfold lnprob_candidate, lnprob_of. by rewrite Hplx.
Qed.

(** The array returned has one entry per candidate. *)
Theorem compute_lnprob_length `{OrbitModel F} self
    (cands : list (Astrometry F)) negative :
  wf self -> cands <> [] ->
  exists lnprob,
    compute_lnprob self (rows_5 cands) negative = Ok (RetArray lnprob) /\
    length lnprob = length cands.
Proof.
  intros Hwf Hne. eexists.
  split; [by rewrite compute_lnprob_rows_5, lnprob_body_5 |].
  destruct negative; simpl; unfold np_rscalar; by rewrite !length_fmap.
Qed.

(** An empty batch is not scored: with five rows of length zero the
    epoch loop runs, and the reduction [np.sum(..., axis=1)] of the
    empty list of terms raises [AxisError]. *)
Theorem compute_lnprob_empty_batch `{OrbitModel F} self negative :
  wf self ->
  compute_lnprob self (rows_5 []) negative = Raise AxisError.
Proof.
  intros Hwf. rewrite <- (wf_with_scans self Hwf).
  unfold compute_lnprob. simpl. unfold lnprob_body. simpl.
  rewrite length_fmap.
  rewrite (epoch_loop_batch _ (scans self)
             (fun sc c => distance sc (position self sc c)) []).
  - done.
  - intros i sc Hsc. by apply (epoch_dist_5 _ _ []).
Qed.

Lemma apply_negative_app negative (a b : list F) :
  apply_negative negative (a ++ b)
  = apply_negative negative a ++ apply_negative negative b.
Proof. destruct negative; [apply fmap_app | done]. Qed.

(** C11: candidates are scored independently.  The array returned for
    the concatenation of two non-empty batches is the concatenation of
    the arrays returned for each: a batch may be split across calls at
    any column. *)
Theorem compute_lnprob_app `{OrbitModel F} self
    (cands1 cands2 : list (Astrometry F)) negative :
  wf self -> cands1 <> [] -> cands2 <> [] ->
  exists lnprob1 lnprob2,
    compute_lnprob self (rows_5 cands1) negative = Ok (RetArray lnprob1) /\
    compute_lnprob self (rows_5 cands2) negative = Ok (RetArray lnprob2) /\
    compute_lnprob self (rows_5 (cands1 ++ cands2)) negative
    = Ok (RetArray (lnprob1 ++ lnprob2)).
Proof.
  intros Hwf Hne1 Hne2. eexists _, _.
  rewrite !compute_lnprob_rows_5, !lnprob_body_5;
    [| done | by destruct cands1 | done ..].
  by rewrite fmap_app, apply_negative_app.
Qed.

(** *** A fit with a companion *)

Lemma add_perturbation_batch `{OrbitPointwise F} {D} self l
    (plx fsma fecc finc faop fpan ftau fmtot fm1 pa pd : D -> F)
    (cands : list D) i sc :
  l !! i = Some sc ->
  add_perturbation (with_scans self l) (plx <$> cands)
    {| sma := fsma <$> cands; ecc := fecc <$> cands; inc := finc <$> cands;
       aop := faop <$> cands; pan := fpan <$> cands; tau := ftau <$> cands;
       mtot := fmtot <$> cands; m1 := fm1 <$> cands |}
    (pa <$> cands, pd <$> cands) i
  = Ok ((fun d => fadd (pa d)
                    (fmul (orbit1 (s_mjd sc) (fsma d) (fecc d) (finc d)
                             (faop d) (fpan d) (ftau d) (plx d) (fmtot d)).1
                          (fdiv (fneg (fm1 d)) (fmtot d)))) <$> cands,
        (fun d => fadd (pd d)
                    (fmul (orbit1 (s_mjd sc) (fsma d) (fecc d) (finc d)
                             (faop d) (fpan d) (ftau d) (plx d) (fmtot d)).2
                          (fdiv (fneg (fm1 d)) (fmtot d)))) <$> cands).
Proof.
  intros Hsc. unfold add_perturbation. simpl.
  rewrite (getitem_fmap_lookup _ _ _ _ Hsc). simpl.
  destruct (calc_orbit_pointwise D cands (s_mjd sc) fsma fecc finc faop fpan
              ftau plx fmtot) as [vz ->].
  simpl. by batch.
Qed.

Lemma epoch_dist_13 `{OrbitPointwise F} self l
    (cands : list (Astrometry F * Orbit F)) i sc :
  l !! i = Some sc ->
  epoch_dist (with_scans self l)
    ((fun co => c_pm_ra co.1) <$> cands) ((fun co => c_pm_dec co.1) <$> cands)
    ((fun co => c_alpha_H0 co.1) <$> cands)
    ((fun co => c_delta_H0 co.1) <$> cands)
    ((fun co => c_plx co.1) <$> cands)
    (Some {| sma := (fun co => o_sma co.2) <$> cands;
             ecc := (fun co => o_ecc co.2) <$> cands;
             inc := (fun co => o_inc co.2) <$> cands;
             aop := (fun co => o_aop co.2) <$> cands;
             pan := (fun co => o_pan co.2) <$> cands;
             tau := (fun co => o_tau co.2) <$> cands;
             mtot := (fun co => o_mtot co.2) <$> cands;
             m1 := (fun co => o_m1 co.2) <$> cands |})
    (length cands) i
  = Ok ((fun co => distance sc
           (perturbed co.2
              (orbit1 (s_mjd sc) (o_sma co.2) (o_ecc co.2) (o_inc co.2)
                 (o_aop co.2) (o_pan co.2) (o_tau co.2) (c_plx co.1)
                 (o_mtot co.2))
              (position self sc co.1))) <$> cands).
Proof.
  intros Hsc. unfold epoch_dist.
  rewrite (alpha_C_st_batch _ _ _ _ _ _ _ _ Hsc),
    (delta_C_batch _ _ _ _ _ _ _ _ Hsc). simpl.
  rewrite (add_perturbation_batch _ _ _ _ _ _ _ _ _ _ _ _ _ _ _ _ Hsc). simpl.
  by rewrite (scan_distance_batch _ _ _ _ _ _ _ Hsc).
Qed.

(** The dispatch on thirteen rows (lines 131-153). *)
Lemma compute_lnprob_rows_13 `{OrbitModel F} self
    (cands : list (Astrometry F * Orbit F)) negative :
  compute_lnprob self (rows_13 cands) negative
  = py_map RetArray
      (lnprob_body self
         ((fun co => c_pm_ra co.1) <$> cands)
         ((fun co => c_pm_dec co.1) <$> cands)
         ((fun co => c_alpha_H0 co.1) <$> cands)
         ((fun co => c_delta_H0 co.1) <$> cands)
         ((fun co => c_plx co.1) <$> cands)
         (Some {| sma := (fun co => o_sma co.2) <$> cands;
                  ecc := (fun co => o_ecc co.2) <$> cands;
                  inc := (fun co => o_inc co.2) <$> cands;
                  aop := (fun co => o_aop co.2) <$> cands;
                  pan := (fun co => o_pan co.2) <$> cands;
                  tau := (fun co => o_tau co.2) <$> cands;
                  mtot := (fun co => o_mtot co.2) <$> cands;
                  m1 := (fun co => o_m1 co.2) <$> cands |})
         negative).
Proof.
  unfold rows_13, rows_5. rewrite <- !list_fmap_compose. reflexivity.
Qed.

(** Lines 157-208 on a batch of thirteen-parameter candidates. *)
Lemma lnprob_body_13 `{OrbitPointwise F} self
    (cands : list (Astrometry F * Orbit F)) negative :
  wf self -> cands <> [] ->
  lnprob_body self
    ((fun co => c_pm_ra co.1) <$> cands) ((fun co => c_pm_dec co.1) <$> cands)
    ((fun co => c_alpha_H0 co.1) <$> cands)
    ((fun co => c_delta_H0 co.1) <$> cands)
    ((fun co => c_plx co.1) <$> cands)
    (Some {| sma := (fun co => o_sma co.2) <$> cands;
             ecc := (fun co => o_ecc co.2) <$> cands;
             inc := (fun co => o_inc co.2) <$> cands;
             aop := (fun co => o_aop co.2) <$> cands;
             pan := (fun co => o_pan co.2) <$> cands;
             tau := (fun co => o_tau co.2) <$> cands;
             mtot := (fun co => o_mtot co.2) <$> cands;
             m1 := (fun co => o_m1 co.2) <$> cands |})
    negative
  = Ok (apply_negative negative
          ((fun co => lnprob_candidate self co.1 (companion_of co.1 co.2))
             <$> cands)).
Proof.
  intros Hwf Hne. unfold lnprob_candidate, chi2_candidate, companion_of.
  rewrite <- (wf_with_scans self Hwf) at 1.
  rewrite (lnprob_body_batch _ _ _ _ _ _ _ _ _ _
             (fun sc co => distance sc
                (perturbed co.2
                   (orbit1 (s_mjd sc) (o_sma co.2) (o_ecc co.2) (o_inc co.2)
                      (o_aop co.2) (o_pan co.2) (o_tau co.2) (c_plx co.1)
                      (o_mtot co.2))
                   (position self sc co.1))) Hne);
    [done |].
  intros i sc Hsc. by apply epoch_dist_13.
Qed.

(** C2: for a well-formed object, a non-empty batch of
    thirteen-parameter candidates and a Kepler solver that treats the
    orbits of a batch independently, [compute_lnprob] returns an array
    whose entry for each candidate is the scalar evaluator's value for
    that candidate and its companion. *)
Theorem compute_lnprob_batch_13 `{OrbitPointwise F} self
    (cands : list (Astrometry F * Orbit F)) negative :
  wf self -> cands <> [] ->
  compute_lnprob self (rows_13 cands) negative
  = Ok (RetArray (apply_negative negative
          ((fun co => lnprob_candidate self co.1 (companion_of co.1 co.2))
             <$> cands))).
Proof.
  intros Hwf Hne.
  by rewrite compute_lnprob_rows_13,
    (lnprob_body_13 self cands negative Hwf Hne).
Qed.

(** The entry of a candidate in the array of its batch. *)
Lemma compute_lnprob_entry_5 `{OrbitModel F} self
    (cands : list (Astrometry F)) j c :
  wf self -> cands !! j = Some c ->
  exists lnprob,
    compute_lnprob self (rows_5 cands) false = Ok (RetArray lnprob) /\
    lnprob !! j = Some (lnprob_candidate self c None).
Proof.
  intros Hwf Hj. assert (cands <> []) as Hne by (by intros ->).
  rewrite compute_lnprob_rows_5, (lnprob_body_5 self cands false Hwf Hne).
  eexists. split; [done |]. simpl. by rewrite list_lookup_fmap, Hj.
Qed.

Lemma compute_lnprob_entry_13 `{OrbitPointwise F} self
    (cands : list (Astrometry F * Orbit F)) j co :
  wf self -> cands !! j = Some co ->
  exists lnprob,
    compute_lnprob self (rows_13 cands) false = Ok (RetArray lnprob) /\
    lnprob !! j = Some (lnprob_candidate self co.1 (companion_of co.1 co.2)).
Proof.
  intros Hwf Hj. assert (cands <> []) as Hne by (by intros ->).
  rewrite compute_lnprob_rows_13, (lnprob_body_13 self cands false Hwf Hne).
  eexists. split; [done |]. simpl. by rewrite list_lookup_fmap, Hj.
Qed.

(** Candidates with a companion are scored independently as well,
    against a Kepler solver that treats the orbits of a batch
    independently. *)
Theorem compute_lnprob_app_13 `{OrbitPointwise F} self
    (cands1 cands2 : list (Astrometry F * Orbit F)) negative :
  wf self -> cands1 <> [] -> cands2 <> [] ->
  exists lnprob1 lnprob2,
    compute_lnprob self (rows_13 cands1) negative = Ok (RetArray lnprob1) /\
    compute_lnprob self (rows_13 cands2) negative = Ok (RetArray lnprob2) /\
    compute_lnprob self (rows_13 (cands1 ++ cands2)) negative
    = Ok (RetArray (lnprob1 ++ lnprob2)).
Proof.
  intros Hwf Hne1 Hne2. eexists _, _.
  rewrite !compute_lnprob_rows_13, !lnprob_body_13;
    [| done | by destruct cands1 | done ..].
  by rewrite fmap_app, apply_negative_app.
Qed.

(** An empty batch with thirteen rows: the Kepler solver is called on
    empty arrays at every epoch, and the reduction raises
    [AxisError] as it does for five rows. *)
Lemma compute_lnprob_empty_batch_13 `{OrbitPointwise F} self negative :
  wf self ->
  compute_lnprob self (rows_13 []) negative = Raise AxisError.
Proof.
  intros Hwf. rewrite compute_lnprob_rows_13, <- (wf_with_scans self Hwf).
  unfold lnprob_body. simpl. rewrite length_fmap.
  rewrite (epoch_loop_batch _ (scans self)
             (fun sc co => distance sc
                (perturbed co.2
                   (orbit1 (s_mjd sc) (o_sma co.2) (o_ecc co.2) (o_inc co.2)
                      (o_aop co.2) (o_pan co.2) (o_tau co.2) (c_plx co.1)
                      (o_mtot co.2))
                   (position self sc co.1))) []).
  - done.
  - intros i sc Hsc. by apply (epoch_dist_13 _ _ []).
Qed.

(** The parallax prior in a fit with a companion: the entry of
    every candidate whose parallax is [<= 0] is minus infinity, whatever
    the orbit of its companion. *)
Theorem compute_lnprob_prior_13 `{OrbitPointwise F} self
    (cands : list (Astrometry F * Orbit F)) j co :
  wf self -> cands !! j = Some co -> fle (c_plx co.1) (flit 0) = true ->
  exists lnprob,
    compute_lnprob self (rows_13 cands) false = Ok (RetArray lnprob) /\
    lnprob !! j = Some (fneg finf).
Proof.
  intros Hwf Hc Hplx. eexists. split.
  - rewrite compute_lnprob_rows_13, lnprob_body_13; [done | done |].
    by intros ->.
  - simpl. rewrite list_lookup_fmap, Hc. simpl.
    unfold lnprob_candidate, lnprob_of. by rewrite Hplx.
Qed.

End ReferenceFacts.
