(* ===== verification/Ideal.v ===== *)
(** * Ideal: what the method computes in exact arithmetic

    The specification of the evaluator is a formula of real arithmetic:
    the residual of a scan is the projection on the scan direction of
    the difference between the abscissa point and the predicted
    position, chi-square is the sum of the squared residuals over their
    uncertainties, and the log-probability is minus half of it.  This
    file states that formula over an ordered field [K] ([kresidual],
    [kchi2], [klnprob]) and proves that the program, run in the exact
    instance [ext K] on finite data, computes it ([compute_lnprob_ideal_5]).
    The consequences are theorems about the program: the reconstructed
    object scores the catalogue solution with minus half the sum of the
    squared measured residuals ([catalogue_solution_lnprob]), no result
    is positive ([compute_lnprob_nonpos]), the result is zero exactly
    for a perfect fit ([compute_lnprob_zero_iff]), the flag [negative]
    is a negation ([compute_lnprob_negative_ideal]) and a companion
    without mass changes nothing ([compute_lnprob_massless]). *)

From Stdlib Require Import QArith Field.
From S2P Require Import Prelude Scalar NumPy Exact.
From S2P Require Import Reconstructor Evaluator Reference.

(** ** Finite data *)

Section Embedding.
Context {K : Type}.

Definition fin_scan (s : Scan K) : Scan (ext K) :=
  {| s_epoch := Fin (s_epoch s);
     s_mjd := Fin (s_mjd s);
     s_cos_phi := Fin (s_cos_phi s);
     s_sin_phi := Fin (s_sin_phi s);
     s_R := Fin (s_R s);
     s_eps := Fin (s_eps s);
     s_X := Fin (s_X s);
     s_Y := Fin (s_Y s);
     s_Z := Fin (s_Z s);
     s_alpha_abs_st := Fin (s_alpha_abs_st s);
     s_delta_abs := Fin (s_delta_abs s) |}.

Definition fin_astrometry (c : Astrometry K) : Astrometry (ext K) :=
  {| c_pm_ra := Fin (c_pm_ra c);
     c_pm_dec := Fin (c_pm_dec c);
     c_alpha_H0 := Fin (c_alpha_H0 c);
     c_delta_H0 := Fin (c_delta_H0 c);
     c_plx := Fin (c_plx c) |}.

Definition fin_orbit (o : Orbit K) : Orbit (ext K) :=
  {| o_sma := Fin (o_sma o);
     o_ecc := Fin (o_ecc o);
     o_inc := Fin (o_inc o);
     o_aop := Fin (o_aop o);
     o_pan := Fin (o_pan o);
     o_tau := Fin (o_tau o);
     o_mtot := Fin (o_mtot o);
     o_m1 := Fin (o_m1 o) |}.

(** The object with the catalogue solution [cat] and the scans [l]. *)
Definition ideal_object (hip_num : string) (cat : Catalog K)
    (l : list (Scan K)) : HipparcosLogProb (ext K) :=
  {| self_hip_num := hip_num;
     self_plx0 := Fin (cat_Plx cat);
     self_pm_ra0 := Fin (cat_pmRA cat);
     self_pm_dec0 := Fin (cat_pmDE cat);
     self_alpha0 := Fin (cat_RArad cat);
     self_delta0 := Fin (cat_DErad cat);
     self_plx0_err := Fin (cat_e_Plx cat);
     self_pm_ra0_err := Fin (cat_e_pmRA cat);
     self_pm_dec0_err := Fin (cat_e_pmDE cat);
     self_alpha0_err := Fin (cat_e_RArad cat);
     self_delta0_err := Fin (cat_e_DErad cat);
     self_epochs := s_epoch <$> (fin_scan <$> l);
     self_epochs_mjd := s_mjd <$> (fin_scan <$> l);
     self_cos_phi := s_cos_phi <$> (fin_scan <$> l);
     self_sin_phi := s_sin_phi <$> (fin_scan <$> l);
     self_R := s_R <$> (fin_scan <$> l);
     self_eps := s_eps <$> (fin_scan <$> l);
     self_X := s_X <$> (fin_scan <$> l);
     self_Y := s_Y <$> (fin_scan <$> l);
     self_Z := s_Z <$> (fin_scan <$> l);
     self_alpha_abs_st := s_alpha_abs_st <$> (fin_scan <$> l);
     self_delta_abs := s_delta_abs <$> (fin_scan <$> l) |}.

End Embedding.

(** ** The specification over the field *)

Section Specification.
Context {K : Type} `{FieldOps K, KTrig K}.
Implicit Types (cat : Catalog K) (s : Scan K) (c : Astrometry K)
  (o : Orbit K).
Local Open Scope K_scope.

(** The parallax factors (Nielsen+ 2020, Eqs 1-2). *)
Definition kpar_alpha cat s : K :=
  s_X s * ksin (kradians (cat_RArad cat))
  - s_Y s * kcos (kradians (cat_RArad cat)).

Definition kpar_delta cat s : K :=
  s_X s * kcos (kradians (cat_RArad cat)) * ksin (kradians (cat_DErad cat))
  + s_Y s * ksin (kradians (cat_RArad cat)) * ksin (kradians (cat_DErad cat))
  - s_Z s * kcos (kradians (cat_DErad cat)).

(** The years since the catalogue epoch. *)
Definition kdt s : K := s_epoch s - k_of_Q 1991.25.

(** The abscissa point of a scan (Eq 3). *)
Definition kabscissa cat s : K * K :=
  (s_R s * s_cos_phi s + (cat_Plx cat * kpar_alpha cat s + kdt s * cat_pmRA cat),
   s_R s * s_sin_phi s + (cat_Plx cat * kpar_delta cat s + kdt s * cat_pmDE cat)).

(** The position a candidate predicts at a scan (Eq 8). *)
Definition kposition cat s c : K * K :=
  (c_alpha_H0 c + c_plx c * kpar_alpha cat s + kdt s * c_pm_ra c,
   c_delta_H0 c + c_plx c * kpar_delta cat s + kdt s * c_pm_dec c).

(** The displacement by a companion at offset [off]. *)
Definition kperturbed o (off pos : K * K) : K * K :=
  (pos.1 + off.1 * (- o_m1 o / o_mtot o),
   pos.2 + off.2 * (- o_m1 o / o_mtot o)).

(** The residual of a scan: the projection on the scan direction of
    the difference between the abscissa point and the position (Eq 6,
    before the absolute value). *)
Definition kresidual s (pos : K * K) : K :=
  (s_alpha_abs_st s - pos.1) * s_cos_phi s
  + (s_delta_abs s - pos.2) * s_sin_phi s.

(** Chi-square (Eq 7). *)
Definition kchi2 (l : list (Scan K)) (pos : Scan K -> K * K) : K :=
  ksum ((fun s => (kresidual s (pos s) / s_eps s)
                  * (kresidual s (pos s) / s_eps s)) <$> l).

(** The log-probability with the parallax prior. *)
Definition klnprob (plx chi2 : K) : ext K :=
  if (plx <=? 0) then NInf else Fin (k_of_Q (-0.5) * chi2).

(** The scans with the abscissa points of the reconstruction. *)
Definition kreconstructed cat (l : list (Scan K)) : list (Scan K) :=
  (fun s => set_scan_abscissa s (kabscissa cat s)) <$> l.

(** The catalogue solution as a candidate: no offset of the
    photocentre, the catalogue's proper motion and parallax. *)
Definition catalogue_candidate cat : Astrometry K :=
  {| c_pm_ra := cat_pmRA cat;
     c_pm_dec := cat_pmDE cat;
     c_alpha_H0 := 0;
     c_delta_H0 := 0;
     c_plx := cat_Plx cat |}.

End Specification.

(** ** The program computes the specification *)

Section Refinement.
Context {K : Type} `{OrderedField K, KTrig K}.
Add Field Kfield_ideal : K_field.
Implicit Types (cat : Catalog K) (s : Scan K) (c : Astrometry K)
  (o : Orbit K) (l : list (Scan K)).
Local Open Scope K_scope.

Lemma ideal_object_with_scans hip cat l :
  ideal_object hip cat l
  = with_scans (ideal_object hip cat []) (fin_scan <$> l).
Proof. reflexivity. Qed.

Lemma ideal_object_wf hip cat l : wf (ideal_object hip cat l).
Proof. rewrite ideal_object_with_scans. apply with_scans_wf. Qed.

Lemma scans_ideal_object hip cat l :
  scans (ideal_object hip cat l) = fin_scan <$> l.
Proof. rewrite ideal_object_with_scans. apply scans_with_scans. Qed.

Lemma position_fin hip cat l s c :
  position (ideal_object hip cat l) (fin_scan s) (fin_astrometry c)
  = (Fin (kposition cat s c).1, Fin (kposition cat s c).2).
Proof. reflexivity. Qed.

Lemma distance_fin s (pos : K * K) :
  distance (fin_scan s) (Fin pos.1, Fin pos.2) = Fin (kabs (kresidual s pos)).
Proof. reflexivity. Qed.

Lemma abscissa_fin hip cat l s :
  abscissa (ideal_object hip cat l) (fin_scan s)
  = (Fin (kabscissa cat s).1, Fin (kabscissa cat s).2).
Proof. reflexivity. Qed.

(** One term of chi-square. *)
Lemma chi2_term_fin s (pos : K * K) :
  s_eps s <> 0 ->
  fsquare (fdiv (distance (fin_scan s) (Fin pos.1, Fin pos.2))
             (s_eps (fin_scan s)))
  = Fin ((kresidual s pos / s_eps s) * (kresidual s pos / s_eps s)).
Proof.
  intros Heps. rewrite distance_fin. simpl.
  rewrite (proj2 (keqb_neq _ _) Heps). simpl. f_equal.
  replace (kabs (kresidual s pos) / s_eps s * (kabs (kresidual s pos) / s_eps s))
    with (kabs (kresidual s pos) * kabs (kresidual s pos)
          / (s_eps s * s_eps s)) by (field; done).
  rewrite kabs_square. by field.
Qed.

(** Chi-square of a candidate whose positions are finite. *)
Lemma chi2_candidate_fin hip cat l (pos : Scan (ext K) -> ext K * ext K)
    (kpos : Scan K -> K * K) :
  Forall (fun s => s_eps s <> 0) l ->
  Forall (fun s => pos (fin_scan s) = (Fin (kpos s).1, Fin (kpos s).2)) l ->
  chi2_candidate (ideal_object hip cat l) pos = Fin (kchi2 l kpos).
Proof.
  intros Heps Hpos. unfold chi2_candidate, kchi2.
  rewrite scans_ideal_object, <- list_fmap_compose.
  rewrite <- np_sum_fin. f_equal.
  rewrite Forall_forall in Heps, Hpos.
  apply Forall_fmap_ext_1, Forall_forall. intros s Hs. simpl.
  rewrite (Hpos s Hs). by apply chi2_term_fin, Heps.
Qed.

Lemma lnprob_of_fin (plx chi2 : K) :
  lnprob_of (Fin plx) (Fin chi2) = klnprob plx chi2.
Proof.
  unfold lnprob_of, klnprob. simpl. rewrite k_of_Q_0.
  by destruct (plx <=? 0).
Qed.

(** The scalar evaluator on finite data, without companion. *)
Lemma lnprob_candidate_fin hip cat l c :
  Forall (fun s => s_eps s <> 0) l ->
  lnprob_candidate (ideal_object hip cat l) (fin_astrometry c) None
  = klnprob (c_plx c) (kchi2 l (fun s => kposition cat s c)).
Proof.
  intros Heps. unfold lnprob_candidate.
  rewrite (chi2_candidate_fin hip cat l _ (fun s => kposition cat s c) Heps)
    by (apply Forall_forall; intros s _; apply position_fin).
  apply lnprob_of_fin.
Qed.

(** The method on finite data, with either value of the flag: the
    formula of the specification passed through [apply_negative]. *)
Lemma compute_lnprob_ideal_flag `{OrbitModel (ext K)} hip cat l
    (cands : list (Astrometry K)) negative :
  Forall (fun s => s_eps s <> 0) l -> cands <> [] ->
  compute_lnprob (ideal_object hip cat l)
    (rows_5 (fin_astrometry <$> cands)) negative
  = Ok (RetArray
          (apply_negative negative
             ((fun c => klnprob (c_plx c)
                          (kchi2 l (fun s => kposition cat s c)))
                <$> cands))).
Proof.
  intros Heps Hne.
  rewrite compute_lnprob_rows_5, lnprob_body_5;
    [| apply ideal_object_wf | by destruct cands].
  simpl. rewrite <- list_fmap_compose. do 3 f_equal.
  apply list_fmap_ext. intros _ c _. simpl. by apply lnprob_candidate_fin.
Qed.

(** C4: in exact arithmetic, on finite scans with non-zero
    uncertainties and a non-empty batch of finite five-parameter
    candidates, [compute_lnprob] returns for each candidate minus half
    of the sum over the scans of the squared residual over its
    uncertainty, the residual being the projection on the scan
    direction of abscissa point minus predicted position; and minus
    infinity where the parallax is not positive. *)
Theorem compute_lnprob_ideal_5 `{OrbitModel (ext K)} hip cat l
    (cands : list (Astrometry K)) :
  Forall (fun s => s_eps s <> 0) l -> cands <> [] ->
  compute_lnprob (ideal_object hip cat l)
    (rows_5 (fin_astrometry <$> cands)) false
  = Ok (RetArray
          ((fun c => klnprob (c_plx c) (kchi2 l (fun s => kposition cat s c)))
             <$> cands)).
Proof. intros Heps Hne. by rewrite compute_lnprob_ideal_flag. Qed.

(** ** Consequences *)

(** *** The residual at and around the catalogue solution *)

(** The general form of the residual of a reconstructed scan (Nielsen+
    2020, Eq 6): the measured abscissa residual, minus the projection on
    the scan direction of what the candidate adds to the catalogue
    solution. *)
Lemma residual_reconstructed cat s c :
  kresidual (set_scan_abscissa s (kabscissa cat s))
    (kposition cat (set_scan_abscissa s (kabscissa cat s)) c)
  = s_R s * (s_cos_phi s * s_cos_phi s + s_sin_phi s * s_sin_phi s)
    - ((c_alpha_H0 c + (c_plx c - cat_Plx cat) * kpar_alpha cat s
        + kdt s * (c_pm_ra c - cat_pmRA cat)) * s_cos_phi s
       + (c_delta_H0 c + (c_plx c - cat_Plx cat) * kpar_delta cat s
          + kdt s * (c_pm_dec c - cat_pmDE cat)) * s_sin_phi s).
Proof.
  unfold kresidual, kposition, kabscissa, kpar_alpha, kpar_delta, kdt. simpl.
  ring.
Qed.

(** At the catalogue solution the residual of a scan with a unit scan
    direction is the measured abscissa residual. *)
Lemma catalogue_residual cat s :
  s_cos_phi s * s_cos_phi s + s_sin_phi s * s_sin_phi s = 1 ->
  kresidual (set_scan_abscissa s (kabscissa cat s))
    (kposition cat (set_scan_abscissa s (kabscissa cat s))
       (catalogue_candidate cat))
  = s_R s.
Proof.
  intros Hunit. rewrite residual_reconstructed, Hunit. simpl. ring.
Qed.

Lemma chi2_catalogue cat l :
  Forall (fun s => s_cos_phi s * s_cos_phi s + s_sin_phi s * s_sin_phi s = 1)
    l ->
  kchi2 (kreconstructed cat l)
    (fun s => kposition cat s (catalogue_candidate cat))
  = ksum ((fun s => (s_R s / s_eps s) * (s_R s / s_eps s)) <$> l).
Proof.
  intros Hunit. unfold kchi2, kreconstructed.
  rewrite <- list_fmap_compose. f_equal.
  apply Forall_fmap_ext_1. eapply Forall_impl; [exact Hunit |].
  intros s Hs. simpl. by rewrite (catalogue_residual cat s Hs).
Qed.

(** The reconstruction on finite scans. *)
Lemma reconstruct_ideal hip cat l :
  reconstruct (ideal_object hip cat l)
  = Ok (ideal_object hip cat (kreconstructed cat l)).
Proof.
  rewrite (ideal_object_with_scans hip cat (kreconstructed cat l)).
  rewrite (ideal_object_with_scans hip cat l), reconstruct_scans.
  unfold kreconstructed. by rewrite <- !list_fmap_compose.
Qed.

(** The scalar evaluator at the catalogue solution, on the scans of
    the reconstruction. *)
Lemma lnprob_catalogue hip cat l :
  Forall (fun s => s_cos_phi s * s_cos_phi s + s_sin_phi s * s_sin_phi s = 1)
    l ->
  Forall (fun s => s_eps s <> 0) l ->
  (cat_Plx cat <=? 0) = false ->
  lnprob_candidate (ideal_object hip cat (kreconstructed cat l))
    (fin_astrometry (catalogue_candidate cat)) None
  = Fin (k_of_Q (-0.5)
         * ksum ((fun s => (s_R s / s_eps s) * (s_R s / s_eps s)) <$> l)).
Proof.
  intros Hunit Heps Hplx. rewrite lnprob_candidate_fin.
  - unfold klnprob. simpl. by rewrite Hplx, (chi2_catalogue cat l Hunit).
  - unfold kreconstructed. apply Forall_fmap. by simpl.
Qed.

(** C6: the reconstruction and the evaluation are consistent.  In exact
    arithmetic, for finite scans with unit scan directions and non-zero
    uncertainties and a positive catalogue parallax, the object that the
    reconstruction builds scores the catalogue solution itself with
    minus half of the sum of the squared measured abscissa residuals
    over their uncertainties. *)
Theorem catalogue_solution_lnprob `{OrbitModel (ext K)} hip cat l self :
  Forall (fun s => s_cos_phi s * s_cos_phi s + s_sin_phi s * s_sin_phi s = 1)
    l ->
  Forall (fun s => s_eps s <> 0) l ->
  (cat_Plx cat <=? 0) = false ->
  reconstruct (ideal_object hip cat l) = Ok self ->
  compute_lnprob self (rows_5 [fin_astrometry (catalogue_candidate cat)])
    false
  = Ok (RetArray
          [Fin (k_of_Q (-0.5)
                * ksum ((fun s => (s_R s / s_eps s) * (s_R s / s_eps s))
                          <$> l))]).
Proof.
  intros Hunit Heps Hplx. rewrite reconstruct_ideal. intros [= <-].
  rewrite compute_lnprob_rows_5, lnprob_body_5;
    [| apply ideal_object_wf | done].
  simpl. by rewrite (lnprob_catalogue hip cat l Hunit Heps Hplx).
Qed.

(** *** The sign of the result *)

Lemma kchi2_nonneg l (pos : Scan K -> K * K) : 0 <= kchi2 l pos.
Proof.
  unfold kchi2. apply ksum_nonneg, Forall_fmap, Forall_forall.
  intros s _. apply ksquare_nonneg.
Qed.

(** Chi-square vanishes exactly when every residual does. *)
Lemma kchi2_eq_0 l (pos : Scan K -> K * K) :
  Forall (fun s => s_eps s <> 0) l ->
  kchi2 l pos = 0 <-> Forall (fun s => kresidual s (pos s) = 0) l.
Proof.
  intros Heps. unfold kchi2. split.
  - intros Hsum. apply ksum_nonneg_eq_0 in Hsum.
    + apply Forall_fmap in Hsum. rewrite Forall_forall in Hsum, Heps.
      apply Forall_forall. intros s Hs. specialize (Hsum s Hs). simpl in Hsum.
      apply ksquare_eq_0 in Hsum. apply kdiv_eq_0 in Hsum; auto.
    + apply Forall_fmap, Forall_forall. intros s _. apply ksquare_nonneg.
  - intros Hres. apply ksum_all_0, Forall_fmap.
    rewrite Forall_forall in Hres, Heps. apply Forall_forall.
    intros s Hs. simpl. rewrite (Hres s Hs). field. auto.
Qed.

Lemma klnprob_nonpos (plx chi2 : K) :
  0 <= chi2 -> ext_le (klnprob plx chi2) (Fin 0) = true.
Proof.
  intros Hchi. unfold klnprob. destruct (plx <=? 0); [done |]. simpl.
  apply kmul_nonpos_nonneg; [by apply k_of_Q_nonpos | done].
Qed.

(** In exact arithmetic no candidate is scored above zero: every
    entry of the returned array is minus infinity or a finite number
    that is at most zero. *)
Theorem compute_lnprob_nonpos `{OrbitModel (ext K)} hip cat l
    (cands : list (Astrometry K)) :
  Forall (fun s => s_eps s <> 0) l -> cands <> [] ->
  exists lnprob,
    compute_lnprob (ideal_object hip cat l)
      (rows_5 (fin_astrometry <$> cands)) false = Ok (RetArray lnprob) /\
    Forall (fun v => ext_le v (Fin 0) = true) lnprob.
Proof.
  intros Heps Hne. eexists. split; [by apply compute_lnprob_ideal_flag |].
  apply Forall_fmap, Forall_forall. intros c _. simpl.
  apply klnprob_nonpos, kchi2_nonneg.
Qed.

(** A perfect fit.  In exact arithmetic a candidate with a positive
    parallax is scored zero exactly when its residual vanishes at every
    scan. *)
Theorem compute_lnprob_zero_iff `{OrbitModel (ext K)} hip cat l c :
  Forall (fun s => s_eps s <> 0) l -> (c_plx c <=? 0) = false ->
  compute_lnprob (ideal_object hip cat l) (rows_5 [fin_astrometry c]) false
  = Ok (RetArray [Fin 0])
  <-> Forall (fun s => kresidual s (kposition cat s c) = 0) l.
Proof.
  intros Heps Hplx.
  rewrite compute_lnprob_rows_5, lnprob_body_5;
    [| apply ideal_object_wf | done].
  simpl. rewrite (lnprob_candidate_fin hip cat l c Heps).
  unfold klnprob. rewrite Hplx, <- (kchi2_eq_0 l _ Heps). split.
  - intros [= Hz]. apply kmul_eq_0 in Hz as [Hz|Hz]; [| done].
    by apply k_of_Q_neq_0 in Hz.
  - intros ->. do 4 f_equal. ring.
Qed.

(** *** The sign flag *)

(** In exact arithmetic the product with the literal [-1] is the
    negation, at infinities and NaN too. *)
Lemma ext_mul_minus_one (v : ext K) : ext_mul v (flit (-1)) = ext_neg v.
Proof.
  assert (Hm1 : k_of_Q (-1) = - (1 : K)).
  { rewrite <- (k_of_Q_minus_one 1). ring. }
  assert (Hne : keqb (k_of_Q (-1)) 0 = false).
  { apply keqb_neq. rewrite Hm1. intros Heq. apply k_1_neq_0.
    replace (1 : K) with (- - (1 : K)) by ring. rewrite Heq. ring. }
  assert (Hle : (0 <=? k_of_Q (-1)) = false).
  { destruct (0 <=? k_of_Q (-1)) eqn:E; [| done].
    rewrite Hm1 in E. apply kle_opp_nonpos in E.
    replace (- - (1 : K)) with (1 : K) in E by ring.
    exfalso. apply k_1_neq_0. apply kle_antisym; [done | apply k_01]. }
  destruct v as [x| | |]; simpl; unfold ext_signed; rewrite ?Hne, ?Hle;
    try done.
  f_equal. rewrite Hm1. ring.
Qed.

(** *** A companion without mass *)

Lemma kperturbed_massless o (off pos : K * K) :
  o_m1 o = 0 -> o_mtot o <> 0 -> kperturbed o off pos = pos.
Proof.
  intros Hm Hmtot. unfold kperturbed. rewrite Hm. destruct pos as [p1 p2].
  simpl. f_equal; by field.
Qed.

Lemma perturbed_fin o (off pos : K * K) :
  o_mtot o <> 0 ->
  perturbed (fin_orbit o) (Fin off.1, Fin off.2) (Fin pos.1, Fin pos.2)
  = (Fin (kperturbed o off pos).1, Fin (kperturbed o off pos).2).
Proof.
  intros Hmtot. unfold perturbed. simpl.
  by rewrite (proj2 (keqb_neq _ _) Hmtot).
Qed.

(** The scalar evaluator on finite data, with a companion whose
    offset at the scan [s] is the finite [koff s]. *)
Lemma lnprob_candidate_fin_companion hip cat l c o
    (off : Scan (ext K) -> ext K * ext K) (koff : Scan K -> K * K) :
  Forall (fun s => s_eps s <> 0) l -> o_mtot o <> 0 ->
  Forall (fun s => off (fin_scan s) = (Fin (koff s).1, Fin (koff s).2)) l ->
  lnprob_candidate (ideal_object hip cat l) (fin_astrometry c)
    (Some (fin_orbit o, off))
  = klnprob (c_plx c)
      (kchi2 l (fun s => kperturbed o (koff s) (kposition cat s c))).
Proof.
  intros Heps Hmtot Hoff. unfold lnprob_candidate.
  rewrite (chi2_candidate_fin hip cat l _
             (fun s => kperturbed o (koff s) (kposition cat s c)) Heps).
  - apply lnprob_of_fin.
  - eapply Forall_impl; [exact Hoff |].
    intros s Hs. by rewrite Hs, position_fin, perturbed_fin.
Qed.

(** The same with thirteen parameters: the array the method returns on
    finite data, for either value of the flag. *)
Lemma compute_lnprob_ideal_flag_13 `{OrbitPointwise (ext K)} hip cat l
    (cands : list (Astrometry K * Orbit K))
    (koff : Scan K -> Astrometry K * Orbit K -> K * K) negative :
  Forall (fun s => s_eps s <> 0) l -> cands <> [] ->
  Forall (fun co => o_mtot co.2 <> 0) cands ->
  (forall s co, s ∈ l -> co ∈ cands ->
     orbit1 (Fin (s_mjd s)) (Fin (o_sma co.2)) (Fin (o_ecc co.2))
       (Fin (o_inc co.2)) (Fin (o_aop co.2)) (Fin (o_pan co.2))
       (Fin (o_tau co.2)) (Fin (c_plx co.1)) (Fin (o_mtot co.2))
     = (Fin (koff s co).1, Fin (koff s co).2)) ->
  compute_lnprob (ideal_object hip cat l)
    (rows_13 ((fun co => (fin_astrometry co.1, fin_orbit co.2)) <$> cands))
    negative
  = Ok (RetArray
          (apply_negative negative
             ((fun co =>
                 klnprob (c_plx co.1)
                   (kchi2 l (fun s => kperturbed co.2 (koff s co)
                                        (kposition cat s co.1))))
                <$> cands))).
Proof.
  intros Heps Hne Hmtot Hoff.
  rewrite compute_lnprob_rows_13, lnprob_body_13;
    [| apply ideal_object_wf | by destruct cands].
  cbn [py_map py_bind]. rewrite <- list_fmap_compose.
  do 3 f_equal.
  apply Forall_fmap_ext_1, Forall_forall. intros [c o] Hco.
  rewrite Forall_forall in Hmtot. specialize (Hmtot _ Hco).
  unfold compose, companion_of. cbn [fst snd] in *.
  apply (lnprob_candidate_fin_companion hip cat l c o _
           (fun s => koff s (c, o)) Heps Hmtot).
  apply Forall_forall. intros s Hs. by apply (Hoff s (c, o)).
Qed.

(** C5: in exact arithmetic, on finite scans with non-zero
    uncertainties, for a non-empty batch of finite thirteen-parameter
    candidates of non-zero total mass and a Kepler solver whose offsets
    are the finite [koff], [compute_lnprob] returns for each candidate
    minus half of chi-square of the residuals of the position displaced
    by [- m1 / mtot] times the companion's offset; and minus infinity
    where the parallax is not positive. *)
Theorem compute_lnprob_ideal_13 `{OrbitPointwise (ext K)} hip cat l
    (cands : list (Astrometry K * Orbit K))
    (koff : Scan K -> Astrometry K * Orbit K -> K * K) :
  Forall (fun s => s_eps s <> 0) l -> cands <> [] ->
  Forall (fun co => o_mtot co.2 <> 0) cands ->
  (forall s co, s ∈ l -> co ∈ cands ->
     orbit1 (Fin (s_mjd s)) (Fin (o_sma co.2)) (Fin (o_ecc co.2))
       (Fin (o_inc co.2)) (Fin (o_aop co.2)) (Fin (o_pan co.2))
       (Fin (o_tau co.2)) (Fin (c_plx co.1)) (Fin (o_mtot co.2))
     = (Fin (koff s co).1, Fin (koff s co).2)) ->
  compute_lnprob (ideal_object hip cat l)
    (rows_13 ((fun co => (fin_astrometry co.1, fin_orbit co.2)) <$> cands))
    false
  = Ok (RetArray
          ((fun co =>
              klnprob (c_plx co.1)
                (kchi2 l (fun s => kperturbed co.2 (koff s co)
                                     (kposition cat s co.1))))
             <$> cands)).
Proof.
  intros Heps Hne Hmtot Hoff.
  by rewrite (compute_lnprob_ideal_flag_13 hip cat l cands koff).
Qed.

(** The positions of a candidate with a massless companion whose
    offsets are finite. *)
Lemma perturbed_massless_fin hip cat l s c o (off : ext K * ext K) :
  o_m1 o = 0 -> o_mtot o <> 0 ->
  (exists koff : K * K, off = (Fin koff.1, Fin koff.2)) ->
  perturbed (fin_orbit o) off
    (position (ideal_object hip cat l) (fin_scan s) (fin_astrometry c))
  = position (ideal_object hip cat l) (fin_scan s) (fin_astrometry c).
Proof.
  intros Hm Hmtot [koff ->].
  by rewrite position_fin, perturbed_fin, kperturbed_massless.
Qed.

(** A companion without mass changes nothing.  In exact arithmetic,
    for thirteen-parameter candidates whose companion mass [m1] is zero
    and whose total mass is not, and a Kepler solver that returns
    finite offsets for them at the epochs of the scans, [compute_lnprob] returns what it returns for the
    five astrometric parameters alone. *)
Theorem compute_lnprob_massless `{OrbitPointwise (ext K)} hip cat l
    (cands : list (Astrometry K * Orbit K)) negative :
  cands <> [] ->
  Forall (fun co => o_m1 co.2 = 0 /\ o_mtot co.2 <> 0) cands ->
  (forall s co, s ∈ l -> co ∈ cands -> exists koff : K * K,
     orbit1 (Fin (s_mjd s)) (Fin (o_sma co.2)) (Fin (o_ecc co.2))
       (Fin (o_inc co.2)) (Fin (o_aop co.2)) (Fin (o_pan co.2))
       (Fin (o_tau co.2)) (Fin (c_plx co.1)) (Fin (o_mtot co.2))
     = (Fin koff.1, Fin koff.2)) ->
  compute_lnprob (ideal_object hip cat l)
    (rows_13 ((fun co => (fin_astrometry co.1, fin_orbit co.2)) <$> cands))
    negative
  = compute_lnprob (ideal_object hip cat l)
      (rows_5 ((fun co => fin_astrometry co.1) <$> cands)) negative.
Proof.
  intros Hne Hmass Hoff.
  rewrite compute_lnprob_rows_13, compute_lnprob_rows_5.
  rewrite lnprob_body_13, lnprob_body_5;
    try apply ideal_object_wf; try (by destruct cands).
  rewrite <- !list_fmap_compose. do 3 f_equal.
  apply Forall_fmap_ext_1, Forall_forall. intros [c o] Hco.
  rewrite Forall_forall in Hmass. destruct (Hmass _ Hco) as [Hm Hmtot].
  unfold lnprob_candidate, chi2_candidate, compose.
  cbn [fst snd companion_of c_plx fin_astrometry] in *.
  rewrite scans_ideal_object, <- !list_fmap_compose. do 2 f_equal.
  apply list_fmap_ext. intros i s Hs%list_elem_of_lookup_2. unfold compose.
  rewrite perturbed_massless_fin; [done | done | done |].
  by apply (Hoff s (c, o)).
Qed.

(** In exact arithmetic the flag [negative] negates the result:
    every entry of the array returned with [negative=True] is the
    negation of the log-probability, plus infinity where the parallax
    is not positive. *)
Theorem compute_lnprob_negative_ideal `{OrbitModel (ext K)} hip cat l
    (cands : list (Astrometry K)) :
  Forall (fun s => s_eps s <> 0) l -> cands <> [] ->
  compute_lnprob (ideal_object hip cat l)
    (rows_5 (fin_astrometry <$> cands)) true
  = Ok (RetArray
          ((fun c => ext_neg
                       (klnprob (c_plx c)
                          (kchi2 l (fun s => kposition cat s c))))
             <$> cands)).
Proof.
  intros Heps Hne. rewrite compute_lnprob_ideal_flag by done.
  cbn [apply_negative]. unfold np_rscalar.
  rewrite <- list_fmap_compose. do 2 f_equal.
  apply list_fmap_ext. intros _ c _. apply ext_mul_minus_one.
Qed.

End Refinement.
