(* ===== verification/RealModel.v ===== *)
(** * RealModel: the method over the real numbers

    The real numbers are an ordered field, with the sine, the cosine and
    the conversion from degrees that [np.sin], [np.cos] and [np.radians]
    approximate.  This file instantiates [Exact] and [Ideal] with them
    and restates the result in the notation of the method's formulas
    (Nielsen+ 2020, Eqs 6-8): on finite real data the program computes
    [spec_lnprob], and the object the reconstruction builds from scans
    given by their scan angles scores the catalogue solution with minus
    half the sum of the squared measured residuals. *)

Set Warnings "-hiding-delimiting-key".
From Stdlib Require Import Reals Lra Field QArith.
From S2P Require Import Prelude Scalar NumPy Exact.
From S2P Require Import Reconstructor Evaluator Reference Ideal.

(** ** The reals as an ordered field *)

Definition Rleb (x y : R) : bool := if Rle_dec x y then true else false.

#[export] Instance R_ops : FieldOps R := {
  kzero := 0%R;
  kone := 1%R;
  kadd := Rplus;
  kmul := Rmult;
  ksub := Rminus;
  kopp := Ropp;
  kdiv := Rdiv;
  kinv := Rinv;
  kleb := Rleb
}.

(** [np.radians(x)] is [x * pi / 180]. *)
#[export] Instance R_trig : KTrig R := {
  ksin := sin;
  kcos := cos;
  kradians x := (x * PI / 180)%R
}.

(** ** The formulas of the method *)

Section Formulas.
Implicit Types (cat : Catalog R) (s : Scan R) (c : Astrometry R).
Local Open Scope R_scope.

(** The expected offset of the photocentre (Eq 8). *)
Definition spec_alpha_C cat s c : R :=
  c_alpha_H0 c
  + c_plx c * (s_X s * sin (cat_RArad cat * PI / 180)
               - s_Y s * cos (cat_RArad cat * PI / 180))
  + (s_epoch s - 1991.25) * c_pm_ra c.

Definition spec_delta_C cat s c : R :=
  c_delta_H0 c
  + c_plx c * (s_X s * cos (cat_RArad cat * PI / 180)
                 * sin (cat_DErad cat * PI / 180)
               + s_Y s * sin (cat_RArad cat * PI / 180)
                 * sin (cat_DErad cat * PI / 180)
               - s_Z s * cos (cat_DErad cat * PI / 180))
  + (s_epoch s - 1991.25) * c_pm_dec c.

(** The distance between the scan line and the expected position
    (Eq 6). *)
Definition spec_dist cat s c : R :=
  Rabs ((s_alpha_abs_st s - spec_alpha_C cat s c) * s_cos_phi s
        + (s_delta_abs s - spec_delta_C cat s c) * s_sin_phi s).

(** Chi-square (Eq 7). *)
Definition spec_chi2 cat (l : list (Scan R)) c : R :=
  fold_right Rplus 0 ((fun s => (spec_dist cat s c / s_eps s)²) <$> l).

(** The log-probability with the prior on the parallax. *)
Definition spec_lnprob cat (l : list (Scan R)) c : ext R :=
  if Rle_dec (c_plx c) 0 then NInf else Fin (- (1 / 2) * spec_chi2 cat l c).

(** The score of the catalogue solution: minus half of the sum of the
    squared measured residuals over their uncertainties. *)
Definition spec_catalogue_lnprob (l : list (Scan R)) : R :=
  - (1 / 2) * fold_right Rplus 0 ((fun s => (s_R s / s_eps s)²) <$> l).

End Formulas.

(** ** Real data for the examples *)

(** A scan given by its epoch, its scan angle, its measured residual
    and its uncertainty, with the Earth at a fixed position. *)
Definition scanR (epoch phi res eps : R) : Scan R := {|
  s_epoch := epoch; s_mjd := epoch;
  s_cos_phi := cos phi; s_sin_phi := sin phi;
  s_R := res; s_eps := eps;
  s_X := 1; s_Y := 0; s_Z := 0;
  s_alpha_abs_st := 0; s_delta_abs := 0
|}%R.

Definition catalogR : Catalog R := {|
  cat_RArad := 30; cat_e_RArad := 1;
  cat_DErad := 60; cat_e_DErad := 1;
  cat_Plx := 2; cat_e_Plx := 1;
  cat_pmRA := 4; cat_e_pmRA := 1;
  cat_pmDE := -8; cat_e_pmDE := 1
|}%R.

Definition scansR : list (Scan R) :=
  [scanR 1990 0 1 1; scanR 1991 1 (-3) 2; scanR 1992 2 2 4]%R.

Definition candR (pm_ra pm_dec alpha_H0 delta_H0 plx : R) : Astrometry R :=
  {| c_pm_ra := pm_ra; c_pm_dec := pm_dec; c_alpha_H0 := alpha_H0;
     c_delta_H0 := delta_H0; c_plx := plx |}.

(** A companion is not consulted in a five-parameter fit. *)
Definition no_orbit : OrbitModel (ext R) := {|
  calc_orbit _ _ _ _ _ _ _ _ _ := Raise (ExternalError "calc_orbit")
|}.

(** ** The instance *)

Lemma Rleb_le (x y : R) : Rleb x y = true <-> (x <= y)%R.
Proof. unfold Rleb. destruct (Rle_dec x y); split; (done || lra). Qed.

Lemma Rleb_gt (x y : R) : Rleb x y = false <-> (y < x)%R.
Proof. unfold Rleb. destruct (Rle_dec x y); split; (done || lra). Qed.

#[export] Instance R_ordered_field : OrderedField R.
Proof.
  split; unfold kle; simpl; try setoid_rewrite Rleb_le.
  - exact Rfield.
  - intros x y. lra.
  - intros x y. lra.
  - intros x y z. lra.
  - intros x y z. lra.
  - apply Rmult_le_pos.
Qed.

(** The literals of the source denote the reals they spell. *)
Lemma k_of_pos_R (p : positive) : k_of_pos p = IZR (Zpos p).
Proof.
  induction p as [p IH|p IH|]; simpl; [| | done]; rewrite IH.
  - rewrite (Pos2Z.inj_xI p), plus_IZR, mult_IZR. lra.
  - rewrite (Pos2Z.inj_xO p), mult_IZR. lra.
Qed.

Lemma k_of_Q_R (q : Q) :
  k_of_Q q = (IZR (Qnum q) / IZR (Zpos (Qden q)))%R.
Proof.
  unfold k_of_Q. rewrite k_of_pos_R. simpl. f_equal.
  destruct (Qnum q) as [|p|p]; simpl; [done | apply k_of_pos_R |].
  by rewrite k_of_pos_R.
Qed.

Lemma k_of_Q_epoch : k_of_Q 1991.25 = 1991.25%R.
Proof. rewrite k_of_Q_R. simpl. lra. Qed.

Lemma k_of_Q_minus_half : k_of_Q (-0.5) = (- (1 / 2))%R.
Proof. rewrite k_of_Q_R. simpl. lra. Qed.

(** ** The specification of [Ideal] in the notation of the formulas *)

Section RealFacts.
Implicit Types (cat : Catalog R) (s : Scan R) (c : Astrometry R)
  (l : list (Scan R)).

Lemma kposition_R cat s c :
  kposition cat s c = (spec_alpha_C cat s c, spec_delta_C cat s c).
Proof.
  unfold kposition, spec_alpha_C, spec_delta_C, kpar_alpha, kpar_delta, kdt.
  by rewrite k_of_Q_epoch.
Qed.

Lemma ksquare_residual_R cat s c :
  (kresidual s (kposition cat s c) / s_eps s
   * (kresidual s (kposition cat s c) / s_eps s))%K
  = ((spec_dist cat s c / s_eps s)²)%R.
Proof.
  rewrite kposition_R. unfold kresidual, spec_dist. simpl.
  rewrite Rsqr_div', <- Rsqr_abs, <- Rsqr_div'. reflexivity.
Qed.

Lemma kchi2_R cat l c :
  kchi2 l (fun s => kposition cat s c) = spec_chi2 cat l c.
Proof.
  unfold kchi2, spec_chi2, ksum. f_equal.
  apply list_fmap_ext. intros _ s _. apply ksquare_residual_R.
Qed.

Lemma klnprob_R cat l c :
  klnprob (c_plx c) (kchi2 l (fun s => kposition cat s c))
  = spec_lnprob cat l c.
Proof.
  unfold klnprob, spec_lnprob.
  change (c_plx c <=? 0)%K with (Rleb (c_plx c) 0). unfold Rleb.
  destruct (Rle_dec (c_plx c) 0); [done |].
  by rewrite k_of_Q_minus_half, kchi2_R.
Qed.

Lemma unit_of_angle s :
  (exists phi, s_cos_phi s = cos phi /\ s_sin_phi s = sin phi) ->
  (s_cos_phi s * s_cos_phi s + s_sin_phi s * s_sin_phi s = 1)%K.
Proof.
  intros (phi & -> & ->). simpl. rewrite Rplus_comm. apply sin2_cos2.
Qed.

(** C3: on finite real data, with non-zero uncertainties and a
    non-empty batch of five-parameter candidates, [compute_lnprob]
    computes the formulas of the method: for each candidate minus half
    of the sum over the scans of the squared distance between scan line
    and expected position over the uncertainty, and minus infinity where
    the parallax is not positive. *)
Theorem compute_lnprob_real `{OrbitModel (ext R)} hip cat l
    (cands : list (Astrometry R)) :
  Forall (fun s => s_eps s <> 0%R) l -> cands <> [] ->
  compute_lnprob (ideal_object hip cat l)
    (rows_5 (fin_astrometry <$> cands)) false
  = Ok (RetArray (spec_lnprob cat l <$> cands)).
Proof.
  intros Heps Hne.
  rewrite compute_lnprob_rows_5, lnprob_body_5;
    [| apply ideal_object_wf | by destruct cands].
  cbn [py_map py_bind apply_negative]. rewrite <- list_fmap_compose.
  do 2 f_equal. apply list_fmap_ext. intros _ c _. unfold compose.
  by rewrite lnprob_candidate_fin, klnprob_R.
Qed.

(** Over the reals, for scans given by their scan angles, with
    non-zero uncertainties and a positive catalogue parallax, the
    constructor's reconstruction succeeds and the object it builds
    scores the catalogue solution with minus half of the sum of the
    squared measured residuals over their uncertainties. *)
Theorem catalogue_solution_real `{OrbitModel (ext R)} hip cat l :
  Forall (fun s => exists phi, s_cos_phi s = cos phi /\ s_sin_phi s = sin phi)
    l ->
  Forall (fun s => s_eps s <> 0%R) l -> (0 < cat_Plx cat)%R ->
  exists self,
    reconstruct (ideal_object hip cat l) = Ok self /\
    compute_lnprob self (rows_5 [fin_astrometry (catalogue_candidate cat)])
      false
    = Ok (RetArray [Fin (spec_catalogue_lnprob l)]).
Proof.
  intros Hphi Heps Hplx. eexists. split; [apply reconstruct_ideal |].
  rewrite compute_lnprob_rows_5, lnprob_body_5;
    [| apply ideal_object_wf | done].
  cbn [py_map py_bind apply_negative fmap list_fmap].
  rewrite lnprob_catalogue, k_of_Q_minus_half;
    [done | | done | by apply Rleb_gt].
  eapply Forall_impl; [exact Hphi | apply unit_of_angle].
Qed.

End RealFacts.

(** ** The theorems on the example data *)

Lemma scansR_eps : Forall (fun s => s_eps s <> 0%R) scansR.
Proof.
  repeat (apply Forall_cons_2; [simpl; lra |]). apply Forall_nil_2.
Defined.

Lemma compute_lnprob_real_witness :
  compute_lnprob (H1 := no_orbit) (ideal_object "027321" catalogR scansR)
    (rows_5 (fin_astrometry <$> [candR 4 (-8) 0 0 2; candR 0 0 1 1 (-1)]))
    false
  = Ok (RetArray
          (spec_lnprob catalogR scansR
             <$> [candR 4 (-8) 0 0 2; candR 0 0 1 1 (-1)])).
Proof. apply compute_lnprob_real; [exact scansR_eps | discriminate]. Defined.

Lemma catalogue_solution_real_witness :
  exists self,
    reconstruct (ideal_object "027321" catalogR scansR) = Ok self /\
    compute_lnprob (H1 := no_orbit) self
      (rows_5 [fin_astrometry (catalogue_candidate catalogR)]) false
    = Ok (RetArray [Fin (spec_catalogue_lnprob scansR)]).
Proof.
  apply catalogue_solution_real; [| exact scansR_eps | simpl; lra].
  repeat (apply Forall_cons_2; [by eexists |]). apply Forall_nil_2.
Defined.
