(* ===== verification/Signs.v ===== *)
(** * Signs: no score is positive, in floating point

    [compute_lnprob] returns [-0.5 * chi2], where [chi2] is a sum of
    squares, with minus infinity where the parallax is not positive.
    Whatever the data, the rounding and the overflow, every entry it
    returns is therefore NaN or at most zero, and NaN or at least zero
    with [negative=True].  The argument needs no field law, only what
    the operations do to the sign: the interface [SignLaws] states it,
    the theorem [compute_lnprob_sign] is proved against the interface,
    and the two instances discharge it: [binary64_signs] from the
    sign lemmas of [Binary64], which follow from the specification of
    the IEEE-754 operations, [ext_signs] from the laws of an ordered
    field. *)

From Stdlib Require Import ZArith QArith.
From Stdlib Require Import Floats SpecFloat.
From S2P Require Import Prelude Scalar NumPy Exact Sorting Binary64.
From S2P Require Import Reconstructor Evaluator.

(** ** The interface *)

Class SignLaws (F : Type) `{Scalar F} : Type := {
  not_neg : F -> Prop;    (* NaN, or a value whose sign is not minus *)
  not_pos : F -> Prop;    (* NaN, or a value whose sign is not plus *)
  not_neg_zero : not_neg (flit 0);
  not_neg_square x : not_neg (fsquare x);
  not_neg_add x y : not_neg x -> not_neg y -> not_neg (fadd x y);
  not_pos_half x : not_neg x -> not_pos (fmul (flit (-0.5)) x);
  not_pos_neg_inf : not_pos (fneg finf);
  not_neg_flip x : not_pos x -> not_neg (fmul x (flit (-1)));
  not_pos_le x : not_pos x -> is_nan x = true \/ fle x (flit 0) = true;
  not_neg_le x : not_neg x -> is_nan x = true \/ fle (flit 0) x = true
}.

(** What [compute_lnprob] promises of an entry [x] of its result. *)
Definition sign_ok {F} `{Scalar F} (negative : bool) (x : F) : Prop :=
  is_nan x = true \/
  (if negative then fle (flit 0) x else fle x (flit 0)) = true.

(** The result of a call with every entry of the array negated. *)
Definition negated (r : py (retval float)) : py (retval float) :=
  py_map (retval_map np_neg) r.

(** ** The program against the interface *)

Section Generic.
Context {F : Type} `{SignLaws F} `{!Trig F} `{!OrbitModel F}.
Implicit Types (self : HipparcosLogProb F) (a : list F).

Lemma foldl_not_neg x a :
  not_neg x -> Forall not_neg a -> not_neg (foldl fadd x a).
Proof.
  intros Hx Ha. revert x Hx.
  induction Ha as [|y a Hy _ IH]; intros x Hx; simpl; [done |].
  by apply IH, not_neg_add.
Qed.

Lemma np_sum_not_neg a : Forall not_neg a -> not_neg (np_sum a).
Proof.
  destruct 1 as [|x a Hx Ha]; simpl; [apply not_neg_zero |].
  by apply foldl_not_neg.
Qed.

Lemma chi2_terms_not_neg self n dist j t :
  chi2_terms self n dist j = Ok t -> Forall not_neg t.
Proof.
  unfold chi2_terms. intros Ht. py_inv Ht. py_inv Ht. injection Ht as <-.
  apply Forall_fmap, Forall_forall. intros x _. apply not_neg_square.
Qed.

Lemma chi2_of_not_neg self n dist chi2 :
  chi2_of self n dist = Ok chi2 -> Forall not_neg chi2.
Proof.
  unfold chi2_of. intros Hc. py_inv Hc.
  apply np_sum_axis1_inv in Hc as ->.
  apply Forall_fmap. eapply Forall_impl.
  - eapply py_mapM_Forall; [eassumption |]. apply chi2_terms_not_neg.
  - apply np_sum_not_neg.
Qed.

Lemma apply_prior_not_pos plx chi2 lnprob :
  apply_prior plx chi2 = Ok lnprob ->
  Forall not_neg chi2 -> Forall not_pos lnprob.
Proof.
  unfold apply_prior. intros Hp Hc.
  eapply np_put_Forall; [eassumption | | apply not_pos_neg_inf].
  apply Forall_fmap. eapply Forall_impl; [eassumption |].
  apply not_pos_half.
Qed.

Lemma apply_negative_sign negative lnprob :
  Forall not_pos lnprob ->
  Forall (sign_ok negative) (apply_negative negative lnprob).
Proof.
  intros Hl. destruct negative; simpl.
  - apply Forall_fmap. eapply Forall_impl; [eassumption |].
    intros x Hx. by apply not_neg_le, not_neg_flip.
  - eapply Forall_impl; [eassumption |]. apply not_pos_le.
Qed.

Lemma lnprob_body_sign self pm_ra pm_dec alpha_H0 delta_H0 plx planet
    negative lnprob :
  lnprob_body self pm_ra pm_dec alpha_H0 delta_H0 plx planet negative
  = Ok lnprob ->
  Forall (sign_ok negative) lnprob.
Proof.
  unfold lnprob_body. intros Hb. py_inv Hb. py_inv Hb. py_inv Hb.
  injection Hb as <-.
  eapply apply_negative_sign, apply_prior_not_pos; [eassumption |].
  by eapply chi2_of_not_neg.
Qed.

(** Whatever the object and the batch: if [compute_lnprob] returns an
    array, every entry of it is NaN or of the sign the flag asks for. *)
Lemma compute_lnprob_sign self samples negative lnprob :
  compute_lnprob self samples negative = Ok (RetArray lnprob) ->
  Forall (sign_ok negative) lnprob.
Proof.
  unfold compute_lnprob. intros Hc. do 6 py_inv Hc.
  match type of Hc with
  | match ?layout with _ => _ end = _ => destruct layout as [planet|]
  end; [| done].
  py_inv Hc. injection Hc as <-. by eapply lnprob_body_sign.
Qed.

End Generic.

(** ** Binary64 discharges the interface *)

Section Binary64.

#[export, refine] Instance binary64_signs : SignLaws float := {|
  not_neg := float_sign false;
  not_pos := float_sign true
|}.
Proof.
  - by vm_compute.
  - apply float_square_sign.
  - apply float_add_sign.
  - intros x Hx. by apply (float_mul_sign true false).
  - by vm_compute.
  - intros x Hx. by apply (float_mul_sign true true).
  - intros x [Hx|Hx]%sf_sign_le_0; [left; by apply float_is_nan |].
    right. simpl. by rewrite leb_spec.
  - intros x [Hx|Hx]%sf_sign_ge_0; [left; by apply float_is_nan |].
    right. simpl. by rewrite leb_spec.
Defined.

Context `{!Trig float} `{!OrbitModel float}.

(** C12: on binary64, with its rounding, its overflow and its NaN,
    whatever the object holds, whatever the interfaces of the
    trigonometry and of the Kepler solver return and whatever the batch
    is: when [compute_lnprob] returns an array, no entry of it is a
    positive number (each is NaN or at most zero), and with
    [negative=True] no entry is a negative number. *)
Theorem compute_lnprob_binary64_sign (self : HipparcosLogProb float)
    samples negative lnprob :
  compute_lnprob self samples negative = Ok (RetArray lnprob) ->
  Forall (sign_ok negative) lnprob.
Proof. apply compute_lnprob_sign. Qed.

(** On binary64 [lnprob *= -1] is the negation of every entry. *)
Lemma apply_negative_binary64 (lnprob : list float) :
  apply_negative true lnprob = np_neg lnprob.
Proof.
  apply list_fmap_ext. intros _ x _. rewrite binary64_lit_minus_one.
  apply float_mul_minus_one.
Qed.

Lemma np_neg_involutive_binary64 (a : list float) : np_neg (np_neg a) = a.
Proof.
  unfold np_neg. rewrite <- list_fmap_compose.
  etrans; [| apply list_fmap_id].
  apply list_fmap_ext. intros _ x _. apply float_opp_involutive.
Qed.

(** C18: on binary64 the flag [negative] is an exact negation: the call
    with [negative=True] raises when the call without it raises, prints
    when it prints, and otherwise returns its array with the sign of
    every entry changed and no bit else; negating that array again gives
    back the array of the call without the flag. *)
Theorem compute_lnprob_negative_binary64 (self : HipparcosLogProb float)
    samples :
  compute_lnprob self samples true
  = negated (compute_lnprob self samples false) /\
  negated (compute_lnprob self samples true)
  = compute_lnprob self samples false.
Proof.
  unfold negated. rewrite (compute_lnprob_flag self samples true).
  destruct (compute_lnprob self samples false) as [[lnprob|msg]|e];
    [| done | done].
  unfold py_map. cbn [py_bind retval_map].
  by rewrite apply_negative_binary64, np_neg_involutive_binary64.
Qed.

End Binary64.

(** ** Exact arithmetic discharges the interface *)

Section ExactSigns.
Context {K : Type} `{OrderedField K}.
Add Field Kfield_signs : K_field.
Local Open Scope K_scope.

Definition ext_not_neg (x : ext K) : Prop :=
  match x with Fin k => 0 <= k | NInf => False | PInf | NaN => True end.

Definition ext_not_pos (x : ext K) : Prop :=
  match x with Fin k => k <= 0 | PInf => False | NInf | NaN => True end.

(** An infinity times a negative number is the other infinity. *)
Lemma ext_signed_minus q (pos neg : ext K) :
  (Qnum q < 0)%Z -> ext_signed pos neg (k_of_Q q) = neg.
Proof.
  intros Hq. unfold ext_signed.
  assert (k_of_Q q <> (0 : K)) as Hne by (apply k_of_Q_neq_0; lia).
  rewrite (proj2 (keqb_neq _ _) Hne).
  destruct (0 <=? k_of_Q q) eqn:Hle; [| done].
  destruct Hne. apply kle_antisym; [apply k_of_Q_nonpos; lia | done].
Qed.

Lemma ext_not_neg_square (x : ext K) : ext_not_neg (fsquare x).
Proof. destruct x; simpl; try done. apply ksquare_nonneg. Qed.

Lemma ext_not_neg_add (x y : ext K) :
  ext_not_neg x -> ext_not_neg y -> ext_not_neg (fadd x y).
Proof. destruct x, y; simpl; try done. apply kadd_nonneg. Qed.

Lemma ext_not_pos_half (x : ext K) :
  ext_not_neg x -> ext_not_pos (fmul (flit (-0.5)) x).
Proof.
  destruct x as [k| | |]; simpl; try done.
  - intros Hk. by apply kmul_nonpos_nonneg; [apply k_of_Q_nonpos |].
  - by rewrite ext_signed_minus.
Qed.

Lemma ext_not_neg_flip (x : ext K) :
  ext_not_pos x -> ext_not_neg (fmul x (flit (-1))).
Proof.
  destruct x as [k| | |]; simpl; try done.
  - intros Hk. replace (k * k_of_Q (-1)) with (- k).
    + by apply kle_opp_nonneg.
    + rewrite <- k_of_Q_minus_one. ring.
  - by rewrite ext_signed_minus.
Qed.

Lemma ext_not_pos_le (x : ext K) :
  ext_not_pos x -> is_nan x = true \/ fle x (flit 0) = true.
Proof.
  destruct x as [k| | |]; intros Hx; [right | done | by right | by left].
  simpl. by rewrite k_of_Q_0.
Qed.

Lemma ext_not_neg_le (x : ext K) :
  ext_not_neg x -> is_nan x = true \/ fle (flit 0) x = true.
Proof.
  destruct x as [k| | |]; intros Hx; [right | by right | done | by left].
  simpl. by rewrite k_of_Q_0.
Qed.

#[export, refine] Instance ext_signs : SignLaws (ext K) := {|
  not_neg := ext_not_neg;
  not_pos := ext_not_pos
|}.
Proof.
  - simpl. rewrite k_of_Q_0. apply kle_refl.
  - apply ext_not_neg_square.
  - apply ext_not_neg_add.
  - apply ext_not_pos_half.
  - done.
  - apply ext_not_neg_flip.
  - apply ext_not_pos_le.
  - apply ext_not_neg_le.
Defined.

End ExactSigns.
