(* ===== verification/Nan.v ===== *)
(** * Nan: the candidates that are scored NaN

    The prior of [compute_lnprob] masks the candidates whose parallax is
    [<= 0].  A NaN parallax fails that comparison, so the candidate
    keeps its chi-square, and the chi-square of a candidate with a NaN
    parallax is NaN as soon as there is one scan: NaN passes through
    every operation between the parallax and the score.  The same holds
    of a candidate whose mass ratio [-m1 / mtot] is NaN, which [0 / 0]
    is.  The interface
    [NanLaws] states what the argument needs of the arithmetic; the
    theorems are proved against it and hold on binary64
    ([binary64_nan], from the lemmas of [Binary64]) and in exact
    arithmetic ([ext_nan]). *)

From Stdlib Require Import QArith.
From Stdlib Require Import Floats.
From S2P Require Import Prelude Scalar NumPy Exact Sorting Binary64.
From S2P Require Import Reconstructor Evaluator Reference.

(** ** The interface *)

Class NanLaws (F : Type) `{Scalar F} : Prop := {
  nan_add_l x y : is_nan x = true -> is_nan (fadd x y) = true;
  nan_add_r x y : is_nan y = true -> is_nan (fadd x y) = true;
  nan_sub_l x y : is_nan x = true -> is_nan (fsub x y) = true;
  nan_sub_r x y : is_nan y = true -> is_nan (fsub x y) = true;
  nan_mul_l x y : is_nan x = true -> is_nan (fmul x y) = true;
  nan_mul_r x y : is_nan y = true -> is_nan (fmul x y) = true;
  nan_div_l x y : is_nan x = true -> is_nan (fdiv x y) = true;
  nan_abs x : is_nan x = true -> is_nan (fabs x) = true;
  nan_le x y : is_nan x = true -> fle x y = false
}.

(** The call returned an array whose entry [j] is NaN. *)
Definition scored_nan {F} `{Scalar F} (r : py (retval F)) (j : nat) : Prop :=
  exists lnprob x,
    r = Ok (RetArray lnprob) /\ lnprob !! j = Some x /\ is_nan x = true.

Create HintDb nan.
#[export] Hint Resolve nan_add_l nan_add_r nan_sub_l nan_sub_r nan_mul_l
  nan_mul_r nan_div_l nan_abs : nan.

(** ** The scalar evaluator on a NaN parallax *)

Section Generic.
Context {F : Type} `{NanLaws F} `{!Trig F}.
Implicit Types (self : HipparcosLogProb F) (sc : Scan F)
  (c : Astrometry F) (o : Orbit F) (a : list F).

Lemma position_nan self sc c :
  is_nan (c_plx c) = true ->
  is_nan (position self sc c).1 = true /\
  is_nan (position self sc c).2 = true.
Proof. intros Hc. split; simpl; auto with nan. Qed.

Lemma perturbed_nan o (off pos : F * F) :
  is_nan pos.1 = true -> is_nan (perturbed o off pos).1 = true.
Proof. intros Hp. simpl. auto with nan. Qed.

(** The distance from the scan line of a position whose first
    coordinate is NaN. *)
Lemma distance_nan sc (pos : F * F) :
  is_nan pos.1 = true -> is_nan (distance sc pos) = true.
Proof. intros Hp. unfold distance. auto with nan. Qed.

Lemma foldl_nan x a : is_nan x = true -> is_nan (foldl fadd x a) = true.
Proof.
  revert x. induction a as [|y a IH]; intros x Hx; simpl; auto with nan.
Qed.

(** A sum whose first term is NaN. *)
Lemma np_sum_nan x a : is_nan x = true -> is_nan (np_sum (x :: a)) = true.
Proof. apply foldl_nan. Qed.

Lemma chi2_candidate_nan self (pos : Scan F -> F * F) :
  scans self <> [] -> (forall sc, is_nan (pos sc).1 = true) ->
  is_nan (chi2_candidate self pos) = true.
Proof.
  intros Hne Hpos. unfold chi2_candidate.
  destruct (scans self) as [|sc l]; [done |]. rewrite fmap_cons.
  apply np_sum_nan. unfold fsquare. auto using distance_nan with nan.
Qed.

(** The score of a candidate with a NaN parallax, with or without a
    companion, against an object of at least one scan. *)
Lemma lnprob_candidate_nan self c companion :
  scans self <> [] -> is_nan (c_plx c) = true ->
  is_nan (lnprob_candidate self c companion) = true.
Proof.
  intros Hne Hc. unfold lnprob_candidate, lnprob_of.
  rewrite (nan_le _ _ Hc). apply nan_mul_r, chi2_candidate_nan; [done |].
  intros sc. destruct companion as [[o off]|].
  - apply perturbed_nan, position_nan, Hc.
  - apply position_nan, Hc.
Qed.

Lemma scans_nonempty self : n_epochs self <> 0 -> scans self <> [].
Proof.
  intros Hn Hs. apply Hn. by rewrite <- length_scans, Hs.
Qed.

(** C32: the prior does not catch a NaN parallax.  For a well-formed
    object with at least one scan and a batch of five-parameter
    candidates, [compute_lnprob] returns an array in which the entry of
    every candidate whose parallax is NaN is NaN, not minus infinity. *)
Theorem compute_lnprob_nan_parallax_5 `{!OrbitModel F} self
    (cands : list (Astrometry F)) (j : nat) c :
  wf self -> n_epochs self <> 0 ->
  cands !! j = Some c -> is_nan (c_plx c) = true ->
  scored_nan (compute_lnprob self (rows_5 cands) false) j.
Proof.
  intros Hwf Hn Hj Hc. unfold scored_nan.
  rewrite compute_lnprob_rows_5, lnprob_body_5;
    [| done | by intros ->].
  eexists _, _. split; [done |]. cbn [apply_negative].
  rewrite list_lookup_fmap, Hj. split; [done |].
  by apply lnprob_candidate_nan; [apply scans_nonempty |].
Qed.

(** The same with a companion, for a Kepler solver that treats the
    orbits of a batch independently. *)
Lemma compute_lnprob_nan_parallax_13 `{!OrbitModel F, !OrbitPointwise F}
    self (cands : list (Astrometry F * Orbit F)) (j : nat) co :
  wf self -> n_epochs self <> 0 ->
  cands !! j = Some co -> is_nan (c_plx co.1) = true ->
  scored_nan (compute_lnprob self (rows_13 cands) false) j.
Proof.
  intros Hwf Hn Hj Hc. unfold scored_nan.
  rewrite compute_lnprob_rows_13, lnprob_body_13;
    [| done | by intros ->].
  eexists _, _. split; [done |]. cbn [apply_negative].
  rewrite list_lookup_fmap, Hj. split; [done |].
  by apply lnprob_candidate_nan; [apply scans_nonempty |].
Qed.

(** ** A mass ratio that is NaN

    The companion's offset is scaled by [-m1 / mtot] (lines 185-186).
    When that ratio is NaN, as [0 / 0] is for a companion without mass
    in a system without mass, the displaced position is NaN whatever
    the offset. *)

Lemma perturbed_nan_ratio o (off pos : F * F) :
  is_nan (fdiv (fneg (o_m1 o)) (o_mtot o)) = true ->
  is_nan (perturbed o off pos).1 = true.
Proof. intros Hr. simpl. auto with nan. Qed.

Lemma lnprob_candidate_nan_ratio self c o off :
  scans self <> [] -> fle (c_plx c) (flit 0) = false ->
  is_nan (fdiv (fneg (o_m1 o)) (o_mtot o)) = true ->
  is_nan (lnprob_candidate self c (Some (o, off))) = true.
Proof.
  intros Hne Hplx Hr. unfold lnprob_candidate, lnprob_of. rewrite Hplx.
  apply nan_mul_r, chi2_candidate_nan; [done |].
  intros sc. by apply perturbed_nan_ratio.
Qed.

(** C33: a mass ratio that is NaN.  For a well-formed object with at
    least one scan and a batch of thirteen-parameter candidates, the
    entry of every candidate whose parallax passes the prior and whose
    ratio [-m1 / mtot] is NaN is NaN, whatever the Kepler solver
    answers for it. *)
Theorem compute_lnprob_nan_mass_ratio `{!OrbitModel F, !OrbitPointwise F}
    self (cands : list (Astrometry F * Orbit F)) (j : nat) co :
  wf self -> n_epochs self <> 0 ->
  cands !! j = Some co -> fle (c_plx co.1) (flit 0) = false ->
  is_nan (fdiv (fneg (o_m1 co.2)) (o_mtot co.2)) = true ->
  scored_nan (compute_lnprob self (rows_13 cands) false) j.
Proof.
  intros Hwf Hn Hj Hplx Hr. unfold scored_nan.
  rewrite compute_lnprob_rows_13, lnprob_body_13;
    [| done | by intros ->].
  eexists _, _. split; [done |]. cbn [apply_negative].
  rewrite list_lookup_fmap, Hj. split; [done |].
  by apply lnprob_candidate_nan_ratio; [apply scans_nonempty | |].
Qed.

End Generic.

(** ** The two instances *)

#[export] Instance binary64_nan : NanLaws float.
Proof.
  split; intros.
  - by apply float_nan_add_l.
  - by apply float_nan_add_r.
  - by apply float_nan_sub_l.
  - by apply float_nan_sub_r.
  - by apply float_nan_mul_l.
  - by apply float_nan_mul_r.
  - by apply float_nan_div_l.
  - by apply float_nan_abs.
  - by apply float_nan_le.
Qed.

Section ExactNan.
Context {K : Type} `{OrderedField K}.

(** In exact arithmetic [x <= x] fails for the value [NaN] only. *)
Lemma ext_is_nan (x : ext K) : is_nan x = true <-> x = NaN.
Proof.
  destruct x as [k| | |]; unfold is_nan; simpl; split; try done.
  by rewrite (kle_refl k).
Qed.

#[export] Instance ext_nan : NanLaws (ext K).
Proof.
  split.
  1-7: intros x y Hx%ext_is_nan; apply ext_is_nan; subst;
    by destruct x || by destruct y.
  - intros x Hx%ext_is_nan. apply ext_is_nan. by subst.
  - intros x y Hx%ext_is_nan. by subst.
Qed.

End ExactNan.
