(* ===== verification/Zeros.v ===== *)
(** * Zeros: a companion without mass, in any arithmetic

    With [m1 = 0] the offset of the companion is scaled by a zero, and
    the star stays where the astrometry puts it.  On binary64 the zero
    has a sign, and adding it can change the sign of a zero: the
    position of the star is the same up to the sign of zero ([eqz]), an
    equivalence that the operations between the position and the
    distance respect ([Proper] instances) and that the absolute value
    forgets.  The interface [ZeroLaws] states this of an arithmetic;
    binary64 implements it (from the IEEE specification) and so does
    exact arithmetic.  [compute_lnprob_massless_any]: for a companion
    without mass in a system whose total mass is a number other than
    zero, and offsets of the Kepler solver that are finite, thirteen
    rows give the scores of the first five, bit for bit. *)

From Stdlib Require Import ZArith QArith.
From Stdlib Require Import Floats SpecFloat.
From S2P Require Import Prelude Scalar NumPy Exact Sorting Binary64.
From S2P Require Import Reconstructor Evaluator Reference.

(** ** The interface *)

Section Predicates.
Context {F : Type} `{Scalar F}.

(** [x == 0]: plus or minus zero. *)
Definition is_zero (x : F) : bool := fle x (flit 0) && fle (flit 0) x.

(** [np.isfinite(x)]: neither NaN nor an infinity. *)
Definition is_finite (x : F) : bool :=
  negb (is_nan x) && negb (fle finf (fabs x)).

(** Equal up to the sign of zero. *)
Definition eqz (x y : F) : Prop :=
  x = y \/ (is_zero x = true /\ is_zero y = true).

#[export] Instance eqz_equiv : Equivalence eqz.
Proof.
  split.
  - by left.
  - intros x y [-> | [? ?]]; [by left | by right].
  - intros x y z [-> | [Hx Hy]] [-> | [Hy' Hz]]; unfold eqz; auto.
Qed.

End Predicates.

Class ZeroLaws (F : Type) `{Scalar F} : Prop := {
  zero_neg x : is_zero x = true -> is_zero (fneg x) = true;
  zero_div x y :
    is_zero x = true -> is_nan y = false -> is_zero y = false ->
    is_zero (fdiv x y) = true;
  zero_mul x z :
    is_finite x = true -> is_zero z = true -> is_zero (fmul x z) = true;
  add_zero x z : is_zero z = true -> eqz (fadd x z) x;
  eqz_add :: Proper (eqz ==> eqz ==> eqz) fadd;
  eqz_sub :: Proper (eqz ==> eqz ==> eqz) fsub;
  eqz_mul :: Proper (eqz ==> eqz ==> eqz) fmul;
  eqz_abs :: Proper (eqz ==> eq) fabs
}.

(** ** Binary64 *)

Section Binary64Zeros.
Implicit Types (x y z : float) (s t : spec_float).
Local Open Scope float_scope.

Definition sf_is_zero s : bool :=
  match s with S754_zero _ => true | _ => false end.

Definition sf_eqz s t : Prop :=
  s = t \/ (sf_is_zero s = true /\ sf_is_zero t = true).

Lemma float_is_zero x : is_zero x = sf_is_zero (Prim2SF x).
Proof.
  unfold is_zero. simpl. rewrite !leb_spec.
  change (Prim2SF (float_of_Q 0)) with (S754_zero false).
  by destruct (Prim2SF x) as [[]|[]| |[] ? ?].
Qed.

Lemma float_eqz x y : eqz x y <-> sf_eqz (Prim2SF x) (Prim2SF y).
Proof.
  unfold eqz, sf_eqz. rewrite !float_is_zero. split.
  - intros [-> | ?]; auto.
  - intros [?%Prim2SF_inj | ?]; auto.
Qed.

Lemma float_is_finite x :
  is_finite x = true ->
  match Prim2SF x with
  | S754_zero _ | S754_finite _ _ _ => True
  | _ => False
  end.
Proof.
  unfold is_finite, is_nan. simpl. rewrite !leb_spec, abs_spec.
  change (Prim2SF infinity) with (S754_infinity false).
  by destruct (Prim2SF x) as [[]|[]| |[] ? ?].
Qed.

Lemma SFadd_eqz prec emax s s' t t' :
  sf_eqz s s' -> sf_eqz t t' ->
  sf_eqz (SFadd prec emax s t) (SFadd prec emax s' t').
Proof.
  intros [-> | [Hs Hs']] [-> | [Ht Ht']]; [by left | ..].
  - destruct s' as [[]|[]| |[] ? ?], t as [[]| | |], t' as [[]| | |];
      try done; simpl; unfold sf_eqz; auto.
  - destruct s as [[]| | |], s' as [[]| | |], t' as [[]|[]| |[] ? ?];
      try done; simpl; unfold sf_eqz; auto.
  - destruct s as [[]| | |], s' as [[]| | |], t as [[]| | |], t' as [[]| | |];
      try done; simpl; unfold sf_eqz; auto.
Qed.

Lemma SFopp_eqz s s' : sf_eqz s s' -> sf_eqz (SFopp s) (SFopp s').
Proof.
  intros [-> | [Hs Hs']]; [by left |].
  destruct s, s'; try done. by right.
Qed.

Lemma SFmul_eqz prec emax s s' t t' :
  sf_eqz s s' -> sf_eqz t t' ->
  sf_eqz (SFmul prec emax s t) (SFmul prec emax s' t').
Proof.
  intros [-> | [Hs Hs']] [-> | [Ht Ht']]; [by left | ..].
  - destruct s' as [[]|[]| |[] ? ?], t as [[]| | |], t' as [[]| | |];
      try done; simpl; unfold sf_eqz; auto.
  - destruct s as [[]| | |], s' as [[]| | |], t' as [[]|[]| |[] ? ?];
      try done; simpl; unfold sf_eqz; auto.
  - destruct s as [[]| | |], s' as [[]| | |], t as [[]| | |], t' as [[]| | |];
      try done; simpl; unfold sf_eqz; auto.
Qed.

Lemma SFsub_eqz prec emax s s' t t' :
  sf_eqz s s' -> sf_eqz t t' ->
  sf_eqz (SFsub prec emax s t) (SFsub prec emax s' t').
Proof.
  intros [-> | [Hs Hs']] [-> | [Ht Ht']]; [by left | ..].
  - destruct s' as [[]|[]| |[] ? ?], t as [[]| | |], t' as [[]| | |];
      try done; simpl; unfold sf_eqz; auto.
  - destruct s as [[]| | |], s' as [[]| | |], t' as [[]|[]| |[] ? ?];
      try done; simpl; unfold sf_eqz; auto.
  - destruct s as [[]| | |], s' as [[]| | |], t as [[]| | |], t' as [[]| | |];
      try done; simpl; unfold sf_eqz; auto.
Qed.

Lemma SFabs_eqz s s' : sf_eqz s s' -> SFabs s = SFabs s'.
Proof.
  intros [-> | [Hs Hs']]; [done |]. by destruct s, s'.
Qed.

#[export] Instance binary64_zeros : ZeroLaws float.
Proof.
  split.
  - intros x. rewrite !float_is_zero. simpl. rewrite opp_spec.
    by destruct (Prim2SF x).
  - intros x y. rewrite !float_is_zero. unfold is_nan. simpl.
    rewrite div_spec, leb_spec.
    by destruct (Prim2SF x), (Prim2SF y) as [[]|[]| |[] ? ?].
  - intros x z Hx%float_is_finite. rewrite !float_is_zero. simpl.
    rewrite mul_spec.
    by destruct (Prim2SF x), (Prim2SF z).
  - intros x z. rewrite float_is_zero, float_eqz. simpl. rewrite add_spec.
    destruct (Prim2SF x) as [[]|[]| |[] ? ?], (Prim2SF z) as [[]| | |];
      try done; intros _; unfold sf_eqz; auto.
  - intros x x' Hx y y' Hy. apply float_eqz. simpl. rewrite !add_spec.
    by apply SFadd_eqz; apply float_eqz.
  - intros x x' Hx y y' Hy. apply float_eqz. simpl. rewrite !sub_spec.
    by apply SFsub_eqz; apply float_eqz.
  - intros x x' Hx y y' Hy. apply float_eqz. simpl. rewrite !mul_spec.
    by apply SFmul_eqz; apply float_eqz.
  - intros x x' Hx. apply Prim2SF_inj. simpl. rewrite !abs_spec.
    by apply SFabs_eqz, float_eqz.
Qed.

End Binary64Zeros.

(** ** Exact arithmetic *)

Section ExactZeros.
Context {K : Type} `{OrderedField K}.
Add Field Kfield_zeros : K_field.
Local Open Scope K_scope.

(** Exact arithmetic has one zero. *)
Lemma ext_is_zero (x : ext K) : is_zero x = true <-> x = Fin 0.
Proof.
  unfold is_zero. simpl. rewrite k_of_Q_0.
  destruct x as [k| | |]; simpl; try (by split).
  fold (keqb k 0). rewrite keqb_eq. split; congruence.
Qed.

Lemma ext_eqz (x y : ext K) : eqz x y <-> x = y.
Proof.
  split; [| by left].
  intros [-> | [?%ext_is_zero ?%ext_is_zero]]; congruence.
Qed.

Lemma ext_is_finite (x : ext K) : is_finite x = true -> exists k, x = Fin k.
Proof. destruct x as [k| | |]; try done. by exists k. Qed.

#[export] Instance ext_zeros : ZeroLaws (ext K).
Proof.
  split.
  - intros x ->%ext_is_zero. apply ext_is_zero. simpl. f_equal. ring.
  - intros x y ->%ext_is_zero Hnan Hz. apply ext_is_zero.
    destruct y as [k| | |]; try done. simpl.
    destruct (keqb k 0) eqn:Hk.
    + apply keqb_eq in Hk as ->.
      by rewrite (proj2 (ext_is_zero (Fin 0))) in Hz.
    + apply keqb_neq in Hk. f_equal. by field.
  - intros x z [k ->]%ext_is_finite ->%ext_is_zero. apply ext_is_zero.
    simpl. f_equal. ring.
  - intros x z ->%ext_is_zero. apply ext_eqz.
    destruct x as [k| | |]; try done. simpl. f_equal. ring.
  - by intros x x' ->%ext_eqz y y' ->%ext_eqz.
  - by intros x x' ->%ext_eqz y y' ->%ext_eqz.
  - by intros x x' ->%ext_eqz y y' ->%ext_eqz.
  - by intros x x' ->%ext_eqz.
Qed.

End ExactZeros.

(** ** A companion without mass *)

Section Massless.
Context {F : Type} `{ZeroLaws F} `{!Trig F}.
Implicit Types (self : HipparcosLogProb F) (sc : Scan F)
  (c : Astrometry F) (o : Orbit F) (pos off : F * F).

(** The companion has no mass, and the total mass is a number other
    than zero. *)
Definition massless o : Prop :=
  is_zero (o_m1 o) = true /\ is_nan (o_mtot o) = false /\
  is_zero (o_mtot o) = false.

Definition finite_offset off : Prop :=
  is_finite off.1 = true /\ is_finite off.2 = true.

(** The position of the star is the one the astrometry gives, up to
    the sign of zero. *)
Lemma perturbed_massless o off pos :
  massless o -> finite_offset off ->
  eqz (perturbed o off pos).1 pos.1 /\ eqz (perturbed o off pos).2 pos.2.
Proof.
  intros (Hm & Hnan & Hz) [H1 H2].
  assert (is_zero (fdiv (fneg (o_m1 o)) (o_mtot o)) = true) as Hr
    by (by apply zero_div; [apply zero_neg | |]).
  split; simpl; by apply add_zero, zero_mul.
Qed.

(** The distance from the scan line forgets the sign of zero. *)
Lemma distance_eqz sc pos pos' :
  eqz pos.1 pos'.1 -> eqz pos.2 pos'.2 -> distance sc pos = distance sc pos'.
Proof. intros H1 H2. unfold distance. by rewrite H1, H2. Qed.

Lemma lnprob_candidate_massless self c o (off : Scan F -> F * F) :
  massless o -> (forall sc, sc ∈ scans self -> finite_offset (off sc)) ->
  lnprob_candidate self c (Some (o, off)) = lnprob_candidate self c None.
Proof.
  intros Hm Hoff. unfold lnprob_candidate, chi2_candidate. do 2 f_equal.
  apply list_fmap_ext. intros i sc Hsc%list_elem_of_lookup_2.
  do 2 f_equal.
  by apply distance_eqz; apply perturbed_massless; auto.
Qed.

(** C8: a companion without mass changes nothing, bit for bit.  For a
    well-formed object and a non-empty batch of thirteen-parameter
    candidates whose companion mass is zero, whose total mass is a
    number other than zero, and for which the Kepler solver returns
    finite offsets at the epochs of the scans, [compute_lnprob] returns
    what it returns for the five astrometric parameters alone; on
    binary64 as in exact arithmetic. *)
Theorem compute_lnprob_massless_any `{!OrbitModel F, !OrbitPointwise F}
    self (cands : list (Astrometry F * Orbit F)) negative :
  wf self -> cands <> [] ->
  Forall (fun co => massless co.2) cands ->
  (forall sc co, sc ∈ scans self -> co ∈ cands ->
     finite_offset
       (orbit1 (s_mjd sc) (o_sma co.2) (o_ecc co.2) (o_inc co.2)
          (o_aop co.2) (o_pan co.2) (o_tau co.2) (c_plx co.1)
          (o_mtot co.2))) ->
  compute_lnprob self (rows_13 cands) negative
  = compute_lnprob self (rows_5 (fst <$> cands)) negative.
Proof.
  intros Hwf Hne Hm Hoff.
  rewrite compute_lnprob_rows_13, compute_lnprob_rows_5.
  rewrite lnprob_body_13, lnprob_body_5 by (by destruct cands).
  rewrite <- list_fmap_compose. do 3 f_equal.
  apply Forall_fmap_ext_1, Forall_forall. intros co Hco.
  rewrite Forall_forall in Hm.
  apply lnprob_candidate_massless; [by apply Hm |].
  intros sc Hsc. by apply Hoff.
Qed.

End Massless.
