(* ===== verification/Frame.v ===== *)
(** * Frame: what the method reads of the object

    The evaluation phase touches the reconstructed series and nothing
    else: [compute_lnprob] reads the catalogue position ([alpha0],
    [delta0]), the epochs in their two forms, the scan directions, the
    uncertainties, the Earth's positions and the two reconstructed
    attributes.  It does not read the star's number, the catalogue
    parallax and proper motion, the catalogue uncertainties or the
    measured residuals [R], which enter a score only through the
    abscissa points the constructor stored.

    [series self] is the object with every attribute the method does
    not read reset; two objects are [same_series] when their [series]
    are equal.  This is an equivalence, coarser than equality, that
    [compute_lnprob] respects: the instances below let [rewrite] replace
    an object by an equivalent one under the method. *)

From Stdlib Require Import QArith.
From S2P Require Import Prelude Scalar NumPy Reconstructor Evaluator.

Section Frame.
Context {F : Type} `{Scalar F, Trig F, OrbitModel F}.
Implicit Types (self s : HipparcosLogProb F) (samples : list (list F)).

(** ** The attributes the method reads *)

Definition series self : HipparcosLogProb F :=
  {| self_hip_num := "";
     self_plx0 := flit 0;
     self_pm_ra0 := flit 0;
     self_pm_dec0 := flit 0;
     self_alpha0 := self_alpha0 self;
     self_delta0 := self_delta0 self;
     self_plx0_err := flit 0;
     self_pm_ra0_err := flit 0;
     self_pm_dec0_err := flit 0;
     self_alpha0_err := flit 0;
     self_delta0_err := flit 0;
     self_epochs := self_epochs self;
     self_epochs_mjd := self_epochs_mjd self;
     self_cos_phi := self_cos_phi self;
     self_sin_phi := self_sin_phi self;
     self_R := [];
     self_eps := self_eps self;
     self_X := self_X self;
     self_Y := self_Y self;
     self_Z := self_Z self;
     self_alpha_abs_st := self_alpha_abs_st self;
     self_delta_abs := self_delta_abs self |}.

Definition same_series s1 s2 : Prop := series s1 = series s2.

(** [self] with the attributes the method does not read replaced. *)
Definition with_catalogue self (hip_num : string)
    (plx0 pm_ra0 pm_dec0 plx0_err pm_ra0_err pm_dec0_err alpha0_err
       delta0_err : F) (R : list F) : HipparcosLogProb F :=
  {| self_hip_num := hip_num;
     self_plx0 := plx0;
     self_pm_ra0 := pm_ra0;
     self_pm_dec0 := pm_dec0;
     self_alpha0 := self_alpha0 self;
     self_delta0 := self_delta0 self;
     self_plx0_err := plx0_err;
     self_pm_ra0_err := pm_ra0_err;
     self_pm_dec0_err := pm_dec0_err;
     self_alpha0_err := alpha0_err;
     self_delta0_err := delta0_err;
     self_epochs := self_epochs self;
     self_epochs_mjd := self_epochs_mjd self;
     self_cos_phi := self_cos_phi self;
     self_sin_phi := self_sin_phi self;
     self_R := R;
     self_eps := self_eps self;
     self_X := self_X self;
     self_Y := self_Y self;
     self_Z := self_Z self;
     self_alpha_abs_st := self_alpha_abs_st self;
     self_delta_abs := self_delta_abs self |}.

(** ** The equivalence *)

#[export] Instance same_series_equiv : Equivalence same_series.
Proof.
  unfold same_series. split.
  - by intros s.
  - by intros s1 s2.
  - intros s1 s2 s3. apply eq_trans.
Qed.

#[export] Instance same_series_dec `{!EqDecision F} s1 s2 :
  Decision (same_series s1 s2).
Proof. unfold same_series. solve_decision. Defined.

(** Two objects are equivalent when they agree on the twelve attributes
    that are read. *)
Lemma same_series_fields s1 s2 :
  same_series s1 s2 <->
  self_alpha0 s1 = self_alpha0 s2 /\ self_delta0 s1 = self_delta0 s2 /\
  self_epochs s1 = self_epochs s2 /\
  self_epochs_mjd s1 = self_epochs_mjd s2 /\
  self_cos_phi s1 = self_cos_phi s2 /\ self_sin_phi s1 = self_sin_phi s2 /\
  self_eps s1 = self_eps s2 /\
  self_X s1 = self_X s2 /\ self_Y s1 = self_Y s2 /\ self_Z s1 = self_Z s2 /\
  self_alpha_abs_st s1 = self_alpha_abs_st s2 /\
  self_delta_abs s1 = self_delta_abs s2.
Proof.
  unfold same_series, series. split.
  - intros [=]. by repeat split.
  - intros (-> & -> & -> & -> & -> & -> & -> & -> & -> & -> & -> & ->).
    done.
Qed.

Lemma same_series_series self : same_series (series self) self.
Proof. reflexivity. Qed.

Lemma same_series_with_catalogue self hip_num plx0 pm_ra0 pm_dec0 plx0_err
    pm_ra0_err pm_dec0_err alpha0_err delta0_err R :
  same_series
    (with_catalogue self hip_num plx0 pm_ra0 pm_dec0 plx0_err pm_ra0_err
       pm_dec0_err alpha0_err delta0_err R)
    self.
Proof. reflexivity. Qed.

(** ** The method respects it *)

(** Every step of the method reads the object through [series]. *)
Lemma epoch_dist_series self pm_ra pm_dec alpha_H0 delta_H0 plx planet n i :
  epoch_dist self pm_ra pm_dec alpha_H0 delta_H0 plx planet n i
  = epoch_dist (series self) pm_ra pm_dec alpha_H0 delta_H0 plx planet n i.
Proof. reflexivity. Qed.

Lemma chi2_of_series self n dist :
  chi2_of self n dist = chi2_of (series self) n dist.
Proof. reflexivity. Qed.

Lemma lnprob_body_series self pm_ra pm_dec alpha_H0 delta_H0 plx planet
    negative :
  lnprob_body self pm_ra pm_dec alpha_H0 delta_H0 plx planet negative
  = lnprob_body (series self) pm_ra pm_dec alpha_H0 delta_H0 plx planet
      negative.
Proof. reflexivity. Qed.

Lemma compute_lnprob_series self samples negative :
  compute_lnprob self samples negative
  = compute_lnprob (series self) samples negative.
Proof. reflexivity. Qed.

#[export] Instance epoch_dist_proper :
  Proper (same_series ==> eq ==> eq ==> eq ==> eq ==> eq ==> eq ==> eq
            ==> eq ==> eq) epoch_dist.
Proof.
  intros s1 s2 Hs. repeat intros ? ? <-.
  by rewrite epoch_dist_series, Hs, <- epoch_dist_series.
Qed.

#[export] Instance lnprob_body_proper :
  Proper (same_series ==> eq ==> eq ==> eq ==> eq ==> eq ==> eq ==> eq
            ==> eq) lnprob_body.
Proof.
  intros s1 s2 Hs. repeat intros ? ? <-.
  by rewrite lnprob_body_series, Hs, <- lnprob_body_series.
Qed.

#[export] Instance compute_lnprob_proper :
  Proper (same_series ==> eq ==> eq ==> eq) compute_lnprob.
Proof.
  intros s1 s2 Hs. repeat intros ? ? <-.
  by rewrite compute_lnprob_series, Hs, <- compute_lnprob_series.
Qed.

(** C19: the method reads the reconstructed series and nothing else.
    Two objects that agree on the catalogue position, the epochs, the
    scan directions, the uncertainties, the Earth's positions and the
    abscissa points are scored alike by [compute_lnprob] on every batch,
    exceptions included, whatever their catalogue parallax, proper
    motion and uncertainties, their measured residuals and their
    number. *)
Theorem compute_lnprob_frame s1 s2 samples negative :
  same_series s1 s2 ->
  compute_lnprob s1 samples negative = compute_lnprob s2 samples negative.
Proof. intros Hs. by rewrite Hs. Qed.

(** After the construction, the measured residuals and the catalogue
    solution can be overwritten without changing a score. *)
Lemma compute_lnprob_with_catalogue self hip_num plx0 pm_ra0 pm_dec0
    plx0_err pm_ra0_err pm_dec0_err alpha0_err delta0_err R samples
    negative :
  compute_lnprob
    (with_catalogue self hip_num plx0 pm_ra0 pm_dec0 plx0_err pm_ra0_err
       pm_dec0_err alpha0_err delta0_err R) samples negative
  = compute_lnprob self samples negative.
Proof. by rewrite same_series_with_catalogue. Qed.

End Frame.
