(* ===== verification/Ranks.v ===== *)
(** * Ranks: numbers where the program expects arrays

    NumPy arrays have a rank, and two calls of the program return an
    array of a lower rank than the code expects.

    [np.loadtxt] squeezes its result: a file with at least two data rows
    of at least two columns gives a two-dimensional array, the case that
    [Reconstructor.load] models; a file with a single data row gives a
    one-dimensional array, so that [iad[1]], [iad[3]], ... are numbers
    and every per-epoch attribute of the object is a number.  The
    constructor does not notice: arithmetic is the same on numbers.
    [compute_lnprob] then fails at [len(self.epochs)] (line 158) with
    [TypeError].  [init_any] is the constructor for every file and
    [Object] the object with the rank of its per-epoch attributes; a
    number is kept as the list of its single value under the
    constructor [Single].

    [samples[0]] is a number when [samples] is a vector of parameters
    instead of a matrix with one column per candidate; the method then
    fails at [len(pm_ra)] (line 157).  [Samples] is the argument with
    its rank and [compute_lnprob_any] the method on every object and
    argument. *)

From Stdlib Require Import QArith.
From S2P Require Import Prelude Scalar NumPy Reconstructor Evaluator.

(** ** Data *)

(** The result of [np.loadtxt(file, skiprows=1)], by its rank. *)
Inductive Loaded (F : Type) : Type :=
| Loaded0 (x : F)
| Loaded1 (a : list F)
| Loaded2 (table : list (list F)).
Arguments Loaded0 {F} x.
Arguments Loaded1 {F} a.
Arguments Loaded2 {F} table.

(** A constructed object: its per-epoch attributes are arrays
    ([Series]) or numbers ([Single], each attribute being the list of
    its one value). *)
Inductive Object (F : Type) : Type :=
| Series (self : HipparcosLogProb F)
| Single (self : HipparcosLogProb F).
Arguments Series {F} self.
Arguments Single {F} self.

(** The argument [samples]: a vector of parameters or a matrix of one
    row per parameter. *)
Inductive Samples (F : Type) : Type :=
| Samples1 (v : list F)
| Samples2 (m : list (list F)).
Arguments Samples1 {F} v.
Arguments Samples2 {F} m.

(** The time and ephemeris services called with a number. *)
Class PointCollaborators (F : Type) : Type := {
  Time_decimalyear0 : F -> py F;
  Time_mjd0 : F -> py F;
  earth_barycentric_pos0 : F -> py (F * F * F)
}.

(** ** The operations *)

(** What [np.loadtxt] makes of the data rows: axes of length one are
    removed. *)
Definition np_squeeze {F} (rows : list (list F)) : Loaded F :=
  match rows with
  | [] => Loaded1 []
  | [[x]] => Loaded0 x
  | [row] => Loaded1 row
  | _ => if decide (table_ncols rows = 1) then Loaded1 (concat rows)
         else Loaded2 rows
  end.

(** Lines 132-155 of the method, for rows of any kind: the five
    subscripts, the dispatch on the number of rows and, with thirteen
    rows, the eight further subscripts.  [None] is the branch that
    prints the message. *)
Definition prologue {A} (samples : list A) : py (option unit) :=
  _ <- getitem samples 0 ;;
  _ <- getitem samples 1 ;;
  _ <- getitem samples 2 ;;
  _ <- getitem samples 3 ;;
  _ <- getitem samples 4 ;;
  if decide (length samples = 5) then Ok (Some tt)
  else if decide (length samples = 13) then
    _ <- getitem samples 5 ;;
    _ <- getitem samples 6 ;;
    _ <- getitem samples 7 ;;
    _ <- getitem samples 8 ;;
    _ <- getitem samples 9 ;;
    _ <- getitem samples 10 ;;
    _ <- getitem samples 11 ;;
    _ <- getitem samples 12 ;;
    Ok (Some tt)
  else Ok None.

Section Ranks.
Context {F : Type} `{Scalar F, Trig F, OrbitModel F}.
Context {services : Collaborators F} {point : PointCollaborators F}.
Implicit Types (self : HipparcosLogProb F) (o : Object F) (s : Samples F).

(** Lines 57-72 for a one-dimensional [iad]: every subscript is a
    number. *)
Definition load_point (hip_num : string) (row : Catalog F) (iad : list F)
    : py (HipparcosLogProb F) :=
  iad1 <- getitem iad 1 ;;
  let times := fadd iad1 (flit 1991.25) in
  decimalyear <- Time_decimalyear0 times ;;
  mjd <- Time_mjd0 times ;;
  cos_phi <- getitem iad 3 ;;
  sin_phi <- getitem iad 4 ;;
  R <- getitem iad 5 ;;
  eps <- getitem iad 6 ;;
  bary_pos <- earth_barycentric_pos0 times ;;
  Ok {| self_hip_num := hip_num;
        self_plx0 := cat_Plx row;
        self_pm_ra0 := cat_pmRA row;
        self_pm_dec0 := cat_pmDE row;
        self_alpha0 := cat_RArad row;
        self_delta0 := cat_DErad row;
        self_plx0_err := cat_e_Plx row;
        self_pm_ra0_err := cat_e_pmRA row;
        self_pm_dec0_err := cat_e_pmDE row;
        self_alpha0_err := cat_e_RArad row;
        self_delta0_err := cat_e_DErad row;
        self_epochs := [decimalyear];
        self_epochs_mjd := [mjd];
        self_cos_phi := [cos_phi];
        self_sin_phi := [sin_phi];
        self_R := [R];
        self_eps := [eps];
        self_X := [bary_pos.1.1];
        self_Y := [bary_pos.1.2];
        self_Z := [bary_pos.2];
        self_alpha_abs_st := [];
        self_delta_abs := [] |}.

(** Lines 30-92, whatever the file holds.  A number cannot be
    subscripted: [iad[1]] raises [IndexError] on an array of rank
    zero. *)
Definition init_any (hip_num : string) : py (Object F) :=
  row <- load_catalog hip_num ;;
  rows <- loadtxt (iad_file_name hip_num) ;;
  match np_squeeze rows with
  | Loaded2 table =>
      self <- load_iad hip_num row table ;;
      self <- reconstruct self ;;
      Ok (Series self)
  | Loaded1 iad =>
      self <- load_point hip_num row iad ;;
      self <- reconstruct self ;;
      Ok (Single self)
  | Loaded0 _ => Raise IndexError
  end.

(** Lines 132-208 for every object and argument: [len] of a number
    raises [TypeError], at line 157 for a vector of parameters and at
    line 158 for an object of a single scan. *)
Definition compute_lnprob_any o s (negative : bool) : py (retval F) :=
  match s, o with
  | Samples2 m, Series self => compute_lnprob self m negative
  | Samples2 m, Single _ =>
      layout <- prologue m ;;
      match layout with
      | None => Ok (RetNone incorrect_params_msg)
      | Some _ => Raise TypeError
      end
  | Samples1 v, _ =>
      layout <- prologue v ;;
      match layout with
      | None => Ok (RetNone incorrect_params_msg)
      | Some _ => Raise TypeError
      end
  end.

End Ranks.

(** ** Facts *)

Section RanksFacts.
Context {F : Type} `{Scalar F, Trig F, OrbitModel F}.
Context {services : Collaborators F} {point : PointCollaborators F}.
Implicit Types (self : HipparcosLogProb F) (o : Object F) (s : Samples F).

(** The prologue by the number of rows. *)
Lemma prologue_short {A} (samples : list A) :
  length samples < 5 -> prologue samples = Raise IndexError.
Proof.
  intros Hn. unfold prologue.
  do 5 (destruct samples as [|? samples]; [done |]). simpl in Hn. lia.
Qed.

Lemma prologue_layout {A} (samples : list A) :
  length samples = 5 \/ length samples = 13 ->
  prologue samples = Ok (Some tt).
Proof.
  intros [Hn|Hn]; unfold prologue.
  - do 5 (destruct samples as [|? samples]; [done |]).
    by destruct samples.
  - do 13 (destruct samples as [|? samples]; [done |]).
    by destruct samples.
Qed.

Lemma prologue_other {A} (samples : list A) :
  5 <= length samples -> length samples <> 5 -> length samples <> 13 ->
  prologue samples = Ok None.
Proof.
  intros Hn H5 H13. unfold prologue.
  do 5 (destruct samples as [|? samples]; [simpl in Hn; lia |]).
  cbn [getitem lookup list_lookup py_bind].
  by rewrite !decide_False by done.
Qed.

(** The prologue never ends in a third way. *)
Lemma prologue_cases {A} (samples : list A) :
  prologue samples = Raise IndexError \/
  prologue samples = Ok (Some tt) \/ prologue samples = Ok None.
Proof.
  destruct (decide (length samples < 5)); [left; by apply prologue_short |].
  destruct (decide (length samples = 5 \/ length samples = 13));
    [right; left; by apply prologue_layout |].
  right; right. apply prologue_other; lia.
Qed.

(** [np.loadtxt] returns the rows as they are when there are at least
    two of them, of at least two columns. *)
Lemma np_squeeze_table (rows : list (list F)) :
  2 <= length rows -> table_ncols rows <> 1 -> np_squeeze rows = Loaded2 rows.
Proof.
  intros Hn Hc. unfold np_squeeze.
  destruct rows as [|r1 [|r2 rows]]; [simpl in Hn; lia.. |].
  rewrite decide_False by done. by destruct r1 as [|? [|? ?]].
Qed.

Lemma np_squeeze_row (row : list F) :
  length row <> 1 -> np_squeeze [row] = Loaded1 row.
Proof. intros Hn. by destruct row as [|? [|? ?]]. Qed.

(** On such a file [init_any] is the constructor [init]. *)
Lemma init_any_series hip_num rows :
  loadtxt (iad_file_name hip_num) = Ok rows ->
  2 <= length rows -> table_ncols rows <> 1 ->
  init_any hip_num = py_map Series (init hip_num).
Proof.
  intros Hl Hn Hc. unfold init_any, init, load, py_map.
  destruct (load_catalog hip_num) as [row|e]; [| done]. simpl.
  rewrite Hl. simpl. rewrite np_squeeze_table by done.
  by destruct (load_iad hip_num row rows).
Qed.

(** The prologue is the beginning of [compute_lnprob]: the method
    raises when the prologue raises and prints when it prints. *)
Lemma compute_lnprob_prologue self (m : list (list F)) negative :
  match prologue m with
  | Raise e => compute_lnprob self m negative = Raise e
  | Ok None => compute_lnprob self m negative
               = Ok (RetNone incorrect_params_msg)
  | Ok (Some _) => True
  end.
Proof.
  destruct (decide (length m < 5)) as [Hn|Hn].
  - rewrite prologue_short by done.
    unfold compute_lnprob. by do 5 (destruct m as [|? m]; [done |]);
      simpl in Hn; lia.
  - destruct (decide (length m = 5 \/ length m = 13)) as [Hl|Hl];
      [by rewrite prologue_layout |].
    rewrite prologue_other by lia. unfold compute_lnprob.
    rewrite orbit_rows_other by lia.
    by do 5 (destruct m as [|? m]; [simpl in Hn; lia |]).
Qed.

(** The object of a single data row has one scan. *)
Lemma load_point_wf_inputs hip_num row iad self :
  load_point hip_num row iad = Ok self ->
  wf_inputs self /\ n_epochs self = 1 /\ 7 <= length iad.
Proof.
  unfold load_point. intros Hl. do 8 py_inv Hl. injection Hl as <-.
  split; [by repeat split |]. split; [done |].
  match goal with
  | E : getitem iad 6 = Ok _ |- _ =>
      apply getitem_ok_iff, lookup_lt_Some in E; lia
  end.
Qed.

(** On an object of a single scan and on a vector of parameters the
    method returns no array. *)
Lemma compute_lnprob_any_single self s negative :
  compute_lnprob_any (Single self) s negative = Raise IndexError \/
  compute_lnprob_any (Single self) s negative = Raise TypeError \/
  compute_lnprob_any (Single self) s negative
  = Ok (RetNone incorrect_params_msg).
Proof.
  destruct s as [v|m]; simpl;
    [destruct (prologue_cases v) as [-> | [-> | ->]]
    |destruct (prologue_cases m) as [-> | [-> | ->]]]; auto.
Qed.


(** C31: a star with a single scan is constructed and cannot be scored.
    When the file has one data row and the services answer, the
    constructor succeeds: the object has one scan, whose abscissa point
    is the formula of the reconstruction.  Every call of the method on
    it then raises [IndexError] or [TypeError] (at [len(self.epochs)])
    or prints the message of the parameter count: no batch gets a
    score. *)
Theorem init_any_single_scan hip_num cat row self0 :
  load_catalog hip_num = Ok cat ->
  loadtxt (iad_file_name hip_num) = Ok [row] ->
  load_point hip_num cat row = Ok self0 ->
  exists self,
    init_any hip_num = Ok (Single self) /\
    wf self /\ n_epochs self = 1 /\
    Forall (fun sc => (s_alpha_abs_st sc, s_delta_abs sc) = abscissa self sc)
      (scans self) /\
    forall s negative lnprob,
      compute_lnprob_any (Single self) s negative <> Ok (RetArray lnprob).
Proof.
  intros Hc Hl Hp.
  destruct (load_point_wf_inputs _ _ _ _ Hp) as (Hin & Hn & Hrow).
  eexists. unfold init_any. rewrite Hc. cbn [py_bind].
  rewrite Hl. cbn [py_bind]. rewrite np_squeeze_row by lia.
  rewrite Hp. cbn [py_bind]. rewrite (reconstruct_ok self0 Hin).
  cbn [py_bind].
  split; [done |]. split; [apply with_scans_wf |].
  split.
  { unfold n_epochs at 1. cbn [with_scans self_epochs].
    by rewrite !length_fmap, length_scans. }
  split.
  - rewrite scans_with_scans. apply Forall_fmap, Forall_forall.
    by intros sc _.
  - intros s negative lnprob.
    by destruct (compute_lnprob_any_single
                   (with_scans self0
                      ((fun sc => set_scan_abscissa sc (abscissa self0 sc))
                         <$> scans self0)) s negative)
      as [-> | [-> | ->]].
Qed.

End RanksFacts.
