(* ===== verification/Shapes.v ===== *)
(** * Shapes: the control flow depends on shapes only

    Whether the constructor and the method raise, which exception they
    raise and the shape of what they return do not depend on the numbers
    they compute with: not on NaN, not on an overflow, not on the
    instance of the arithmetic.  They depend on the shapes of the
    arrays, and in the method on one more thing, the mask of the
    parallaxes that are [<= 0], which selects the entries the prior
    overwrites.

    The statement relates two runs of the same code, possibly on two
    instances of [Scalar]: arrays are related when they have one length
    ([same_len]), computations when they raise the same exception or
    return related values ([py_rel]).  Every operation of [NumPy] and
    every step of the program maps related arguments to related
    results; [broadcast] is the shape of a binary operation as NumPy
    computes it.  Two consequences: the constructor accepts any scan
    directions, unit vectors or not, and a run on binary64 fails
    exactly when the run in exact arithmetic on data of the same shapes
    and the same parallax signs fails. *)

From Stdlib Require Import QArith.
From S2P Require Import Prelude Scalar NumPy Reconstructor Evaluator.

(** ** Relations between two runs *)

(** Two arrays of one shape, whatever they hold. *)
Definition same_len {A B} (a : list A) (b : list B) : Prop :=
  length a = length b.

(** Two computations that raise the same exception, or return related
    values. *)
Definition py_rel {A B} (R : A -> B -> Prop) (m1 : py A) (m2 : py B)
    : Prop :=
  match m1, m2 with
  | Ok a, Ok b => R a b
  | Raise e1, Raise e2 => e1 = e2
  | _, _ => False
  end.

(** Any two values. *)
Definition any {A B} (_ : A) (_ : B) : Prop := True.

Create HintDb shapes discriminated.

Lemma py_rel_ok {A B} (R : A -> B -> Prop) a b :
  R a b -> py_rel R (Ok a) (Ok b).
Proof. done. Qed.

Lemma py_rel_raise {A B} (R : A -> B -> Prop) e : py_rel R (Raise e) (Raise e).
Proof. done. Qed.

Lemma py_rel_bind {A B C D} (R : A -> B -> Prop) (S : C -> D -> Prop)
    m1 m2 k1 k2 :
  py_rel R m1 m2 -> (forall a b, R a b -> py_rel S (k1 a) (k2 b)) ->
  py_rel S (py_bind m1 k1) (py_bind m2 k2).
Proof. destruct m1, m2; simpl; try done. intros Hab Hk. by apply Hk. Qed.

Lemma py_rel_mono {A B} (R R' : A -> B -> Prop) m1 m2 :
  (forall a b, R a b -> R' a b) -> py_rel R m1 m2 -> py_rel R' m1 m2.
Proof. destruct m1, m2; simpl; auto. Qed.

(** Shape equality of two results is the equality of their shapes. *)
Lemma py_rel_same_len {A B} (m1 : py (list A)) (m2 : py (list B)) :
  py_rel same_len m1 m2 <-> py_map length m1 = py_map length m2.
Proof.
  destruct m1, m2; simpl; unfold same_len; split; try done;
    try (by intros [=]); by intros ->.
Qed.

Lemma getitem_rel {A B} (R : A -> B -> Prop) l1 l2 i :
  Forall2 R l1 l2 -> py_rel R (getitem l1 i) (getitem l2 i).
Proof.
  intros Hl. unfold getitem.
  destruct (l1 !! i) as [x|] eqn:H1.
  - destruct (Forall2_lookup_l _ _ _ _ _ Hl H1) as (y & -> & Hxy). done.
  - apply lookup_ge_None in H1. rewrite (Forall2_length _ _ _ Hl) in H1.
    apply lookup_ge_None in H1. by rewrite H1.
Qed.

Lemma getitem_any {A B} (l1 : list A) (l2 : list B) i :
  same_len l1 l2 -> py_rel any (getitem l1 i) (getitem l2 i).
Proof. intros Hl. apply getitem_rel. by apply Forall2_true. Qed.

Lemma py_mapM_rel {A B C D} (R : A -> B -> Prop) (S : C -> D -> Prop)
    f g l1 l2 :
  Forall2 R l1 l2 -> (forall x y, R x y -> py_rel S (f x) (g y)) ->
  py_rel (Forall2 S) (py_mapM f l1) (py_mapM g l2).
Proof.
  intros Hl Hfg. induction Hl as [|x y l1 l2 Hxy _ IH]; simpl; [done |].
  apply (py_rel_bind S); [by apply Hfg |]. intros a b Hab.
  apply (py_rel_bind (Forall2 S)); [done |]. intros r1 r2 Hr.
  by constructor.
Qed.

Lemma py_mapM_rel_seq {C D} (S : C -> D -> Prop) (f : nat -> py C) g n :
  (forall i, py_rel S (f i) (g i)) ->
  py_rel (Forall2 S) (py_mapM f (seq 0 n)) (py_mapM g (seq 0 n)).
Proof.
  intros Hfg. apply (py_mapM_rel eq); [| by intros i _ <-].
  induction (seq 0 n); by constructor.
Qed.

(** ** The array operations *)

(** The shape of the result of a binary operation, or its failure. *)
Definition broadcast (m n : nat) : py nat :=
  if decide (m = n) then Ok m
  else if decide (m = 1) then Ok n
  else if decide (n = 1) then Ok m
  else Raise ValueError.

(** The same for an augmented assignment. *)
Definition broadcast_into (m n : nat) : py nat :=
  if decide (m = n) then Ok m
  else if decide (n = 1) then Ok m
  else Raise ValueError.

Section OpShapes.
Context {F : Type} `{Scalar F}.
Implicit Types (a b : list F).

Lemma np_binop_shape f a b :
  py_map length (np_binop f a b) = broadcast (length a) (length b).
Proof.
  unfold np_binop, broadcast. case_decide as Hl; simpl.
  - rewrite length_zip_with. f_equal. lia.
  - destruct a as [|x [|? ?]], b as [|y [|? ?]]; simpl in *; try done;
      repeat case_decide; simpl; rewrite ?length_fmap; try done; lia.
Qed.

Lemma np_ibinop_shape f a b :
  py_map length (np_ibinop f a b) = broadcast_into (length a) (length b).
Proof.
  unfold np_ibinop, broadcast_into. case_decide as Hl; simpl.
  - rewrite length_zip_with. f_equal. lia.
  - destruct b as [|y [|? ?]]; simpl in *; try done.
    by rewrite length_fmap.
Qed.

Lemma np_setrow_shape n (v : list F) :
  py_map length (np_setrow n v) = broadcast_into n (length v).
Proof.
  unfold np_setrow, broadcast_into. case_decide as Hl; simpl.
  - rewrite decide_True by done. by f_equal.
  - rewrite decide_False by done.
    destruct v as [|y [|? ?]]; simpl in *; try done.
    by rewrite length_replicate.
Qed.

End OpShapes.

Section Ops.
Context {F G : Type} `{Scalar F, Scalar G}.
Implicit Types (a b : list F) (c d : list G).

Lemma np_binop_rel f g a b c d :
  same_len a c -> same_len b d ->
  py_rel same_len (np_binop f a b) (np_binop g c d).
Proof.
  unfold same_len. intros Ha Hb.
  apply py_rel_same_len. by rewrite !np_binop_shape, Ha, Hb.
Qed.

Lemma np_ibinop_rel f g a b c d :
  same_len a c -> same_len b d ->
  py_rel same_len (np_ibinop f a b) (np_ibinop g c d).
Proof.
  unfold same_len. intros Ha Hb.
  apply py_rel_same_len. by rewrite !np_ibinop_shape, Ha, Hb.
Qed.

Lemma np_setrow_rel n a c :
  same_len a c -> py_rel same_len (np_setrow n a) (np_setrow n c).
Proof.
  unfold same_len. intros Ha.
  apply py_rel_same_len. by rewrite !np_setrow_shape, Ha.
Qed.

Lemma np_rscalar_rel f g a c (x : F) (y : G) :
  same_len a c -> same_len (np_rscalar f a x) (np_rscalar g c y).
Proof. unfold same_len. by rewrite !np_rscalar_length. Qed.

Lemma np_lscalar_rel f g a c (x : F) (y : G) :
  same_len a c -> same_len (np_lscalar f x a) (np_lscalar g y c).
Proof. unfold same_len. by rewrite !np_lscalar_length. Qed.

Lemma np_neg_rel a c : same_len a c -> same_len (np_neg a) (np_neg c).
Proof. unfold same_len, np_neg. by rewrite !length_fmap. Qed.

Lemma np_abs_rel a c : same_len a c -> same_len (np_abs a) (np_abs c).
Proof. unfold same_len. by rewrite !np_abs_length. Qed.

Lemma np_square_rel a c :
  same_len a c -> same_len (np_square a) (np_square c).
Proof. unfold same_len, np_square. by rewrite !length_fmap. Qed.

Lemma np_column_rel n (m1 : list (list F)) (m2 : list (list G)) j :
  Forall2 same_len m1 m2 ->
  py_rel same_len (np_column n m1 j) (np_column n m2 j).
Proof.
  intros Hm. unfold np_column. case_decide; [| done].
  eapply py_rel_mono; [| eapply (py_mapM_rel same_len any); [done |]].
  - intros r1 r2 Hr. by eapply Forall2_length.
  - intros r1 r2 Hr. by apply getitem_any.
Qed.

Lemma np_sum_axis1_rel (m1 : list (list F)) (m2 : list (list G)) :
  Forall2 same_len m1 m2 ->
  py_rel same_len (np_sum_axis1 m1) (np_sum_axis1 m2).
Proof.
  intros Hm. unfold np_sum_axis1.
  destruct Hm as [|r1 r2 m1 m2 Hr Hm]; [done |].
  assert (Forall (fun r' => length r' = length r1) (r1 :: m1) <->
          Forall (fun r' => length r' = length r2) (r2 :: m2)) as Hiff.
  { rewrite !Forall_cons. unfold same_len in Hr.
    split; intros [_ Hall]; (split; [done |]);
      induction Hm as [|x y m1 m2 Hxy Hm IH]; [done | | done |];
      inversion Hall; subst; constructor; unfold same_len in *;
      auto; congruence. }
  repeat case_decide; try tauto; [| done].
  cbn [py_rel]. unfold same_len. rewrite !length_fmap. simpl.
  f_equal. by eapply Forall2_length.
Qed.

Lemma np_put_rel a c idx (x : F) (y : G) :
  same_len a c -> py_rel same_len (np_put a idx x) (np_put c idx y).
Proof.
  unfold same_len. revert a c.
  induction idx as [|i idx IH]; intros a c Hl; simpl; [done |].
  rewrite Hl. case_decide; [| done].
  apply IH. by rewrite !length_insert.
Qed.

End Ops.

#[export] Hint Resolve np_binop_rel np_ibinop_rel np_setrow_rel
  np_rscalar_rel np_lscalar_rel np_neg_rel np_abs_rel np_square_rel
  np_column_rel np_sum_axis1_rel np_put_rel : shapes.
#[export] Hint Resolve py_rel_ok py_rel_raise : shapes.
#[export] Hint Extern 1 (py_rel _ (getitem _ _) (getitem _ _)) =>
  apply getitem_any : shapes.

(** ** The objects and the arguments *)

(** Two objects whose per-epoch attributes have the same shapes. *)
Record same_shape {F G} (s1 : HipparcosLogProb F) (s2 : HipparcosLogProb G)
    : Prop := {
  ss_epochs : same_len (self_epochs s1) (self_epochs s2);
  ss_epochs_mjd : same_len (self_epochs_mjd s1) (self_epochs_mjd s2);
  ss_cos_phi : same_len (self_cos_phi s1) (self_cos_phi s2);
  ss_sin_phi : same_len (self_sin_phi s1) (self_sin_phi s2);
  ss_R : same_len (self_R s1) (self_R s2);
  ss_eps : same_len (self_eps s1) (self_eps s2);
  ss_X : same_len (self_X s1) (self_X s2);
  ss_Y : same_len (self_Y s1) (self_Y s2);
  ss_Z : same_len (self_Z s1) (self_Z s2);
  ss_alpha_abs_st : same_len (self_alpha_abs_st s1) (self_alpha_abs_st s2);
  ss_delta_abs : same_len (self_delta_abs s1) (self_delta_abs s2)
}.

#[export] Hint Resolve ss_epochs ss_epochs_mjd ss_cos_phi ss_sin_phi ss_R
  ss_eps ss_X ss_Y ss_Z ss_alpha_abs_st ss_delta_abs : shapes.

(** Two rows of parallaxes that the prior masks alike. *)
Definition same_mask {F G} `{Scalar F, Scalar G} (plx1 : list F)
    (plx2 : list G) : Prop :=
  np_le_scalar plx1 (flit 0) = np_le_scalar plx2 (flit 0).

(** The rows of orbital elements of two batches of one size. *)
Record same_orbit_rows {F G} (o1 : OrbitRows F) (o2 : OrbitRows G) : Prop := {
  so_sma : same_len (sma o1) (sma o2);
  so_ecc : same_len (ecc o1) (ecc o2);
  so_inc : same_len (inc o1) (inc o2);
  so_aop : same_len (aop o1) (aop o2);
  so_pan : same_len (pan o1) (pan o2);
  so_tau : same_len (tau o1) (tau o2);
  so_mtot : same_len (mtot o1) (mtot o2);
  so_m1 : same_len (m1 o1) (m1 o2)
}.

#[export] Hint Resolve so_sma so_ecc so_inc so_aop so_pan so_tau so_mtot
  so_m1 : shapes.

Definition same_planet {F G} (p1 : option (OrbitRows F))
    (p2 : option (OrbitRows G)) : Prop :=
  match p1, p2 with
  | None, None => True
  | Some o1, Some o2 => same_orbit_rows o1 o2
  | _, _ => False
  end.

(** What the method returns, up to the values of the array. *)
Definition same_retval {F G} (r1 : retval F) (r2 : retval G) : Prop :=
  match r1, r2 with
  | RetArray l1, RetArray l2 => same_len l1 l2
  | RetNone msg1, RetNone msg2 => msg1 = msg2
  | _, _ => False
  end.

(** [shapes]: relate two runs of one piece of code bind by bind. *)
Ltac shapes :=
  repeat (eapply py_rel_bind; [solve [eauto 8 with shapes] | intros ? ? ?]);
  eauto 8 with shapes.

(** ** The method *)

Section Method.
Context {F G : Type}.
Context `{Scalar F, Trig F, OrbitModel F, Scalar G, Trig G, OrbitModel G}.
Implicit Types (sf : HipparcosLogProb F) (sg : HipparcosLogProb G).

(** The Kepler solver fails, and shapes its answer, by the shapes of
    its arguments. *)
Definition calc_orbit_shapes : Prop :=
  forall (t1 : F) (t2 : G) sma1 sma2 ecc1 ecc2 inc1 inc2 aop1 aop2 pan1 pan2
    tau1 tau2 plx1 plx2 mtot1 mtot2,
    same_len sma1 sma2 -> same_len ecc1 ecc2 -> same_len inc1 inc2 ->
    same_len aop1 aop2 -> same_len pan1 pan2 -> same_len tau1 tau2 ->
    same_len plx1 plx2 -> same_len mtot1 mtot2 ->
    py_rel (fun r1 r2 => same_len r1.1.1 r2.1.1 /\ same_len r1.1.2 r2.1.2)
      (calc_orbit t1 sma1 ecc1 inc1 aop1 pan1 tau1 plx1 mtot1)
      (calc_orbit t2 sma2 ecc2 inc2 aop2 pan2 tau2 plx2 mtot2).

Lemma same_mask_len (plx1 : list F) (plx2 : list G) :
  same_mask plx1 plx2 -> same_len plx1 plx2.
Proof.
  unfold same_mask, same_len, np_le_scalar. intros Hm.
  apply (f_equal length) in Hm. by rewrite !length_fmap in Hm.
Qed.

Lemma alpha_C_st_rel sf sg aH1 aH2 plx1 plx2 pm1 pm2 i :
  same_shape sf sg -> same_len aH1 aH2 -> same_len plx1 plx2 ->
  same_len pm1 pm2 ->
  py_rel same_len (alpha_C_st sf aH1 plx1 pm1 i)
    (alpha_C_st sg aH2 plx2 pm2 i).
Proof. intros. unfold alpha_C_st, np_add. shapes. Qed.

Lemma delta_C_rel sf sg dH1 dH2 plx1 plx2 pm1 pm2 i :
  same_shape sf sg -> same_len dH1 dH2 -> same_len plx1 plx2 ->
  same_len pm1 pm2 ->
  py_rel same_len (delta_C sf dH1 plx1 pm1 i) (delta_C sg dH2 plx2 pm2 i).
Proof. intros. unfold delta_C, np_add. shapes. Qed.

Definition same_pos (p1 : list F * list F) (p2 : list G * list G) : Prop :=
  same_len p1.1 p2.1 /\ same_len p1.2 p2.2.

Lemma same_pos_pair (a : list F) (c : list G) (b : list F) (d : list G) :
  same_len a c -> same_len b d -> same_pos (a, b) (c, d).
Proof. by split. Qed.
Local Hint Resolve same_pos_pair : shapes.

Lemma add_perturbation_rel sf sg plx1 plx2 o1 o2 pos1 pos2 i :
  calc_orbit_shapes ->
  same_shape sf sg -> same_len plx1 plx2 -> same_orbit_rows o1 o2 ->
  same_pos pos1 pos2 ->
  py_rel same_pos (add_perturbation sf plx1 o1 pos1 i)
    (add_perturbation sg plx2 o2 pos2 i).
Proof.
  intros Hcalc Hs Hplx Ho [Hp1 Hp2].
  unfold add_perturbation, np_div, np_imul, np_iadd.
  eapply py_rel_bind; [by apply getitem_any, ss_epochs_mjd |].
  intros t1 t2 _.
  eapply py_rel_bind; [apply Hcalc; eauto with shapes |].
  intros r1 r2 [Hr1 Hr2]. shapes.
Qed.

Lemma scan_distance_rel sf sg n pos1 pos2 i :
  same_shape sf sg -> same_pos pos1 pos2 ->
  py_rel same_len (scan_distance sf n pos1 i) (scan_distance sg n pos2 i).
Proof. intros Hs [Hp1 Hp2]. unfold scan_distance, np_add. shapes. Qed.

Lemma epoch_dist_rel sf sg pm_ra1 pm_ra2 pm_dec1 pm_dec2 aH1 aH2 dH1 dH2
    plx1 plx2 p1 p2 n i :
  (is_Some p1 -> calc_orbit_shapes) ->
  same_shape sf sg -> same_len pm_ra1 pm_ra2 -> same_len pm_dec1 pm_dec2 ->
  same_len aH1 aH2 -> same_len dH1 dH2 -> same_len plx1 plx2 ->
  same_planet p1 p2 ->
  py_rel same_len (epoch_dist sf pm_ra1 pm_dec1 aH1 dH1 plx1 p1 n i)
    (epoch_dist sg pm_ra2 pm_dec2 aH2 dH2 plx2 p2 n i).
Proof.
  intros Hcalc Hs Hra Hdec HaH HdH Hplx Hp. unfold epoch_dist.
  eapply py_rel_bind; [by apply alpha_C_st_rel |]. intros a1 a2 Ha.
  eapply py_rel_bind; [by apply delta_C_rel |]. intros d1 d2 Hd.
  eapply (py_rel_bind same_pos).
  - destruct p1 as [o1|], p2 as [o2|]; try done.
    apply add_perturbation_rel; [by apply Hcalc | done..].
  - intros pos1 pos2 Hpos. by apply scan_distance_rel.
Qed.

Lemma chi2_of_rel sf sg n (dist1 : list (list F)) (dist2 : list (list G)) :
  same_shape sf sg -> Forall2 same_len dist1 dist2 ->
  py_rel same_len (chi2_of sf n dist1) (chi2_of sg n dist2).
Proof.
  intros Hs Hd. unfold chi2_of.
  eapply py_rel_bind; [| intros t1 t2 Ht; by apply np_sum_axis1_rel].
  apply py_mapM_rel_seq. intros j. unfold chi2_terms, np_div. shapes.
Qed.

Lemma apply_prior_rel (plx1 chi1 : list F) (plx2 chi2 : list G) :
  same_mask plx1 plx2 -> same_len chi1 chi2 ->
  py_rel same_len (apply_prior plx1 chi1) (apply_prior plx2 chi2).
Proof.
  intros Hm Hc. unfold apply_prior. rewrite Hm.
  by apply np_put_rel, np_lscalar_rel.
Qed.

Lemma apply_negative_rel negative (l1 : list F) (l2 : list G) :
  same_len l1 l2 ->
  same_len (apply_negative negative l1) (apply_negative negative l2).
Proof. intros Hl. destruct negative; [by apply np_rscalar_rel | done]. Qed.

Lemma lnprob_body_rel sf sg pm_ra1 pm_ra2 pm_dec1 pm_dec2 aH1 aH2 dH1 dH2
    plx1 plx2 p1 p2 negative :
  (is_Some p1 -> calc_orbit_shapes) ->
  same_shape sf sg -> same_len pm_ra1 pm_ra2 -> same_len pm_dec1 pm_dec2 ->
  same_len aH1 aH2 -> same_len dH1 dH2 -> same_mask plx1 plx2 ->
  same_planet p1 p2 ->
  py_rel same_len
    (lnprob_body sf pm_ra1 pm_dec1 aH1 dH1 plx1 p1 negative)
    (lnprob_body sg pm_ra2 pm_dec2 aH2 dH2 plx2 p2 negative).
Proof.
  intros Hcalc Hs Hra Hdec HaH HdH Hplx Hp. unfold lnprob_body.
  rewrite (Hra : length _ = length _),
    (ss_epochs _ _ Hs : length _ = length _).
  eapply py_rel_bind.
  { apply py_mapM_rel_seq. intros i.
    by apply epoch_dist_rel; [..| apply same_mask_len |]. }
  intros dist1 dist2 Hdist.
  eapply py_rel_bind; [by apply chi2_of_rel |]. intros chi1 chi2 Hchi.
  eapply py_rel_bind; [by apply apply_prior_rel |]. intros l1 l2 Hl.
  by apply apply_negative_rel.
Qed.

(** *** The dispatch and the method *)

Definition same_layout (l1 : option (option (OrbitRows F)))
    (l2 : option (option (OrbitRows G))) : Prop :=
  match l1, l2 with
  | None, None => True
  | Some p1, Some p2 => same_planet p1 p2
  | _, _ => False
  end.

Lemma orbit_rows_rel (m1 : list (list F)) (m2 : list (list G)) :
  Forall2 same_len m1 m2 ->
  py_rel same_layout (orbit_rows m1) (orbit_rows m2).
Proof.
  intros Hm. unfold orbit_rows. rewrite (Forall2_length _ _ _ Hm).
  repeat case_decide; try done.
  repeat (eapply py_rel_bind; [by apply (getitem_rel same_len) |];
          intros ? ? ?).
  by apply py_rel_ok.
Qed.

(** Only thirteen rows make a companion. *)
Lemma orbit_rows_planet (m1 : list (list F)) o :
  orbit_rows m1 = Ok (Some (Some o)) -> length m1 = 13.
Proof.
  unfold orbit_rows. by repeat case_decide.
Qed.

(** C17: the failures of the method and the shape of its result depend
    on shapes and on the signs of the parallaxes only.  Two runs, on
    two objects whose per-epoch attributes have the same lengths and on
    two matrices whose rows have the same lengths and whose parallaxes
    are [<= 0] at the same places, raise the same exception, or print
    the same message, or return arrays of one length; with thirteen
    rows, for Kepler solvers that fail by the shapes of their
    arguments.  The two runs may use two instances of the arithmetic. *)
Theorem compute_lnprob_shape_only sf sg (m1 : list (list F))
    (m2 : list (list G)) negative :
  same_shape sf sg -> Forall2 same_len m1 m2 ->
  (forall plx1 plx2,
     m1 !! 4 = Some plx1 -> m2 !! 4 = Some plx2 -> same_mask plx1 plx2) ->
  (length m1 = 13 -> calc_orbit_shapes) ->
  py_rel same_retval (compute_lnprob sf m1 negative)
    (compute_lnprob sg m2 negative).
Proof.
  intros Hs Hm Hmask Hcalc. unfold compute_lnprob.
  do 4 (eapply py_rel_bind; [by apply (getitem_rel same_len) |];
        intros ? ? ?).
  pose proof (getitem_rel same_len m1 m2 4 Hm) as Hplx.
  destruct (getitem m1 4) as [plx1|e1] eqn:E1,
    (getitem m2 4) as [plx2|e2] eqn:E2; try done; cbn [py_bind].
  apply getitem_ok_iff in E1, E2.
  pose proof (orbit_rows_rel m1 m2 Hm) as Ho.
  destruct (orbit_rows m1) as [[p1|]|e1] eqn:Eo1,
    (orbit_rows m2) as [[p2|]|e2] eqn:Eo2; try done; cbn [py_bind].
  eapply py_rel_bind; [| by intros l1 l2 Hl].
  apply lnprob_body_rel; try done; [| by eapply Hmask].
  intros [o ->]. by eapply Hcalc, orbit_rows_planet.
Qed.

(** *** The reconstruction *)

Lemma changein_alpha_st_rel sf sg :
  same_shape sf sg ->
  py_rel same_len (changein_alpha_st sf) (changein_alpha_st sg).
Proof. intros Hs. unfold changein_alpha_st, np_add, np_sub. shapes. Qed.

Lemma changein_delta_rel sf sg :
  same_shape sf sg ->
  py_rel same_len (changein_delta sf) (changein_delta sg).
Proof. intros Hs. unfold changein_delta, np_add, np_sub. shapes. Qed.

Lemma reconstruct_rel sf sg :
  same_shape sf sg -> py_rel same_shape (reconstruct sf) (reconstruct sg).
Proof.
  intros Hs. unfold reconstruct, np_add, np_mul.
  eapply py_rel_bind; [by apply changein_alpha_st_rel |]. intros ca1 ca2 Hca.
  eapply py_rel_bind; [by apply changein_delta_rel |]. intros cd1 cd2 Hcd.
  repeat (eapply py_rel_bind; [solve [eauto with shapes] | intros ? ? ?]).
  apply py_rel_ok. destruct Hs. by split.
Qed.

End Method.

(** ** One instance: the relations are equivalences *)

Section OneInstance.
Context {F : Type} `{Scalar F, Trig F, OrbitModel F}.
Implicit Types (self : HipparcosLogProb F).

#[export] Instance same_len_equiv {A} : Equivalence (@same_len A A).
Proof.
  unfold same_len. split; [by intros a | by intros a b |].
  intros a b c. apply eq_trans.
Qed.

#[export] Instance same_shape_equiv : Equivalence (@same_shape F F).
Proof.
  split.
  - intros s. by split.
  - intros s1 s2 []. by split.
  - intros s1 s2 s3 [] []. split; by etrans.
Qed.

#[export] Instance reconstruct_shape_proper :
  Proper (same_shape ==> py_rel same_shape) (reconstruct (F := F)).
Proof. intros s1 s2 Hs. by apply reconstruct_rel. Qed.

(** [self] with other scan directions. *)
Definition with_scan_directions self (cos_phi sin_phi : list F)
    : HipparcosLogProb F :=
  {| self_hip_num := self_hip_num self;
     self_plx0 := self_plx0 self;
     self_pm_ra0 := self_pm_ra0 self;
     self_pm_dec0 := self_pm_dec0 self;
     self_alpha0 := self_alpha0 self;
     self_delta0 := self_delta0 self;
     self_plx0_err := self_plx0_err self;
     self_pm_ra0_err := self_pm_ra0_err self;
     self_pm_dec0_err := self_pm_dec0_err self;
     self_alpha0_err := self_alpha0_err self;
     self_delta0_err := self_delta0_err self;
     self_epochs := self_epochs self;
     self_epochs_mjd := self_epochs_mjd self;
     self_cos_phi := cos_phi;
     self_sin_phi := sin_phi;
     self_R := self_R self;
     self_eps := self_eps self;
     self_X := self_X self;
     self_Y := self_Y self;
     self_Z := self_Z self;
     self_alpha_abs_st := self_alpha_abs_st self;
     self_delta_abs := self_delta_abs self |}.

Lemma same_shape_scan_directions self cos_phi sin_phi :
  length cos_phi = length (self_cos_phi self) ->
  length sin_phi = length (self_sin_phi self) ->
  same_shape (with_scan_directions self cos_phi sin_phi) self.
Proof. intros Hc Hs. by split. Qed.

(** C34: the constructor does not check the scan directions.  When the
    reconstruction succeeds on an object, it succeeds on the object
    with any other scan directions of the same number, unit vectors or
    not, and builds an object of the same shape. *)
Theorem reconstruct_any_scan_direction self cos_phi sin_phi r :
  reconstruct self = Ok r ->
  length cos_phi = length (self_cos_phi self) ->
  length sin_phi = length (self_sin_phi self) ->
  exists r',
    reconstruct (with_scan_directions self cos_phi sin_phi) = Ok r' /\
    same_shape r' r.
Proof.
  intros Hr Hc Hs.
  pose proof (reconstruct_rel _ _
                (same_shape_scan_directions self cos_phi sin_phi Hc Hs))
    as Hrel.
  rewrite Hr in Hrel.
  destruct (reconstruct (with_scan_directions self cos_phi sin_phi));
    [by eexists | done].
Qed.

End OneInstance.
