(* ===== verification/Broadcast.v ===== *)
(** * Broadcast: which shapes the reconstruction accepts

    NumPy combines two arrays of different lengths when one of them has
    length one, and raises [ValueError] otherwise; [Shapes.broadcast]
    is that rule on two lengths.  Several lengths broadcast together
    when those that are not one are equal ([compatible]); they then
    broadcast to that length, or to one ([joint]).  [broadcast_all] is
    the rule on a list of lengths, and a chain of binary operations
    follows it whatever its bracketing ([broadcast_all_app]).

    With it the failures of the reconstruction are characterised
    completely: the program run on lengths instead of arrays is related
    to the program by [py_rel], and [reconstruct_accepts] gives the
    shapes of the two reconstructed attributes, or [ValueError], as a
    function of the lengths of the attributes the constructor
    loaded.  An operand of one entry behaves as the operand that
    repeats it ([np_binop_replicate_r]). *)

From Stdlib Require Import QArith.
From S2P Require Import Prelude Scalar NumPy Reconstructor Evaluator Shapes.

(** ** The rule on a list of lengths *)

(** The lengths that are not one. *)
Definition wide (ns : list nat) : list nat := filter (fun n => n <> 1) ns.

(** Lengths that broadcast together. *)
Definition compatible (ns : list nat) : Prop :=
  match wide ns with
  | [] => True
  | n :: l => Forall (eq n) l
  end.

#[export] Instance compatible_dec ns : Decision (compatible ns).
Proof. unfold compatible. destruct (wide ns); apply _. Defined.

(** The length they broadcast to. *)
Definition joint (ns : list nat) : nat := default 1 (head (wide ns)).

Definition broadcast_all (ns : list nat) : py nat :=
  if decide (compatible ns) then Ok (joint ns) else Raise ValueError.

(** A computation that fails with one exception only. *)
Definition raises_only {A} (e : pyerr) (m : py A) : Prop :=
  forall e', m = Raise e' -> e' = e.

Lemma wide_app ns1 ns2 : wide (ns1 ++ ns2) = wide ns1 ++ wide ns2.
Proof. apply filter_app. Qed.

Lemma wide_not_one ns : Forall (fun n => n <> 1) (wide ns).
Proof. apply Forall_forall. by intros n [? _]%list_elem_of_filter. Qed.

(** The meaning of [compatible]: any two lengths are equal, or one of
    them is one. *)
Lemma compatible_spec ns :
  compatible ns <->
  forall m n, m ∈ ns -> n ∈ ns -> m = n \/ m = 1 \/ n = 1.
Proof.
  unfold compatible. split.
  - intros Hc m n Hm Hn.
    destruct (decide (m = 1)) as [|Hm1]; [by auto |].
    destruct (decide (n = 1)) as [|Hn1]; [by auto |]. left.
    assert (m ∈ wide ns) as Hmw by (by apply list_elem_of_filter).
    assert (n ∈ wide ns) as Hnw by (by apply list_elem_of_filter).
    destruct (wide ns) as [|k l]; [by apply elem_of_nil in Hmw |].
    rewrite Forall_forall in Hc.
    apply elem_of_cons in Hmw as [->|Hmw], Hnw as [->|Hnw];
      rewrite <- ?(Hc _ Hmw), <- ?(Hc _ Hnw); done.
  - intros Hc. pose proof (wide_not_one ns) as Hw.
    assert (forall m, m ∈ wide ns -> m ∈ ns) as Hin
      by (by intros m [_ ?]%list_elem_of_filter).
    destruct (wide ns) as [|k l]; [done |].
    apply Forall_forall. intros n Hn.
    apply Forall_cons in Hw as [Hk Hl]. rewrite Forall_forall in Hl.
    destruct (Hc k n) as [?|[?|?]]; try done.
    + apply Hin. by left.
    + apply Hin. by right.
    + by destruct (Hl n Hn).
Qed.

Lemma compatible_singleton n : compatible [n].
Proof.
  unfold compatible, wide. rewrite filter_cons, filter_nil.
  by case_decide.
Qed.

Lemma joint_singleton n : joint [n] = n.
Proof.
  unfold joint, wide. rewrite filter_cons, filter_nil.
  by case_decide as Hn; simpl.
Qed.

(** Two lists of lengths broadcast together when each does and their
    joint lengths do. *)
Lemma compatible_app ns1 ns2 :
  compatible (ns1 ++ ns2) <->
  compatible ns1 /\ compatible ns2 /\
  (joint ns1 = joint ns2 \/ joint ns1 = 1 \/ joint ns2 = 1).
Proof.
  unfold compatible, joint. rewrite wide_app.
  pose proof (wide_not_one ns1) as H1. pose proof (wide_not_one ns2) as H2.
  destruct H1 as [|m l1 Hm _], H2 as [|n l2 Hn _]; simpl;
    rewrite ?app_nil_r, ?Forall_app, ?Forall_cons;
    intuition (subst; done).
Qed.

Lemma joint_app ns1 ns2 :
  joint (ns1 ++ ns2) = if decide (joint ns1 = 1) then joint ns2 else joint ns1.
Proof.
  unfold joint. rewrite wide_app. pose proof (wide_not_one ns1) as H1.
  destruct (wide ns1) as [|m l1]; simpl; [done |].
  apply Forall_cons in H1 as [Hm _]. by rewrite decide_False.
Qed.

Lemma broadcast_all_singleton n : broadcast_all [n] = Ok n.
Proof.
  unfold broadcast_all.
  by rewrite decide_True, joint_singleton by apply compatible_singleton.
Qed.

Lemma broadcast_all_raises ns : raises_only ValueError (broadcast_all ns).
Proof. unfold broadcast_all. intros e. case_decide; congruence. Qed.

(** A chain of binary operations follows the rule on the list. *)
Lemma broadcast_all_app ns1 ns2 :
  (a <- broadcast_all ns1 ;; b <- broadcast_all ns2 ;; broadcast a b)
  = broadcast_all (ns1 ++ ns2).
Proof.
  unfold broadcast_all. rewrite joint_app.
  destruct (compatible_app ns1 ns2) as [Hc1 Hc2].
  unfold broadcast. repeat (case_decide; simpl); try done;
    try (f_equal; congruence); exfalso; intuition congruence.
Qed.

Lemma broadcast_pair m n : broadcast m n = broadcast_all [m; n].
Proof.
  by rewrite <- (broadcast_all_app [m] [n] : _ = broadcast_all [m; n]),
    !broadcast_all_singleton.
Qed.

Lemma broadcast_all_snoc ns n :
  (a <- broadcast_all ns ;; broadcast a n) = broadcast_all (ns ++ [n]).
Proof. by rewrite <- broadcast_all_app, broadcast_all_singleton. Qed.

(** Two lists of lengths, one after the other. *)
Lemma broadcast_all_both ns1 ns2 :
  (m <- broadcast_all ns1 ;; n <- broadcast_all ns2 ;; Ok (m, n))
  = if decide (compatible ns1 /\ compatible ns2)
    then Ok (joint ns1, joint ns2) else Raise ValueError.
Proof. unfold broadcast_all. repeat (case_decide; simpl); tauto || done. Qed.

(** Compatible lengths are the length they broadcast to, or one. *)
Lemma joint_spec ns :
  compatible ns -> Forall (fun m => m = joint ns \/ m = 1) ns.
Proof.
  unfold compatible, joint, wide. intros Hc. apply Forall_forall.
  intros m Hm. destruct (decide (m = 1)) as [|Hm1]; [by right |]. left.
  assert (m ∈ filter (fun n => n <> 1) ns) as Hw
    by (by apply list_elem_of_filter).
  destruct (filter _ ns) as [|k l]; [by apply elem_of_nil in Hw |].
  simpl. apply elem_of_cons in Hw as [->|Hw]; [done |].
  rewrite Forall_forall in Hc. symmetry. by apply Hc.
Qed.

Lemma joint_elem ns : joint ns = 1 \/ joint ns ∈ ns.
Proof.
  unfold joint, wide.
  destruct (filter _ ns) as [|k l] eqn:Hw; simpl; [by left |]. right.
  assert (k ∈ filter (fun n => n <> 1) ns) as Hk by (rewrite Hw; by left).
  by apply list_elem_of_filter in Hk as [_ ?].
Qed.

(** An assignment of the result of a chain to a row of [n] entries,
    one of the operands having [n] entries. *)
Lemma broadcast_all_into n ns :
  n ∈ ns ->
  (s <- broadcast_all ns ;; broadcast_into n s)
  = if decide (Forall (fun m => m = n \/ m = 1) ns)
    then Ok n else Raise ValueError.
Proof.
  intros Hn. unfold broadcast_all.
  destruct (decide (Forall _ ns)) as [Hf|Hf].
  - assert (compatible ns) as Hc.
    { apply compatible_spec. intros m k Hm Hk.
      rewrite Forall_forall in Hf.
      destruct (Hf m Hm), (Hf k Hk); subst; auto. }
    rewrite decide_True by done. cbn [py_bind]. unfold broadcast_into.
    destruct (joint_elem ns) as [H1|Hj].
    + case_decide; [done |]. by rewrite decide_True.
    + rewrite Forall_forall in Hf.
      destruct (Hf _ Hj) as [-> | H1]; [by rewrite decide_True |].
      case_decide; [done |]. by rewrite decide_True.
  - case_decide as Hc; [| done]. cbn [py_bind]. unfold broadcast_into.
    pose proof (joint_spec ns Hc) as Hj.
    repeat case_decide; try done; destruct Hf.
    + eapply Forall_impl; [exact Hj |]. intros m [-> | ->]; auto.
    + rewrite Forall_forall in Hj. destruct (Hj n Hn) as [Hn1|Hn1]; [done |].
      eapply Forall_impl; [apply Forall_forall, Hj |].
      intros m [-> | ->]; auto.
Qed.

Lemma broadcast_all_app_bind {B} ns1 ns2 (k : nat -> py B) :
  (a <- broadcast_all ns1 ;; b <- broadcast_all ns2 ;;
   s <- broadcast a b ;; k s)
  = (s <- broadcast_all (ns1 ++ ns2) ;; k s).
Proof.
  rewrite <- broadcast_all_app, !py_bind_assoc.
  apply py_bind_ext. intros a _. by rewrite py_bind_assoc.
Qed.

(** ** The reconstruction *)

(** An array and its length. *)
Definition has_len {A} (a : list A) (n : nat) : Prop := length a = n.

Section OpLengths.
Context {F : Type} `{Scalar F}.
Implicit Types (a b : list F).

Lemma py_rel_has_len (m : py (list F)) (n : py nat) :
  py_rel has_len m n <-> py_map length m = n.
Proof.
  unfold has_len. destruct m, n; simpl; split; try done;
    try (by intros [=]); by intros ->.
Qed.

Lemma np_binop_len f a b m n :
  has_len a m -> has_len b n ->
  py_rel has_len (np_binop f a b) (broadcast m n).
Proof. intros <- <-. apply py_rel_has_len, np_binop_shape. Qed.

Lemma np_rscalar_len f a s n : has_len a n -> has_len (np_rscalar f a s) n.
Proof. intros <-. apply np_rscalar_length. Qed.

Lemma np_lscalar_len f s a n : has_len a n -> has_len (np_lscalar f s a) n.
Proof. intros <-. apply np_lscalar_length. Qed.

Lemma has_len_length a : has_len a (length a).
Proof. done. Qed.

End OpLengths.

#[export] Hint Resolve np_binop_len np_rscalar_len np_lscalar_len
  has_len_length : shapes.

(** [broadcast_cases]: case analysis on every broadcast of the goal;
    one that fails raises [ValueError]. *)
Lemma broadcast_raises m n : raises_only ValueError (broadcast m n).
Proof. rewrite broadcast_pair. apply broadcast_all_raises. Qed.

Ltac broadcast_cases :=
  repeat match goal with
    | |- context [py_bind (broadcast_all ?ns) _] =>
        let E := fresh "E" in
        destruct (broadcast_all ns) eqn:E;
        [| apply broadcast_all_raises in E as ->]; cbn [py_bind]
    | |- context [py_bind (broadcast ?m ?n) _] =>
        let E := fresh "E" in
        destruct (broadcast m n) eqn:E;
        [| apply broadcast_raises in E as ->]; cbn [py_bind]
    end.

Section Reconstruction.
Context {F : Type} `{Scalar F, Trig F}.
Implicit Types (self : HipparcosLogProb F).

(** The lengths that meet in [alpha_abs_st] and in [delta_abs]. *)
Definition alpha_lengths self : list nat :=
  [length (self_R self); length (self_cos_phi self);
   length (self_X self); length (self_Y self); length (self_epochs self)].

Definition delta_lengths self : list nat :=
  [length (self_R self); length (self_sin_phi self);
   length (self_X self); length (self_Y self); length (self_Z self);
   length (self_epochs self)].

(** The reconstruction on lengths, in the order of the program. *)
Definition reconstruct_lengths self : py (nat * nat) :=
  ca <- broadcast_all [length (self_X self); length (self_Y self);
                       length (self_epochs self)] ;;
  cd <- broadcast_all [length (self_X self); length (self_Y self);
                       length (self_Z self); length (self_epochs self)] ;;
  rc <- broadcast (length (self_R self)) (length (self_cos_phi self)) ;;
  alpha_abs_st <- broadcast rc ca ;;
  rs <- broadcast (length (self_R self)) (length (self_sin_phi self)) ;;
  delta_abs <- broadcast rs cd ;;
  Ok (alpha_abs_st, delta_abs).

Lemma changein_alpha_st_len self :
  py_rel has_len (changein_alpha_st self)
    (broadcast_all [length (self_X self); length (self_Y self);
                    length (self_epochs self)]).
Proof.
  rewrite <- (broadcast_all_snoc [_; _] _ : _ = broadcast_all [_; _; _]),
    <- broadcast_pair.
  unfold changein_alpha_st, np_sub, np_add. shapes.
Qed.

Lemma changein_delta_len self :
  py_rel has_len (changein_delta self)
    (broadcast_all [length (self_X self); length (self_Y self);
                    length (self_Z self); length (self_epochs self)]).
Proof.
  rewrite <- (broadcast_all_snoc [_; _; _] _
                : _ = broadcast_all [_; _; _; _]),
    <- (broadcast_all_snoc [_; _] _ : _ = broadcast_all [_; _; _]),
    <- broadcast_pair, py_bind_assoc.
  unfold changein_delta, np_sub, np_add. shapes.
Qed.

Lemma reconstruct_len self :
  py_rel (fun r s => has_len (self_alpha_abs_st r) s.1 /\
                     has_len (self_delta_abs r) s.2)
    (reconstruct self) (reconstruct_lengths self).
Proof.
  unfold reconstruct, reconstruct_lengths, np_mul, np_add.
  eapply py_rel_bind; [apply changein_alpha_st_len |]. intros ca n Hca.
  eapply py_rel_bind; [apply changein_delta_len |]. intros cd m Hcd.
  shapes.
Qed.

(** The order of the operations does not matter to the shapes: every
    failure is a [ValueError]. *)
Lemma reconstruct_lengths_all self :
  reconstruct_lengths self
  = (alpha_abs_st <- broadcast_all (alpha_lengths self) ;;
     delta_abs <- broadcast_all (delta_lengths self) ;;
     Ok (alpha_abs_st, delta_abs)).
Proof.
  unfold reconstruct_lengths, alpha_lengths, delta_lengths.
  rewrite <- (broadcast_all_app [_; _] [_; _; _]
                : _ = broadcast_all [_; _; _; _; _]),
    <- (broadcast_all_app [_; _] [_; _; _; _]
        : _ = broadcast_all [_; _; _; _; _; _]),
    <- !broadcast_pair, !py_bind_assoc.
  broadcast_cases; done.
Qed.

(** C36: which shapes the reconstruction accepts.  It succeeds exactly
    when the lengths of [R], [cos_phi], [X], [Y] and [epochs] broadcast
    together, and those of [R], [sin_phi], [X], [Y], [Z] and [epochs]
    do (in each list the lengths that are not one are equal); the two
    reconstructed attributes then have the lengths these broadcast to.
    Otherwise it raises [ValueError], and no other exception. *)
Theorem reconstruct_accepts self :
  if decide (compatible (alpha_lengths self) /\
             compatible (delta_lengths self))
  then exists r,
         reconstruct self = Ok r /\
         length (self_alpha_abs_st r) = joint (alpha_lengths self) /\
         length (self_delta_abs r) = joint (delta_lengths self)
  else reconstruct self = Raise ValueError.
Proof.
  pose proof (reconstruct_len self) as Hr.
  rewrite reconstruct_lengths_all, broadcast_all_both in Hr.
  case_decide; destruct (reconstruct self) as [r|e]; simpl in Hr;
    [by exists r | done | done | by subst].
Qed.

End Reconstruction.

(** ** Broadcasting is replication *)

Section Replication.
Context {F : Type} `{Scalar F}.
Implicit Types (a b : list F) (f g : F -> F -> F).

Lemma np_binop_replicate_r f a y :
  np_binop f a [y] = np_binop f a (replicate (length a) y).
Proof.
  rewrite (np_binop_same f a (replicate _ _)), zip_with_const_r
    by (by rewrite length_replicate).
  unfold np_binop. by case_decide; destruct a as [|x [|? ?]].
Qed.

Lemma np_binop_replicate_l f x b :
  np_binop f [x] b = np_binop f (replicate (length b) x) b.
Proof.
  rewrite (np_binop_same f (replicate _ _) b), zip_with_const_l
    by (by rewrite length_replicate).
  unfold np_binop. by case_decide; destruct b as [|y [|? ?]].
Qed.

Lemma np_rscalar_replicate f n x s :
  np_rscalar f (replicate n x) s = replicate n (f x s).
Proof. unfold np_rscalar. by rewrite fmap_replicate. Qed.

(** A right operand of one entry is broadcast to the left operand. *)
Lemma np_binop_rscalar_singleton f g a x s :
  np_binop f a (np_rscalar g [x] s)
  = np_binop f a (np_rscalar g (replicate (length a) x) s).
Proof. rewrite np_rscalar_replicate. apply np_binop_replicate_r. Qed.

End Replication.
