(* ===== verification/Accepts.v ===== *)
(** * Accepts: which rows the method accepts

    The failures of [compute_lnprob] on five rows, for an object the
    constructor built.  The body of the epoch loop run on lengths
    ([epoch_dist_lengths]) is related to the program by [py_rel]; with
    the rule of [Broadcast] it stores a row exactly when every row of
    [samples] has as many entries as the first or one ([fits]).  The
    reduction then fails on an empty batch only, and the prior never:
    [compute_lnprob_accepts] gives the exception or the length of the
    result as a function of the lengths of the rows.

    The prior does not broadcast.  For a row of parallaxes of one entry
    the method scores every candidate with that parallax and masks the
    first only ([compute_lnprob_shared_parallax]).

    An object whose Earth positions are fewer than its epochs is
    outside the invariant: on it the method raises [IndexError] at the
    first epoch that has no position
    ([compute_lnprob_short_ephemeris]). *)

From Stdlib Require Import QArith.
From S2P Require Import Prelude Scalar NumPy Reconstructor Evaluator Reference.
From S2P Require Import Shapes Broadcast.

(** ** The method on five rows *)

Section Accepts.
Context {F : Type} `{Scalar F, Trig F, OrbitModel F}.
Implicit Types (self : HipparcosLogProb F) (a b : list F).

(** A row fits a batch of [n] samples when it has [n] entries or one. *)
Definition fits (n : nat) (r : list F) : Prop :=
  length r = n \/ length r = 1.

#[export] Instance fits_dec n r : Decision (fits n r).
Proof. unfold fits. apply _. Defined.

(** The body of the epoch loop on lengths: the length of the row stored
    for rows of lengths [n] ([pm_ra], the number of samples), [n1]
    ([pm_dec]), [n2] ([alpha_H0]), [n3] ([delta_H0]) and [n4]
    ([plx]). *)
Definition epoch_dist_lengths (n n1 n2 n3 n4 : nat) : py nat :=
  alpha <- (t <- broadcast n2 n4 ;; broadcast t n) ;;
  delta <- (t <- broadcast n3 n4 ;; broadcast t n1) ;;
  s <- broadcast alpha delta ;;
  broadcast_into n s.

Lemma epoch_dist_lengths_fits (pm_ra pm_dec aH dH plx : list F) :
  epoch_dist_lengths (length pm_ra) (length pm_dec) (length aH) (length dH)
    (length plx)
  = if decide (Forall (fits (length pm_ra)) [pm_dec; aH; dH; plx])
    then Ok (length pm_ra) else Raise ValueError.
Proof.
  unfold epoch_dist_lengths.
  rewrite broadcast_pair, (broadcast_all_snoc [_; _]).
  etrans.
  { apply py_bind_ext. intros alpha _.
    by rewrite broadcast_pair, (broadcast_all_snoc [_; _]). }
  rewrite broadcast_all_app_bind, broadcast_all_into
    by (by apply (list_elem_of_lookup_2 _ 2)).
  apply decide_ext. repeat setoid_rewrite Forall_cons.
  repeat setoid_rewrite Forall_nil. unfold fits. intuition.
Qed.

Lemma py_rel_getitem {A B C} (R : B -> C -> Prop) (l : list A) i
    (k : A -> py B) (m : py C) :
  i < length l -> (forall x, py_rel R (k x) m) ->
  py_rel R (x <- getitem l i ;; k x) m.
Proof. intros Hi Hk. destruct (getitem_lt l i Hi) as [x ->]. apply Hk. Qed.

Lemma np_setrow_len n (v : list F) m :
  has_len v m -> py_rel has_len (np_setrow n v) (broadcast_into n m).
Proof. intros <-. apply py_rel_has_len, np_setrow_shape. Qed.

Lemma np_abs_len a n : has_len a n -> has_len (np_abs a) n.
Proof. intros <-. apply np_abs_length. Qed.

Local Hint Resolve np_setrow_len np_abs_len : shapes.

(** The per-epoch attributes the loop reads reach epoch [i]. *)
Definition covers self (i : nat) : Prop :=
  i < length (self_X self) /\ i < length (self_Y self) /\
  i < length (self_Z self) /\ i < length (self_epochs self) /\
  i < length (self_alpha_abs_st self) /\ i < length (self_cos_phi self) /\
  i < length (self_delta_abs self) /\ i < length (self_sin_phi self).

Lemma wf_covers self i : wf self -> i < n_epochs self -> covers self i.
Proof.
  intros ((_ & Hc & Hs & _ & _ & HX & HY & HZ) & Ha & Hd) Hi.
  unfold covers, n_epochs in *. lia.
Qed.

Lemma alpha_C_st_len self aH plx pm_ra i :
  covers self i ->
  py_rel has_len (alpha_C_st self aH plx pm_ra i)
    (t <- broadcast (length aH) (length plx) ;; broadcast t (length pm_ra)).
Proof.
  intros (HX & HY & _ & He & _). unfold alpha_C_st, np_add.
  do 2 (apply py_rel_getitem; [done | intros ?]).
  eapply (py_rel_bind has_len); [eauto with shapes | intros t n Ht].
  apply py_rel_getitem; [done | intros ?]. eauto with shapes.
Qed.

Lemma delta_C_len self dH plx pm_dec i :
  covers self i ->
  py_rel has_len (delta_C self dH plx pm_dec i)
    (t <- broadcast (length dH) (length plx) ;; broadcast t (length pm_dec)).
Proof.
  intros (HX & HY & HZ & He & _). unfold delta_C, np_add.
  do 3 (apply py_rel_getitem; [done | intros ?]).
  eapply (py_rel_bind has_len); [eauto with shapes | intros t n Ht].
  apply py_rel_getitem; [done | intros ?]. eauto with shapes.
Qed.

Lemma scan_distance_len self n (pos : list F * list F) i m1 m2 :
  covers self i -> has_len pos.1 m1 -> has_len pos.2 m2 ->
  py_rel has_len (scan_distance self n pos i)
    (s <- broadcast m1 m2 ;; broadcast_into n s).
Proof.
  intros (_ & _ & _ & _ & Ha & Hc & Hd & Hs) Hp1 Hp2.
  unfold scan_distance, np_add.
  do 4 (apply py_rel_getitem; [done | intros ?; cbv zeta]).
  eapply (py_rel_bind has_len);
    [apply np_binop_len; eauto with shapes | intros s k Hk].
  eauto with shapes.
Qed.

(** One pass of the loop at an epoch the attributes reach: the row
    stored, or [ValueError]. *)
Lemma epoch_dist_len self pm_ra pm_dec aH dH plx i :
  covers self i ->
  py_rel has_len
    (epoch_dist self pm_ra pm_dec aH dH plx None (length pm_ra) i)
    (epoch_dist_lengths (length pm_ra) (length pm_dec) (length aH)
       (length dH) (length plx)).
Proof.
  intros Hi. unfold epoch_dist, epoch_dist_lengths.
  eapply py_rel_bind; [by apply alpha_C_st_len | intros a n Ha].
  eapply py_rel_bind; [by apply delta_C_len | intros d m Hd].
  cbn [py_bind]. by apply scan_distance_len.
Qed.

(** A loop whose passes all succeed with a result that satisfies [P],
    or all fail alike. *)
Lemma py_mapM_all_ok {A B} (P : B -> Prop) (f : A -> py B) l :
  (forall x, x ∈ l -> exists y, f x = Ok y /\ P y) ->
  exists r, py_mapM f l = Ok r /\ length r = length l /\ Forall P r.
Proof.
  induction l as [|x l IH]; intros Hf; simpl; [by exists [] |].
  destruct (Hf x) as (y & -> & Hy); [by left |].
  destruct IH as (r & -> & Hl & Hr); [intros z Hz; apply Hf; by right |].
  exists (y :: r). simpl. by rewrite Hl, Forall_cons.
Qed.

Lemma py_mapM_first_raises {A B} (f : A -> py B) x l e :
  f x = Raise e -> py_mapM f (x :: l) = Raise e.
Proof. intros Hx. simpl. by rewrite Hx. Qed.

(** The epoch loop on a well-formed object with at least one scan. *)
Lemma epoch_loop_accepts self pm_ra pm_dec aH dH plx :
  wf self -> n_epochs self <> 0 ->
  if decide (Forall (fits (length pm_ra)) [pm_dec; aH; dH; plx])
  then exists dist,
         py_mapM (epoch_dist self pm_ra pm_dec aH dH plx None (length pm_ra))
           (seq 0 (n_epochs self)) = Ok dist /\
         length dist = n_epochs self /\
         Forall (fun r => length r = length pm_ra) dist
  else py_mapM (epoch_dist self pm_ra pm_dec aH dH plx None (length pm_ra))
         (seq 0 (n_epochs self)) = Raise ValueError.
Proof.
  intros Hwf Hn.
  pose proof (fun i Hi => epoch_dist_len self pm_ra pm_dec aH dH plx i
                           (wf_covers self i Hwf Hi)) as Hbody.
  rewrite epoch_dist_lengths_fits in Hbody. case_decide as Hf.
  - destruct (py_mapM_all_ok (fun r => length r = length pm_ra)
                (epoch_dist self pm_ra pm_dec aH dH plx None (length pm_ra))
                (seq 0 (n_epochs self))) as (dist & Hd & Hl & Hr).
    + intros i [_ Hi]%elem_of_seq. specialize (Hbody i Hi).
      destruct (epoch_dist _ _ _ _ _ _ _ _ _) as [r|]; [| done].
      by exists r.
    + exists dist. by rewrite length_seq in Hl.
  - destruct (n_epochs self) as [|n] eqn:Hne; [done |].
    apply py_mapM_first_raises. specialize (Hbody 0 ltac:(lia)).
    destruct (epoch_dist _ _ _ _ _ _ _ _ _) as [r|e]; [done |].
    simpl in Hbody. by subst.
Qed.

(** The reduction on a matrix of [n_epochs] rows of [n] entries. *)
Lemma chi2_terms_len self n (dist : list (list F)) j :
  Forall (fun r => length r = n) dist ->
  length dist = length (self_eps self) -> j < n ->
  exists t, chi2_terms self n dist j = Ok t /\ length t = length dist.
Proof.
  intros Hd Hl Hj. unfold chi2_terms.
  rewrite (np_column_ok n dist j (flit 0) Hd Hj). cbn [py_bind].
  unfold np_div. rewrite np_binop_same by (by rewrite length_fmap).
  eexists. split; [done |].
  unfold np_square. rewrite length_fmap, length_zip_with, length_fmap. lia.
Qed.

Lemma chi2_of_accepts self n (dist : list (list F)) :
  Forall (fun r => length r = n) dist ->
  length dist = length (self_eps self) ->
  if decide (n = 0) then chi2_of self n dist = Raise AxisError
  else exists chi2, chi2_of self n dist = Ok chi2 /\ length chi2 = n.
Proof.
  intros Hd Hl. unfold chi2_of. case_decide as Hn; [by subst |].
  destruct (py_mapM_all_ok (fun t => length t = length dist)
              (chi2_terms self n dist) (seq 0 n)) as (terms & -> & Ht & Hr).
  { intros j [_ Hj]%elem_of_seq. by apply chi2_terms_len. }
  rewrite length_seq in Ht. cbn [py_bind].
  rewrite (np_sum_axis1_ok terms (length dist)); [| by intros -> | done].
  eexists. split; [done |]. by rewrite length_fmap.
Qed.

(** The prior on a mask that is not longer than the array. *)
Lemma np_put_ok a idx (x : F) :
  Forall (fun i => i < length a) idx ->
  exists r, np_put a idx x = Ok r /\ length r = length a.
Proof.
  revert a. induction idx as [|i idx IH]; intros a Hi; simpl.
  - by exists a.
  - apply Forall_cons in Hi as [Hi Hidx]. rewrite decide_True by done.
    destruct (IH (<[i := x]> a)) as (r & -> & Hr);
      [by rewrite length_insert |].
    exists r. by rewrite length_insert in Hr.
Qed.

Lemma apply_prior_accepts (plx chi2 : list F) :
  length plx <= length chi2 ->
  exists lnprob,
    apply_prior plx chi2 = Ok lnprob /\ length lnprob = length chi2.
Proof.
  intros Hl. unfold apply_prior.
  destruct (np_put_ok (np_lscalar fmul (flit (-0.5)) chi2)
              (np_where (np_le_scalar plx (flit 0))) (fneg finf))
    as (r & -> & Hr).
  - apply Forall_forall. intros i Hi%np_where_from_bound.
    unfold np_le_scalar in Hi. rewrite length_fmap in Hi.
    rewrite np_lscalar_length. lia.
  - exists r. by rewrite np_lscalar_length in Hr.
Qed.

(** which rows the method accepts.  On a well-formed object with
    at least one scan, called with five rows, the method returns an
    array, of one score per entry of the first row, exactly when every
    other row has as many entries as the first or one entry, and the
    first row is not empty; it raises [AxisError] when the rows fit
    and the first is empty, and [ValueError] when a row does not
    fit. *)
Theorem compute_lnprob_accepts self pm_ra pm_dec alpha_H0 delta_H0 plx
    negative :
  wf self -> n_epochs self <> 0 ->
  if decide (Forall (fits (length pm_ra)) [pm_dec; alpha_H0; delta_H0; plx])
  then if decide (length pm_ra = 0)
       then compute_lnprob self [pm_ra; pm_dec; alpha_H0; delta_H0; plx]
              negative = Raise AxisError
       else exists lnprob,
              compute_lnprob self [pm_ra; pm_dec; alpha_H0; delta_H0; plx]
                negative = Ok (RetArray lnprob) /\
              length lnprob = length pm_ra
  else compute_lnprob self [pm_ra; pm_dec; alpha_H0; delta_H0; plx] negative
       = Raise ValueError.
Proof.
  intros Hwf Hn.
  change (compute_lnprob self [pm_ra; pm_dec; alpha_H0; delta_H0; plx]
            negative)
    with (py_map RetArray
            (lnprob_body self pm_ra pm_dec alpha_H0 delta_H0 plx None
               negative)).
  unfold lnprob_body. fold (n_epochs self).
  pose proof (epoch_loop_accepts self pm_ra pm_dec alpha_H0 delta_H0 plx
                Hwf Hn) as Hloop.
  case_decide as Hf; [| by rewrite Hloop].
  destruct Hloop as (dist & -> & Hl & Hd). cbn [py_bind].
  destruct Hwf as ((_ & _ & _ & _ & Heps & _) & _).
  pose proof (chi2_of_accepts self (length pm_ra) dist Hd
                ltac:(by rewrite Hl, Heps)) as Hchi2.
  case_decide as Hm; [by rewrite Hchi2 |].
  destruct Hchi2 as (chi2 & -> & Hc). cbn [py_bind].
  destruct (apply_prior_accepts plx chi2) as (lnprob & -> & Hp).
  { apply Forall_cons in Hf as [_ Hf]. do 2 apply Forall_cons in Hf as [_ Hf].
    apply Forall_cons in Hf as [[Hf|Hf] _]; lia. }
  cbn [py_map py_bind]. eexists. split; [done |].
  destruct negative; simpl; unfold np_rscalar; rewrite ?length_fmap; lia.
Qed.

(** C39: an ephemeris shorter than the scans.  When the Earth's
    positions are fewer than the epochs, which the constructor accepts
    for a single position, and the other attributes are at least as
    long, the method on five rows that fit raises [IndexError]: the
    loop passes the epochs that have a position and fails at the
    first that has none. *)
Theorem compute_lnprob_short_ephemeris self pm_ra pm_dec alpha_H0 delta_H0
    plx negative :
  length (self_X self) < n_epochs self ->
  (forall i, i < length (self_X self) -> covers self i) ->
  Forall (fits (length pm_ra)) [pm_dec; alpha_H0; delta_H0; plx] ->
  compute_lnprob self [pm_ra; pm_dec; alpha_H0; delta_H0; plx] negative
  = Raise IndexError.
Proof.
  intros Hk Hcov Hf.
  change (compute_lnprob self [pm_ra; pm_dec; alpha_H0; delta_H0; plx]
            negative)
    with (py_map RetArray
            (lnprob_body self pm_ra pm_dec alpha_H0 delta_H0 plx None
               negative)).
  unfold lnprob_body. fold (n_epochs self).
  set (k := length (self_X self)) in *.
  replace (n_epochs self) with (k + S (n_epochs self - S k)) by lia.
  rewrite seq_app. cbn [seq].
  destruct (py_mapM_all_ok (fun _ => True)
              (epoch_dist self pm_ra pm_dec alpha_H0 delta_H0 plx None
                 (length pm_ra)) (seq 0 k)) as (dist & Hd & _).
  { intros i [_ Hi]%elem_of_seq.
    pose proof (epoch_dist_len self pm_ra pm_dec alpha_H0 delta_H0 plx i
                  (Hcov i Hi)) as Hb.
    rewrite epoch_dist_lengths_fits, decide_True in Hb by done.
    destruct (epoch_dist _ _ _ _ _ _ _ _ _) as [r|]; [| done].
    by exists r. }
  rewrite (py_mapM_raise _ _ _ _ IndexError _ Hd); [done |].
  unfold epoch_dist, alpha_C_st. by rewrite getitem_raise.
Qed.

End Accepts.

(** ** A parallax shared by the candidates *)

Section SharedParallax.
Context {F : Type} `{Scalar F, Trig F, OrbitModel F}.
Implicit Types (self : HipparcosLogProb F) (c : Astrometry F)
  (cands : list (Astrometry F)).

(** The five rows of a batch whose parallax row has one entry. *)
Definition rows_shared cands (p : F) : list (list F) :=
  [c_pm_ra <$> cands; c_pm_dec <$> cands; c_alpha_H0 <$> cands;
   c_delta_H0 <$> cands; [p]].

Definition with_plx c (p : F) : Astrometry F :=
  {| c_pm_ra := c_pm_ra c; c_pm_dec := c_pm_dec c;
     c_alpha_H0 := c_alpha_H0 c; c_delta_H0 := c_delta_H0 c; c_plx := p |}.

(** The score before the prior. *)
Definition unmasked self c : F :=
  fmul (flit (-0.5)) (chi2_candidate self (fun sc => position self sc c)).

(** In the epoch loop a parallax row of one entry is the row that
    repeats it. *)
Lemma alpha_C_st_shared self aH p pm i :
  alpha_C_st self aH [p] pm i
  = alpha_C_st self aH (replicate (length aH) p) pm i.
Proof.
  unfold alpha_C_st, np_add. do 2 (apply py_bind_ext; intros ? _).
  by rewrite np_binop_rscalar_singleton.
Qed.

Lemma delta_C_shared self dH p pm i :
  delta_C self dH [p] pm i = delta_C self dH (replicate (length dH) p) pm i.
Proof.
  unfold delta_C, np_add. do 3 (apply py_bind_ext; intros ? _).
  by rewrite np_binop_rscalar_singleton.
Qed.

Lemma epoch_dist_shared self pm_ra pm_dec aH dH p n i :
  length dH = length aH ->
  epoch_dist self pm_ra pm_dec aH dH [p] None n i
  = epoch_dist self pm_ra pm_dec aH dH (replicate (length aH) p) None n i.
Proof.
  intros Hd. unfold epoch_dist.
  by rewrite alpha_C_st_shared, delta_C_shared, Hd.
Qed.

Lemma apply_prior_shared (p : F) (chi2 : list F) :
  chi2 <> [] ->
  apply_prior [p] chi2
  = Ok (let lnprob := np_lscalar fmul (flit (-0.5)) chi2 in
        if fle p (flit 0) then <[0 := fneg finf]> lnprob else lnprob).
Proof.
  intros Hne. unfold apply_prior, np_where, np_le_scalar. simpl.
  destruct (fle p (flit 0)); simpl; [| done].
  rewrite decide_True; [done |].
  rewrite np_lscalar_length. destruct chi2; simpl; [done | lia].
Qed.

Lemma rows_with_plx cands p :
  rows_5 ((fun c => with_plx c p) <$> cands)
  = [c_pm_ra <$> cands; c_pm_dec <$> cands; c_alpha_H0 <$> cands;
     c_delta_H0 <$> cands; replicate (length cands) p].
Proof.
  unfold rows_5. rewrite <- !list_fmap_compose. do 4 f_equal.
  f_equal. by apply const_fmap.
Qed.

(** The epoch loop and the reduction on a batch, before the prior. *)
Lemma chi2_loop_scans self l cands :
  cands <> [] ->
  (dist <- py_mapM
             (epoch_dist (with_scans self l) (c_pm_ra <$> cands)
                (c_pm_dec <$> cands) (c_alpha_H0 <$> cands)
                (c_delta_H0 <$> cands) (c_plx <$> cands) None (length cands))
             (seq 0 (length l)) ;;
   chi2_of (with_scans self l) (length cands) dist)
  = Ok ((fun c =>
           np_sum ((fun sc => fsquare (fdiv (distance sc (position self sc c))
                                         (s_eps sc))) <$> l)) <$> cands).
Proof.
  intros Hne.
  rewrite (epoch_loop_batch _ l (fun sc c => distance sc (position self sc c))
             cands) by (intros i sc Hsc; by apply epoch_dist_5).
  by apply chi2_of_batch.
Qed.

Lemma chi2_loop_5 self cands :
  wf self -> cands <> [] ->
  (dist <- py_mapM
             (epoch_dist self (c_pm_ra <$> cands) (c_pm_dec <$> cands)
                (c_alpha_H0 <$> cands) (c_delta_H0 <$> cands)
                (c_plx <$> cands) None (length cands))
             (seq 0 (length (self_epochs self))) ;;
   chi2_of self (length cands) dist)
  = Ok ((fun c => chi2_candidate self (fun sc => position self sc c))
          <$> cands).
Proof.
  intros Hwf Hne.
  etrans; [| apply (chi2_loop_scans self (scans self) cands Hne)].
  by rewrite (wf_with_scans self Hwf), length_scans.
Qed.

(** C38: a parallax row of one entry.  When the row of parallaxes has a
    single entry, which NumPy broadcasts to the candidates in the epoch
    loop, every candidate is scored with that parallax, and the prior
    masks the first candidate only: with a parallax that is not
    positive the others keep minus half of their chi-square. *)
Theorem compute_lnprob_shared_parallax self cands p negative :
  wf self -> cands <> [] ->
  compute_lnprob self (rows_shared cands p) negative
  = Ok (RetArray
          (apply_negative negative
             (let scores := (fun c => unmasked self (with_plx c p)) <$> cands in
              if fle p (flit 0) then <[0 := fneg finf]> scores
              else scores))).
Proof.
  intros Hwf Hne.
  change (compute_lnprob self (rows_shared cands p) negative)
    with (py_map RetArray
            (lnprob_body self (c_pm_ra <$> cands) (c_pm_dec <$> cands)
               (c_alpha_H0 <$> cands) (c_delta_H0 <$> cands) [p] None
               negative)).
  unfold lnprob_body.
  erewrite py_mapM_ext;
    [| apply Forall_forall; intros i _; apply epoch_dist_shared;
       by rewrite !length_fmap].
  rewrite !length_fmap.
  pose proof (rows_with_plx cands p) as [= Hra Hdec HaH HdH Hplx].
  rewrite <- Hra, <- Hdec, <- HaH, <- HdH, <- Hplx.
  rewrite <- (length_fmap (fun c => with_plx c p) cands).
  rewrite <- py_bind_assoc, chi2_loop_5; [| done | by destruct cands].
  cbn [py_bind]. rewrite apply_prior_shared by (by destruct cands).
  cbn [py_map py_bind]. unfold np_lscalar, unmasked.
  by rewrite <- !list_fmap_compose.
Qed.

End SharedParallax.
