(* ===== verification/Order.v ===== *)
(** * Order: the order of the scans

    The method sums over the scans, and NumPy chooses the order of the
    additions (pairwise above eight terms), which the model does not
    follow: its sum is a left fold.  In exact arithmetic the order is
    immaterial.  [ksum] and [kchi2] respect the permutations of their
    list ([Proper] instances for [≡ₚ]), and so does the program: on
    finite data the constructor followed by the method gives the same
    scores for the scans in any order.  On binary64 the order shows in
    the last bits ([Fixtures.scan_order_binary64]). *)

From Stdlib Require Import QArith.
From S2P Require Import Prelude Scalar NumPy Exact Sorting.
From S2P Require Import Reconstructor Evaluator Reference Ideal.

Section ScanOrder.
Context {K : Type} `{OrderedField K} `{!KTrig K}.
Add Field Kfield_order : K_field.
Local Open Scope K_scope.
Implicit Types (cat : Catalog K) (l : list (Scan K)).

#[export] Instance ksum_perm : Proper ((≡ₚ) ==> (=)) (ksum (K := K)).
Proof.
  induction 1 as [|x l l' _ IH|x y l|l l' l'' _ IH1 _ IH2]; simpl.
  - done.
  - by rewrite IH.
  - ring.
  - by rewrite IH1.
Qed.

#[export] Instance kchi2_perm :
  Proper ((≡ₚ) ==> (=) ==> (=)) (kchi2 (K := K)).
Proof. intros l l' Hl pos ? <-. unfold kchi2. by rewrite Hl. Qed.

#[export] Instance kreconstructed_perm cat :
  Proper ((≡ₚ) ==> (≡ₚ)) (kreconstructed cat).
Proof. intros l l' Hl. unfold kreconstructed. by rewrite Hl. Qed.

Lemma kreconstructed_eps cat l :
  Forall (fun s => s_eps s <> 0) l ->
  Forall (fun s => s_eps s <> 0) (kreconstructed cat l).
Proof. intros Hl. unfold kreconstructed. by apply Forall_fmap. Qed.

(** The method on finite scans in two orders. *)
Lemma compute_lnprob_perm `{OrbitModel (ext K)} hip cat l l'
    (cands : list (Astrometry K)) negative :
  l ≡ₚ l' -> Forall (fun s => s_eps s <> 0) l -> cands <> [] ->
  compute_lnprob (ideal_object hip cat l)
    (rows_5 (fin_astrometry <$> cands)) negative
  = compute_lnprob (ideal_object hip cat l')
      (rows_5 (fin_astrometry <$> cands)) negative.
Proof.
  intros Hl Heps Hne.
  rewrite !compute_lnprob_ideal_flag by (by rewrite <- ?Hl).
  do 3 f_equal. apply list_fmap_ext. intros _ c _. by rewrite Hl.
Qed.

(** The same with a companion. *)
Lemma compute_lnprob_perm_13 `{OrbitPointwise (ext K)} hip cat l l'
    (cands : list (Astrometry K * Orbit K))
    (koff : Scan K -> Astrometry K * Orbit K -> K * K) negative :
  l ≡ₚ l' -> Forall (fun s => s_eps s <> 0) l -> cands <> [] ->
  Forall (fun co => o_mtot co.2 <> 0) cands ->
  (forall s co, s ∈ l -> co ∈ cands ->
     orbit1 (Fin (s_mjd s)) (Fin (o_sma co.2)) (Fin (o_ecc co.2))
       (Fin (o_inc co.2)) (Fin (o_aop co.2)) (Fin (o_pan co.2))
       (Fin (o_tau co.2)) (Fin (c_plx co.1)) (Fin (o_mtot co.2))
     = (Fin (koff s co).1, Fin (koff s co).2)) ->
  compute_lnprob (ideal_object hip cat l)
    (rows_13 ((fun co => (fin_astrometry co.1, fin_orbit co.2)) <$> cands))
    negative
  = compute_lnprob (ideal_object hip cat l')
      (rows_13 ((fun co => (fin_astrometry co.1, fin_orbit co.2)) <$> cands))
      negative.
Proof.
  intros Hl Heps Hne Hmtot Hoff.
  rewrite !(compute_lnprob_ideal_flag_13 _ _ _ _ koff);
    [| by rewrite <- ?Hl | done | done
     | intros s co Hs; apply Hoff; by rewrite ?Hl
     | done..].
  do 3 f_equal. apply list_fmap_ext. intros _ co _. by rewrite Hl.
Qed.

(** The scores of a batch against finite scans: the reconstruction,
    then the method. *)
Definition scores_of_scans `{OrbitModel (ext K)} (hip : string) cat l
    (cands : list (Astrometry K)) (negative : bool) : py (retval (ext K)) :=
  self <- reconstruct (ideal_object hip cat l) ;;
  compute_lnprob self (rows_5 (fin_astrometry <$> cands)) negative.

(** C20: the order of the scans does not matter in exact arithmetic.
    On finite scans with non-zero uncertainties, given in two orders,
    the constructor's reconstruction followed by the method returns
    the same array of scores for every non-empty batch of
    five-parameter candidates. *)
Theorem compute_lnprob_scan_order `{OrbitModel (ext K)} hip cat l l'
    (cands : list (Astrometry K)) negative :
  l ≡ₚ l' -> Forall (fun s => s_eps s <> 0) l -> cands <> [] ->
  scores_of_scans hip cat l cands negative
  = scores_of_scans hip cat l' cands negative.
Proof.
  intros Hl Heps Hne. unfold scores_of_scans.
  rewrite !reconstruct_ideal. cbn [py_bind].
  apply compute_lnprob_perm; [by rewrite Hl | | done].
  by apply kreconstructed_eps.
Qed.

End ScanOrder.
