(* ===== verification/Projection.v ===== *)
(** * Projection: what the scans see of a candidate

    A scan measures the position of the star along one direction.  The
    residual of a scan is the difference of two projections on that
    direction, of the abscissa point and of the predicted position
    ([kresidual_along]), so two candidates whose predicted positions
    project alike on every scan, and which the prior treats alike, are
    scored alike: [same_view] is an equivalence on candidates that the
    method respects.  A consequence is that scans which all run along
    declination say nothing of the motion in right ascension. *)

From Stdlib Require Import QArith.
From S2P Require Import Prelude Scalar NumPy Exact Sorting.
From S2P Require Import Reconstructor Evaluator Reference Ideal.

Section View.
Context {K : Type} `{OrderedField K} `{!KTrig K}.
Add Field Kfield_projection : K_field.
Local Open Scope K_scope.
Implicit Types (cat : Catalog K) (l : list (Scan K)) (s : Scan K)
  (c : Astrometry K) (pos : K * K).

(** The coordinate of a position along the direction of a scan. *)
Definition along s pos : K := pos.1 * s_cos_phi s + pos.2 * s_sin_phi s.

(** Two candidates that the scans of [l] and the prior cannot tell
    apart. *)
Definition same_view cat l c c' : Prop :=
  (c_plx c <=? 0) = (c_plx c' <=? 0) /\
  Forall (fun s => along s (kposition cat s c) = along s (kposition cat s c'))
    l.

Lemma kresidual_along s pos :
  kresidual s pos = along s (s_alpha_abs_st s, s_delta_abs s) - along s pos.
Proof. unfold kresidual, along. simpl. ring. Qed.

#[export] Instance same_view_equiv cat l : Equivalence (same_view cat l).
Proof.
  split.
  - intros c. split; [done |]. by apply Forall_forall.
  - intros c c' [Hp Hl]. split; [done |].
    eapply Forall_impl; [exact Hl |]. by intros s ->.
  - intros c c' c'' [Hp Hl] [Hp' Hl']. split; [congruence |].
    rewrite Forall_forall in *. intros s Hs.
    by rewrite (Hl s Hs), (Hl' s Hs).
Qed.

Lemma kchi2_same_view cat l c c' :
  same_view cat l c c' ->
  kchi2 l (fun s => kposition cat s c) = kchi2 l (fun s => kposition cat s c').
Proof.
  intros [_ Hl]. unfold kchi2. f_equal.
  apply Forall_fmap_ext_1. eapply Forall_impl; [exact Hl |].
  intros s Hs. simpl. by rewrite !kresidual_along, Hs.
Qed.

Lemma klnprob_same_view cat l c c' :
  same_view cat l c c' ->
  klnprob (c_plx c) (kchi2 l (fun s => kposition cat s c))
  = klnprob (c_plx c') (kchi2 l (fun s => kposition cat s c')).
Proof.
  intros Hv. unfold klnprob.
  by rewrite (kchi2_same_view _ _ _ _ Hv), (proj1 Hv).
Qed.

(** The abscissa points play no part in the predicted positions, so
    the reconstruction changes nothing of what the scans tell apart. *)
Lemma same_view_reconstructed cat l c c' :
  same_view cat (kreconstructed cat l) c c' <-> same_view cat l c c'.
Proof.
  unfold same_view, kreconstructed. by rewrite Forall_fmap.
Qed.

(** C21: the method sees a candidate through its projections.  In
    exact arithmetic, on finite scans with non-zero uncertainties, two
    batches of five-parameter candidates whose entries the scans and
    the prior cannot tell apart get the same array of scores. *)
Theorem compute_lnprob_same_view `{OrbitModel (ext K)} hip cat l
    (cands cands' : list (Astrometry K)) negative :
  Forall (fun s => s_eps s <> 0) l -> cands <> [] ->
  Forall2 (same_view cat l) cands cands' ->
  compute_lnprob (ideal_object hip cat l)
    (rows_5 (fin_astrometry <$> cands)) negative
  = compute_lnprob (ideal_object hip cat l)
      (rows_5 (fin_astrometry <$> cands')) negative.
Proof.
  intros Heps Hne Hv.
  assert (Hne' : cands' <> []) by (by destruct Hv).
  rewrite !compute_lnprob_ideal_flag by done.
  do 3 f_equal. clear Hne Hne'. induction Hv as [|c c' ? ? Hc _ IH]; [done |].
  rewrite !fmap_cons, IH. f_equal. by apply klnprob_same_view.
Qed.

(** Scans that all run along declination do not see the right
    ascension: candidates that differ in the offset and the proper
    motion in right ascension only are told apart by no scan. *)
Lemma same_view_across cat l c pm_ra alpha_H0 :
  Forall (fun s => s_cos_phi s = 0) l ->
  same_view cat l c
    {| c_pm_ra := pm_ra; c_pm_dec := c_pm_dec c; c_alpha_H0 := alpha_H0;
       c_delta_H0 := c_delta_H0 c; c_plx := c_plx c |}.
Proof.
  intros Hl. split; [done |]. eapply Forall_impl; [exact Hl |].
  intros s Hs. unfold along, kposition. simpl. rewrite Hs. ring.
Qed.

End View.
