(* ===== verification/Accuracy.v ===== *)
(** * Accuracy: the rounding error of the method

    The program computes in a rounded arithmetic what its formulas say
    of real numbers.  This file bounds the distance between the two,
    stage by stage and end to end: the abscissa point the constructor
    stores (lines 75-92), the expected position of a candidate (lines
    165-173, Eq 8), its distance from the scan line (line 192, Eq 6),
    the chi-square (line 198, Eq 7) and the score (line 199).

    The arithmetic is an interface, [RoundingModel]: a value map [to_R]
    into the reals, a unit roundoff [fl_u] and an underflow threshold
    [fl_eta], and for each operation the standard model of a rounded
    operation, stated for a result that [np.isfinite] accepts
    ([Zeros.is_finite]): the operands were finite and the result is off
    by at most [fl_u] times the exact result, plus [fl_eta] for a
    product or a quotient.  The bounds are proved against the
    interface, with the accumulated factor [g n = (1 + fl_u) ^ n - 1];
    [Roundoff] discharges it for binary64 and for the exact reals.

    The chi-square is a sum of squares, so its bound is relative to
    itself, whatever the order of the additions ([sums_to]).  The
    position and the distance are sums of terms of either sign, so
    their bounds are relative to the sizes of the terms. *)

Set Warnings "-hiding-delimiting-key".
From Stdlib Require Import Reals Lra Lia QArith.
From S2P Require Import Prelude RealLemmas Scalar NumPy Sorting.
From S2P Require Import Reconstructor Evaluator Reference Zeros.

Local Open Scope R_scope.

(** ** The interface *)

Class RoundingModel (F : Type) `{Scalar F} : Type := {
  to_R : F -> R;
  fl_u : R;
  fl_eta : R;
  fl_u_nonneg : 0 <= fl_u;
  fl_eta_nonneg : 0 <= fl_eta;
  to_R_zero : to_R (flit 0%Q) = 0;
  to_R_half : to_R (flit (-0.5)%Q) = - (1 / 2);
  to_R_epoch : to_R (flit 1991.25%Q) = 1991.25;
  fadd_model x y :
    is_finite (fadd x y) = true ->
    is_finite x = true /\ is_finite y = true /\
    Rabs (to_R (fadd x y) - (to_R x + to_R y))
    <= fl_u * Rabs (to_R x + to_R y);
  fsub_model x y :
    is_finite (fsub x y) = true ->
    is_finite x = true /\ is_finite y = true /\
    Rabs (to_R (fsub x y) - (to_R x - to_R y))
    <= fl_u * Rabs (to_R x - to_R y);
  fmul_model x y :
    is_finite (fmul x y) = true ->
    is_finite x = true /\ is_finite y = true /\
    Rabs (to_R (fmul x y) - to_R x * to_R y)
    <= fl_u * Rabs (to_R x * to_R y) + fl_eta;
  fdiv_model x y :
    is_finite (fdiv x y) = true ->
    is_finite y = true -> is_zero y = false ->
    is_finite x = true /\ to_R y <> 0 /\
    Rabs (to_R (fdiv x y) - to_R x / to_R y)
    <= fl_u * Rabs (to_R x / to_R y) + fl_eta;
  fabs_model x :
    is_finite (fabs x) = true ->
    is_finite x = true /\ to_R (fabs x) = Rabs (to_R x)
}.

(** ** The accumulated error factor *)

Section Bounds.
Context {F : Type} `{RoundingModel F}.
Implicit Types (x y : F) (a b : list F).

(** [n] roundings in a row: [(1 + u) ^ n - 1]. *)
Definition g (n : nat) : R := (1 + fl_u) ^ n - 1.

Lemma one_u_pos : 1 <= 1 + fl_u.
Proof. pose proof fl_u_nonneg. lra. Qed.

Lemma pow_u_ge_1 n : 1 <= (1 + fl_u) ^ n.
Proof. apply pow_R1_Rle, one_u_pos. Qed.

Lemma g_0 : g 0 = 0.
Proof. unfold g. simpl. lra. Qed.

Lemma g_S n : g (S n) = (1 + fl_u) * g n + fl_u.
Proof. unfold g. simpl. lra. Qed.

Lemma g_nonneg n : 0 <= g n.
Proof. unfold g. pose proof (pow_u_ge_1 n). lra. Qed.

Lemma g_mono n m : (n <= m)%nat -> g n <= g m.
Proof.
  intros Hnm. unfold g.
  pose proof (Rle_pow (1 + fl_u) n m one_u_pos Hnm). lra.
Qed.

(** Errors compose: [n] roundings after [m]. *)
Lemma g_add n m : g (n + m) = g n + (1 + fl_u) ^ n * g m.
Proof. unfold g. rewrite pow_add. lra. Qed.

(** As long as [n * u] is at most one, the factor is linear in [n] up
    to a term of second order. *)
Lemma pow_u_quadratic n :
  INR n * fl_u <= 1 ->
  (1 + fl_u) ^ n <= 1 + INR n * fl_u + (INR n * fl_u) * (INR n * fl_u).
Proof.
  pose proof fl_u_nonneg as Hu.
  induction n as [|n IH]; [simpl; lra |].
  rewrite S_INR. intros Hn. pose proof (pos_INR n) as Hn0.
  replace ((INR n + 1) * fl_u) with (INR n * fl_u + fl_u) in * by ring.
  assert (0 <= INR n * fl_u) as Ha0 by (by apply Rmult_le_pos).
  set (a := INR n * fl_u) in *. specialize (IH ltac:(lra)). cbn [pow].
  assert (0 <= 1 + fl_u) as Hu1 by lra.
  pose proof (Rmult_le_compat_l _ _ _ Hu1 IH) as Hs.
  etrans; [exact Hs |].
  assert (a * a <= a) by nra.
  assert (0 <= fl_u * (a + fl_u - a * a)) by (apply Rmult_le_pos; lra).
  lra.
Qed.

Lemma g_linear n :
  INR n * fl_u <= 1 -> g n <= INR n * fl_u * (1 + INR n * fl_u).
Proof. intros Hn%pow_u_quadratic. unfold g. lra. Qed.

(** ** Any order of summation *)

(** [sums_to a s]: [s] is what the terms [a], taken in their order,
    add up to under some bracketing of the additions. *)
Inductive sums_to : list F -> F -> Prop :=
  | sums_one x : sums_to [x] x
  | sums_app a b x y :
      sums_to a x -> sums_to b y -> sums_to (a ++ b) (fadd x y).

Lemma sums_to_length a s : sums_to a s -> (1 <= length a)%nat.
Proof. induction 1; rewrite ?length_app; simpl; lia. Qed.

(** The accumulation of [np_sum] is the bracketing to the left. *)
Lemma foldl_sums_to a b x :
  sums_to a x -> sums_to (a ++ b) (foldl fadd x b).
Proof.
  revert a x. induction b as [|y b IH]; intros a x Hx; simpl.
  - by rewrite app_nil_r.
  - rewrite cons_middle, app_assoc. apply IH, sums_app; [done | constructor].
Qed.

Lemma np_sum_sums_to x a : sums_to (x :: a) (np_sum (x :: a)).
Proof. apply (foldl_sums_to [x] a), sums_one. Qed.

(** The value of a list and the sum of its magnitudes. *)
Definition valR a : R := sumR (to_R <$> a).
Definition magR a : R := sumR ((fun x => Rabs (to_R x)) <$> a).

Lemma valR_magR a : Rabs (valR a) <= magR a.
Proof.
  unfold valR, magR. pose proof (sumR_Rabs (to_R <$> a)) as Hs.
  by rewrite <- list_fmap_compose in Hs.
Qed.

Lemma sums_to_error a s :
  sums_to a s -> is_finite s = true ->
  Forall (fun x => is_finite x = true) a /\
  Rabs (to_R s - valR a) <= g (length a - 1) * magR a.
Proof.
  unfold valR, magR.
  induction 1 as [x|a b x y Ha IHa Hb IHb]; intros Hfin.
  - split; [by constructor |]. change (g _) with (g 0). sumR_simpl.
    rewrite g_0.
    replace (to_R x - (to_R x + 0)) with 0 by lra. rewrite Rabs_R0. lra.
  - destruct (fadd_model x y Hfin) as (Hx & Hy & Hadd).
    destruct (IHa Hx) as [Fa Ea], (IHb Hy) as [Fb Eb].
    split; [by apply Forall_app |].
    apply sums_to_length in Ha, Hb.
    pose proof (valR_magR a) as Ma. pose proof (valR_magR b) as Mb.
    unfold valR, magR in Ma, Mb.
    pose proof (Rabs_pos (sumR (to_R <$> a))).
    pose proof (Rabs_pos (sumR (to_R <$> b))).
    rewrite !fmap_app, !sumR_app, length_app.
    replace (length a + length b - 1)%nat
      with (S (length a + length b - 2)) by lia.
    rewrite g_S.
    pose proof (g_nonneg (length a + length b - 2)) as HG.
    apply (add_error_step _ _ _ (to_R x) (to_R y));
      auto using fl_u_nonneg.
    + etrans; [exact Ea |]. apply Rmult_le_compat_r; [lra |].
      apply g_mono. lia.
    + etrans; [exact Eb |]. apply Rmult_le_compat_r; [lra |].
      apply g_mono. lia.
Qed.

(** ** One term of the reduction *)

(** The bound of a squared quotient [x * x]. *)
Definition term_bound (x : R) : R :=
  g 3 * (x * x)
  + fl_eta * (2 * (1 + fl_u) ^ 2 * Rabs x + (1 + fl_u) * fl_eta + 1).

Lemma term_error d e :
  is_finite (fsquare (fdiv d e)) = true ->
  is_finite e = true -> is_zero e = false ->
  is_finite d = true /\ to_R e <> 0 /\
  Rabs (to_R (fsquare (fdiv d e)) - (to_R d / to_R e) * (to_R d / to_R e))
  <= term_bound (to_R d / to_R e).
Proof.
  intros Ht He Hz. unfold fsquare in *.
  destruct (fmul_model _ _ Ht) as (Hq & _ & Hmul).
  destruct (fdiv_model _ _ Hq He Hz) as (Hd & He0 & Hdiv).
  split; [done |]. split; [done |].
  apply (square_error _ _ (to_R (fdiv d e)));
    auto using fl_u_nonneg, fl_eta_nonneg.
Qed.

(** ** The reduction *)

(** What the reduction stands for: the quotients of the distances by
    their uncertainties, and the bound of the sum of their squares. *)
Definition quotients (col eps : list F) : list R :=
  zip_with (fun d e => to_R d / to_R e) col eps.

Definition chi2_bound (xs : list R) : R :=
  g (length xs + 2) * sumR (Rsqr <$> xs)
  + fl_eta * (1 + fl_u) ^ (length xs - 1)
    * (2 * (1 + fl_u) ^ 2 * sumR (Rabs <$> xs)
       + INR (length xs) * ((1 + fl_u) * fl_eta + 1)).

Lemma sumR_term_bound {A} (x : A -> R) (l : list A) :
  sumR ((fun p => term_bound (x p)) <$> l)
  = g 3 * sumR ((fun p => Rsqr (x p)) <$> l)
    + fl_eta * (2 * (1 + fl_u) ^ 2 * sumR ((fun p => Rabs (x p)) <$> l)
                + INR (length l) * ((1 + fl_u) * fl_eta + 1)).
Proof.
  induction l as [|p l IH]; sumR_simpl; [simpl; lra |].
  rewrite IH. unfold term_bound, Rsqr. lra.
Qed.

(** The terms [ts] of one candidate and a sum [s] of them that is
    accurate to the factor [g (length ts - 1)]. *)
Lemma squares_error (ps : list (F * F)) s :
  let ts := (fun p => fsquare (fdiv p.1 p.2)) <$> ps in
  Forall (fun x => is_finite x = true) ts ->
  Rabs (to_R s - valR ts) <= g (length ts - 1) * magR ts ->
  Forall (fun p => is_finite p.2 = true /\ is_zero p.2 = false) ps ->
  Forall (fun p => is_finite p.1 = true) ps /\
  Rabs (to_R s - sumR (Rsqr <$> ((fun p => to_R p.1 / to_R p.2) <$> ps)))
  <= chi2_bound ((fun p => to_R p.1 / to_R p.2) <$> ps).
Proof.
  intros ts Ht Herr Hps. subst ts.
  assert (Forall (fun p =>
            is_finite p.1 = true /\
            0 <= Rsqr (to_R p.1 / to_R p.2) /\
            Rabs (to_R (fsquare (fdiv p.1 p.2)) - Rsqr (to_R p.1 / to_R p.2))
            <= term_bound (to_R p.1 / to_R p.2)) ps) as Hterms.
  { apply Forall_fmap in Ht. apply Forall_forall. intros p Hp.
    rewrite Forall_forall in Ht, Hps. destruct (Hps p Hp) as [He Hz].
    destruct (term_error p.1 p.2 (Ht p Hp) He Hz) as (Hd & _ & Hb).
    split; [done |]. split; [apply Rle_0_sqr | exact Hb]. }
  split; [eapply Forall_impl; [exact Hterms |]; by intros ? [] |].
  unfold valR, magR in Herr. rewrite <- !list_fmap_compose in Herr.
  rewrite length_fmap in Herr.
  pose proof (sum_error_compose ps _ (fun p => Rsqr (to_R p.1 / to_R p.2))
                (fun p => term_bound (to_R p.1 / to_R p.2)) _ _
                (g_nonneg _) Herr) as Hsum.
  rewrite <- !list_fmap_compose.
  etrans; [apply Hsum; eapply Forall_impl; [exact Hterms |]; by intros ? [] |].
  unfold chi2_bound.
  rewrite sumR_term_bound, !length_fmap, <- !list_fmap_compose.
  unfold compose. destruct ps as [|p ps]; [sumR_simpl; simpl; lra |].
  replace (length (p :: ps) + 2)%nat
    with ((length (p :: ps) - 1) + 3)%nat by (simpl; lia).
  rewrite g_add.
  change (g (length (p :: ps) - 1))
    with ((1 + fl_u) ^ (length (p :: ps) - 1) - 1).
  right. ring.
Qed.

(** The terms of one candidate, added up in any order. *)
Lemma sum_squares_error (ps : list (F * F)) s :
  sums_to ((fun p => fsquare (fdiv p.1 p.2)) <$> ps) s ->
  is_finite s = true ->
  Forall (fun p => is_finite p.2 = true /\ is_zero p.2 = false) ps ->
  Forall (fun p => is_finite p.1 = true) ps /\
  Rabs (to_R s - sumR (Rsqr <$> ((fun p => to_R p.1 / to_R p.2) <$> ps)))
  <= chi2_bound ((fun p => to_R p.1 / to_R p.2) <$> ps).
Proof.
  intros Hs Hfin. destruct (sums_to_error _ _ Hs Hfin) as [Ht Herr].
  by apply squares_error.
Qed.

(** The uncertainties the division is meant for: finite and not
    zero. *)
Definition usable (eps : list F) : Prop :=
  Forall (fun e => is_finite e = true /\ is_zero e = false) eps.

(** The terms of candidate [j], for a matrix with one row per
    uncertainty. *)
Lemma chi2_terms_inv self n (dist : list (list F)) j t :
  chi2_terms self n dist j = Ok t ->
  length dist = length (self_eps self) ->
  exists col,
    np_column n dist j = Ok col /\ length col = length dist /\
    t = (fun p => fsquare (fdiv p.1 p.2)) <$> zip col (self_eps self).
Proof.
  unfold chi2_terms. intros Ht Hl.
  destruct (np_column n dist j) as [col|] eqn:Ecol; [| done]. simpl in Ht.
  destruct (np_div col _) as [q|] eqn:Eq; [| done]. injection Ht as <-.
  exists col. split; [done |].
  assert (length col = length dist) as Hc.
  { unfold np_column in Ecol. case_decide; [| done].
    by apply py_mapM_length in Ecol. }
  split; [done |].
  unfold np_div in Eq. rewrite np_binop_same in Eq by congruence.
  injection Eq as <-. unfold np_square.
  rewrite zip_with_zip, <- list_fmap_compose.
  apply list_fmap_ext. by intros ? [??] _.
Qed.

Lemma chi2_of_lookup self n (dist : list (list F)) chi2 j c :
  chi2_of self n dist = Ok chi2 -> chi2 !! j = Some c ->
  exists t, chi2_terms self n dist j = Ok t /\ c = np_sum t.
Proof.
  unfold chi2_of. intros Hc Hj.
  destruct (py_mapM _ _) as [terms|] eqn:E; [| done]. simpl in Hc.
  apply np_sum_axis1_inv in Hc as ->.
  apply list_lookup_fmap_Some in Hj as (t & -> & Ht).
  destruct (py_mapM_lookup_r _ _ _ _ _ E Ht) as (i & Hi & Hterm).
  apply lookup_seq in Hi as [-> _]. by exists t.
Qed.

(** The sum of an array, whichever way it is not empty. *)
Lemma np_sum_error a :
  is_finite (np_sum a) = true ->
  Forall (fun x => is_finite x = true) a /\
  Rabs (to_R (np_sum a) - valR a) <= g (length a - 1) * magR a.
Proof.
  destruct a as [|x a]; [| apply sums_to_error, np_sum_sums_to].
  intros _. split; [done |]. unfold valR, magR. simpl np_sum.
  rewrite to_R_zero. sumR_simpl. rewrite Rminus_diag, Rabs_R0. lra.
Qed.

Lemma quotients_zip col eps :
  quotients col eps = (fun p => to_R p.1 / to_R p.2) <$> zip col eps.
Proof.
  unfold quotients. rewrite zip_with_zip.
  apply list_fmap_ext. by intros ? [??] _.
Qed.

(** The pairs of a column and the uncertainties, when the
    uncertainties are usable. *)
Lemma usable_zip (col eps : list F) :
  length col = length eps -> usable eps ->
  Forall (fun p => is_finite p.2 = true /\ is_zero p.2 = false) (zip col eps).
Proof.
  intros Hl Heps. rewrite <- (snd_zip col eps) in Heps by lia.
  by apply Forall_fmap in Heps.
Qed.

Lemma finite_zip (col eps : list F) :
  length col = length eps ->
  Forall (fun p : F * F => is_finite p.1 = true) (zip col eps) ->
  Forall (fun d => is_finite d = true) col.
Proof.
  intros Hl Hd. rewrite <- (fst_zip col eps) by lia. by apply Forall_fmap.
Qed.

(** C23: the order of the additions does not matter to the bound.
    Whatever the bracketing in which the terms [chi2_terms] computes for
    a candidate are added up, [np.sum]'s pairwise order included, a
    finite sum is the real sum of the squared quotients up to
    [chi2_bound], and the distances were all finite. *)
Theorem chi2_terms_any_order self n (dist : list (list F)) j t s :
  chi2_terms self n dist j = Ok t ->
  length dist = length (self_eps self) ->
  usable (self_eps self) ->
  sums_to t s -> is_finite s = true ->
  exists col,
    np_column n dist j = Ok col /\
    Forall (fun d => is_finite d = true) col /\
    Rabs (to_R s - sumR (Rsqr <$> quotients col (self_eps self)))
    <= chi2_bound (quotients col (self_eps self)).
Proof.
  intros Ht Hl Heps Hs Hfin.
  destruct (chi2_terms_inv _ _ _ _ _ Ht Hl) as (col & Hcol & Hlen & ->).
  exists col. split; [done |]. rewrite quotients_zip.
  destruct (sum_squares_error _ _ Hs Hfin) as [Hd Hb];
    [apply usable_zip; [lia | done] |].
  split; [apply (finite_zip col (self_eps self)); [lia | done] | done].
Qed.

(** The chi-square of candidate [j] as the method computes it, against
    the sum of the squared quotients of the distances of column [j] by
    the uncertainties. *)
Theorem chi2_of_error self n (dist : list (list F)) chi2 j c :
  chi2_of self n dist = Ok chi2 ->
  length dist = length (self_eps self) ->
  usable (self_eps self) ->
  chi2 !! j = Some c -> is_finite c = true ->
  exists col,
    np_column n dist j = Ok col /\
    Forall (fun d => is_finite d = true) col /\
    Rabs (to_R c - sumR (Rsqr <$> quotients col (self_eps self)))
    <= chi2_bound (quotients col (self_eps self)).
Proof.
  intros Hc Hl Heps Hj Hfin.
  destruct (chi2_of_lookup _ _ _ _ _ _ Hc Hj) as (t & Ht & ->).
  destruct (chi2_terms_inv _ _ _ _ _ Ht Hl) as (col & Hcol & Hlen & ->).
  exists col. split; [done |]. rewrite quotients_zip.
  destruct (np_sum_error _ Hfin) as [Hts Herr].
  destruct (squares_error (zip col (self_eps self)) _ Hts Herr) as [Hd Hb];
    [apply usable_zip; [lia | done] |].
  split; [apply (finite_zip col (self_eps self)); [lia | done] | done].
Qed.

End Bounds.

(** ** The scalar evaluator *)

Section Score.
Context {F : Type} `{RoundingModel F}.
Implicit Types (self : HipparcosLogProb F) (sc : Scan F) (pos : F * F)
  (pf : Scan F -> F * F).

(** The distance from the scan line (Eq 6) in real numbers. *)
Definition distanceR sc pos : R :=
  Rabs ((to_R (s_alpha_abs_st sc) - to_R pos.1) * to_R (s_cos_phi sc)
        + (to_R (s_delta_abs sc) - to_R pos.2) * to_R (s_sin_phi sc)).

(** The size of its two terms, which is what its error is relative
    to: the terms may cancel. *)
Definition distance_mag sc pos : R :=
  Rabs ((to_R (s_alpha_abs_st sc) - to_R pos.1) * to_R (s_cos_phi sc))
  + Rabs ((to_R (s_delta_abs sc) - to_R pos.2) * to_R (s_sin_phi sc)).

(** A product after a difference. *)
Lemma diff_mul_error (a p c : F) :
  is_finite (fmul (fsub a p) c) = true ->
  is_finite a = true /\ is_finite p = true /\ is_finite c = true /\
  Rabs (to_R (fmul (fsub a p) c) - (to_R a - to_R p) * to_R c)
  <= g 2 * Rabs ((to_R a - to_R p) * to_R c) + fl_eta.
Proof.
  intros Hf. destruct (fmul_model _ _ Hf) as (Hd & Hc & Hmul).
  destruct (fsub_model _ _ Hd) as (Ha & Hp & Hsub).
  repeat (split; [done |]).
  pose proof fl_u_nonneg as Hu.
  set (d := to_R a - to_R p) in *. set (d' := to_R (fsub a p)) in *.
  pose proof (Rabs_near _ _ _ Hsub) as Hd'.
  pose proof (Rabs_pos (to_R c)) as Hc0. pose proof (Rabs_pos d) as Hd0.
  assert (Rabs (d' * to_R c - d * to_R c) <= fl_u * (Rabs d * Rabs (to_R c)))
    as H1.
  { replace (d' * to_R c - d * to_R c) with ((d' - d) * to_R c) by lra.
    rewrite Rabs_mult. pose proof (Rmult_le_compat_r _ _ _ Hc0 Hsub). lra. }
  assert (Rabs (d' * to_R c) <= (1 + fl_u) * (Rabs d * Rabs (to_R c))) as H2.
  { rewrite Rabs_mult. pose proof (Rmult_le_compat_r _ _ _ Hc0 Hd'). lra. }
  pose proof (Rmult_le_compat_l _ _ _ Hu H2) as H3.
  pose proof (Rabs_dist_triang (to_R (fmul (fsub a p) c))
                (d' * to_R c) (d * to_R c)) as H4.
  rewrite (Rabs_mult d). unfold g. simpl pow. lra.
Qed.

(** An offset plus a product plus a product after a difference: the
    shape of the expected position (lines 165-173). *)
Lemma affine_error (a p q t e m : F) :
  is_finite (fadd (fadd a (fmul p q)) (fmul (fsub t e) m)) = true ->
  Rabs (to_R (fadd (fadd a (fmul p q)) (fmul (fsub t e) m))
        - (to_R a + to_R p * to_R q + (to_R t - to_R e) * to_R m))
  <= g 3 * (Rabs (to_R a) + Rabs (to_R p * to_R q)
            + Rabs ((to_R t - to_R e) * to_R m))
     + (1 + fl_u) * (2 + fl_u) * fl_eta.
Proof.
  intros Hf. destruct (fadd_model _ _ Hf) as (Hs & Hm & Hadd).
  destruct (fadd_model _ _ Hs) as (_ & Hpq & Hadd1).
  destruct (fmul_model _ _ Hpq) as (_ & _ & Hmul).
  destruct (diff_mul_error _ _ _ Hm) as (_ & _ & _ & Hdm).
  pose proof fl_u_nonneg as Hu. pose proof fl_eta_nonneg as He.
  assert (Rabs (to_R a - to_R a) <= fl_u * Rabs (to_R a) + 0) as Ha.
  { rewrite Rminus_diag, Rabs_R0. pose proof (Rabs_pos (to_R a)). nra. }
  pose proof (add_mag_error _ _ _ _ _ _ _ _ _ _ _ Hu Hu Hadd1 Ha Hmul
                (Rle_refl _) (Rle_refl _)) as H1.
  assert (Rabs (to_R (fadd a (fmul p q)) - (to_R a + to_R p * to_R q))
          <= g 2 * (Rabs (to_R a) + Rabs (to_R p * to_R q))
             + (1 + fl_u) * fl_eta) as H1'
    by (unfold g; simpl pow; lra).
  assert (Rabs (to_R (fmul (fsub t e) m) - (to_R t - to_R e) * to_R m)
          <= g 2 * Rabs ((to_R t - to_R e) * to_R m) + fl_eta) as H2 by done.
  pose proof (add_mag_error _ _ _ _ _ _ _ _ _ _ _ Hu (g_nonneg 2) Hadd H1' H2
                (Rabs_triang _ _) (Rle_refl _)) as H3.
  rewrite (g_S 2). lra.
Qed.

(** The distance from the scan line (line 192, Eq 6).  When
    the distance computed for a scan and a position is finite, so were
    the two coordinates of the position, and the distance is the real
    one of the same operands up to [g 3] times the sizes of its two
    terms, which may cancel, and twice the underflow threshold. *)
Theorem distance_error sc pos :
  is_finite (distance sc pos) = true ->
  is_finite pos.1 = true /\ is_finite pos.2 = true /\
  Rabs (to_R (distance sc pos) - distanceR sc pos)
  <= g 3 * distance_mag sc pos + 2 * (1 + fl_u) * fl_eta.
Proof.
  unfold distance, distanceR, distance_mag. intros Hf.
  destruct (fabs_model _ Hf) as [Hs ->].
  destruct (fadd_model _ _ Hs) as (Ha & Hd & Hadd).
  destruct (diff_mul_error _ _ _ Ha) as (_ & Hp1 & _ & Ea).
  destruct (diff_mul_error _ _ _ Hd) as (_ & Hp2 & _ & Ed).
  repeat (split; [done |]).
  etrans; [apply Rabs_triang_inv2 |]. rewrite (g_S 2).
  apply (add_abs_error _ _ _ _ _ _ _ _ fl_u_nonneg (g_nonneg 2) Hadd Ea Ed).
Qed.

(** The real chi-square of the distances the method computed, and the
    quotients it is the sum of the squares of. *)
Definition quotientsR self (pf : Scan F -> F * F) : list R :=
  (fun sc => to_R (distance sc (pf sc)) / to_R (s_eps sc)) <$> scans self.

Definition usable_scans self : Prop :=
  Forall (fun sc => is_finite (s_eps sc) = true /\ is_zero (s_eps sc) = false)
    (scans self).

Lemma chi2_candidate_error self pf :
  is_finite (chi2_candidate self pf) = true -> usable_scans self ->
  Forall (fun sc => is_finite (distance sc (pf sc)) = true) (scans self) /\
  Rabs (to_R (chi2_candidate self pf) - sumR (Rsqr <$> quotientsR self pf))
  <= chi2_bound (quotientsR self pf).
Proof.
  unfold chi2_candidate, quotientsR, usable_scans. intros Hf Heps.
  set (pair := fun sc => (distance sc (pf sc), s_eps sc)).
  change (fun sc => fsquare (fdiv (distance sc (pf sc)) (s_eps sc)))
    with ((fun p => fsquare (fdiv p.1 p.2)) ∘ pair) in *.
  change (fun sc => to_R (distance sc (pf sc)) / to_R (s_eps sc))
    with ((fun p => to_R p.1 / to_R p.2) ∘ pair).
  rewrite !list_fmap_compose in *.
  destruct (np_sum_error _ Hf) as [Hts Herr].
  destruct (squares_error (pair <$> scans self) _ Hts Herr) as [Hd Hb];
    [by apply Forall_fmap |].
  split; [by apply Forall_fmap in Hd | done].
Qed.

(** The bound of the score: half of the chi-square's, and one more
    rounding. *)
Definition lnprob_bound (xs : list R) : R :=
  (fl_u * sumR (Rsqr <$> xs) + (1 + fl_u) * chi2_bound xs) / 2 + fl_eta.

Lemma sumR_sqr_nonneg (xs : list R) : 0 <= sumR (Rsqr <$> xs).
Proof. apply sumR_nonneg, Forall_fmap, Forall_forall. intros. apply Rle_0_sqr. Qed.

Lemma sumR_abs_nonneg (xs : list R) : 0 <= sumR (Rabs <$> xs).
Proof. apply sumR_nonneg, Forall_fmap, Forall_forall. intros. apply Rabs_pos. Qed.

Lemma chi2_bound_nonneg (xs : list R) : 0 <= chi2_bound xs.
Proof.
  unfold chi2_bound. pose proof (g_nonneg (length xs + 2)).
  pose proof (pow_u_ge_1 (length xs - 1)). pose proof (pow_u_ge_1 2).
  pose proof fl_u_nonneg. pose proof fl_eta_nonneg.
  pose proof (sumR_sqr_nonneg xs). pose proof (sumR_abs_nonneg xs).
  pose proof (pos_INR (length xs)).
  assert (0 <= (1 + fl_u) * fl_eta + 1) by nra.
  apply Rplus_le_le_0_compat; [by apply Rmult_le_pos |].
  repeat apply Rmult_le_pos; try lra.
  apply Rplus_le_le_0_compat; repeat apply Rmult_le_pos; lra.
Qed.

End Score.

(** ** The score *)

Section Lnprob.
Context {F : Type} `{RoundingModel F, Trig F}.
Implicit Types (self : HipparcosLogProb F) (sc : Scan F) (c : Astrometry F).

(** The last product, [-0.5 * chi2], for a candidate that passes the
    prior. *)
Lemma lnprob_of_error (plx chi2 : F) :
  fle plx (flit 0%Q) = false -> is_finite (lnprob_of plx chi2) = true ->
  is_finite chi2 = true /\
  Rabs (to_R (lnprob_of plx chi2) - - (1 / 2) * to_R chi2)
  <= fl_u * Rabs (- (1 / 2) * to_R chi2) + fl_eta.
Proof.
  unfold lnprob_of. intros -> Hf.
  destruct (fmul_model _ _ Hf) as (_ & Hc & Hmul).
  split; [done |]. by rewrite to_R_half in Hmul.
Qed.

(** Where the candidate is at each scan, with or without companion. *)
Definition position_of self c
    (companion : option (Orbit F * (Scan F -> F * F))) sc : F * F :=
  match companion with
  | None => position self sc c
  | Some (o, off) => perturbed o (off sc) (position self sc c)
  end.

(** The score of a candidate of positive parallax, as the scalar
    evaluator computes it, against minus half the real chi-square of
    the distances it computed. *)
Theorem lnprob_candidate_error self c companion :
  fle (c_plx c) (flit 0%Q) = false -> usable_scans self ->
  is_finite (lnprob_candidate self c companion) = true ->
  Rabs (to_R (lnprob_candidate self c companion)
        - - (1 / 2)
          * sumR (Rsqr <$> quotientsR self (position_of self c companion)))
  <= lnprob_bound (quotientsR self (position_of self c companion)).
Proof.
  intros Hplx Heps Hf. unfold lnprob_candidate in *.
  destruct (lnprob_of_error _ _ Hplx Hf) as [Hc Hl].
  destruct (chi2_candidate_error self (position_of self c companion) Hc Heps)
    as [_ Hchi].
  pose proof (scale_error _ _ _ _ _ _ _ fl_u_nonneg
                (sumR_sqr_nonneg _) Hl Hchi) as Hs.
  unfold lnprob_bound. replace (Rabs (- (1 / 2))) with (1 / 2) in Hs; [lra |].
  unfold Rabs. destruct (Rcase_abs _); lra.
Qed.

(** The expected position of a candidate at a scan in real numbers
    (Eq 8), and the size of its terms. *)
Definition positionR self sc c : R * R :=
  (to_R (c_alpha_H0 c) + to_R (c_plx c) * to_R (par_alpha self sc)
   + (to_R (s_epoch sc) - 1991.25) * to_R (c_pm_ra c),
   to_R (c_delta_H0 c) + to_R (c_plx c) * to_R (par_delta self sc)
   + (to_R (s_epoch sc) - 1991.25) * to_R (c_pm_dec c)).

Definition position_mag self sc c : R * R :=
  (Rabs (to_R (c_alpha_H0 c))
   + Rabs (to_R (c_plx c) * to_R (par_alpha self sc))
   + Rabs ((to_R (s_epoch sc) - 1991.25) * to_R (c_pm_ra c)),
   Rabs (to_R (c_delta_H0 c))
   + Rabs (to_R (c_plx c) * to_R (par_delta self sc))
   + Rabs ((to_R (s_epoch sc) - 1991.25) * to_R (c_pm_dec c))).

(** The expected position (lines 165-173, Eq 8).  When the two
    coordinates computed for a candidate at a scan are finite, each is
    the real value of Eq 8 on the same operands, with the reference
    epoch 1991.25 exact, up to [g 3] times the sizes of its three terms
    and a multiple of the underflow threshold. *)
Theorem position_error self sc c :
  is_finite (position self sc c).1 = true ->
  is_finite (position self sc c).2 = true ->
  Rabs (to_R (position self sc c).1 - (positionR self sc c).1)
  <= g 3 * (position_mag self sc c).1 + (1 + fl_u) * (2 + fl_u) * fl_eta /\
  Rabs (to_R (position self sc c).2 - (positionR self sc c).2)
  <= g 3 * (position_mag self sc c).2 + (1 + fl_u) * (2 + fl_u) * fl_eta.
Proof.
  unfold position, positionR, position_mag. simpl. intros Hf1 Hf2.
  rewrite <- to_R_epoch. split; by apply affine_error.
Qed.

(** A product plus the sum of a product and a product after a
    difference: the shape of the abscissa point (lines 75-92). *)
Lemma sum3_error (r k p q t e m : F) :
  is_finite (fadd (fmul r k) (fadd (fmul p q) (fmul (fsub t e) m))) = true ->
  Rabs (to_R (fadd (fmul r k) (fadd (fmul p q) (fmul (fsub t e) m)))
        - (to_R r * to_R k
           + (to_R p * to_R q + (to_R t - to_R e) * to_R m)))
  <= g 4 * (Rabs (to_R r * to_R k)
            + (Rabs (to_R p * to_R q) + Rabs ((to_R t - to_R e) * to_R m)))
     + (1 + fl_u) * (3 + 2 * fl_u) * fl_eta.
Proof.
  intros Hf. destruct (fadd_model _ _ Hf) as (Hrk & Hs & Hadd).
  destruct (fmul_model _ _ Hrk) as (_ & _ & Hm1).
  destruct (fadd_model _ _ Hs) as (Hpq & Htm & Hadd1).
  destruct (fmul_model _ _ Hpq) as (_ & _ & Hm2).
  destruct (diff_mul_error _ _ _ Htm) as (_ & _ & _ & Hm3).
  pose proof fl_u_nonneg as Hu. pose proof fl_eta_nonneg as He.
  pose proof (g_mono 1 2 ltac:(lia)) as H12.
  pose proof (g_mono 1 3 ltac:(lia)) as H13.
  assert (g 1 = fl_u) as Hg1 by (unfold g; simpl; lra).
  pose proof (Rabs_pos (to_R p * to_R q)) as Hpq0.
  pose proof (Rabs_pos (to_R r * to_R k)) as Hrk0.
  assert (Rabs (to_R (fmul p q) - to_R p * to_R q)
          <= g 2 * Rabs (to_R p * to_R q) + fl_eta) as Hm2' by nra.
  pose proof (add_mag_error _ _ _ _ _ _ _ _ _ _ _ Hu (g_nonneg 2) Hadd1
                Hm2' Hm3 (Rle_refl _) (Rle_refl _)) as Hin.
  rewrite <- (g_S 2) in Hin.
  assert (Rabs (to_R (fmul r k) - to_R r * to_R k)
          <= g 3 * Rabs (to_R r * to_R k) + fl_eta) as Hm1' by nra.
  pose proof (add_mag_error _ _ _ _ _ _ _ _ _ _ _ Hu (g_nonneg 3) Hadd
                Hm1' Hin (Rle_refl _) (Rabs_triang _ _)) as Hout.
  rewrite <- (g_S 3) in Hout. lra.
Qed.

(** The abscissa point in real numbers (lines 75-92), and the size of
    its terms. *)
Definition abscissaR self sc : R * R :=
  (to_R (s_R sc) * to_R (s_cos_phi sc)
   + (to_R (self_plx0 self) * to_R (par_alpha self sc)
      + (to_R (s_epoch sc) - 1991.25) * to_R (self_pm_ra0 self)),
   to_R (s_R sc) * to_R (s_sin_phi sc)
   + (to_R (self_plx0 self) * to_R (par_delta self sc)
      + (to_R (s_epoch sc) - 1991.25) * to_R (self_pm_dec0 self))).

Definition abscissa_mag self sc : R * R :=
  (Rabs (to_R (s_R sc) * to_R (s_cos_phi sc))
   + (Rabs (to_R (self_plx0 self) * to_R (par_alpha self sc))
      + Rabs ((to_R (s_epoch sc) - 1991.25) * to_R (self_pm_ra0 self))),
   Rabs (to_R (s_R sc) * to_R (s_sin_phi sc))
   + (Rabs (to_R (self_plx0 self) * to_R (par_delta self sc))
      + Rabs ((to_R (s_epoch sc) - 1991.25) * to_R (self_pm_dec0 self)))).

(** The abscissa point the constructor stores for a scan against its
    formula on the values of the same operands. *)
Theorem abscissa_error self sc :
  is_finite (abscissa self sc).1 = true ->
  is_finite (abscissa self sc).2 = true ->
  Rabs (to_R (abscissa self sc).1 - (abscissaR self sc).1)
  <= g 4 * (abscissa_mag self sc).1 + (1 + fl_u) * (3 + 2 * fl_u) * fl_eta /\
  Rabs (to_R (abscissa self sc).2 - (abscissaR self sc).2)
  <= g 4 * (abscissa_mag self sc).2 + (1 + fl_u) * (3 + 2 * fl_u) * fl_eta.
Proof.
  unfold abscissa, abscissaR, abscissa_mag. simpl. intros Hf1 Hf2.
  rewrite <- to_R_epoch. split; by apply sum3_error.
Qed.

(** *** Against the formulas on the real values of the inputs *)

(** Eq 6 at a real position, and the size of its two terms. *)
Definition residualR sc (p : R * R) : R :=
  Rabs ((to_R (s_alpha_abs_st sc) - p.1) * to_R (s_cos_phi sc)
        + (to_R (s_delta_abs sc) - p.2) * to_R (s_sin_phi sc)).

Definition residual_mag sc (p : R * R) : R :=
  Rabs ((to_R (s_alpha_abs_st sc) - p.1) * to_R (s_cos_phi sc))
  + Rabs ((to_R (s_delta_abs sc) - p.2) * to_R (s_sin_phi sc)).

(** The bound of the position, what it contributes to the distance
    along the scan direction, and the bound of the distance. *)
Definition position_bound self sc c : R * R :=
  (g 3 * (position_mag self sc c).1 + (1 + fl_u) * (2 + fl_u) * fl_eta,
   g 3 * (position_mag self sc c).2 + (1 + fl_u) * (2 + fl_u) * fl_eta).

Definition slack self sc c : R :=
  Rabs (to_R (s_cos_phi sc)) * (position_bound self sc c).1
  + Rabs (to_R (s_sin_phi sc)) * (position_bound self sc c).2.

Definition residual_bound self sc c : R :=
  g 3 * (residual_mag sc (positionR self sc c) + slack self sc c)
  + 2 * (1 + fl_u) * fl_eta + slack self sc c.

Lemma slack_covers self sc c (p : F * F) :
  Rabs (to_R p.1 - (positionR self sc c).1) <= (position_bound self sc c).1 ->
  Rabs (to_R p.2 - (positionR self sc c).2) <= (position_bound self sc c).2 ->
  Rabs (to_R (s_cos_phi sc)) * Rabs (to_R p.1 - (positionR self sc c).1)
  + Rabs (to_R (s_sin_phi sc)) * Rabs (to_R p.2 - (positionR self sc c).2)
  <= slack self sc c.
Proof.
  intros E1 E2. unfold slack.
  pose proof (Rmult_le_compat_l _ _ _ (Rabs_pos (to_R (s_cos_phi sc))) E1).
  pose proof (Rmult_le_compat_l _ _ _ (Rabs_pos (to_R (s_sin_phi sc))) E2).
  lra.
Qed.

(** The distance the method computes for a candidate at a scan against
    Eq 6 and Eq 8 on the real values of the inputs. *)
Lemma residual_error self sc c :
  is_finite (distance sc (position self sc c)) = true ->
  Rabs (to_R (distance sc (position self sc c))
        - residualR sc (positionR self sc c))
  <= residual_bound self sc c.
Proof.
  intros Hf. destruct (distance_error _ _ Hf) as (Hf1 & Hf2 & Hd).
  destruct (position_error self sc c Hf1 Hf2) as [E1 E2].
  pose proof (slack_covers self sc c (position self sc c) E1 E2) as Hs.
  pose proof (projection_lipschitz
                (to_R (s_alpha_abs_st sc)) (to_R (s_cos_phi sc))
                (to_R (s_delta_abs sc)) (to_R (s_sin_phi sc))
                (to_R (position self sc c).1) (to_R (position self sc c).2)
                (positionR self sc c).1 (positionR self sc c).2) as HL.
  pose proof (magnitude_lipschitz
                (to_R (s_alpha_abs_st sc)) (to_R (s_cos_phi sc))
                (to_R (position self sc c).1) (positionR self sc c).1) as M1.
  pose proof (magnitude_lipschitz
                (to_R (s_delta_abs sc)) (to_R (s_sin_phi sc))
                (to_R (position self sc c).2) (positionR self sc c).2) as M2.
  fold (distanceR sc (position self sc c)) in HL.
  fold (residualR sc (positionR self sc c)) in HL.
  assert (distance_mag sc (position self sc c)
          <= residual_mag sc (positionR self sc c) + slack self sc c) as Hm
    by (unfold distance_mag, residual_mag; lra).
  pose proof (Rmult_le_compat_l _ _ _ (g_nonneg 3) Hm) as Hg.
  pose proof (Rabs_dist_triang (to_R (distance sc (position self sc c)))
                (distanceR sc (position self sc c))
                (residualR sc (positionR self sc c))) as Ht.
  unfold residual_bound. lra.
Qed.

(** What the reduction was computed from: every distance was finite
    and every uncertainty stands for a real that is not zero. *)
Lemma chi2_candidate_terms self pf :
  is_finite (chi2_candidate self pf) = true -> usable_scans self ->
  Forall (fun sc => is_finite (distance sc (pf sc)) = true /\
                    to_R (s_eps sc) <> 0) (scans self).
Proof.
  unfold chi2_candidate, usable_scans. intros Hf Heps.
  destruct (np_sum_error _ Hf) as [Hts _]. apply Forall_fmap in Hts.
  apply Forall_forall. intros sc Hsc. rewrite Forall_forall in Hts, Heps.
  destruct (Heps sc Hsc) as [He Hz].
  by destruct (term_error _ _ (Hts sc Hsc) He Hz) as (? & ? & _).
Qed.

(** The quotients of Eq 7 on the real values of the inputs, and what
    the errors of the distances add to the sum of their squares. *)
Definition spec_quotients self c : list R :=
  (fun sc => residualR sc (positionR self sc c) / to_R (s_eps sc))
    <$> scans self.

Definition quotient_slack self c : R :=
  sumR ((fun sc =>
           (2 * Rabs (residualR sc (positionR self sc c) / to_R (s_eps sc))
            + residual_bound self sc c / Rabs (to_R (s_eps sc)))
           * (residual_bound self sc c / Rabs (to_R (s_eps sc))))
          <$> scans self).

Lemma quotients_spec_error self c :
  Forall (fun sc => is_finite (distance sc (position self sc c)) = true /\
                    to_R (s_eps sc) <> 0) (scans self) ->
  Rabs (sumR (Rsqr <$> quotientsR self (position_of self c None))
        - sumR (Rsqr <$> spec_quotients self c))
  <= quotient_slack self c.
Proof.
  intros Hsc. unfold quotientsR, spec_quotients, quotient_slack.
  rewrite <- !list_fmap_compose.
  etrans; [apply sumR_dist |]. apply sumR_le.
  eapply Forall_impl; [exact Hsc |]. intros sc [Hf He]. unfold compose.
  apply square_lipschitz, quotient_lipschitz; [done |].
  by apply residual_error.
Qed.

(** The score of a candidate without companion against minus half the
    chi-square of Eqs 6-8 on the real values of the inputs. *)
Lemma lnprob_candidate_spec_error self c :
  fle (c_plx c) (flit 0%Q) = false -> usable_scans self ->
  is_finite (lnprob_candidate self c None) = true ->
  Rabs (to_R (lnprob_candidate self c None)
        - - (1 / 2) * sumR (Rsqr <$> spec_quotients self c))
  <= lnprob_bound (quotientsR self (position_of self c None))
     + quotient_slack self c / 2.
Proof.
  intros Hplx Heps Hf.
  pose proof (lnprob_candidate_error self c None Hplx Heps Hf) as Hl.
  unfold lnprob_candidate in Hf.
  destruct (lnprob_of_error _ _ Hplx Hf) as [Hc _].
  pose proof (quotients_spec_error self c
                (chi2_candidate_terms self _ Hc Heps)) as Hq.
  apply Rabs_le_between in Hq. apply Rabs_le_between in Hl.
  apply Rabs_le_between. lra.
Qed.

(** C14: the score of a candidate against the formulas, in any rounded
    arithmetic.  For a well-formed object with usable uncertainties and
    a batch of five-parameter candidates, [compute_lnprob] returns an
    array, and its entry for a candidate of positive parallax, when it
    is finite, is minus half the chi-square of Eqs 6-8 evaluated in
    real numbers on the values of the inputs, up to [lnprob_bound] (the
    roundings of the reduction) and half of [quotient_slack] (the
    errors of the positions and the distances, squared with the
    quotients). *)
Theorem compute_lnprob_spec_error `{OrbitModel F} self
    (cands : list (Astrometry F)) j c :
  wf self -> usable_scans self ->
  cands !! j = Some c -> fle (c_plx c) (flit 0%Q) = false ->
  exists lnprob l,
    compute_lnprob self (rows_5 cands) false = Ok (RetArray lnprob) /\
    lnprob !! j = Some l /\
    (is_finite l = true ->
     Rabs (to_R l - - (1 / 2) * sumR (Rsqr <$> spec_quotients self c))
     <= lnprob_bound (quotientsR self (position_of self c None))
        + quotient_slack self c / 2).
Proof.
  intros Hwf Heps Hj Hplx.
  destruct (compute_lnprob_entry_5 self cands j c Hwf Hj) as (lnprob & ? & ?).
  exists lnprob, (lnprob_candidate self c None). split; [done |].
  split; [done |]. by apply lnprob_candidate_spec_error.
Qed.

(** The score of a candidate, in any rounded arithmetic.  For a
    well-formed object with usable uncertainties and a batch of
    five-parameter candidates, [compute_lnprob] returns an array, and
    its entry for a candidate of positive parallax, when it is finite,
    is minus half the real chi-square of the distances the method
    computed for that candidate, up to [lnprob_bound]: the factor
    [g (n + 2)] of the reduction, one more rounding for the product
    with [-0.5], and a multiple of the underflow threshold. *)
Theorem compute_lnprob_error `{OrbitModel F} self
    (cands : list (Astrometry F)) j c :
  wf self -> usable_scans self ->
  cands !! j = Some c -> fle (c_plx c) (flit 0%Q) = false ->
  exists lnprob l,
    compute_lnprob self (rows_5 cands) false = Ok (RetArray lnprob) /\
    lnprob !! j = Some l /\
    (is_finite l = true ->
     Rabs (to_R l
           - - (1 / 2)
             * sumR (Rsqr <$> quotientsR self (position_of self c None)))
     <= lnprob_bound (quotientsR self (position_of self c None))).
Proof.
  intros Hwf Heps Hj Hplx.
  destruct (compute_lnprob_entry_5 self cands j c Hwf Hj) as (lnprob & ? & ?).
  exists lnprob, (lnprob_candidate self c None). split; [done |].
  split; [done |]. by apply lnprob_candidate_error.
Qed.

(** C22: the score of a candidate with a companion, in any rounded
    arithmetic.  For a well-formed object with usable uncertainties, a
    batch of thirteen-parameter
    candidates and a Kepler solver that treats the orbits of a batch
    independently, the entry of a candidate of positive parallax, when
    it is finite, is minus half the real chi-square of the distances
    computed from the position displaced by the companion, up to
    [lnprob_bound]: the offsets of the solver enter as the floats it
    returned. *)
Theorem compute_lnprob_error_13 `{OrbitPointwise F} self
    (cands : list (Astrometry F * Orbit F)) j co :
  wf self -> usable_scans self ->
  cands !! j = Some co -> fle (c_plx co.1) (flit 0%Q) = false ->
  exists lnprob l,
    compute_lnprob self (rows_13 cands) false = Ok (RetArray lnprob) /\
    lnprob !! j = Some l /\
    (is_finite l = true ->
     Rabs (to_R l
           - - (1 / 2)
             * sumR (Rsqr <$> quotientsR self
                       (position_of self co.1 (companion_of co.1 co.2))))
     <= lnprob_bound
          (quotientsR self (position_of self co.1 (companion_of co.1 co.2)))).
Proof.
  intros Hwf Heps Hj Hplx.
  destruct (compute_lnprob_entry_13 self cands j co Hwf Hj)
    as (lnprob & ? & ?).
  eexists lnprob, _. split; [done |]. split; [done |].
  by apply lnprob_candidate_error.
Qed.

End Lnprob.
