(* ===== verification/Roundoff.v ===== *)
(** * Roundoff: binary64 and the exact reals as rounding models

    The two arithmetics of the development discharge the interface of
    [Accuracy].  For binary64, the arithmetic NumPy computes in, the
    laws are the theorems of [FloatError] at precision 53 and largest
    exponent 1024, carried to [PrimFloat] by the specification of its
    operations: the unit roundoff is [2 ^ -53] and the underflow
    threshold [2 ^ -1075], half the smallest positive number.  For the
    extended reals both are zero, so that every bound of [Accuracy]
    degenerates to an equation there: the bounds are as tight as the
    specification of [RealModel] allows. *)

Set Warnings "-hiding-delimiting-key".
From Stdlib Require Import ZArith Reals Lra Lia QArith.
From Stdlib Require Import Floats SpecFloat.
From S2P Require Import Prelude RealLemmas Scalar NumPy Exact Sorting.
From S2P Require Import Binary64 Rounding FloatError.
From S2P Require Import Reconstructor Evaluator RealModel Zeros Accuracy.

Local Open Scope R_scope.

(** ** Binary64 *)

Section Binary64Model.
Implicit Types (x y : float).

(** The real number a float stands for; zero for what is not a
    number. *)
Definition B2R x : R := SF2R (Prim2SF x).

Definition u64 : R := pow2 (-53).
Definition eta64 : R := pow2 (-1075).

Lemma prec_pos : (0 < prec)%Z.
Proof. reflexivity. Qed.

Lemma prec_lt_emax : (prec < emax)%Z.
Proof. reflexivity. Qed.

Lemma float_is_finite_iff x : is_finite x = SFfinite (Prim2SF x).
Proof.
  unfold is_finite. destruct (is_nan x) eqn:Hn.
  - apply float_is_nan_iff in Hn. by rewrite Hn.
  - simpl. rewrite leb_spec, abs_spec.
    change (Prim2SF infinity) with (S754_infinity false).
    destruct (Prim2SF x) as [[]|[]| |[] ? ?] eqn:Hx; try done.
    by rewrite (float_is_nan x Hx) in Hn.
Qed.

(** What [op_result] says of a result that is finite. *)
Lemma op_result_finite X eta r :
  op_result prec emax X eta r -> SFfinite r = true ->
  Rabs (SF2R r - X) <= u64 * Rabs X + eta.
Proof. intros (_ & Hf & _) Hr. by destruct (Hf Hr). Qed.

Lemma float_mul_error x y :
  is_finite (x * y)%float = true ->
  is_finite x = true /\ is_finite y = true /\
  Rabs (B2R (x * y) - B2R x * B2R y) <= u64 * Rabs (B2R x * B2R y) + eta64.
Proof.
  rewrite !float_is_finite_iff. unfold B2R. rewrite mul_spec. intros Hf.
  destruct (SFmul_finite _ _ _ _ Hf) as [Hx Hy]. split; [done |].
  split; [done |]. apply op_result_finite; [| done].
  apply (SFmul_model _ _ prec_pos prec_lt_emax); auto using Prim2SF_valid.
Qed.

Lemma float_add_error x y :
  is_finite (x + y)%float = true ->
  is_finite x = true /\ is_finite y = true /\
  Rabs (B2R (x + y) - (B2R x + B2R y)) <= u64 * Rabs (B2R x + B2R y).
Proof.
  rewrite !float_is_finite_iff. unfold B2R. rewrite add_spec. intros Hf.
  destruct (SFadd_finite _ _ _ _ Hf) as [Hx Hy]. split; [done |].
  split; [done |]. rewrite <- (Rplus_0_r (u64 * _)).
  apply op_result_finite; [| done].
  apply (SFadd_model _ _ prec_pos prec_lt_emax); auto using Prim2SF_valid.
Qed.

Lemma float_sub_error x y :
  is_finite (x - y)%float = true ->
  is_finite x = true /\ is_finite y = true /\
  Rabs (B2R (x - y) - (B2R x - B2R y)) <= u64 * Rabs (B2R x - B2R y).
Proof.
  rewrite !float_is_finite_iff. unfold B2R. rewrite sub_spec. intros Hf.
  destruct (SFsub_finite _ _ _ _ Hf) as [Hx Hy]. split; [done |].
  split; [done |]. rewrite <- (Rplus_0_r (u64 * _)).
  apply op_result_finite; [| done].
  apply (SFsub_model _ _ prec_pos prec_lt_emax); auto using Prim2SF_valid.
Qed.

(** A finite float that is not a zero stands for a real that is not
    zero. *)
Lemma B2R_nonzero y :
  is_finite y = true -> is_zero y = false -> B2R y <> 0.
Proof.
  rewrite float_is_finite_iff, float_is_zero. unfold B2R.
  destruct (Prim2SF y) as [| | |s m e]; try done. intros _ _.
  rewrite SF2R_finite.
  pose proof (pow2_gt_0 e). pose proof (IZR_lt 0 (Zpos m) ltac:(lia)).
  destruct s; unfold sign_R; nra.
Qed.

Lemma float_div_error x y :
  is_finite (x / y)%float = true ->
  is_finite y = true -> is_zero y = false ->
  is_finite x = true /\ B2R y <> 0 /\
  Rabs (B2R (x / y) - B2R x / B2R y) <= u64 * Rabs (B2R x / B2R y) + eta64.
Proof.
  intros Hf Hy Hz. pose proof (B2R_nonzero y Hy Hz) as Hy0.
  revert Hf. rewrite !float_is_finite_iff. unfold B2R in *.
  rewrite div_spec. intros Hf.
  pose proof (SFdiv_finite _ _ _ _ Hf Hy0) as Hx. split; [done |].
  split; [done |]. apply op_result_finite; [| done].
  apply (SFdiv_model _ _ prec_pos prec_lt_emax); auto using Prim2SF_valid.
Qed.

Lemma float_abs_value x :
  is_finite (abs x) = true ->
  is_finite x = true /\ B2R (abs x) = Rabs (B2R x).
Proof.
  rewrite !float_is_finite_iff. unfold B2R. rewrite abs_spec, SFabs_finite.
  intros Hf. split; [done |]. apply SFabs_value.
Qed.

(** The literal [-0.5] is a binary64 number. *)
Lemma B2R_half : B2R (flit (-0.5)%Q) = - (1 / 2).
Proof.
  unfold B2R.
  change (Prim2SF (flit (-0.5)%Q))
    with (S754_finite true 4503599627370496 (-53)).
  rewrite SF2R_finite. unfold sign_R.
  pose proof (pow2_plus (-53) 53) as Hp.
  rewrite <- (pow2_IZR 53) in Hp by lia.
  change (-53 + 53)%Z with 0%Z in Hp. change (pow2 0) with 1 in Hp.
  change (2 ^ 53)%Z with 9007199254740992%Z in Hp. lra.
Qed.

(** So is the reference epoch [1991.25]. *)
Lemma B2R_epoch : B2R (flit 1991.25%Q) = 1991.25.
Proof.
  unfold B2R.
  change (Prim2SF (flit 1991.25%Q))
    with (S754_finite false 8757610115235840 (-42)).
  rewrite SF2R_finite. unfold sign_R.
  pose proof (pow2_plus (-42) 42) as Hp.
  rewrite <- (pow2_IZR 42) in Hp by lia.
  change (-42 + 42)%Z with 0%Z in Hp. change (pow2 0) with 1 in Hp.
  change (2 ^ 42)%Z with 4398046511104%Z in Hp. lra.
Qed.

#[export] Instance binary64_rounding : RoundingModel float := {
  to_R := B2R;
  fl_u := u64;
  fl_eta := eta64;
  fl_u_nonneg := Rlt_le _ _ (pow2_gt_0 _);
  fl_eta_nonneg := Rlt_le _ _ (pow2_gt_0 _);
  to_R_zero := eq_refl;
  to_R_half := B2R_half;
  to_R_epoch := B2R_epoch;
  fadd_model := float_add_error;
  fsub_model := float_sub_error;
  fmul_model := float_mul_error;
  fdiv_model := float_div_error;
  fabs_model := float_abs_value
}.

(** *** The bounds in figures

    Up to 1022 scans the factor of the chi-square is below [2 ^ -42],
    about [2.3e-13], and the absolute part below [2 ^ -1073] for each
    unit of the quotients and each scan. *)

Lemma pow2_10 : pow2 10 = 1024.
Proof. rewrite <- pow2_IZR by lia. reflexivity. Qed.

Lemma u64_1024 : 1024 * u64 = pow2 (-43).
Proof. unfold u64. rewrite <- pow2_10, <- pow2_plus. reflexivity. Qed.

Lemma pow2_42 : pow2 (-42) = 2 * pow2 (-43).
Proof. rewrite <- pow2_succ_R. reflexivity. Qed.

Lemma eta64_4 : 4 * eta64 = pow2 (-1073).
Proof.
  unfold eta64. change (-1073)%Z with (-1075 + 1 + 1)%Z.
  rewrite !pow2_succ_R. lra.
Qed.

Lemma g64_small n : (n <= 1024)%nat -> g (F := float) n <= pow2 (-42).
Proof.
  intros Hn%le_INR. rewrite (INR_IZR_INZ 1024) in Hn.
  change (IZR (Z.of_nat 1024)) with 1024 in Hn.
  pose proof (pos_INR n) as Hn0. pose proof (pow2_gt_0 (-53)) as Hu.
  pose proof (pow2_mono (-43) 0 ltac:(lia)) as H43.
  change (pow2 0) with 1 in H43. pose proof (pow2_gt_0 (-43)).
  pose proof u64_1024 as Hk. unfold u64 in Hk.
  assert (INR n * pow2 (-53) <= pow2 (-43)) as Ha
    by (rewrite <- Hk; apply Rmult_le_compat_r; lra).
  assert (0 <= INR n * pow2 (-53)) as Ha0 by (apply Rmult_le_pos; lra).
  pose proof (g_linear (F := float) n) as Hg.
  change (@fl_u float binary64 binary64_rounding) with (pow2 (-53)) in Hg.
  rewrite pow2_42. set (a := INR n * pow2 (-53)) in *.
  assert (a * a <= a) by nra. lra.
Qed.

Lemma pow64_small n : (n <= 1024)%nat -> (1 + u64) ^ n <= 2.
Proof.
  intros Hn%g64_small. unfold g in Hn.
  change (@fl_u float binary64 binary64_rounding) with u64 in Hn.
  pose proof (pow2_mono (-42) 0 ltac:(lia)) as H42.
  change (pow2 0) with 1 in H42. lra.
Qed.

Lemma chi2_bound_64 (xs : list R) :
  (length xs + 2 <= 1024)%nat ->
  chi2_bound (F := float) xs
  <= pow2 (-42) * sumR (Rsqr <$> xs)
     + pow2 (-1073) * (sumR (Rabs <$> xs) + INR (length xs)).
Proof.
  intros Hm. unfold chi2_bound.
  change (@fl_u float binary64 binary64_rounding) with u64.
  change (@fl_eta float binary64 binary64_rounding) with eta64.
  pose proof (sumR_sqr_nonneg xs) as HT.
  assert (0 <= sumR (Rabs <$> xs)) as HX
    by (apply sumR_nonneg, Forall_fmap, Forall_forall; intros; apply Rabs_pos).
  pose proof (pos_INR (length xs)) as Hn.
  pose proof (Rmult_le_compat_r _ _ _ HT (g64_small _ Hm)) as H1.
  pose proof (pow64_small (length xs - 1 + 2) ltac:(lia)) as HQ.
  rewrite pow_add in HQ.
  pose proof (pow_u_ge_1 (F := float) (length xs - 1)) as HP.
  change (@fl_u float binary64 binary64_rounding) with u64 in HP.
  pose proof (pow2_gt_0 (-53)) as Hu. fold u64 in Hu.
  pose proof (pow2_gt_0 (-1075)) as He. fold eta64 in He.
  pose proof (pow2_mono (-53) 0 ltac:(lia)) as Hu1.
  pose proof (pow2_mono (-1075) (-2) ltac:(lia)) as He1.
  change (pow2 0) with 1 in Hu1. fold u64 in Hu1. fold eta64 in He1.
  replace (pow2 (-2)) with (/ 4) in He1 by (unfold pow2; simpl; lra).
  rewrite <- eta64_4.
  set (P := (1 + u64) ^ (length xs - 1)) in *.
  set (Q := (1 + u64) ^ 2) in *.
  assert (1 <= Q) by (unfold Q; cbn [pow]; nra).
  assert (P <= 2) as HP2 by nra.
  set (X := sumR (Rabs <$> xs)) in *. set (m := INR (length xs)) in *.
  assert (P * (2 * Q * X) <= 4 * X) as HA by nra.
  assert ((1 + u64) * eta64 + 1 <= 2) as Hc by nra.
  assert (0 <= (1 + u64) * eta64 + 1) as Hc0 by nra.
  assert (P * (m * ((1 + u64) * eta64 + 1)) <= 4 * m) as HB.
  { pose proof (Rmult_le_compat_l m _ _ Hn Hc) as Hmc.
    pose proof (Rmult_le_pos _ _ Hn Hc0) as Hmc0.
    pose proof (Rmult_le_compat_r _ _ _ Hmc0 HP2). lra. }
  pose proof (Rmult_le_compat_l eta64 _ _ (Rlt_le _ _ He)
                (Rplus_le_compat _ _ _ _ HA HB)) as HC.
  lra.
Qed.

(** C15: the chi-square of a candidate on binary64.  For an object
    of up to 1022 scans whose uncertainties are finite and not zero,
    every finite entry of the array [chi2_of] returns is the real sum
    of the squared quotients of the distances of that candidate by the
    uncertainties, up to a relative error of [2 ^ -42] and an absolute
    error of [2 ^ -1073] per unit of the quotients and per scan; and the
    distances it was computed from were all finite. *)
Theorem chi2_of_binary64 (self : HipparcosLogProb float) n dist chi2 j c :
  chi2_of self n dist = Ok chi2 ->
  length dist = length (self_eps self) ->
  (length dist + 2 <= 1024)%nat ->
  usable (self_eps self) ->
  chi2 !! j = Some c -> is_finite c = true ->
  exists col,
    np_column n dist j = Ok col /\
    Forall (fun d => is_finite d = true) col /\
    Rabs (B2R c - sumR (Rsqr <$> quotients col (self_eps self)))
    <= pow2 (-42) * sumR (Rsqr <$> quotients col (self_eps self))
       + pow2 (-1073)
         * (sumR (Rabs <$> quotients col (self_eps self))
            + INR (length dist)).
Proof.
  intros Hc Hl Hm Heps Hj Hfin.
  destruct (chi2_of_error self n dist chi2 j c Hc Hl Heps Hj Hfin)
    as (col & Hcol & Hd & Hb).
  exists col. split; [done |]. split; [done |].
  assert (length (quotients col (self_eps self)) = length dist) as Hlen.
  { unfold quotients. rewrite length_zip_with.
    unfold np_column in Hcol. case_decide; [| done].
    apply py_mapM_length in Hcol. lia. }
  etrans; [exact Hb |]. rewrite <- Hlen. apply chi2_bound_64. lia.
Qed.

End Binary64Model.

(** ** The exact reals *)

Section ExactModel.
Implicit Types (a b : ext R).

Definition ext_to_R a : R := match a with Fin x => x | _ => 0 end.

Lemma ext_fin_finite (k : R) : is_finite (Fin k) = true.
Proof.
  unfold is_finite, is_nan. simpl. by rewrite (proj2 (Rleb_le k k)) by lra.
Qed.

Lemma kabs_R (x : R) : kabs x = Rabs x.
Proof.
  unfold kabs, Rabs. simpl. destruct (Rleb 0 x) eqn:Hx.
  - apply Rleb_le in Hx. destruct (Rcase_abs x); lra.
  - apply Rleb_gt in Hx. destruct (Rcase_abs x); lra.
Qed.

(** An operation on finite operands whose result is the exact one. *)
Ltac exact_case :=
  intros; repeat split; try apply ext_fin_finite; try done; simpl;
  rewrite ?Rminus_diag, ?Rabs_R0; lra.

Lemma ext_add_exact a b :
  is_finite (fadd a b) = true ->
  is_finite a = true /\ is_finite b = true /\
  Rabs (ext_to_R (fadd a b) - (ext_to_R a + ext_to_R b))
  <= 0 * Rabs (ext_to_R a + ext_to_R b).
Proof. destruct a as [x| | |], b as [y| | |]; try done. exact_case. Qed.

Lemma ext_sub_exact a b :
  is_finite (fsub a b) = true ->
  is_finite a = true /\ is_finite b = true /\
  Rabs (ext_to_R (fsub a b) - (ext_to_R a - ext_to_R b))
  <= 0 * Rabs (ext_to_R a - ext_to_R b).
Proof. destruct a as [x| | |], b as [y| | |]; try done. exact_case. Qed.

Lemma ext_signed_not_finite (p n : ext R) (x : R) :
  is_finite p = false -> is_finite n = false ->
  is_finite (ext_signed p n x) = false.
Proof. intros Hp Hn. unfold ext_signed. by repeat case_match. Qed.

Lemma ext_mul_exact a b :
  is_finite (fmul a b) = true ->
  is_finite a = true /\ is_finite b = true /\
  Rabs (ext_to_R (fmul a b) - ext_to_R a * ext_to_R b)
  <= 0 * Rabs (ext_to_R a * ext_to_R b) + 0.
Proof.
  destruct a as [x| | |], b as [y| | |]; try done; try exact_case;
    simpl; by rewrite ext_signed_not_finite.
Qed.

Lemma ext_div_exact a b :
  is_finite (fdiv a b) = true ->
  is_finite b = true -> is_zero b = false ->
  is_finite a = true /\ ext_to_R b <> 0 /\
  Rabs (ext_to_R (fdiv a b) - ext_to_R a / ext_to_R b)
  <= 0 * Rabs (ext_to_R a / ext_to_R b) + 0.
Proof.
  intros Hf [y ->]%ext_is_finite Hz.
  assert (y <> 0) as Hy.
  { intros ->. by rewrite (proj2 (ext_is_zero (Fin 0))) in Hz. }
  destruct a as [x| | |]; simpl in Hf; try (by repeat case_match).
  revert Hf. simpl. rewrite (proj2 (keqb_neq y 0)) by done. exact_case.
Qed.

Lemma ext_abs_exact a :
  is_finite (fabs a) = true ->
  is_finite a = true /\ ext_to_R (fabs a) = Rabs (ext_to_R a).
Proof.
  destruct a as [x| | |]; try done. intros _.
  split; [apply ext_fin_finite | apply kabs_R].
Qed.

Lemma ext_zero_R : ext_to_R (flit 0%Q) = 0.
Proof. exact (k_of_Q_0 (K := R)). Qed.

#[export] Instance ext_rounding : RoundingModel (ext R) := {
  to_R := ext_to_R;
  fl_u := 0;
  fl_eta := 0;
  fl_u_nonneg := Rle_refl 0;
  fl_eta_nonneg := Rle_refl 0;
  to_R_zero := ext_zero_R;
  to_R_half := k_of_Q_minus_half;
  to_R_epoch := k_of_Q_epoch;
  fadd_model := ext_add_exact;
  fsub_model := ext_sub_exact;
  fmul_model := ext_mul_exact;
  fdiv_model := ext_div_exact;
  fabs_model := ext_abs_exact
}.

(** Without rounding every bound is zero. *)
Lemma g_exact n : g (F := ext R) n = 0.
Proof. unfold g. simpl. rewrite Rplus_0_r, pow1. lra. Qed.

Lemma chi2_bound_exact xs : chi2_bound (F := ext R) xs = 0.
Proof. unfold chi2_bound. rewrite g_exact. simpl. lra. Qed.

Lemma lnprob_bound_exact xs : lnprob_bound (F := ext R) xs = 0.
Proof. unfold lnprob_bound. rewrite chi2_bound_exact. simpl. lra. Qed.

(** Over the reals the method's chi-square is the sum of the squared
    quotients. *)
Theorem chi2_of_exact (self : HipparcosLogProb (ext R)) n dist chi2 j c :
  chi2_of self n dist = Ok chi2 ->
  length dist = length (self_eps self) ->
  usable (self_eps self) ->
  chi2 !! j = Some c -> is_finite c = true ->
  exists col,
    np_column n dist j = Ok col /\
    ext_to_R c = sumR (Rsqr <$> quotients col (self_eps self)).
Proof.
  intros Hc Hl Heps Hj Hfin.
  destruct (chi2_of_error self n dist chi2 j c Hc Hl Heps Hj Hfin)
    as (col & Hcol & _ & Hb).
  exists col. split; [done |]. rewrite chi2_bound_exact in Hb.
  apply Rabs_le_between in Hb. simpl in Hb. lra.
Qed.

End ExactModel.
