(* ===== verification/Range.v ===== *)
(** * Range: when the results are finite

    The bounds of [Accuracy] are stated for results that [np.isfinite]
    accepts.  This file says when they are: an operation on finite
    operands overflows only if its exact result, rounded, reaches the
    threshold [fl_max] (interface [NoOverflow], discharged for binary64
    with [2 ^ 1024] from the specification of the operations).  So the
    chi-square of a candidate is finite as long as its distances are
    finite and not too many times their uncertainties, and so is its
    score: on binary64, for up to 1022 scans, up to [2 ^ 500] times. *)

Set Warnings "-hiding-delimiting-key".
From Stdlib Require Import ZArith Reals Lra Lia QArith.
From Stdlib Require Import Floats SpecFloat.
From S2P Require Import Prelude RealLemmas Scalar NumPy Sorting.
From S2P Require Import Binary64 Rounding FloatError.
From S2P Require Import Reconstructor Evaluator Reference Zeros.
From S2P Require Import Accuracy Roundoff.

Local Open Scope R_scope.

(** ** The interface *)

Class NoOverflow (F : Type) `{RoundingModel F} : Type := {
  fl_max : R;
  fl_max_ge_1 : 1 <= fl_max;
  zero_finite : is_finite (flit 0%Q) = true;
  half_finite : is_finite (flit (-0.5)%Q) = true;
  fadd_finite x y :
    is_finite x = true -> is_finite y = true ->
    (1 + fl_u) * Rabs (to_R x + to_R y) < fl_max ->
    is_finite (fadd x y) = true;
  fmul_finite x y :
    is_finite x = true -> is_finite y = true ->
    (1 + fl_u) * Rabs (to_R x * to_R y) + fl_eta < fl_max ->
    is_finite (fmul x y) = true;
  fdiv_finite x y :
    is_finite x = true -> is_finite y = true -> is_zero y = false ->
    (1 + fl_u) * Rabs (to_R x / to_R y) + fl_eta < fl_max ->
    is_finite (fdiv x y) = true
}.

(** ** The reduction *)

Section Finite.
Context {F : Type} `{NoOverflow F}.
Implicit Types (x y d e : F) (ts : list F).

(** The size of a computed value that is finite. *)
Lemma fmul_size x y :
  is_finite (fmul x y) = true ->
  Rabs (to_R (fmul x y)) <= (1 + fl_u) * Rabs (to_R x * to_R y) + fl_eta.
Proof.
  intros Hf. destruct (fmul_model _ _ Hf) as (_ & _ & Hm).
  apply Rabs_near in Hm. lra.
Qed.

Lemma fadd_size x y :
  is_finite (fadd x y) = true ->
  Rabs (to_R (fadd x y)) <= (1 + fl_u) * Rabs (to_R x + to_R y).
Proof.
  intros Hf. destruct (fadd_model _ _ Hf) as (_ & _ & Hm).
  apply Rabs_near in Hm. lra.
Qed.

(** The bound of a squared quotient whose quotient is at most [B]. *)
Definition term_size (B : R) : R :=
  (1 + fl_u) * (((1 + fl_u) * B + fl_eta) * ((1 + fl_u) * B + fl_eta))
  + fl_eta.

Lemma term_finite d e B :
  is_finite d = true -> is_finite e = true -> is_zero e = false ->
  Rabs (to_R d / to_R e) <= B -> term_size B < fl_max ->
  is_finite (fsquare (fdiv d e)) = true /\
  Rabs (to_R (fsquare (fdiv d e))) <= term_size B.
Proof.
  intros Hd He Hz HB Hmax. unfold term_size in *.
  pose proof fl_u_nonneg as Hu. pose proof fl_eta_nonneg as Heta.
  pose proof (Rabs_pos (to_R d / to_R e)) as Hx0.
  pose proof fl_max_ge_1 as Hm1.
  set (Q := (1 + fl_u) * B + fl_eta) in *.
  assert (0 <= Q) as HQ0 by (unfold Q; nra).
  assert (Q < fl_max) as HQ.
  { destruct (Rlt_le_dec Q 1) as [Hlt|Hge]; [lra |].
    pose proof (Rmult_le_compat_l Q 1 Q HQ0 Hge). nra. }
  assert (is_finite (fdiv d e) = true) as Hq
    by (apply fdiv_finite; try done; unfold Q in HQ; nra).
  destruct (fdiv_model _ _ Hq He Hz) as (_ & _ & Hdiv).
  apply Rabs_near in Hdiv.
  assert (Rabs (to_R (fdiv d e)) <= Q) as Hqs by (unfold Q; nra).
  assert (Rabs (to_R (fdiv d e) * to_R (fdiv d e)) <= Q * Q) as Hsq.
  { rewrite Rabs_mult. pose proof (Rabs_pos (to_R (fdiv d e))).
    by apply Rmult_le_compat. }
  assert (is_finite (fsquare (fdiv d e)) = true) as Ht
    by (apply fmul_finite; try done; nra).
  split; [done |]. pose proof (fmul_size _ _ Ht). unfold fsquare. nra.
Qed.

(** The accumulation of [np_sum] from [acc] over terms of size [T]
    at most. *)
Lemma foldl_finite ts : forall (acc : F) (A T : R),
  is_finite acc = true -> Rabs (to_R acc) <= A -> 0 <= T ->
  Forall (fun t => is_finite t = true /\ Rabs (to_R t) <= T) ts ->
  (1 + fl_u) ^ length ts * (A + INR (length ts) * T) < fl_max ->
  is_finite (foldl fadd acc ts) = true /\
  Rabs (to_R (foldl fadd acc ts))
  <= (1 + fl_u) ^ length ts * (A + INR (length ts) * T).
Proof.
  pose proof fl_u_nonneg as Hu.
  induction ts as [|t ts IH]; intros acc A T Hacc HA HT Hts Hmax.
  - simpl in *. split; [done | lra].
  - apply Forall_cons in Hts as [[Ht HtT] Hts].
    rewrite length_cons, S_INR in *. cbn [pow foldl] in *.
    pose proof (pow_u_ge_1 (length ts)) as HP.
    pose proof (pos_INR (length ts)) as Hn.
    pose proof (Rabs_pos (to_R acc)) as Ha0.
    set (P := (1 + fl_u) ^ length ts) in *. set (n := INR (length ts)) in *.
    assert (0 <= n * T) as HnT by (by apply Rmult_le_pos).
    assert (Rabs (to_R acc + to_R t) <= A + T) as Hs
      by (pose proof (Rabs_triang (to_R acc) (to_R t)); lra).
    assert (P * ((1 + fl_u) * (A + T) + n * T)
            <= (1 + fl_u) * P * (A + (n + 1) * T)) as Hstep.
    { assert (0 <= P * (fl_u * (n * T))) by (repeat apply Rmult_le_pos; lra).
      lra. }
    assert ((1 + fl_u) * (A + T) <= P * ((1 + fl_u) * (A + T) + n * T))
      as Hfirst.
    { assert (0 <= (1 + fl_u) * (A + T)) by (apply Rmult_le_pos; lra).
      assert (0 <= P * (n * T)) by (apply Rmult_le_pos; lra). nra. }
    assert (0 <= 1 + fl_u) as Hu1 by lra.
    pose proof (Rmult_le_compat_l _ _ _ Hu1 Hs) as Hus.
    assert (is_finite (fadd acc t) = true) as Hf
      by (apply fadd_finite; try done; lra).
    pose proof (fadd_size _ _ Hf) as Hsz.
    assert (Rabs (to_R (fadd acc t)) <= (1 + fl_u) * (A + T)) as HA' by lra.
    destruct (IH (fadd acc t) ((1 + fl_u) * (A + T)) T Hf HA' HT Hts)
      as [Hfin Hsize]; [fold P n; lra |].
    fold P n in Hsize. split; [done | lra].
Qed.

(** The size of a chi-square of [n] terms of size [T] at most. *)
Definition sum_size (n : nat) (T : R) : R :=
  (1 + fl_u) ^ (n - 1) * (INR n * T).

Lemma np_sum_finite ts T :
  0 <= T ->
  Forall (fun t => is_finite t = true /\ Rabs (to_R t) <= T) ts ->
  sum_size (length ts) T < fl_max ->
  is_finite (np_sum ts) = true /\
  Rabs (to_R (np_sum ts)) <= sum_size (length ts) T.
Proof.
  intros HT Hts Hmax. destruct ts as [|t ts]; unfold sum_size in *.
  - simpl. rewrite to_R_zero, Rabs_R0. split; [apply zero_finite | lra].
  - apply Forall_cons in Hts as [[Ht HtT] Hts].
    rewrite length_cons, S_INR in *.
    replace (S (length ts) - 1)%nat with (length ts) in * by lia.
    replace ((INR (length ts) + 1) * T) with (T + INR (length ts) * T)
      in * by ring.
    by apply foldl_finite.
Qed.

End Finite.

(** ** The score *)

Section FiniteScore.
Context {F : Type} `{NoOverflow F, Trig F}.
Implicit Types (self : HipparcosLogProb F) (sc : Scan F) (c : Astrometry F)
  (pf : Scan F -> F * F).

Lemma term_size_nonneg B : 0 <= B -> 0 <= term_size B.
Proof.
  intros HB. unfold term_size.
  pose proof fl_u_nonneg. pose proof fl_eta_nonneg.
  assert (0 <= (1 + fl_u) * B + fl_eta) as HQ by nra.
  pose proof (Rmult_le_pos _ _ HQ HQ). nra.
Qed.

Lemma sum_size_ge n T : (1 <= n)%nat -> 0 <= T -> T <= sum_size n T.
Proof.
  intros Hn HT. unfold sum_size. pose proof (pow_u_ge_1 (n - 1)) as HP.
  apply le_INR in Hn. change (INR 1) with 1 in Hn.
  assert (T <= INR n * T) by nra.
  assert (0 <= INR n * T) by nra. nra.
Qed.

(** The distances of a candidate are finite and at most [B] times
    their uncertainties. *)
Definition within self pf (B : R) : Prop :=
  Forall (fun sc =>
            is_finite (distance sc (pf sc)) = true /\
            Rabs (to_R (distance sc (pf sc)) / to_R (s_eps sc)) <= B)
    (scans self).

Lemma chi2_candidate_finite self pf B :
  usable_scans self -> within self pf B -> 0 <= B ->
  sum_size (length (scans self)) (term_size B) < fl_max ->
  is_finite (chi2_candidate self pf) = true /\
  Rabs (to_R (chi2_candidate self pf))
  <= sum_size (length (scans self)) (term_size B).
Proof.
  intros Heps Hw HB Hmax. unfold chi2_candidate.
  rewrite <- (length_fmap
                (fun sc => fsquare (fdiv (distance sc (pf sc)) (s_eps sc))))
    in Hmax |- *.
  apply np_sum_finite; [by apply term_size_nonneg | | done].
  rewrite length_fmap in Hmax. apply Forall_fmap, Forall_forall.
  intros sc Hsc. unfold usable_scans, within in *.
  rewrite Forall_forall in Heps, Hw.
  destruct (Heps sc Hsc) as [He Hz], (Hw sc Hsc) as [Hd Hx].
  apply term_finite; try done.
  eapply Rle_lt_trans; [| exact Hmax].
  apply sum_size_ge; [| by apply term_size_nonneg].
  apply list_elem_of_lookup in Hsc as [i Hi].
  apply lookup_lt_Some in Hi. lia.
Qed.

(** The score of a candidate of positive parallax does not overflow. *)
Lemma lnprob_candidate_finite self c companion B :
  fle (c_plx c) (flit 0%Q) = false -> usable_scans self ->
  within self (position_of self c companion) B -> 0 <= B ->
  (1 + fl_u) * sum_size (length (scans self)) (term_size B) + fl_eta
  < fl_max ->
  is_finite (lnprob_candidate self c companion) = true.
Proof.
  intros Hplx Heps Hw HB Hmax.
  change (lnprob_candidate self c companion)
    with (lnprob_of (c_plx c)
            (chi2_candidate self (position_of self c companion))).
  unfold lnprob_of. rewrite Hplx.
  pose proof fl_u_nonneg as Hu. pose proof fl_eta_nonneg as Heta.
  pose proof (term_size_nonneg B HB) as HT.
  assert (0 <= sum_size (length (scans self)) (term_size B)) as HS.
  { unfold sum_size. pose proof (pow_u_ge_1 (length (scans self) - 1)).
    pose proof (pos_INR (length (scans self))).
    apply Rmult_le_pos; [lra | by apply Rmult_le_pos]. }
  destruct (chi2_candidate_finite self (position_of self c companion) B)
    as [Hc Hsize]; try done; [nra |].
  apply fmul_finite; [apply half_finite | exact Hc |].
  rewrite to_R_half, Rabs_mult.
  replace (Rabs (- (1 / 2))) with (1 / 2)
    by (unfold Rabs; destruct (Rcase_abs _); lra).
  assert (0 <= 1 + fl_u) as Hu1 by lra.
  pose proof (Rmult_le_compat_l _ _ _ Hu1 Hsize) as Hm.
  pose proof (Rabs_pos (to_R (chi2_candidate self
                                (position_of self c companion)))) as Hc0.
  pose proof (Rmult_le_pos _ _ Hu1 Hc0). lra.
Qed.

End FiniteScore.

(** ** Binary64 *)

Section Binary64Range.
Implicit Types (x y : float).

(** An operation whose exact result, rounded, stays below [2 ^ 1024]
    returns a finite float. *)
Lemma op_result_overflow X eta r :
  op_result prec emax X eta r ->
  (1 + u64) * Rabs X + eta < pow2 1024 -> SFfinite r = true.
Proof.
  intros (_ & _ & Hinf) Hlt. destruct (SFfinite r); [done |].
  specialize (Hinf eq_refl).
  change (unit_roundoff prec) with u64 in Hinf.
  change (pow2 emax) with (pow2 1024) in Hinf. lra.
Qed.

Lemma float_add_finite x y :
  is_finite x = true -> is_finite y = true ->
  (1 + u64) * Rabs (B2R x + B2R y) < pow2 1024 ->
  is_finite (x + y)%float = true.
Proof.
  rewrite !float_is_finite_iff. unfold B2R. rewrite add_spec.
  intros Hx Hy Hlt. eapply op_result_overflow; [| rewrite Rplus_0_r; exact Hlt].
  apply (SFadd_model _ _ prec_pos prec_lt_emax); auto using Prim2SF_valid.
Qed.

Lemma float_mul_finite x y :
  is_finite x = true -> is_finite y = true ->
  (1 + u64) * Rabs (B2R x * B2R y) + eta64 < pow2 1024 ->
  is_finite (x * y)%float = true.
Proof.
  rewrite !float_is_finite_iff. unfold B2R. rewrite mul_spec.
  intros Hx Hy Hlt. eapply op_result_overflow; [| exact Hlt].
  apply (SFmul_model _ _ prec_pos prec_lt_emax); auto using Prim2SF_valid.
Qed.

Lemma float_div_finite x y :
  is_finite x = true -> is_finite y = true -> is_zero y = false ->
  (1 + u64) * Rabs (B2R x / B2R y) + eta64 < pow2 1024 ->
  is_finite (x / y)%float = true.
Proof.
  intros Hx Hy Hz. pose proof (B2R_nonzero y Hy Hz) as Hy0. revert Hx.
  rewrite !float_is_finite_iff. unfold B2R in *. rewrite div_spec.
  intros Hx Hlt. eapply op_result_overflow; [| exact Hlt].
  apply (SFdiv_model _ _ prec_pos prec_lt_emax); auto using Prim2SF_valid.
Qed.

Lemma pow2_1024_ge_1 : 1 <= pow2 1024.
Proof. exact (pow2_mono 0 1024 ltac:(lia)). Qed.

#[export] Instance binary64_range : NoOverflow float := {
  fl_max := pow2 1024;
  fl_max_ge_1 := pow2_1024_ge_1;
  zero_finite := eq_refl;
  half_finite := eq_refl;
  fadd_finite := float_add_finite;
  fmul_finite := float_mul_finite;
  fdiv_finite := float_div_finite
}.

(** *** In figures *)

Lemma u64_range : 0 < u64 <= 1.
Proof.
  split; [apply pow2_gt_0 |]. exact (pow2_mono (-53) 0 ltac:(lia)).
Qed.

Lemma eta64_range : 0 < eta64 <= 1.
Proof.
  split; [apply pow2_gt_0 |]. exact (pow2_mono (-1075) 0 ltac:(lia)).
Qed.

Lemma pow2_4 e : pow2 (e + 2) = 4 * pow2 e.
Proof.
  replace (e + 2)%Z with (e + 1 + 1)%Z by lia. rewrite !pow2_succ_R. lra.
Qed.

Lemma term_size_64 : term_size (F := float) (pow2 500) <= pow2 1006.
Proof.
  unfold term_size.
  change (@fl_u float binary64 binary64_rounding) with u64.
  change (@fl_eta float binary64 binary64_rounding) with eta64.
  pose proof u64_range as [Hu0 Hu1]. pose proof eta64_range as [He0 He1].
  pose proof (pow2_mono 0 500 ltac:(lia)) as Hb. change (pow2 0) with 1 in Hb.
  pose proof (pow2_4 500) as H502. change (500 + 2)%Z with 502%Z in H502.
  pose proof (pow2_plus 502 502) as H1004.
  change (502 + 502)%Z with 1004%Z in H1004.
  pose proof (pow2_4 1004) as H1006.
  change (1004 + 2)%Z with 1006%Z in H1006.
  set (b := pow2 500) in *. set (Q := (1 + u64) * b + eta64).
  assert (0 <= Q <= 4 * b) as [HQ0 HQ] by (unfold Q; nra).
  pose proof (Rmult_le_compat _ _ _ _ HQ0 HQ0 HQ HQ) as HQQ.
  pose proof (Rmult_le_pos _ _ HQ0 HQ0) as HQQ0.
  assert (1 <= pow2 1004) as H1 by (rewrite H1004, H502; nra).
  assert ((1 + u64) * (Q * Q) <= 2 * (Q * Q)) by nra.
  rewrite H1006. rewrite H1004, H502 in *. lra.
Qed.

Lemma size_64 n :
  (n <= 1024)%nat ->
  (1 + u64) * sum_size (F := float) n (term_size (F := float) (pow2 500))
  + eta64 < pow2 1024.
Proof.
  intros Hn. unfold sum_size.
  change (@fl_u float binary64 binary64_rounding) with u64.
  pose proof u64_range as [Hu0 Hu1]. pose proof eta64_range as [He0 He1].
  pose proof term_size_64 as HT.
  pose proof (term_size_nonneg (F := float) (pow2 500)
                (Rlt_le _ _ (pow2_gt_0 500))) as HT0.
  pose proof (pow64_small (n - 1) ltac:(lia)) as HP.
  pose proof (pow_u_ge_1 (F := float) (n - 1)) as HP1.
  change (@fl_u float binary64 binary64_rounding) with u64 in HP1.
  apply le_INR in Hn. rewrite (INR_IZR_INZ 1024) in Hn.
  change (IZR (Z.of_nat 1024)) with 1024 in Hn.
  pose proof (pos_INR n) as Hn0.
  pose proof (pow2_plus 1006 11) as H1017.
  change (1006 + 11)%Z with 1017%Z in H1017.
  rewrite <- (pow2_IZR 11) in H1017 by lia.
  change (IZR (2 ^ 11)) with 2048 in H1017.
  pose proof (pow2_plus 1017 7) as H1024.
  change (1017 + 7)%Z with 1024%Z in H1024.
  rewrite <- (pow2_IZR 7) in H1024 by lia.
  change (IZR (2 ^ 7)) with 128 in H1024.
  pose proof (pow2_mono 0 1006 ltac:(lia)) as H1. change (pow2 0) with 1 in H1.
  set (T := term_size (pow2 500)) in *. set (P := (1 + u64) ^ (n - 1)) in *.
  assert (INR n * T <= 1024 * pow2 1006) as HnT.
  { etrans; [apply Rmult_le_compat_r; [exact HT0 | exact Hn] |]. lra. }
  assert (0 <= INR n * T) as HnT0 by (by apply Rmult_le_pos).
  assert (P * (INR n * T) <= 2 * (1024 * pow2 1006)) as HS
    by (apply Rmult_le_compat; lra).
  assert (0 <= P * (INR n * T)) as HS0 by (apply Rmult_le_pos; lra).
  assert ((1 + u64) * (P * (INR n * T)) <= 2 * (P * (INR n * T))) by nra.
  lra.
Qed.

Lemma lnprob_bound_64 (xs : list R) :
  (length xs + 2 <= 1024)%nat ->
  lnprob_bound (F := float) xs
  <= pow2 (-42) * sumR (Rsqr <$> xs)
     + pow2 (-1073) * (sumR (Rabs <$> xs) + INR (length xs) + 1).
Proof.
  intros Hm. unfold lnprob_bound. pose proof (chi2_bound_64 xs Hm) as Hc.
  change (@fl_u float binary64 binary64_rounding) with u64.
  change (@fl_eta float binary64 binary64_rounding) with eta64.
  pose proof (sumR_sqr_nonneg xs) as HT. pose proof (sumR_abs_nonneg xs) as HX.
  pose proof (pos_INR (length xs)) as Hn.
  pose proof (pow2_gt_0 (-1073)) as Hp. pose proof (pow2_gt_0 (-42)) as Hq.
  pose proof (pow2_mono (-42) 0 ltac:(lia)) as Hq1.
  change (pow2 0) with 1 in Hq1.
  pose proof eta64_4 as He4.
  pose proof (pow2_plus (-42) (-11)) as H53.
  change (-42 + -11)%Z with (-53)%Z in H53. fold u64 in H53.
  replace (pow2 (-11)) with (/ 2048) in H53 by (unfold pow2; simpl; lra).
  set (B := chi2_bound xs) in *. set (T := sumR (Rsqr <$> xs)) in *.
  set (A := pow2 (-1073) * (sumR (Rabs <$> xs) + INR (length xs))) in *.
  set (q := pow2 (-42)) in *.
  assert (0 <= A) as HA by (unfold A; apply Rmult_le_pos; lra).
  assert (0 <= q * T) as HqT by (apply Rmult_le_pos; lra).
  assert (0 <= 1 + u64) as Hu1 by (rewrite H53; lra).
  pose proof (Rmult_le_compat_l _ _ _ Hu1 Hc) as H1.
  pose proof (Rmult_le_compat_r _ _ _ HqT Hq1) as H2.
  pose proof (Rmult_le_compat_r _ _ _ HA Hq1) as H3.
  rewrite H53 in *. subst A. lra.
Qed.

(** *** A range that is enough, as a test on the floats *)

(** Below [2 ^ k] in size, by the exponent; at least [2 ^ k] in size
    (and so finite and not zero), by the exponent. *)
Definition exp_below (k : Z) x : bool :=
  match Prim2SF x with
  | S754_zero _ => true
  | S754_finite _ m e => (Zdigits2 (Zpos m) + e <=? k)%Z
  | _ => false
  end.

Definition exp_above (k : Z) x : bool :=
  match Prim2SF x with
  | S754_finite _ _ e => (k <=? e)%Z
  | _ => false
  end.

Lemma B2R_abs_finite x s m e :
  Prim2SF x = S754_finite s m e -> Rabs (B2R x) = IZR (Zpos m) * pow2 e.
Proof.
  intros Hx. unfold B2R. rewrite Hx, SF2R_finite. apply Rabs_sign_R.
  pose proof (pow2_gt_0 e). pose proof (IZR_lt 0 (Zpos m) ltac:(lia)). nra.
Qed.

Lemma exp_below_R k x :
  exp_below k x = true ->
  is_finite x = true /\ Rabs (B2R x) <= pow2 k.
Proof.
  unfold exp_below. rewrite float_is_finite_iff.
  destruct (Prim2SF x) as [| | |s m e] eqn:Hx; try done; intros Hk.
  - split; [done |]. unfold B2R. rewrite Hx. simpl. rewrite Rabs_R0.
    left. apply pow2_gt_0.
  - split; [done |]. rewrite (B2R_abs_finite x s m e Hx).
    apply Z.leb_le in Hk.
    pose proof (Zdigits2_bounds (Zpos m) ltac:(lia)) as [_ Hm].
    pose proof (Zdigits2_nonneg (Zpos m)) as Hd.
    apply IZR_lt in Hm. rewrite pow2_IZR in Hm by lia.
    pose proof (pow2_gt_0 e) as He.
    pose proof (pow2_mono _ _ Hk) as Hle. rewrite pow2_plus in Hle.
    pose proof (Rmult_lt_compat_r _ _ _ He Hm). lra.
Qed.

Lemma exp_above_R k x :
  exp_above k x = true ->
  is_finite x = true /\ is_zero x = false /\ pow2 k <= Rabs (B2R x).
Proof.
  unfold exp_above. rewrite float_is_finite_iff, float_is_zero.
  destruct (Prim2SF x) as [| | |s m e] eqn:Hx; try done; intros Hk.
  split; [done |]. split; [done |]. rewrite (B2R_abs_finite x s m e Hx).
  apply Z.leb_le in Hk. pose proof (pow2_mono _ _ Hk) as Hle.
  pose proof (pow2_gt_0 e) as He.
  pose proof (IZR_le 1 (Zpos m) ltac:(lia)) as Hm.
  pose proof (Rmult_le_compat_r _ _ _ (Rlt_le _ _ He) Hm). lra.
Qed.

(** A quotient of a float below [2 ^ 250] by one of at least
    [2 ^ -250]. *)
Lemma quotient_range d e :
  exp_below 250 d = true -> exp_above (-250) e = true ->
  Rabs (B2R d / B2R e) <= pow2 500.
Proof.
  intros [_ Hd]%exp_below_R (_ & _ & He)%exp_above_R.
  pose proof (pow2_gt_0 (-250)) as Hp. pose proof (pow2_gt_0 250) as Hq.
  pose proof (pow2_plus 250 250) as H500.
  change (250 + 250)%Z with 500%Z in H500.
  pose proof (pow2_plus 250 (-250)) as H0.
  change (250 + -250)%Z with 0%Z in H0. change (pow2 0) with 1 in H0.
  unfold Rdiv. rewrite Rabs_mult, Rabs_inv.
  assert (0 < Rabs (B2R e)) as He0 by lra.
  assert (/ Rabs (B2R e) <= pow2 250) as Hinv.
  { apply (Rmult_le_reg_l (Rabs (B2R e))); [done |].
    rewrite Rinv_r by lra. nra. }
  pose proof (Rinv_0_lt_compat _ He0).
  rewrite H500. apply Rmult_le_compat; try lra. apply Rabs_pos.
Qed.

End Binary64Range.

(** ** The score on binary64 *)

Section Binary64Score.
Context `{Trig float, OrbitModel float}.
Implicit Types (self : HipparcosLogProb float) (c : Astrometry float)
  (pf : Scan float -> float * float).

(** Every distance of the candidate is below [2 ^ 250] and every
    uncertainty at least [2 ^ -250]. *)
Definition tame self pf : Prop :=
  Forall (fun sc =>
            exp_below 250 (distance sc (pf sc)) = true /\
            exp_above (-250) (s_eps sc) = true)
    (scans self).

Lemma tame_usable self pf : tame self pf -> usable_scans self.
Proof.
  intros Ht. eapply Forall_impl; [exact Ht |].
  intros sc [_ He%exp_above_R]. by destruct He as (? & ? & _).
Qed.

Lemma tame_within self pf : tame self pf -> within self pf (pow2 500).
Proof.
  intros Ht. eapply Forall_impl; [exact Ht |]. intros sc [Hd He].
  split; [by apply exp_below_R in Hd as [? _] | by apply quotient_range].
Qed.

(** C13: the score on binary64, without overflow and in figures.  For a
    well-formed object of up to 1022 scans whose uncertainties are at
    least [2 ^ -250], and a candidate of positive parallax in a batch of
    five-parameter candidates whose distances from the scan lines are
    below [2 ^ 250], the entry [compute_lnprob] returns for the
    candidate is finite, and it is minus half the real chi-square of
    those distances up to a relative error of [2 ^ -42] and an absolute
    error of [2 ^ -1073] per unit of the quotients, per scan, and
    once. *)
Theorem compute_lnprob_binary64 self (cands : list (Astrometry float)) j c :
  wf self -> (length (scans self) + 2 <= 1024)%nat ->
  cands !! j = Some c -> fle (c_plx c) (flit 0%Q) = false ->
  tame self (position_of self c None) ->
  exists lnprob l,
    compute_lnprob self (rows_5 cands) false = Ok (RetArray lnprob) /\
    lnprob !! j = Some l /\ is_finite l = true /\
    Rabs (B2R l
          - - (1 / 2)
            * sumR (Rsqr <$> quotientsR self (position_of self c None)))
    <= pow2 (-42) * sumR (Rsqr <$> quotientsR self (position_of self c None))
       + pow2 (-1073)
         * (sumR (Rabs <$> quotientsR self (position_of self c None))
            + INR (length (scans self)) + 1).
Proof.
  intros Hwf Hn Hj Hplx Ht.
  destruct (compute_lnprob_entry_5 self cands j c Hwf Hj) as (lnprob & ? & ?).
  exists lnprob, (lnprob_candidate self c None).
  split; [done |]. split; [done |].
  pose proof (tame_usable _ _ Ht) as Heps.
  assert (is_finite (lnprob_candidate self c None) = true) as Hf.
  { apply (lnprob_candidate_finite self c None (pow2 500));
      [done | done | by apply tame_within | left; apply pow2_gt_0 |].
    apply size_64. lia. }
  split; [done |].
  etrans; [exact (lnprob_candidate_error self c None Hplx Heps Hf) |].
  rewrite <- (length_fmap
                (fun sc => to_R (distance sc (position_of self c None sc))
                           / to_R (s_eps sc)) (scans self)).
  apply lnprob_bound_64. unfold quotientsR. rewrite length_fmap. lia.
Qed.

End Binary64Score.
