(* ===== verification/Pipeline.v ===== *)
(** * Pipeline: the constructor followed by the method

    The script builds one object and scores batches against it (lines
    214 and 252): [fit] is that composition.  The theorems of the
    method assume an object that is well formed and has a scan; the
    constructor establishes both whenever the collaborators keep their
    promises about shapes ([CollaboratorsOk]), so that the theorems
    about the method become theorems about the program from the
    answers of the collaborators on: which rows are accepted
    ([fit_accepts]) and what is computed ([fit_batch_5],
    [fit_batch_13]). *)

From S2P Require Import Prelude Scalar NumPy Reconstructor Evaluator Reference.
From S2P Require Import Shapes Broadcast Accepts.

Section ConstructThenScore.
Context {F : Type} `{Scalar F, Trig F, OrbitModel F}.
Context `{CollaboratorsOk F}.
Implicit Types (self : HipparcosLogProb F) (hip_num : string).

(** [HipparcosLogProb(hip_num).compute_lnprob(samples, negative)]. *)
Definition fit hip_num (samples : list (list F)) (negative : bool)
    : py (retval F) :=
  self <- init hip_num ;;
  compute_lnprob self samples negative.

(** The object with the abscissa points of the reconstruction. *)
Definition reconstructed self : HipparcosLogProb F :=
  with_scans self
    ((fun sc => set_scan_abscissa sc (abscissa self sc)) <$> scans self).

Lemma reconstructed_n_epochs self :
  n_epochs (reconstructed self) = n_epochs self.
Proof.
  unfold reconstructed, n_epochs. simpl.
  by rewrite !length_fmap, length_scans.
Qed.

(** ** What the constructor establishes *)

(** A table from which the columns are read has a row, and the object
    has as many epochs as the table has rows. *)
Lemma load_iad_n_epochs hip_num row table self :
  Forall (fun r => length r = table_ncols table) table ->
  load_iad hip_num row table = Ok self ->
  table <> [] /\ n_epochs self = length table.
Proof.
  unfold load_iad. intros Hrect Hload. py_inv Hload.
  split; [by intros -> |].
  apply (getitem_transpose_length _ _ _ Hrect) in E.
  do 2 py_inv Hload. apply Time_decimalyear_length in E0.
  do 5 py_inv Hload. injection Hload as <-.
  unfold n_epochs. simpl. by rewrite E0, np_rscalar_length.
Qed.

(** The object read has a scan. *)
Lemma load_has_scan hip_num self :
  load hip_num = Ok self -> n_epochs self <> 0.
Proof.
  unfold load. intros Hload. py_inv Hload.
  destruct (loadtxt (iad_file_name hip_num)) as [table|] eqn:Ht; [| done].
  destruct (load_iad_n_epochs _ _ _ _ (loadtxt_rect _ _ Ht) Hload)
    as [Hne ->].
  by destruct table.
Qed.

(** Once the collaborators have answered, the constructor returns the
    reconstructed object. *)
Lemma init_reconstructed hip_num self :
  load hip_num = Ok self -> init hip_num = Ok (reconstructed self).
Proof.
  intros Hload. unfold init. rewrite Hload. simpl.
  by apply reconstruct_ok, (load_wf_inputs hip_num).
Qed.

Lemma reconstructed_wf self : wf (reconstructed self).
Proof. apply with_scans_wf. Qed.

(** The composition after the collaborators have answered. *)
Lemma fit_loaded hip_num self samples negative :
  load hip_num = Ok self ->
  fit hip_num samples negative
  = compute_lnprob (reconstructed self) samples negative.
Proof. intros Hload. unfold fit. by rewrite (init_reconstructed _ _ Hload). Qed.

(** A failure of the constructor is the failure of the composition. *)
Lemma fit_init_raises hip_num samples negative e :
  init hip_num = Raise e -> fit hip_num samples negative = Raise e.
Proof. intros Hinit. unfold fit. by rewrite Hinit. Qed.

(** ** The theorems of the method, for the program *)

(** C37: the rows the program accepts.  Construction followed by the
    method on five rows raises what the collaborators or the reading
    of their answers raised; once they have answered it raises
    [ValueError] when a row has neither as many entries as the first
    nor one, raises [AxisError] on rows that fit an empty batch, and
    otherwise returns an array with one score per entry of the first
    row: nothing else can happen. *)
Theorem fit_accepts hip_num pm_ra pm_dec alpha_H0 delta_H0 plx negative :
  match load hip_num with
  | Raise e =>
      fit hip_num [pm_ra; pm_dec; alpha_H0; delta_H0; plx] negative = Raise e
  | Ok _ =>
      if decide (Forall (fits (length pm_ra))
                   [pm_dec; alpha_H0; delta_H0; plx])
      then if decide (length pm_ra = 0)
           then fit hip_num [pm_ra; pm_dec; alpha_H0; delta_H0; plx] negative
                = Raise AxisError
           else exists lnprob,
                  fit hip_num [pm_ra; pm_dec; alpha_H0; delta_H0; plx]
                    negative
                  = Ok (RetArray lnprob) /\
                  length lnprob = length pm_ra
      else fit hip_num [pm_ra; pm_dec; alpha_H0; delta_H0; plx] negative
           = Raise ValueError
  end.
Proof.
  destruct (load hip_num) as [self|e] eqn:Hload.
  - rewrite (fit_loaded _ _ _ _ Hload).
    apply compute_lnprob_accepts; [apply reconstructed_wf |].
    rewrite reconstructed_n_epochs. by apply (load_has_scan hip_num).
  - apply fit_init_raises. unfold init. by rewrite Hload.
Qed.

(** C16: what the program computes.  Once the collaborators have
    answered, construction followed by the method on a non-empty batch
    of five-parameter candidates returns, for each candidate, the
    value of the scalar evaluator against the scans with the abscissa
    points of the reconstruction. *)
Theorem fit_batch_5 hip_num self (cands : list (Astrometry F)) negative :
  load hip_num = Ok self -> cands <> [] ->
  fit hip_num (rows_5 cands) negative
  = Ok (RetArray
          (apply_negative negative
             ((fun c => lnprob_candidate (reconstructed self) c None)
                <$> cands))).
Proof.
  intros Hload Hne. rewrite (fit_loaded _ _ _ _ Hload).
  by rewrite compute_lnprob_rows_5,
    (lnprob_body_5 _ cands negative (reconstructed_wf self) Hne).
Qed.

(** The same with a companion, for a Kepler solver that treats the
    orbits of a batch independently. *)
Theorem fit_batch_13 `{!OrbitPointwise F} hip_num self
    (cands : list (Astrometry F * Orbit F)) negative :
  load hip_num = Ok self -> cands <> [] ->
  fit hip_num (rows_13 cands) negative
  = Ok (RetArray
          (apply_negative negative
             ((fun co => lnprob_candidate (reconstructed self) co.1
                           (companion_of co.1 co.2)) <$> cands))).
Proof.
  intros Hload Hne. rewrite (fit_loaded _ _ _ _ Hload).
  by rewrite compute_lnprob_rows_13,
    (lnprob_body_13 _ cands negative (reconstructed_wf self) Hne).
Qed.

(** The scans the program scores against carry the abscissa points of
    the catalogue solution. *)
Lemma scans_reconstructed self :
  scans (reconstructed self)
  = (fun sc => set_scan_abscissa sc (abscissa self sc)) <$> scans self.
Proof. apply scans_with_scans. Qed.

End ConstructThenScore.
