(* ===== verification/Script.v ===== *)
(** * Script: the command-line script

    The [__main__] block of [compute_chi2.py] (lines 211-300) builds the
    object for a star, draws candidate orbits from a radial-velocity
    posterior and random astrometric parameters, scores them with
    [compute_lnprob], ranks them and plots five histograms.  Its
    statements are modelled in the monad [io]: a state that holds the
    random generator and the output so far, over the exceptions of
    [py].  What the script reads (the posterior file, its resampling,
    the change of basis [compute_sep], the draws of [np.random.normal])
    is the interface [ScriptServices]; what it writes ([print] and the
    calls of matplotlib) is a list of [Event]s, in the order of the
    calls. *)

From Stdlib Require Import ZArith QArith.
From S2P Require Import Prelude Scalar NumPy Exact Sorting.
From S2P Require Import Reconstructor Evaluator Reference.

(** ** Data *)

(** The columns of the frame [df_orb] that the script reads. *)
Record OrbFrame (F : Type) : Type := {
  df_m_st : list F;
  df_mp : list F;
  df_plx : list F;
  df_sma : list F;
  df_ecc : list F;
  df_inc_rad : list F;
  df_omega_pl_rad : list F;
  df_lan_rad : list F;
  df_tau_58849 : list F
}.
Arguments df_m_st {F} _.
Arguments df_mp {F} _.
Arguments df_plx {F} _.
Arguments df_sma {F} _.
Arguments df_ecc {F} _.
Arguments df_inc_rad {F} _.
Arguments df_omega_pl_rad {F} _.
Arguments df_lan_rad {F} _.
Arguments df_tau_58849 {F} _.

(** The keyword arguments of a call of [hist]. *)
Record HistStyle : Type := {
  hs_bins : nat;
  hs_density : bool;
  hs_color : string;
  hs_alpha : option Q;
  hs_histtype : option string;
  hs_label : option string
}.

(** What the script writes: [print(msg)], [plt.subplots(nrows, ncols,
    figsize=...)], [ax[k].hist(data, ...)], [ax[k].set_xlabel(label)],
    [ax[k].legend()], [plt.savefig(file, dpi=...)]. *)
Inductive Event (F : Type) : Type :=
| Print (msg : string)
| Subplots (nrows ncols : nat) (figsize : Z * Z)
| Hist (k : nat) (data : list F) (style : HistStyle)
| SetXLabel (k : nat) (label : string)
| Legend (k : nat)
| SaveFig (file : string) (dpi : Z).
Arguments Print {F} msg.
Arguments Subplots {F} nrows ncols figsize.
Arguments Hist {F} k data style.
Arguments SetXLabel {F} k label.
Arguments Legend {F} k.
Arguments SaveFig {F} file dpi.

(** What the script reads.  [Rng] is the state of NumPy's global random
    generator, which [DataFrame.sample], [compute_sep] and
    [np.random.normal] advance; [Chains] is the frame of the
    radial-velocity posterior.  The second argument of [compute_sep] is
    the array of epochs from which the script builds its [Time]
    ([np.array([0])], in decimal years). *)
Class ScriptServices (F : Type) : Type := {
  Rng : Type;
  Chains : Type;
  read_csv : string -> py Chains;
  df_sample : Chains -> Z -> Rng -> py Chains * Rng;
  compute_sep :
    Chains -> list F -> string -> F -> F -> F -> F -> Z -> Z -> Rng ->
    py (OrbFrame F) * Rng;
  random_normal : F -> F -> nat -> Rng -> py (list F) * Rng
}.

(** The state of the script: the random generator and the output. *)
Record World (F : Type) `{ScriptServices F} : Type := {
  w_rng : Rng;
  w_out : list (Event F)
}.
Arguments w_rng {F _} _.
Arguments w_out {F _} _.

(** ** The monad *)

Section IO.
Context {F : Type} `{ScriptServices F}.

Definition io (A : Type) : Type := World F -> py A * World F.

Definition io_ret {A} (a : A) : io A := fun w => (Ok a, w).

(** An exception ends the script; what was written stays written. *)
Definition io_bind {A B} (m : io A) (k : A -> io B) : io B :=
  fun w =>
    match m w with
    | (Ok a, w') => k a w'
    | (Raise e, w') => (Raise e, w')
    end.

Definition io_lift {A} (m : py A) : io A := fun w => (m, w).

Definition with_rng {A} (f : Rng -> py A * Rng) : io A :=
  fun w =>
    let r := f (w_rng w) in
    (r.1, {| w_rng := r.2; w_out := w_out w |}).

Definition emit (e : Event F) : io unit :=
  fun w => (Ok tt, {| w_rng := w_rng w; w_out := w_out w ++ [e] |}).

End IO.

Declare Scope io_scope.
Delimit Scope io_scope with io.
Notation "x <- m ;; k" := (io_bind m (fun x => k))
  (at level 100, m at next level, right associativity) : io_scope.
Notation "m ;;; k" := (io_bind m (fun _ => k))
  (at level 100, right associativity) : io_scope.

(** ** The script *)

Section Script.
Context {F : Type}.
Context `{Scalar F, Trig F, OrbitModel F, Collaborators F, ScriptServices F}.
Local Open Scope io_scope.

(** Lines 218-220:
    ['/data/user/lrosenth/legacy/run_final/{}/chains.csv.tar.bz2'.format('120066')] *)
Definition posterior_file : string :=
  ("/data/user/lrosenth/legacy/run_final/" ++ "120066"
   ++ "/chains.csv.tar.bz2")%string.

(** Lines 217-248: the candidates.  The posterior is read, resampled
    and converted; the four astrometric rows are drawn at random, in
    this order; the thirteen rows are stacked. *)
Definition draw_samples (PlanetPi : HipparcosLogProb F) : io (list (list F)) :=
  df_rv <- io_lift (read_csv posterior_file) ;;
  let n_to_sample := 100000%Z in
  df_rv_subsamp <- with_rng (df_sample df_rv n_to_sample) ;;
  df_orb <- with_rng (compute_sep df_rv_subsamp [flit 0]
                        "per tc secosw sesinw k" (flit 1.07) (flit 0.04)
                        (flit 31.757) (flit 0.039) 1 1) ;;
  let n_samples := length (df_mp df_orb) in
  pm_ra_samples <- with_rng (random_normal (self_pm_ra0 PlanetPi)
                               (self_pm_ra0_err PlanetPi) n_samples) ;;
  pm_dec_samples <- with_rng (random_normal (self_pm_dec0 PlanetPi)
                                (self_pm_dec0_err PlanetPi) n_samples) ;;
  alpha_H0_samples <- with_rng (random_normal (flit 0) (flit 0.1) n_samples) ;;
  dec_H0_samples <- with_rng (random_normal (flit 0) (flit 0.1) n_samples) ;;
  mtot_samples <- io_lift (np_add (df_m_st df_orb) (df_mp df_orb)) ;;
  io_lift (np_array
             [pm_ra_samples; pm_dec_samples; alpha_H0_samples; dec_H0_samples;
              df_plx df_orb; df_sma df_orb; df_ecc df_orb;
              df_inc_rad df_orb; df_omega_pl_rad df_orb;
              df_lan_rad df_orb; df_tau_58849 df_orb;
              mtot_samples; df_mp df_orb]).

(** The call of the method: the message of the parameter-count check
    is printed by the method itself, which then returns [None]. *)
Definition call_compute_lnprob (self : HipparcosLogProb F)
    (samples : list (list F)) (negative : bool) : io (option (list F)) :=
  r <- io_lift (compute_lnprob self samples negative) ;;
  match r with
  | RetArray lnprob => io_ret (Some lnprob)
  | RetNone msg => emit (Print msg) ;;; io_ret None
  end.

(** Line 255: [logprobs.argsort()[-1000:]]. *)
Definition best_orbit_indices (logprobs : list F) : list nat :=
  np_slice_last 1000 (np_argsort logprobs).

(** The two styles of the histograms. *)
Definition legacy_style (label : option string) : HistStyle :=
  {| hs_bins := 50; hs_density := true; hs_color := "grey";
     hs_alpha := Some 0.5%Q; hs_histtype := None; hs_label := label |}.

Definition best_style (label : option string) : HistStyle :=
  {| hs_bins := 50; hs_density := true; hs_color := "red";
     hs_alpha := None; hs_histtype := Some "step"; hs_label := label |}.

(** One panel: the histogram of row [row] of [samples] over all
    candidates, and over the best ones. *)
Definition hist_pair (k row : nat) (legacy best : option string)
    (samples : list (list F)) (best_orbit_indices : list nat) : io unit :=
  all <- io_lift (getitem samples row) ;;
  emit (Hist k all (legacy_style legacy)) ;;;
  r <- io_lift (getitem samples row) ;;
  sel <- io_lift (np_take r best_orbit_indices) ;;
  emit (Hist k sel (best_style best)).

(** Lines 259-298: the five panels. *)
Definition figure (samples : list (list F)) (best : list nat) : io unit :=
  hist_pair 0 5 (Some "Legacy") (Some "best fits incl. Hip IAD")
    samples best ;;;
  emit (SetXLabel 0 "sma [au]") ;;;
  emit (Legend 0) ;;;
  hist_pair 1 4 None None samples best ;;;
  emit (SetXLabel 1 "$\pi$ [mas]") ;;;
  hist_pair 2 6 None None samples best ;;;
  emit (SetXLabel 2 "ecc") ;;;
  hist_pair 3 0 None None samples best ;;;
  emit (SetXLabel 3 "$\mu_{{\alpha}}$ [mas/yr]") ;;;
  hist_pair 4 3 None None samples best ;;;
  emit (SetXLabel 4 "$\alpha_{{\rm H0}}$ [mas]").

(** Lines 250-300, once the candidates are drawn. *)
Definition score_and_plot (PlanetPi : HipparcosLogProb F)
    (samples : list (list F)) : io unit :=
  emit (Print "Computing lnprobs!") ;;;
  logprobs <- call_compute_lnprob PlanetPi samples false ;;
  lnprob <- io_lift (match logprobs with
                     | Some lnprob => Ok lnprob
                     | None => Raise AttributeError
                     end) ;;
  let best := best_orbit_indices lnprob in
  emit (Subplots 1 5 (20, 5)%Z) ;;;
  figure samples best ;;;
  emit (SaveFig "planetpi_test.png" 250).

(** Lines 211-300. *)
Definition main : io unit :=
  PlanetPi <- io_lift (init "027321") ;;
  samples <- draw_samples PlanetPi ;;
  score_and_plot PlanetPi samples.

(** ** What a complete run writes *)

Definition hist_pair_events (k row : nat) (legacy best : option string)
    (samples : list (list F)) (idx : list nat) : list (Event F) :=
  [Hist k (samples !!! row) (legacy_style legacy);
   Hist k ((fun i => (samples !!! row) !!! i) <$> idx) (best_style best)].

Definition figure_events (samples : list (list F)) (idx : list nat)
    : list (Event F) :=
  hist_pair_events 0 5 (Some "Legacy") (Some "best fits incl. Hip IAD")
    samples idx
  ++ SetXLabel 0 "sma [au]" :: Legend 0
  :: hist_pair_events 1 4 None None samples idx
  ++ SetXLabel 1 "$\pi$ [mas]"
  :: hist_pair_events 2 6 None None samples idx
  ++ SetXLabel 2 "ecc"
  :: hist_pair_events 3 0 None None samples idx
  ++ SetXLabel 3 "$\mu_{{\alpha}}$ [mas/yr]"
  :: hist_pair_events 4 3 None None samples idx
  ++ [SetXLabel 4 "$\alpha_{{\rm H0}}$ [mas]"].

Definition script_events (samples : list (list F)) (lnprob : list F)
    : list (Event F) :=
  Print "Computing lnprobs!" :: Subplots 1 5 (20, 5)%Z
  :: figure_events samples (best_orbit_indices lnprob)
  ++ [SaveFig "planetpi_test.png" 250].

(** The candidates of a matrix of thirteen rows. *)
Definition candidates_of (samples : list (list F))
    : list (Astrometry F * Orbit F) :=
  (fun j =>
     ({| c_pm_ra := (samples !!! 0) !!! j;
         c_pm_dec := (samples !!! 1) !!! j;
         c_alpha_H0 := (samples !!! 2) !!! j;
         c_delta_H0 := (samples !!! 3) !!! j;
         c_plx := (samples !!! 4) !!! j |},
      {| o_sma := (samples !!! 5) !!! j;
         o_ecc := (samples !!! 6) !!! j;
         o_inc := (samples !!! 7) !!! j;
         o_aop := (samples !!! 8) !!! j;
         o_pan := (samples !!! 9) !!! j;
         o_tau := (samples !!! 10) !!! j;
         o_mtot := (samples !!! 11) !!! j;
         o_m1 := (samples !!! 12) !!! j |}))
  <$> seq 0 (length (samples !!! 0)).

End Script.

(** ** Running the monad *)

Section IOFacts.
Context {F : Type} `{ScriptServices F}.
Local Open Scope io_scope.

Lemma io_bind_ok {A B} (m : io A) (k : A -> io B) w a w' :
  m w = (Ok a, w') -> io_bind m k w = k a w'.
Proof. unfold io_bind. by intros ->. Qed.

Lemma io_bind_raise {A B} (m : io A) (k : A -> io B) w e w' :
  m w = (Raise e, w') -> io_bind m k w = (Raise e, w').
Proof. unfold io_bind. by intros ->. Qed.

Lemma io_bind_ok_inv {A B} (m : io A) (k : A -> io B) w b w2 :
  io_bind m k w = (Ok b, w2) ->
  exists a w1, m w = (Ok a, w1) /\ k a w1 = (Ok b, w2).
Proof.
  unfold io_bind. destruct (m w) as [[a|e] w1]; [| done]. by exists a, w1.
Qed.

Lemma with_rng_ok_inv {A} (f : Rng -> py A * Rng) w a w' :
  with_rng f w = (Ok a, w') ->
  f (w_rng w) = (Ok a, w_rng w') /\ w_out w' = w_out w.
Proof.
  unfold with_rng. destruct (f (w_rng w)) as [r g]. by intros [= -> <-].
Qed.

Lemma io_lift_ok_inv {A} (m : py A) w a w' :
  io_lift m w = (Ok a, w') -> m = Ok a /\ w' = w.
Proof. by intros [= -> <-]. Qed.

(** [m] succeeds and writes exactly [evs], whatever the state. *)
Definition io_writes (m : io unit) (evs : list (Event F)) : Prop :=
  forall w, m w = (Ok tt, {| w_rng := w_rng w; w_out := w_out w ++ evs |}).

Lemma writes_emit e : io_writes (emit e) [e].
Proof. by intros w. Qed.

Lemma writes_seq (m k : io unit) evs1 evs2 :
  io_writes m evs1 -> io_writes k evs2 -> io_writes (m ;;; k) (evs1 ++ evs2).
Proof.
  intros Hm Hk w. rewrite (io_bind_ok _ _ _ _ _ (Hm w)), Hk. simpl.
  by rewrite app_assoc.
Qed.

Lemma writes_emit_seq e (k : io unit) evs :
  io_writes k evs -> io_writes (emit e ;;; k) (e :: evs).
Proof. apply (writes_seq _ _ [e]), writes_emit. Qed.

(** Whatever the state and the answers of the services, every event
    [m] writes satisfies [ok], and a result it returns satisfies
    [post]. *)
Definition io_spec {A} (m : io A) (ok : Event F -> Prop) (post : A -> Prop)
    : Prop :=
  forall w, exists evs,
    w_out (m w).2 = w_out w ++ evs /\ Forall ok evs /\
    forall a, (m w).1 = Ok a -> post a.

Lemma spec_ret {A} (a : A) ok (post : A -> Prop) :
  post a -> io_spec (io_ret a) ok post.
Proof.
  intros Ha w. exists []. rewrite app_nil_r.
  repeat split; [done |]. by intros a' [= <-].
Qed.

Lemma spec_lift {A} (m : py A) ok (post : A -> Prop) :
  (forall a, m = Ok a -> post a) -> io_spec (io_lift m) ok post.
Proof. intros Hm w. exists []. by rewrite app_nil_r. Qed.

Lemma spec_lift_any {A} (m : py A) ok :
  io_spec (io_lift m) ok (fun _ => True).
Proof. by apply spec_lift. Qed.

Lemma spec_rng {A} (f : Rng -> py A * Rng) ok :
  io_spec (with_rng f) ok (fun _ => True).
Proof. intros w. exists []. by rewrite app_nil_r. Qed.

Lemma spec_emit e (ok : Event F -> Prop) :
  ok e -> io_spec (emit e) ok (fun _ => True).
Proof. intros He w. exists [e]. repeat split. by constructor. Qed.

Lemma spec_bind {A B} (m : io A) (k : A -> io B) ok mid post :
  io_spec m ok mid -> (forall a, mid a -> io_spec (k a) ok post) ->
  io_spec (io_bind m k) ok post.
Proof.
  intros Hm Hk w. destruct (Hm w) as (evs1 & Hout1 & Hok1 & Hmid).
  unfold io_bind. destruct (m w) as [[a|e] w1]; simpl in *.
  - destruct (Hk a (Hmid a eq_refl) w1) as (evs2 & Hout2 & Hok2 & Hpost).
    exists (evs1 ++ evs2). rewrite Hout2, Hout1, app_assoc.
    repeat split; [by apply Forall_app | done].
  - exists evs1. by repeat split.
Qed.

Lemma spec_weaken {A} (m : io A) ok (post post' : A -> Prop) :
  io_spec m ok post -> (forall a, post a -> post' a) -> io_spec m ok post'.
Proof.
  intros Hm Hp w. destruct (Hm w) as (evs & Hout & Hok & Hpost).
  exists evs. repeat split; auto.
Qed.

End IOFacts.

(** [io_spec_auto leaf]: the rules of [io_spec] along the binds of a
    script whose intermediate results are not constrained; [leaf]
    proves the statements that are not binds, services or events. *)
Ltac io_spec_auto leaf :=
  cbv zeta;
  first
    [ apply spec_rng
    | apply spec_lift_any
    | by apply spec_emit
    | leaf
    | eapply spec_bind; [io_spec_auto leaf | intros ? _; io_spec_auto leaf] ].

(** [io_inv H]: the steps of a run [H : m w = (Ok a, w')] of a sequence
    of binds, one equation per step. *)
Ltac io_inv H :=
  cbv beta zeta in H;
  lazymatch type of H with
  | io_bind _ _ _ = (Ok _, _) =>
      let a := fresh "a" in
      let w := fresh "w" in
      let Hm := fresh "Hm" in
      apply io_bind_ok_inv in H as (a & w & Hm & H);
      first [ apply io_lift_ok_inv in Hm as [Hm ->]
            | apply with_rng_ok_inv in Hm as [Hm ?]
            | idtac ];
      cbn [w_rng w_out] in *;
      io_inv H
  | _ => idtac
  end.

(** ** The script *)

Section ScriptFacts.
Context {F : Type}.
Context `{Scalar F, Trig F, OrbitModel F, Collaborators F, ScriptServices F}.
Implicit Types (samples : list (list F)) (idx : list nat).
Local Open Scope io_scope.

(** *** The matrix of candidates *)

Lemma rows_13_candidates_of samples n :
  length samples = 13 -> Forall (fun r => length r = n) samples ->
  rows_13 (candidates_of samples) = samples.
Proof.
  intros Hn Hrect. do 13 (destruct samples as [|? samples]; [done |]).
  destruct samples; [| done].
  repeat match goal with
         | Hr : Forall _ (_ :: _) |- _ => apply Forall_cons_1 in Hr as [? Hr]
         end.
  unfold candidates_of, rows_13, rows_5. simpl.
  rewrite <- !list_fmap_compose. unfold compose. simpl.
  by rewrite !fmap_seq_lookup_total by congruence.
Qed.

Lemma length_candidates_of samples :
  length (candidates_of samples) = length (samples !!! 0).
Proof. unfold candidates_of. by rewrite length_fmap, length_seq. Qed.

(** The candidates are thirteen rows of one length, and drawing them
    writes nothing. *)
Lemma draw_samples_shape PlanetPi w0 samples w1 :
  draw_samples PlanetPi w0 = (Ok samples, w1) ->
  w_out w1 = w_out w0 /\ length samples = 13 /\
  exists n, Forall (fun r => length r = n) samples.
Proof.
  unfold draw_samples. intros Hrun. io_inv Hrun.
  apply io_lift_ok_inv in Hrun as [[-> Hrect]%np_array_inv ->].
  split; [by cbn [w_out] | by split].
Qed.

(** *** The figure *)

Lemma hist_pair_writes k row legacy best samples idx r :
  samples !! row = Some r -> Forall (fun i => i < length r) idx ->
  io_writes (hist_pair k row legacy best samples idx)
    (hist_pair_events k row legacy best samples idx).
Proof.
  intros Hr Hidx w. unfold hist_pair, hist_pair_events, io_bind, io_lift, emit.
  rewrite (getitem_ok _ _ _ Hr), (np_take_ok r idx Hidx).
  rewrite (list_lookup_total_correct _ _ _ Hr). simpl.
  by rewrite <- app_assoc.
Qed.

Lemma figure_writes samples idx n :
  length samples = 13 -> Forall (fun r => length r = n) samples ->
  Forall (fun i => i < n) idx ->
  io_writes (figure samples idx) (figure_events samples idx).
Proof.
  intros H13 Hrect Hidx.
  assert (Hrow : forall row, row < 13 -> exists r,
            samples !! row = Some r /\ Forall (fun i => i < length r) idx).
  { intros row Hrow.
    destruct (lookup_lt_is_Some_2 samples row) as [r Hr]; [lia |].
    exists r. split; [done |]. rewrite Forall_forall in Hrect.
    rewrite (Hrect r); [done | by eapply list_elem_of_lookup_2]. }
  unfold figure, figure_events.
  repeat first
    [ apply writes_emit
    | apply writes_emit_seq
    | apply writes_seq;
      [ match goal with
        | |- io_writes (hist_pair _ ?row _ _ _ _) _ =>
            destruct (Hrow row) as (r & Hr & Hi); [lia |];
            by apply (hist_pair_writes _ _ _ _ _ _ r)
        end | ] ].
Qed.

(** *** The run after the candidates are drawn *)

Lemma writes_bind_pure {A} (m : io A) (k : A -> io unit) a evs :
  (forall w, m w = (Ok a, w)) -> io_writes (k a) evs ->
  io_writes (io_bind m k) evs.
Proof. intros Hm Hk w. by rewrite (io_bind_ok _ _ _ _ _ (Hm w)). Qed.

Lemma call_compute_lnprob_array self samples negative lnprob w :
  compute_lnprob self samples negative = Ok (RetArray lnprob) ->
  call_compute_lnprob self samples negative w = (Ok (Some lnprob), w).
Proof. intros Hc. unfold call_compute_lnprob, io_bind, io_lift. by rewrite Hc. Qed.

Lemma best_orbit_indices_lt (lnprob : list F) :
  Forall (fun i => i < length lnprob) (best_orbit_indices lnprob).
Proof.
  apply Forall_forall. intros i Hi%elem_of_np_slice_last.
  by apply elem_of_np_argsort.
Qed.

Lemma score_and_plot_writes PlanetPi samples lnprob :
  length samples = 13 ->
  Forall (fun r => length r = length lnprob) samples ->
  compute_lnprob PlanetPi samples false = Ok (RetArray lnprob) ->
  io_writes (score_and_plot PlanetPi samples) (script_events samples lnprob).
Proof.
  intros H13 Hrect Hc. unfold score_and_plot, script_events.
  apply writes_emit_seq.
  eapply writes_bind_pure;
    [intros w; by apply call_compute_lnprob_array |].
  eapply writes_bind_pure; [done |].
  apply writes_emit_seq, writes_seq; [| apply writes_emit].
  eapply figure_writes; [done | done | apply best_orbit_indices_lt].
Qed.

End ScriptFacts.

(** ** Theorems *)

Section ScriptTheorems.
Context {F : Type}.
Context `{Scalar F, Trig F, OrbitPointwise F, CollaboratorsOk F}.
Context `{ScriptServices F}.
Implicit Types (samples : list (list F)) (idx : list nat).
Local Open Scope io_scope.

(** The rows the script stacks, from the four draws and the frame. *)
Definition stacked (r1 r2 r3 r4 : list F) (df_orb : OrbFrame F)
    : list (list F) :=
  [r1; r2; r3; r4; df_plx df_orb; df_sma df_orb; df_ecc df_orb;
   df_inc_rad df_orb; df_omega_pl_rad df_orb; df_lan_rad df_orb;
   df_tau_58849 df_orb; zip_with fadd (df_m_st df_orb) (df_mp df_orb);
   df_mp df_orb].

(** A matrix of thirteen rows of one length, not zero, is scored. *)
Lemma compute_lnprob_matrix_13 self samples n negative :
  wf self -> length samples = 13 ->
  Forall (fun r => length r = n) samples -> n <> 0 ->
  exists lnprob,
    compute_lnprob self samples negative = Ok (RetArray lnprob) /\
    length lnprob = n.
Proof.
  intros Hwf H13 Hrect Hn.
  assert (Hlen : length (candidates_of samples) = n).
  { rewrite length_candidates_of. rewrite Forall_forall in Hrect.
    apply Hrect, list_elem_of_lookup_total_2. lia. }
  rewrite <- (rows_13_candidates_of samples n H13 Hrect).
  eexists. split.
  - rewrite compute_lnprob_rows_13, lnprob_body_13; [done | done |].
    intros Hnil. by rewrite Hnil in Hlen.
  - destruct negative; simpl; unfold np_rscalar; by rewrite !length_fmap.
Qed.

(** The script completes.  Once the constructor has returned the
    object and the thirteen rows of at least one candidate are drawn,
    nothing fails any more: the method returns an array with one entry
    per candidate, and the script ends normally after it has written,
    in this order, the message, the figure of five panels with two
    histograms each, and the file. *)
Theorem main_completes w0 PlanetPi samples w1 :
  init "027321" = Ok PlanetPi ->
  draw_samples PlanetPi w0 = (Ok samples, w1) ->
  samples !! 0 <> Some [] ->
  exists lnprob,
    compute_lnprob PlanetPi samples false = Ok (RetArray lnprob) /\
    Forall (fun r => length r = length lnprob) samples /\
    main w0
    = (Ok tt, {| w_rng := w_rng w1;
                 w_out := w_out w0 ++ script_events samples lnprob |}).
Proof.
  intros Hinit Hdraw Hne.
  destruct (draw_samples_shape _ _ _ _ Hdraw) as (Hout & H13 & n & Hrect).
  assert (Hn : n <> 0).
  { intros ->. apply Hne.
    destruct (lookup_lt_is_Some_2 samples 0) as [r Hr]; [lia |].
    rewrite Hr. f_equal. apply nil_length_inv.
    rewrite Forall_forall in Hrect.
    by apply Hrect, (list_elem_of_lookup_2 _ 0). }
  destruct (compute_lnprob_matrix_13 PlanetPi samples n false)
    as (lnprob & Hc & Hl); [by eapply init_wf | done ..|].
  exists lnprob. subst n. repeat split; [done .. |].
  unfold main.
  rewrite (io_bind_ok _ _ w0 PlanetPi w0) by (unfold io_lift; by rewrite Hinit).
  rewrite (io_bind_ok _ _ _ _ _ Hdraw), <- Hout.
  by apply score_and_plot_writes.
Qed.

(** A matrix of thirteen rows without a candidate is not scored. *)
Lemma compute_lnprob_matrix_13_empty self samples negative :
  wf self -> length samples = 13 ->
  Forall (fun r => length r = 0) samples ->
  compute_lnprob self samples negative = Raise AxisError.
Proof.
  intros Hwf H13 Hrect.
  rewrite <- (rows_13_candidates_of samples 0 H13 Hrect).
  assert (candidates_of samples = []) as ->.
  { apply nil_length_inv. rewrite length_candidates_of.
    rewrite Forall_forall in Hrect.
    apply Hrect, list_elem_of_lookup_total_2. lia. }
  by apply compute_lnprob_empty_batch_13.
Qed.

(** Drawing the candidates writes nothing, whether it succeeds or
    fails. *)
Lemma draw_samples_silent PlanetPi w :
  w_out (draw_samples PlanetPi w).2 = w_out w.
Proof.
  assert (io_spec (draw_samples PlanetPi) (fun _ => False) (fun _ => True))
    as Hs.
  { unfold draw_samples. io_spec_auto ltac:(apply spec_lift_any). }
  destruct (Hs w) as (evs & -> & Hev & _).
  destruct evs as [|e evs]; [by rewrite app_nil_r |].
  by apply Forall_cons_1 in Hev as [[] _].
Qed.

(** The script on a draw without candidates: the message is written,
    then the method raises. *)
Lemma main_empty_draw w0 PlanetPi samples w1 :
  init "027321" = Ok PlanetPi ->
  draw_samples PlanetPi w0 = (Ok samples, w1) ->
  Forall (fun r => length r = 0) samples ->
  main w0
  = (Raise AxisError,
     {| w_rng := w_rng w1;
        w_out := w_out w0 ++ [Print "Computing lnprobs!"] |}).
Proof.
  intros Hinit Hdraw Hrect.
  destruct (draw_samples_shape _ _ _ _ Hdraw) as (Hout & H13 & _).
  unfold main.
  rewrite (io_bind_ok _ _ w0 PlanetPi w0) by (unfold io_lift; by rewrite Hinit).
  rewrite (io_bind_ok _ _ _ _ _ Hdraw), <- Hout.
  unfold score_and_plot, call_compute_lnprob, io_bind, io_lift, emit.
  by rewrite (compute_lnprob_matrix_13_empty PlanetPi samples false
                (init_wf _ _ Hinit) H13 Hrect).
Qed.


(** The candidates the script scores.  When the services answer,
    the matrix has these thirteen rows, in this order: the four random
    rows drawn one after the other from the generator that the
    resampling and the change of basis have advanced, then the columns
    of the frame, the total mass being the sum of the two masses.
    Nothing is written. *)
Theorem draw_samples_spec PlanetPi out df_rv df_sub df_orb r1 r2 r3 r4
    g0 g1 g2 g3 g4 g5 g6 :
  read_csv posterior_file = Ok df_rv ->
  df_sample df_rv 100000 g0 = (Ok df_sub, g1) ->
  compute_sep df_sub [flit 0] "per tc secosw sesinw k" (flit 1.07)
    (flit 0.04) (flit 31.757) (flit 0.039) 1 1 g1 = (Ok df_orb, g2) ->
  random_normal (self_pm_ra0 PlanetPi) (self_pm_ra0_err PlanetPi)
    (length (df_mp df_orb)) g2 = (Ok r1, g3) ->
  random_normal (self_pm_dec0 PlanetPi) (self_pm_dec0_err PlanetPi)
    (length (df_mp df_orb)) g3 = (Ok r2, g4) ->
  random_normal (flit 0) (flit 0.1) (length (df_mp df_orb)) g4
  = (Ok r3, g5) ->
  random_normal (flit 0) (flit 0.1) (length (df_mp df_orb)) g5
  = (Ok r4, g6) ->
  Forall (fun r => length r = length (df_mp df_orb))
    (df_m_st df_orb :: stacked r1 r2 r3 r4 df_orb) ->
  draw_samples PlanetPi {| w_rng := g0; w_out := out |}
  = (Ok (stacked r1 r2 r3 r4 df_orb), {| w_rng := g6; w_out := out |}).
Proof.
  intros Hcsv Hsample Hsep Hr1 Hr2 Hr3 Hr4 Hrect.
  apply Forall_cons_1 in Hrect as [Hmst Hrect].
  unfold draw_samples, io_bind, io_lift, with_rng. cbn [w_rng w_out].
  rewrite Hcsv, Hsample. cbn [fst snd]. rewrite Hsep. cbn [fst snd].
  rewrite Hr1. cbn [fst snd]. rewrite Hr2. cbn [fst snd].
  rewrite Hr3. cbn [fst snd]. rewrite Hr4. cbn [fst snd].
  unfold np_add, stacked in *. rewrite (np_binop_same _ _ _ Hmst).
  by rewrite (np_array_ok _ _ Hrect).
Qed.

(** The call of the method on five or thirteen rows writes nothing. *)
Lemma call_compute_lnprob_spec self samples negative ok :
  length samples = 5 \/ length samples = 13 ->
  io_spec (call_compute_lnprob self samples negative) ok (fun _ => True).
Proof.
  intros Hn. unfold call_compute_lnprob.
  apply (spec_bind _ _ _ (fun r => exists lnprob, r = RetArray lnprob)).
  - apply spec_lift. intros r. by apply compute_lnprob_array.
  - intros r [lnprob ->]. by apply (spec_ret _ _ (fun _ => True)).
Qed.

(** The script never reports a parameter count.  Whatever the
    services answer and wherever the script fails, the message of the
    parameter-count check of [compute_lnprob] is not among what it
    writes: the matrix it builds has thirteen rows. *)
Theorem main_no_usage_error :
  io_spec main (fun e => e <> Print incorrect_params_msg) (fun _ => True).
Proof.
  unfold main.
  eapply spec_bind; [apply spec_lift_any | intros PlanetPi _].
  apply (spec_bind _ _ _ (fun samples => length samples = 13)).
  { unfold draw_samples.
    io_spec_auto ltac:(apply spec_lift; by intros m [-> _]%np_array_inv). }
  intros samples H13. unfold score_and_plot, figure, hist_pair.
  io_spec_auto ltac:(apply call_compute_lnprob_spec; by right).
Qed.

(** C40: the fifth panel.  The last three calls of the figure plot row
    3 of the matrix, which is the fourth random row, the offsets in
    declination ([dec_H0_samples]), under the label of the offsets in
    right ascension; those are row 2, which no panel plots. *)
Theorem alpha_panel_plots_declination (r1 r2 r3 r4 : list F) df_orb idx n :
  Forall (fun r => length r = n) (stacked r1 r2 r3 r4 df_orb) ->
  Forall (fun i => i < n) idx ->
  exists evs,
    io_writes (figure (stacked r1 r2 r3 r4 df_orb) idx)
      (evs ++ [Hist 4 r4 (legacy_style None);
               Hist 4 ((fun i => r4 !!! i) <$> idx) (best_style None);
               SetXLabel 4 "$\alpha_{{\rm H0}}$ [mas]"]).
Proof.
  intros Hrect Hidx.
  exists (take 13 (figure_events (stacked r1 r2 r3 r4 df_orb) idx)).
  intros w.
  by rewrite (figure_writes (stacked r1 r2 r3 r4 df_orb) idx n eq_refl
                Hrect Hidx w).
Qed.

(** The indices of the best orbits are indices of candidates, no
    index is selected twice, and a thousand are selected, or all when
    there are fewer. *)
Theorem best_orbit_indices_bounds (lnprob : list F) :
  NoDup (best_orbit_indices lnprob) /\
  Forall (fun i => i < length lnprob) (best_orbit_indices lnprob) /\
  length (best_orbit_indices lnprob) = min 1000 (length lnprob).
Proof.
  unfold best_orbit_indices. split; [| split].
  - eapply sublist_NoDup;
      [apply np_argsort_NoDup | apply np_slice_last_sublist].
  - apply best_orbit_indices_lt.
  - by rewrite np_slice_last_length, np_argsort_length.
Qed.

End ScriptTheorems.

(** C27: the best orbits are the best.  On binary64 and in exact
    arithmetic (on every instance on which the order of [np.sort] is
    total and transitive), every candidate that is not selected is
    scored at most as high as every candidate that is, in the order
    that puts NaN above every number. *)
Theorem best_orbit_indices_best {F : Type} `{Scalar F}
    `{!Total (sort_rel (F := F)), !Transitive (sort_rel (F := F))}
    (lnprob : list F) i j x y :
  i ∈ best_orbit_indices lnprob -> j ∉ best_orbit_indices lnprob ->
  lnprob !! i = Some x -> lnprob !! j = Some y ->
  sort_le y x = true.
Proof. apply np_slice_last_argsort_dominates. Qed.

(** C28: a NaN ranks best.  On binary64 and in exact arithmetic, as
    soon as one candidate with a score that is a number is selected,
    every candidate whose score is NaN is selected: [argsort] puts NaN
    after every number, and the slice takes the end. *)
Theorem best_orbit_indices_nan {F : Type} `{Scalar F}
    `{!Total (sort_rel (F := F)), !Transitive (sort_rel (F := F))}
    (lnprob : list F) i j x y :
  i ∈ best_orbit_indices lnprob -> lnprob !! i = Some x ->
  is_nan x = false ->
  lnprob !! j = Some y -> is_nan y = true ->
  j ∈ best_orbit_indices lnprob.
Proof.
  intros Hi Hx Hnx Hy Hny.
  destruct (decide (j ∈ best_orbit_indices lnprob)) as [|Hj]; [done |].
  pose proof (np_slice_last_argsort_dominates _ _ _ _ _ _ Hi Hj Hx Hy)
    as Hle.
  unfold sort_le in Hle. by rewrite Hnx, Hny in Hle.
Qed.
