(* ===== verification/Fixtures.v ===== *)
(** * Fixtures: in-memory collaborators and concrete runs

    The collaborators of the program are replaced by in-memory fixtures:
    a catalogue with one row, a table of scans, an identity time service
    and an Earth at a fixed position.  [Fix64] holds them on binary64
    floats, so that the constructor and the method run inside the
    kernel; [Scenario] is the end-to-end scenario of the specification;
    [FixScript] holds services for the command-line script (a frame of
    two orbits, a counter for the random generator); [FixQ] holds exact
    data on the canonical rationals.  The theorems of
    the other files are applied to these objects, and the runs at the
    end show the values the code returns on them. *)

From Stdlib Require Import QArith Qcanon PrimFloat.
From stdpp Require Import relations.
From S2P Require Import Prelude Scalar NumPy Exact.
From S2P Require Import Sorting Reconstructor Evaluator Signs Loop Reference.
From S2P Require Import Ideal Script Binary64 Nan Zeros Frame Ranks Shapes.
From S2P Require Import Broadcast Accepts Order Projection Pipeline.

(** ** Binary64 fixtures *)

Module Fix64.

Local Open Scope float_scope.

(** The values of [np.sin] and [np.cos] at the angle zero, the only
    angle of the fixture catalogue; other arguments are outside the
    table. *)
#[export] Instance trig : Trig float := {|
  np_sin x := if PrimFloat.eqb x 0 then 0 else nan;
  np_cos x := if PrimFloat.eqb x 0 then 1 else nan;
  np_radians x := x * (0x1.921fb54442d18p+1 / 180)
|}.

(** A companion that sits still: its offset is the separation
    [sma * plx] due East, whatever the epoch. *)
Definition orbit1 (mjd sma ecc inc aop pan tau plx mtot : float)
    : float * float := (sma * plx, 0).

#[export] Instance orbit : OrbitModel float := {|
  calc_orbit mjd sma ecc inc aop pan tau plx mtot :=
    Ok (zip_with PrimFloat.mul sma plx, (fun _ => 0) <$> sma,
        (fun _ => 0) <$> sma)
|}.

#[export] Instance orbit_pointwise : OrbitPointwise float.
Proof.
  refine {| Reference.orbit1 := orbit1 |}.
  intros D cands mjd sma ecc inc aop pan tau plx mtot. eexists. simpl.
  by rewrite zip_with_fmap_same, <- !list_fmap_compose.
Defined.

Definition catalog_row : Catalog float := {|
  cat_RArad := 0; cat_e_RArad := 0.5;
  cat_DErad := 0; cat_e_DErad := 0.5;
  cat_Plx := 2; cat_e_Plx := 0.25;
  cat_pmRA := 4; cat_e_pmRA := 0.5;
  cat_pmDE := -8; cat_e_pmDE := 0.5
|}.

(** Columns: unused, [epoch - 1991.25], unused, [cos phi], [sin phi],
    [R], [eps]. *)
Definition iad_table : list (list float) :=
  [ [1; -1;   0; 1;   0;   0.5;  1];
    [2; 0;    0; 0;   1;   -1.5; 2];
    [3; 0.5;  0; float_of_Q 0.6; float_of_Q 0.8; 2; 0.5] ].

#[export] Instance collaborators : Collaborators float := {|
  query_constraints _ := Ok [[catalog_row]];
  loadtxt _ := Ok iad_table;
  Time_decimalyear times := Ok times;
  Time_mjd times := Ok ((fun t => (t - 1991.25) * 365.25 + 48348.5625) <$> times);
  earth_barycentric_pos times :=
    Ok ((fun _ => 1) <$> times, (fun _ => 0.5) <$> times,
        (fun _ => -0.25) <$> times)
|}.

#[export] Instance collaborators_ok : CollaboratorsOk float.
Proof.
  split; simpl.
  - intros _ table [= <-]. by repeat constructor.
  - by intros times r [= <-].
  - intros times r [= <-]. by rewrite length_fmap.
  - intros times x y z [= <- <- <-]. by rewrite !length_fmap.
Qed.

Definition loaded : HipparcosLogProb float :=
  Eval vm_compute in
    match load "027321" with Ok self => self | Raise _ => set_abscissa
      {| self_hip_num := ""; self_plx0 := 0; self_pm_ra0 := 0;
         self_pm_dec0 := 0; self_alpha0 := 0; self_delta0 := 0;
         self_plx0_err := 0; self_pm_ra0_err := 0; self_pm_dec0_err := 0;
         self_alpha0_err := 0; self_delta0_err := 0; self_epochs := [];
         self_epochs_mjd := []; self_cos_phi := []; self_sin_phi := [];
         self_R := []; self_eps := []; self_X := []; self_Y := [];
         self_Z := []; self_alpha_abs_st := []; self_delta_abs := [] |}
      [] [] end.

Definition star : HipparcosLogProb float :=
  Eval vm_compute in
    match reconstruct loaded with Ok self => self | Raise _ => loaded end.

Definition cand (pm_ra pm_dec alpha_H0 delta_H0 plx : float)
    : Astrometry float :=
  {| c_pm_ra := pm_ra; c_pm_dec := pm_dec; c_alpha_H0 := alpha_H0;
     c_delta_H0 := delta_H0; c_plx := plx |}.

Definition companion (sma mtot m1 : float) : Orbit float :=
  {| o_sma := sma; o_ecc := 0; o_inc := 0; o_aop := 0; o_pan := 0;
     o_tau := 0; o_mtot := mtot; o_m1 := m1 |}.

(** The catalogue solution itself, a perturbed one, one of negative
    parallax. *)
Definition batch : list (Astrometry float) :=
  [cand 4 (-8) 0 0 2; cand 4.5 (-8) 0.25 0 2.5; cand 4 (-8) 0 0 (-1)].

Definition batch13 : list (Astrometry float * Orbit float) :=
  [(cand 4 (-8) 0 0 2, companion 1 1 0.5);
   (cand 4 (-8) 0 0 2, companion 1 1 0)].

(** Five rows of which the last has one entry too many. *)
Definition ragged : list (list float) :=
  [[4; 4]; [-8; -8]; [0; 0]; [0; 0]; [2; 2; 2]].

(** ** The fixtures satisfy the hypotheses of the theorems *)

Lemma loaded_ok : load "027321" = Ok loaded.
Proof. vm_compute. reflexivity. Qed.

Lemma star_ok : init "027321" = Ok star.
Proof. vm_compute. reflexivity. Qed.

Lemma star_wf : wf star.
Proof. vm_compute. repeat split. Qed.

End Fix64.

(** ** The end-to-end scenario of the specification

    Two scans along the axes, residuals zero and uncertainties one, a
    catalogue solution that is zero throughout and an Earth at the
    barycentre; [dt1] and [dt2] are the epochs of the two scans in
    years since 1991.25. *)

Module Scenario.

Import Fix64.
Local Open Scope float_scope.

Definition catalog0 : Catalog float := {|
  cat_RArad := 0; cat_e_RArad := 0; cat_DErad := 0; cat_e_DErad := 0;
  cat_Plx := 0; cat_e_Plx := 0; cat_pmRA := 0; cat_e_pmRA := 0;
  cat_pmDE := 0; cat_e_pmDE := 0
|}.

Definition two_scans (dt1 dt2 : float) : list (list float) :=
  [ [0; dt1; 0; 1; 0; 0; 1];
    [0; dt2; 0; 0; 1; 0; 1] ].

(** Collaborators that answer the query with [tables], the file read
    with [table] and the ephemeris with [earth]. *)
Definition answering (tables : py (list (list (Catalog float))))
    (table : py (list (list float))) (earth : list float -> list float)
    : Collaborators float := {|
  query_constraints _ := tables;
  loadtxt _ := table;
  Time_decimalyear times := Ok times;
  Time_mjd times := Ok times;
  earth_barycentric_pos times := Ok (earth times, earth times, earth times)
|}.

Definition services (table : list (list float)) : Collaborators float :=
  answering (Ok [[catalog0]]) (Ok table) (fmap (fun _ => 0)).

(** An ephemeris that answers with two positions, whatever the number
    of epochs, for a table of three scans. *)
Definition short_ephemeris : Collaborators float :=
  answering (Ok [[catalog0]]) (Ok iad_table) (fun _ => [0; 0]).

Definition loaded_short : HipparcosLogProb float :=
  Eval vm_compute in
    match load (H1 := short_ephemeris) "000001" with
    | Ok self => self
    | Raise _ => loaded
    end.

(** Four scans along right ascension of which the first has a residual
    of [2^26]: its square is [2^52], next to which [0.25] is lost. *)
Definition heavy : list (list float) :=
  [ [0; 0; 0; 1; 0; 67108864; 1];
    [0; 0; 0; 1; 0; 0.5; 1];
    [0; 0; 0; 1; 0; 0.5; 1];
    [0; 0; 0; 1; 0; 0.5; 1] ].

(** The services on a single epoch, for a file of one data row. *)
#[export] Instance point_services : PointCollaborators float := {|
  Time_decimalyear0 t := Ok t;
  Time_mjd0 t := Ok t;
  earth_barycentric_pos0 _ := Ok (0, 0, 0)
|}.

(** A file of one data row. *)
Definition one_scan : list float := [0; 0; 0; 1; 0; 0; 1].

Definition loaded_point : HipparcosLogProb float :=
  Eval vm_compute in
    match load_point "000001" catalog0 one_scan with
    | Ok self => self
    | Raise _ => loaded
    end.

(** The constructor on a table, then the method on one candidate. *)
Definition score (table : list (list float)) (candidate : list float)
    (negative : bool) : py (retval float) :=
  self <- init (H1 := services table) "000001" ;;
  compute_lnprob self ((fun x => [x]) <$> candidate) negative.

End Scenario.

(** ** Services of the script

    A posterior of two orbits; the random generator is a counter, and a
    draw of [n] values at count [g] is [n] times
    [loc + scale * g]. *)

Module FixScript.

Import Fix64.
Local Open Scope float_scope.

Definition frame : OrbFrame float := {|
  df_m_st := [1; 1.5]; df_mp := [0.5; 0];
  df_plx := [2; 2.5]; df_sma := [1; 3]; df_ecc := [0; 0];
  df_inc_rad := [0; 0]; df_omega_pl_rad := [0; 0]; df_lan_rad := [0; 0];
  df_tau_58849 := [0; 0]
|}.

#[export] Instance services : ScriptServices float := {|
  Rng := nat;
  Chains := unit;
  read_csv _ := Ok tt;
  df_sample _ _ g := (Ok tt, S g);
  compute_sep _ _ _ _ _ _ _ _ _ g := (Ok frame, S g);
  random_normal loc scale n g :=
    (Ok (replicate n (loc + scale * float_of_Z (Z.of_nat g))), S g)
|}.

Definition world (g : nat) (out : list (Event float)) : World float :=
  {| w_rng := g; w_out := out |}.

Definition world0 : World float := world 0 [].

(** The matrix the script builds on these services. *)
Definition drawn : list (list float) :=
  Eval vm_compute in
    match (draw_samples star world0).1 with
    | Ok samples => samples
    | Raise _ => []
    end.

(** The epoch loop of a five-parameter fit of [batch], and a matrix
    that [np.empty] may return. *)
Definition loop_body : nat -> py (list float) :=
  epoch_dist star (c_pm_ra <$> batch) (c_pm_dec <$> batch)
    (c_alpha_H0 <$> batch) (c_delta_H0 <$> batch) (c_plx <$> batch) None
    (length batch).

Definition garbage : list (list float) :=
  [[nan; 1; 2]; [3; infinity; 5]; [6; 7; nan]].

(** Three scores, the second of which is NaN. *)
Definition scores_nan : list float := [-1; nan; -3].

(** A thousand and one scores: minus infinity, NaN, and zeros. *)
Definition scores64 : list float :=
  neg_infinity :: nan :: replicate 999 0.

End FixScript.

(** ** Exact fixtures over the canonical rationals *)

Module FixQ.

Definition qc (q : Q) : Qc := Q2Qc q.

(** Sine and cosine at the angle zero, the only angle of the fixture
    catalogue. *)
#[export] Instance trigQ : KTrig Qc := {|
  ksin _ := qc 0;
  kcos _ := qc 1;
  kradians x := x
|}.

(** The companion that sits still, as in [Fix64]. *)
Definition orbit1Q (mjd sma ecc inc aop pan tau plx mtot : ext Qc)
    : ext Qc * ext Qc := (fmul sma plx, flit 0).

#[export] Instance orbitQ : OrbitModel (ext Qc) := {|
  calc_orbit mjd sma ecc inc aop pan tau plx mtot :=
    Ok (zip_with fmul sma plx, (fun _ => flit 0) <$> sma,
        (fun _ => flit 0) <$> sma)
|}.

#[export] Instance orbit_pointwiseQ : OrbitPointwise (ext Qc).
Proof.
  refine {| Reference.orbit1 := orbit1Q |}.
  intros D cands mjd sma ecc inc aop pan tau plx mtot. eexists. simpl.
  by rewrite zip_with_fmap_same, <- !list_fmap_compose.
Defined.

Definition catalogQ : Catalog Qc := {|
  cat_RArad := qc 0; cat_e_RArad := qc 0.5;
  cat_DErad := qc 0; cat_e_DErad := qc 0.5;
  cat_Plx := qc 2; cat_e_Plx := qc 0.25;
  cat_pmRA := qc 4; cat_e_pmRA := qc 0.5;
  cat_pmDE := qc (-8); cat_e_pmDE := qc 0.5
|}.

Definition scanQ (epoch cos_phi sin_phi R eps : Q) : Scan Qc := {|
  s_epoch := qc epoch; s_mjd := qc ((epoch - 1991.25) * 365.25 + 48348.5625);
  s_cos_phi := qc cos_phi; s_sin_phi := qc sin_phi;
  s_R := qc R; s_eps := qc eps;
  s_X := qc 1; s_Y := qc 0.5; s_Z := qc (-0.25);
  s_alpha_abs_st := qc 0; s_delta_abs := qc 0
|}.

(** The scans of [Fix64.iad_table], before the reconstruction. *)
Definition scansQ : list (Scan Qc) :=
  [scanQ 1990.25 1 0 0.5 1; scanQ 1991.25 0 1 (-1.5) 2;
   scanQ 1991.75 0.6 0.8 2 0.5].

Definition candQ (pm_ra pm_dec alpha_H0 delta_H0 plx : Q) : Astrometry Qc :=
  {| c_pm_ra := qc pm_ra; c_pm_dec := qc pm_dec; c_alpha_H0 := qc alpha_H0;
     c_delta_H0 := qc delta_H0; c_plx := qc plx |}.

Definition companionQ (sma mtot m1 : Q) : Orbit Qc :=
  {| o_sma := qc sma; o_ecc := qc 0; o_inc := qc 0; o_aop := qc 0;
     o_pan := qc 0; o_tau := qc 0; o_mtot := qc mtot; o_m1 := qc m1 |}.

Definition batchQ : list (Astrometry Qc) :=
  [candQ 4 (-8) 0 0 2; candQ 4.5 (-8) 0.25 0 2.5; candQ 4 (-8) 0 0 (-1)].

(** A thousand and one scores, of which the first is minus
    infinity. *)
Definition scoresQ : list (ext Qc) := NInf :: replicate 1000 (Fin (qc 0)).

(** A companion of a third of the mass, and one without mass. *)
Definition batch13Q : list (Astrometry Qc * Orbit Qc) :=
  [(candQ 4 (-8) 0 0 2, companionQ 1 1.5 0.5);
   (candQ 4.5 (-8) 0.25 0 2.5, companionQ 3 2 0)].

(** Companions without mass. *)
Definition massless13Q : list (Astrometry Qc * Orbit Qc) :=
  [(candQ 4 (-8) 0 0 2, companionQ 1 1 0);
   (candQ 4.5 (-8) 0.25 0 2.5, companionQ 3 2 0)].

Lemma scansQ_eps : Forall (fun s => s_eps s <> 0%K) scansQ.
Proof.
  repeat (apply Forall_cons_2; [by apply Qc_neq_by_compute |]). apply Forall_nil_2.
Defined.

Lemma reconstructedQ_eps :
  Forall (fun s => s_eps s <> 0%K) (kreconstructed catalogQ scansQ).
Proof.
  repeat (apply Forall_cons_2; [by apply Qc_neq_by_compute |]). apply Forall_nil_2.
Defined.

Lemma scansQ_unit :
  Forall (fun s => (s_cos_phi s * s_cos_phi s + s_sin_phi s * s_sin_phi s
                    = 1)%K) scansQ.
Proof.
  repeat (apply Forall_cons_2; [by apply Qc_eq_by_compute |]). apply Forall_nil_2.
Defined.

End FixQ.

(** ** Witnesses *)

Import Fix64 FixQ FixScript.

Lemma compute_lnprob_batch_5_witness :
  compute_lnprob star (rows_5 batch) false
  = Ok (RetArray (apply_negative false
          ((fun c => lnprob_candidate star c None) <$> batch))).
Proof.
  apply compute_lnprob_batch_5; [vm_compute; repeat split | discriminate].
Defined.

Lemma compute_lnprob_batch_13_witness :
  compute_lnprob star (rows_13 batch13) true
  = Ok (RetArray (apply_negative true
          ((fun co => lnprob_candidate star co.1 (companion_of co.1 co.2))
             <$> batch13))).
Proof.
  apply compute_lnprob_batch_13; [vm_compute; repeat split | discriminate].
Defined.

Lemma compute_lnprob_bad_param_count_witness :
  compute_lnprob star (rows_5 batch ++ [[]]) false
  = Ok (RetNone incorrect_params_msg).
Proof.
  apply compute_lnprob_bad_param_count; simpl; [lia | discriminate ..].
Defined.

Lemma compute_lnprob_ragged_witness :
  compute_lnprob star ragged false = Raise ValueError.
Proof.
  apply compute_lnprob_ragged;
    [vm_compute; repeat split | vm_compute; lia | simpl; lia ..].
Defined.

Lemma compute_lnprob_too_few_rows_witness :
  compute_lnprob star (take 4 (rows_5 batch)) false
  = Raise IndexError.
Proof. apply compute_lnprob_too_few_rows. simpl. lia. Defined.

Lemma compute_lnprob_prior_witness :
  exists lnprob,
    compute_lnprob star (rows_5 batch) false
    = Ok (RetArray lnprob) /\
    lnprob !! 2 = Some (fneg finf).
Proof.
  apply (compute_lnprob_prior star batch 2
           (cand 4 (-8) 0 0 (-1)));
    [vm_compute; repeat split | reflexivity | reflexivity].
Defined.

Lemma compute_lnprob_app_witness :
  exists lnprob1 lnprob2,
    compute_lnprob star (rows_5 (take 1 batch)) false
    = Ok (RetArray lnprob1) /\
    compute_lnprob star (rows_5 (drop 1 batch)) false
    = Ok (RetArray lnprob2) /\
    compute_lnprob star (rows_5 (take 1 batch ++ drop 1 batch)) false
    = Ok (RetArray (lnprob1 ++ lnprob2)).
Proof.
  apply compute_lnprob_app; [vm_compute; repeat split | discriminate ..].
Defined.

Lemma compute_lnprob_app_13_witness :
  exists lnprob1 lnprob2,
    compute_lnprob star (rows_13 batch13) true = Ok (RetArray lnprob1) /\
    compute_lnprob star (rows_13 batch13) true = Ok (RetArray lnprob2) /\
    compute_lnprob star (rows_13 (batch13 ++ batch13)) true
    = Ok (RetArray (lnprob1 ++ lnprob2)).
Proof. apply compute_lnprob_app_13; [exact star_wf | done | done]. Defined.

Lemma compute_lnprob_prior_13_witness :
  exists lnprob,
    compute_lnprob star
      (rows_13 [(cand 4 (-8) 0 0 2, companion 1 1 0.5);
                (cand 4 (-8) 0 0 0, companion 1 1 0.5)]) false
    = Ok (RetArray lnprob) /\
    lnprob !! 1 = Some (fneg finf).
Proof.
  apply (compute_lnprob_prior_13 star _ 1
           (cand 4 (-8) 0 0 0, companion 1 1 0.5));
    [vm_compute; repeat split | reflexivity | reflexivity].
Defined.

Lemma compute_lnprob_length_witness :
  exists lnprob,
    compute_lnprob star (rows_5 batch) true
    = Ok (RetArray lnprob) /\
    length lnprob = length batch.
Proof.
  apply compute_lnprob_length; [vm_compute; repeat split | discriminate].
Defined.

Lemma compute_lnprob_empty_batch_witness :
  compute_lnprob star (rows_5 []) false = Raise AxisError.
Proof. apply compute_lnprob_empty_batch. vm_compute. repeat split. Defined.

Lemma init_spec_witness :
  exists self,
    init "027321" = Ok self /\ wf self /\
    n_epochs self = n_epochs loaded /\
    Forall (fun sc => (s_alpha_abs_st sc, s_delta_abs sc) = abscissa self sc)
      (scans self).
Proof. apply init_spec. vm_compute. reflexivity. Defined.

Lemma reconstruct_shape_mismatch_witness :
  reconstruct Scenario.loaded_short = Raise ValueError.
Proof. apply reconstruct_shape_mismatch; simpl; lia. Defined.

Lemma init_unknown_star_witness :
  init (H1 := Scenario.answering (Ok [[]]) (Ok iad_table) id) "000001"
  = Raise IndexError.
Proof.
  apply (init_unknown_star _ [[]]); [reflexivity | right; by exists []].
Defined.

Lemma init_loadtxt_raises_witness :
  init (H1 := Scenario.answering (Ok [[catalog_row]])
                (Raise (ExternalError "OSError")) id) "000001"
  = Raise (ExternalError "OSError").
Proof. by apply (init_loadtxt_raises _ catalog_row [] []). Defined.

Lemma compute_lnprob_ideal_5_witness :
  compute_lnprob (ideal_object "027321" catalogQ (kreconstructed catalogQ scansQ))
    (rows_5 (fin_astrometry <$> batchQ)) false
  = Ok (RetArray
          ((fun c => klnprob (c_plx c)
                       (kchi2 (kreconstructed catalogQ scansQ)
                          (fun s => kposition catalogQ s c))) <$> batchQ)).
Proof.
  apply compute_lnprob_ideal_5; [exact reconstructedQ_eps | discriminate].
Defined.

Lemma catalogue_solution_lnprob_witness :
  compute_lnprob
    (ideal_object "027321" catalogQ (kreconstructed catalogQ scansQ))
    (rows_5 [fin_astrometry (catalogue_candidate catalogQ)]) false
  = Ok (RetArray
          [Fin (k_of_Q (-0.5)
                * ksum ((fun s => (s_R s / s_eps s) * (s_R s / s_eps s))
                          <$> scansQ))%K]).
Proof.
  apply (catalogue_solution_lnprob "027321" catalogQ scansQ);
    [exact scansQ_unit | exact scansQ_eps | reflexivity
    | apply reconstruct_ideal].
Defined.

Lemma compute_lnprob_ideal_13_witness :
  compute_lnprob (ideal_object "027321" catalogQ scansQ)
    (rows_13 ((fun co => (fin_astrometry co.1, fin_orbit co.2))
                <$> batch13Q)) false
  = Ok (RetArray
          ((fun co =>
              klnprob (c_plx co.1)
                (kchi2 scansQ
                   (fun s => kperturbed co.2
                               ((o_sma co.2 * c_plx co.1)%K, k_of_Q 0)
                               (kposition catalogQ s co.1))))
             <$> batch13Q)).
Proof.
  apply (compute_lnprob_ideal_13 "027321" catalogQ scansQ batch13Q
           (fun s co => ((o_sma co.2 * c_plx co.1)%K, k_of_Q 0)));
    [exact scansQ_eps | discriminate | | reflexivity].
  repeat (apply Forall_cons_2; [by apply Qc_neq_by_compute |]).
  apply Forall_nil_2.
Defined.

Lemma compute_lnprob_massless_witness :
  compute_lnprob (ideal_object "027321" catalogQ scansQ)
    (rows_13 ((fun co => (fin_astrometry co.1, fin_orbit co.2))
                <$> massless13Q)) false
  = compute_lnprob (ideal_object "027321" catalogQ scansQ)
      (rows_5 ((fun co => fin_astrometry co.1) <$> massless13Q)) false.
Proof.
  apply compute_lnprob_massless; [discriminate | |].
  - repeat (apply Forall_cons_2;
      [split; [by apply Qc_eq_by_compute | by apply Qc_neq_by_compute] |]).
    apply Forall_nil_2.
  - intros s co _ _. by exists ((o_sma co.2 * c_plx co.1)%K, k_of_Q 0).
Defined.

Lemma compute_lnprob_nonpos_witness :
  exists lnprob,
    compute_lnprob (ideal_object "027321" catalogQ scansQ)
      (rows_5 (fin_astrometry <$> batchQ)) false = Ok (RetArray lnprob) /\
    Forall (fun v => ext_le v (Fin 0%K) = true) lnprob.
Proof.
  apply compute_lnprob_nonpos; [exact scansQ_eps | discriminate].
Defined.

Lemma compute_lnprob_negative_ideal_witness :
  compute_lnprob (ideal_object "027321" catalogQ scansQ)
    (rows_5 (fin_astrometry <$> batchQ)) true
  = Ok (RetArray
          ((fun c => ext_neg
                       (klnprob (c_plx c)
                          (kchi2 scansQ (fun s => kposition catalogQ s c))))
             <$> batchQ)).
Proof.
  apply compute_lnprob_negative_ideal; [exact scansQ_eps | discriminate].
Defined.

Lemma compute_lnprob_zero_iff_witness :
  compute_lnprob (ideal_object "027321" catalogQ scansQ)
    (rows_5 [fin_astrometry (candQ 4 (-8) 0 0 2)]) false
  = Ok (RetArray [Fin 0%K])
  <-> Forall (fun s => kresidual s (kposition catalogQ s (candQ 4 (-8) 0 0 2))
                       = 0%K) scansQ.
Proof.
  apply compute_lnprob_zero_iff; [exact scansQ_eps | reflexivity].
Defined.

Lemma compute_lnprob_binary64_sign_witness :
  exists lnprob,
    compute_lnprob star (rows_13 batch13) false = Ok (RetArray lnprob) /\
    Forall (sign_ok false) lnprob.
Proof.
  eexists. split; [reflexivity |].
  by apply (compute_lnprob_binary64_sign star (rows_13 batch13) false).
Defined.

Lemma compute_lnprob_nan_parallax_5_witness :
  scored_nan
    (compute_lnprob star (rows_5 [cand 4 (-8) 0 0 2; cand 4 (-8) 0 0 nan])
       false) 1.
Proof.
  apply (compute_lnprob_nan_parallax_5 star _ 1 (cand 4 (-8) 0 0 nan));
    [exact star_wf | by vm_compute | reflexivity | reflexivity].
Defined.

Lemma compute_lnprob_nan_mass_ratio_witness :
  scored_nan
    (compute_lnprob star
       (rows_13 [(cand 4 (-8) 0 0 2, companion 1 1 0.5);
                 (cand 4 (-8) 0 0 2, companion 1 0 0)]) false) 1.
Proof.
  apply (compute_lnprob_nan_mass_ratio star _ 1
           (cand 4 (-8) 0 0 2, companion 1 0 0));
    [exact star_wf | by vm_compute | reflexivity | reflexivity
    | reflexivity].
Defined.

Lemma compute_lnprob_massless_any_witness :
  compute_lnprob star
    (rows_13 [(cand 4 (-8) 0 0 2, companion 1 1 0);
              (cand 4.5 (-8) 0.25 0 2.5, companion 3 infinity (-0))]) true
  = compute_lnprob star
      (rows_5 [cand 4 (-8) 0 0 2; cand 4.5 (-8) 0.25 0 2.5]) true.
Proof.
  apply (compute_lnprob_massless_any star
           [(cand 4 (-8) 0 0 2, companion 1 1 0);
            (cand 4.5 (-8) 0.25 0 2.5, companion 3 infinity (-0))] true);
    [exact star_wf | discriminate | by repeat constructor |].
  intros sc co _. revert co. apply Forall_forall. by repeat constructor.
Defined.

Lemma compute_lnprob_frame_witness :
  compute_lnprob (with_catalogue star "000000" nan nan nan nan nan nan nan nan [])
    (rows_5 batch) true
  = compute_lnprob star (rows_5 batch) true.
Proof. apply compute_lnprob_frame. reflexivity. Defined.

Lemma compute_lnprob_shape_only_witness :
  py_rel same_retval
    (compute_lnprob star (rows_5 batch) false)
    (compute_lnprob
       (ideal_object "027321" catalogQ (kreconstructed catalogQ scansQ))
       (rows_5 (fin_astrometry <$> batchQ)) false).
Proof.
  apply compute_lnprob_shape_only.
  - by split.
  - by repeat constructor.
  - intros plx1 plx2 [= <-] [= <-]. by vm_compute.
  - intros [=].
Defined.

Lemma reconstruct_any_scan_direction_witness :
  exists r',
    reconstruct
      (with_scan_directions loaded [2; 0; 3]%float [0; 2; 4]%float)
    = Ok r' /\
    same_shape r' star.
Proof.
  apply (reconstruct_any_scan_direction loaded _ _ star); reflexivity.
Defined.

Lemma init_any_single_scan_witness :
  exists self,
    init_any (services := Scenario.services [Scenario.one_scan])
      (point := Scenario.point_services) "000001"
    = Ok (Single self) /\
    wf self /\ n_epochs self = 1%nat /\
    Forall (fun sc => (s_alpha_abs_st sc, s_delta_abs sc) = abscissa self sc)
      (scans self) /\
    forall s negative lnprob,
      compute_lnprob_any (Single self) s negative <> Ok (RetArray lnprob).
Proof.
  apply (init_any_single_scan
           (services := Scenario.services [Scenario.one_scan])
           (point := Scenario.point_services) "000001" Scenario.catalog0 Scenario.one_scan
           Scenario.loaded_point); reflexivity.
Defined.

Lemma compute_lnprob_scan_order_witness :
  scores_of_scans "027321" catalogQ scansQ batchQ false
  = scores_of_scans "027321" catalogQ (reverse scansQ) batchQ false.
Proof.
  apply compute_lnprob_scan_order;
    [symmetry; apply reverse_Permutation | exact scansQ_eps | discriminate].
Defined.

(** Two scans along declination. *)
Definition scans_decQ : list (Scan Qc) :=
  [scanQ 1991.25 0 1 (-1.5) 2; scanQ 1992.25 0 1 1 0.5].

Lemma compute_lnprob_same_view_witness :
  compute_lnprob (ideal_object "027321" catalogQ scans_decQ)
    (rows_5 (fin_astrometry <$> [candQ 4 (-8) 0 0 2])) false
  = compute_lnprob (ideal_object "027321" catalogQ scans_decQ)
      (rows_5 (fin_astrometry <$> [candQ 7 (-8) 3 0 2])) false.
Proof.
  apply compute_lnprob_same_view; [| discriminate |].
  - repeat constructor; by apply Qc_neq_by_compute.
  - constructor; [| constructor].
    apply (same_view_across catalogQ scans_decQ (candQ 4 (-8) 0 0 2)
             (qc 7) (qc 3)).
    repeat constructor; by apply Qc_eq_by_compute.
Defined.

Lemma compute_lnprob_shared_parallax_witness :
  compute_lnprob star (rows_shared batch (-1)%float) false
  = Ok (RetArray
          (<[0 := fneg finf]>
             ((fun c => unmasked star (with_plx c (-1)%float)) <$> batch))).
Proof.
  rewrite (compute_lnprob_shared_parallax star batch (-1)%float false
             star_wf); [reflexivity | discriminate].
Defined.

Lemma compute_lnprob_accepts_witness :
  compute_lnprob star ragged false = Raise ValueError
  /\ exists lnprob,
       compute_lnprob star [[4; 4.5]; [-8]; [0; 0.25]; [0]; [2]]%float false
       = Ok (RetArray lnprob) /\ length lnprob = 2%nat.
Proof.
  split.
  - exact (compute_lnprob_accepts star [4; 4] [-8; -8] [0; 0] [0; 0]
             [2; 2; 2] false star_wf ltac:(discriminate))%float.
  - exact (compute_lnprob_accepts star [4; 4.5] [-8] [0; 0.25] [0] [2]
             false star_wf ltac:(discriminate))%float.
Defined.

(** The object the constructor returns when the ephemeris answers with
    one position for the three scans. *)
Definition short_star : HipparcosLogProb float :=
  Eval vm_compute in
    match init (H1 := Scenario.answering (Ok [[catalog_row]])
                        (Ok iad_table) (fun _ => [1]%float)) "000001" with
    | Ok self => self
    | Raise _ => star
    end.

Lemma compute_lnprob_short_ephemeris_witness :
  init (H1 := Scenario.answering (Ok [[catalog_row]]) (Ok iad_table)
                (fun _ => [1]%float)) "000001" = Ok short_star
  /\ compute_lnprob short_star [[4; 4.5]; [-8]; [0; 0.25]; [0]; [2]]%float
       false = Raise IndexError.
Proof.
  split; [by vm_compute |].
  apply (compute_lnprob_short_ephemeris short_star [4; 4.5] [-8] [0; 0.25]
           [0] [2] false)%float.
  - vm_compute. lia.
  - intros i Hi. vm_compute in Hi. unfold covers. simpl. lia.
  - repeat constructor; by right.
Defined.

Lemma fit_accepts_witness :
  fit "027321" ragged false = Raise ValueError
  /\ exists lnprob,
       fit "027321" [[4; 4.5]; [-8]; [0; 0.25]; [0]; [2]]%float false
       = Ok (RetArray lnprob) /\ length lnprob = 2%nat.
Proof.
  split.
  - exact (fit_accepts "027321" [4; 4] [-8; -8] [0; 0] [0; 0] [2; 2; 2]
             false)%float.
  - exact (fit_accepts "027321" [4; 4.5] [-8] [0; 0.25] [0] [2]
             false)%float.
Defined.

Lemma fit_batch_5_witness :
  fit "027321" (rows_5 batch) true
  = Ok (RetArray
          (apply_negative true
             ((fun c => lnprob_candidate (reconstructed loaded) c None)
                <$> batch))).
Proof.
  apply (fit_batch_5 "027321" loaded); [by vm_compute | discriminate].
Defined.

Lemma fit_batch_13_witness :
  fit "027321" (rows_13 batch13) false
  = Ok (RetArray
          ((fun co => lnprob_candidate (reconstructed loaded) co.1
                        (companion_of co.1 co.2)) <$> batch13)).
Proof.
  apply (fit_batch_13 "027321" loaded batch13 false);
    [by vm_compute | discriminate].
Defined.



Lemma lnprob_body_loop_spec_witness :
  lnprob_body_loop star (c_pm_ra <$> batch) (c_pm_dec <$> batch)
    (c_alpha_H0 <$> batch) (c_delta_H0 <$> batch) (c_plx <$> batch) None
    false garbage
  = lnprob_body star (c_pm_ra <$> batch) (c_pm_dec <$> batch)
      (c_alpha_H0 <$> batch) (c_delta_H0 <$> batch) (c_plx <$> batch) None
      false.
Proof. apply lnprob_body_loop_spec. reflexivity. Defined.

Lemma main_completes_witness :
  exists lnprob,
    compute_lnprob star drawn false = Ok (RetArray lnprob) /\
    Forall (fun r => length r = length lnprob) drawn /\
    main world0
    = (Ok tt, world 6 ([] ++ script_events drawn lnprob)).
Proof.
  apply (main_completes world0 star drawn (world 6 []));
    [exact star_ok | vm_compute; reflexivity | discriminate].
Defined.


Lemma draw_samples_spec_witness :
  draw_samples star world0
  = (Ok (stacked (replicate 2 (self_pm_ra0 star + self_pm_ra0_err star * 2))
           (replicate 2 (self_pm_dec0 star + self_pm_dec0_err star * 3))
           (replicate 2 (0 + float_of_Q 0.1 * 4))
           (replicate 2 (0 + float_of_Q 0.1 * 5)) frame)%float,
     world 6 []).
Proof.
  unfold world0, world. eapply draw_samples_spec; try reflexivity.
  vm_compute. repeat constructor.
Defined.

Lemma alpha_panel_plots_declination_witness :
  exists evs,
    io_writes (figure (stacked [1; 2] [3; 4] [5; 6] [7; 8] frame)%float [1; 0])
      (evs ++ [Hist 4 [7; 8]%float (legacy_style None);
               Hist 4 ((fun i => [7; 8]%float !!! i) <$> [1; 0])
                 (best_style None);
               SetXLabel 4 "$\alpha_{{\rm H0}}$ [mas]"]).
Proof.
  apply (alpha_panel_plots_declination _ _ _ _ _ _ 2);
    repeat constructor.
Defined.

Lemma best_orbit_indices_best_witness :
  sort_le neg_infinity nan = true.
Proof.
  apply (best_orbit_indices_best scores64 1 0);
    [apply (bool_decide_unpack _); vm_compute; exact I
    | apply (bool_decide_unpack _); vm_compute; exact I
    | reflexivity | reflexivity].
Defined.

Lemma best_orbit_indices_nan_witness :
  (1%nat) ∈ best_orbit_indices scores64.
Proof.
  apply (best_orbit_indices_nan scores64 2 1 0%float nan);
    [apply (bool_decide_unpack _); vm_compute; exact I
    | reflexivity | reflexivity | reflexivity | reflexivity].
Defined.

(** The same in exact arithmetic. *)
Lemma np_slice_last_argsort_exact :
  sort_le (NInf : ext Qc) (Fin (qc 0)) = true.
Proof.
  apply (np_slice_last_argsort_dominates scoresQ 1000 1 0);
    [apply (bool_decide_unpack _); vm_compute; exact I
    | apply (bool_decide_unpack _); vm_compute; exact I
    | reflexivity | reflexivity].
Qed.

(** ** Concrete runs on binary64 *)

Local Open Scope float_scope.

(** The end-to-end scenario of the specification.  With two scans
    along the axes, zero residuals, unit uncertainties and a zero
    catalogue solution, the candidate of parallax one and nothing else
    fits perfectly (the result is the float [-0.], which equals zero),
    the candidate of parallax minus one is scored minus infinity, and a
    proper motion of one in right ascension costs [-0.5] when the scan
    one year after the catalogue epoch is the one along right
    ascension. *)
Example scenario_runs :
  Scenario.score (Scenario.two_scans 0 0) [0; 0; 0; 0; 1] false
  = Ok (RetArray [-0])
  /\ Scenario.score (Scenario.two_scans 0 0) [0; 0; 0; 0; -1] false
     = Ok (RetArray [neg_infinity])
  /\ Scenario.score (Scenario.two_scans 1 0) [1; 0; 0; 0; 1] false
     = Ok (RetArray [-0.5]).
Proof. repeat split; vm_compute; reflexivity. Qed.

(** A proper motion across the scan direction is not seen.  In the
    scenario, when the scan one year after the catalogue epoch is the
    one along declination, the candidate with a proper motion of one in
    right ascension still fits perfectly. *)
Example scenario_motion_across_scan :
  Scenario.score (Scenario.two_scans 0 1) [1; 0; 0; 0; 1] false
  = Ok (RetArray [-0]).
Proof. vm_compute. reflexivity. Qed.

(** A companion without mass in a system without mass.  With
    [m1 = 0] and [mtot = 0] the mass ratio is [0/0] and the result is
    NaN, which the five-parameter fit of the same candidate is not;
    with [m1 = 0] and [mtot = 1] the two agree on binary64 as well. *)
Example compute_lnprob_massless_zero_total_mass :
  compute_lnprob star (rows_13 [(cand 4 (-8) 0 0 2, companion 1 0 0)]) false
  = Ok (RetArray [nan])
  /\ compute_lnprob star (rows_5 [cand 4 (-8) 0 0 2]) false
     <> Ok (RetArray [nan])
  /\ compute_lnprob star (rows_13 [(cand 4 (-8) 0 0 2, companion 1 1 0)]) false
     = compute_lnprob star (rows_5 [cand 4 (-8) 0 0 2]) false.
Proof.
  split; [| split]; [vm_compute; reflexivity | | vm_compute; reflexivity].
  vm_compute. intros [=].
Qed.

(** On binary64 a score of zero is not a perfect fit: a residual of
    [2^-600] squares to zero, so the candidate whose offset in right
    ascension is [2^-600] gets the score [-0.] of the candidate that
    fits perfectly ([Ideal.compute_lnprob_zero_iff] holds in exact
    arithmetic only). *)
Example zero_score_binary64 :
  Scenario.score (Scenario.two_scans 0 0) [0; 0; 0x1p-600; 0; 1] false
  = Ok (RetArray [-0])
  /\ Scenario.score (Scenario.two_scans 0 0) [0; 0; 0x1p-500; 0; 1] false
     = Ok (RetArray [-0x1p-1001]).
Proof. split; vm_compute; reflexivity. Qed.

(** On binary64 the order of the scans shows in the last bits: the
    sum of the squares [2^52, 0.25, 0.25, 0.25] is [2^52] from left to
    right and [2^52 + 1] from right to left. *)
Example scan_order_binary64 :
  Scenario.score Scenario.heavy [0; 0; 0; 0; 1] false
  = Ok (RetArray [-2251799813685248])
  /\ Scenario.score (reverse Scenario.heavy) [0; 0; 0; 0; 1] false
     = Ok (RetArray [-2251799813685248.5]).
Proof. split; vm_compute; reflexivity. Qed.

(** A shared parallax of minus one: the first candidate is masked, the
    second is scored with it. *)
Example shared_parallax_binary64 :
  compute_lnprob star [[4; 4.5]; [-8; -8]; [0; 0.25]; [0; 0]; [-1]] false
  = Ok (RetArray [neg_infinity; -0x1.116147ae147bp+2]).
Proof. vm_compute. reflexivity. Qed.

(** A NaN parallax passes the prior: [nan <= 0] is false, the
    entry is not set to minus infinity and the result is NaN. *)
Example compute_lnprob_nan_parallax :
  compute_lnprob star (rows_5 [cand 4 (-8) 0 0 nan]) false
  = Ok (RetArray [nan]).
Proof. vm_compute. reflexivity. Qed.

(** The constructor does not check the scan directions: a table
    whose scan vectors have length two is accepted, and the method
    scores against it. *)
Example init_accepts_non_unit_scan :
  Scenario.score [[0; 0; 0; 2; 0; 0; 1]; [0; 0; 0; 0; 2; 0; 1]]
    [0; 0; 0.5; 0; 1] false
  = Ok (RetArray [-0.5]).
Proof. vm_compute. reflexivity. Qed.

(** An ephemeris of a single position is not a mismatch for NumPy.
    When the ephemeris answers with one position for three scans, the
    reconstruction broadcasts it: the constructor returns an object
    with three abscissa points and one Earth position, and the method
    then raises [IndexError] at the second epoch. *)
Example init_broadcasts_single_position :
  (self <- init (H1 := Scenario.answering (Ok [[catalog_row]])
                          (Ok iad_table) (fun _ => [1])) "000001" ;;
   Ok (length (self_X self), length (self_alpha_abs_st self)))
  = Ok (1, 3)%nat
  /\ (self <- init (H1 := Scenario.answering (Ok [[catalog_row]])
                             (Ok iad_table) (fun _ => [1])) "000001" ;;
      compute_lnprob self (rows_5 batch) false)
     = Raise IndexError.
Proof. split; vm_compute; reflexivity. Qed.

(** A NaN ranks best.  [argsort] puts NaN after every number, so
    the slice of the best orbits takes the candidates whose score is
    NaN first: of the scores [-1, nan, -3] the best is the second. *)
Example nan_ranks_best :
  best_orbit_indices scores_nan = [2; 0; 1]%nat
  /\ np_slice_last 1 (np_argsort scores_nan) = [1%nat].
Proof. split; vm_compute; reflexivity. Qed.
