(* ===== verification/Figures.v ===== *)
(** * Figures: the accuracy theorems at concrete inputs

    The theorems of [Accuracy] and [Roundoff] applied to the binary64
    object of [Fixtures]: a star with three scans, whose uncertainties
    are [1], [2] and [0.5], and the batch of candidates scored there.
    Every hypothesis is discharged by evaluation. *)

Set Warnings "-hiding-delimiting-key".
From Stdlib Require Import Reals Lia QArith PrimFloat.
From S2P Require Import Prelude RealLemmas Scalar NumPy Sorting.
From S2P Require Import Reconstructor Evaluator Reference Zeros.
From S2P Require Import FloatError Accuracy Roundoff Range Fixtures.

Import Fix64.
Local Open Scope R_scope.

(** A matrix of distances for two candidates at the three scans. *)
Definition dist0 : list (list float) :=
  [[1.5; 0.125]; [0.25; 3]; [2; 0.75]]%float.

Definition chi2_0 : list float :=
  match chi2_of star 2 dist0 with Ok c => c | Raise _ => [] end.

Lemma star_usable : usable (self_eps star).
Proof. unfold usable. repeat (constructor; [by vm_compute |]). constructor. Qed.

Lemma star_usable_scans : usable_scans star.
Proof.
  unfold usable_scans. repeat (constructor; [by vm_compute |]). constructor.
Qed.

Lemma chi2_of_binary64_witness :
  exists col,
    np_column 2 dist0 1 = Ok col /\
    Forall (fun d => is_finite d = true) col /\
    Rabs (B2R (chi2_0 !!! 1%nat)
          - sumR (Rsqr <$> quotients col (self_eps star)))
    <= pow2 (-42) * sumR (Rsqr <$> quotients col (self_eps star))
       + pow2 (-1073)
         * (sumR (Rabs <$> quotients col (self_eps star))
            + INR (length dist0)).
Proof.
  apply (chi2_of_binary64 star 2 dist0 chi2_0 1 (chi2_0 !!! 1%nat)).
  - reflexivity.
  - reflexivity.
  - simpl. lia.
  - exact star_usable.
  - reflexivity.
  - by vm_compute.
Defined.

Lemma compute_lnprob_error_witness :
  exists lnprob l,
    compute_lnprob star (rows_5 batch) false = Ok (RetArray lnprob) /\
    lnprob !! 1%nat = Some l /\
    (is_finite l = true ->
     Rabs (to_R l
           - - (1 / 2)
             * sumR (Rsqr <$> quotientsR star
                       (position_of star (cand 4.5 (-8) 0.25 0 2.5) None)))
     <= lnprob_bound
          (quotientsR star
             (position_of star (cand 4.5 (-8) 0.25 0 2.5) None))).
Proof.
  apply (compute_lnprob_error star batch 1 (cand 4.5 (-8) 0.25 0 2.5)).
  - exact star_wf.
  - exact star_usable_scans.
  - reflexivity.
  - by vm_compute.
Defined.

Lemma star_tame :
  tame star (position_of star (cand 4.5 (-8) 0.25 0 2.5) None).
Proof. unfold tame. repeat (constructor; [by vm_compute |]). constructor. Qed.

Lemma compute_lnprob_binary64_witness :
  exists lnprob l,
    compute_lnprob star (rows_5 batch) false = Ok (RetArray lnprob) /\
    lnprob !! 1%nat = Some l /\ is_finite l = true /\
    Rabs (B2R l
          - - (1 / 2)
            * sumR (Rsqr <$> quotientsR star
                      (position_of star (cand 4.5 (-8) 0.25 0 2.5) None)))
    <= pow2 (-42)
       * sumR (Rsqr <$> quotientsR star
                 (position_of star (cand 4.5 (-8) 0.25 0 2.5) None))
       + pow2 (-1073)
         * (sumR (Rabs <$> quotientsR star
                    (position_of star (cand 4.5 (-8) 0.25 0 2.5) None))
            + INR (length (scans star)) + 1).
Proof.
  apply (compute_lnprob_binary64 star batch 1 (cand 4.5 (-8) 0.25 0 2.5)).
  - exact star_wf.
  - vm_compute. lia.
  - reflexivity.
  - by vm_compute.
  - exact star_tame.
Defined.

Lemma compute_lnprob_spec_error_witness :
  exists lnprob l,
    compute_lnprob star (rows_5 batch) false = Ok (RetArray lnprob) /\
    lnprob !! 1%nat = Some l /\
    (is_finite l = true ->
     Rabs (to_R l
           - - (1 / 2)
             * sumR (Rsqr <$> spec_quotients star (cand 4.5 (-8) 0.25 0 2.5)))
     <= lnprob_bound
          (quotientsR star
             (position_of star (cand 4.5 (-8) 0.25 0 2.5) None))
        + quotient_slack star (cand 4.5 (-8) 0.25 0 2.5) / 2).
Proof.
  apply (compute_lnprob_spec_error star batch 1 (cand 4.5 (-8) 0.25 0 2.5)).
  - exact star_wf.
  - exact star_usable_scans.
  - reflexivity.
  - by vm_compute.
Defined.

Lemma compute_lnprob_error_13_witness :
  exists lnprob l,
    compute_lnprob star (rows_13 batch13) false = Ok (RetArray lnprob) /\
    lnprob !! 0%nat = Some l /\
    (is_finite l = true ->
     Rabs (to_R l
           - - (1 / 2)
             * sumR (Rsqr <$> quotientsR star
                       (position_of star (cand 4 (-8) 0 0 2)
                          (companion_of (cand 4 (-8) 0 0 2)
                             (companion 1 1 0.5)))))
     <= lnprob_bound
          (quotientsR star
             (position_of star (cand 4 (-8) 0 0 2)
                (companion_of (cand 4 (-8) 0 0 2) (companion 1 1 0.5))))).
Proof.
  apply (compute_lnprob_error_13 star batch13 0
           (cand 4 (-8) 0 0 2, companion 1 1 0.5)).
  - exact star_wf.
  - exact star_usable_scans.
  - reflexivity.
  - by vm_compute.
Defined.

Lemma distance_error_witness :
  is_finite (0.375 : float)%float = true /\
  is_finite (-0.25 : float)%float = true /\
  Rabs (to_R (distance (scan_at star 2) (0.375, -0.25)%float)
        - distanceR (scan_at star 2) (0.375, -0.25)%float)
  <= g 3 * distance_mag (scan_at star 2) (0.375, -0.25)%float
     + 2 * (1 + fl_u) * fl_eta.
Proof.
  apply (distance_error (scan_at star 2) (0.375, -0.25)%float).
  by vm_compute.
Defined.

Lemma position_error_witness :
  Rabs (to_R (position star (scan_at star 2) (cand 4.5 (-8) 0.25 0 2.5)).1
        - (positionR star (scan_at star 2) (cand 4.5 (-8) 0.25 0 2.5)).1)
  <= g 3 * (position_mag star (scan_at star 2) (cand 4.5 (-8) 0.25 0 2.5)).1
     + (1 + fl_u) * (2 + fl_u) * fl_eta /\
  Rabs (to_R (position star (scan_at star 2) (cand 4.5 (-8) 0.25 0 2.5)).2
        - (positionR star (scan_at star 2) (cand 4.5 (-8) 0.25 0 2.5)).2)
  <= g 3 * (position_mag star (scan_at star 2) (cand 4.5 (-8) 0.25 0 2.5)).2
     + (1 + fl_u) * (2 + fl_u) * fl_eta.
Proof.
  apply (position_error star (scan_at star 2) (cand 4.5 (-8) 0.25 0 2.5));
    by vm_compute.
Defined.

(** The three terms of the second candidate, added from the right:
    an order [np_sum] does not use. *)
Definition terms0 : list float :=
  match chi2_terms star 2 dist0 1 with Ok t => t | Raise _ => [] end.

Definition from_right : float :=
  fadd (terms0 !!! 0%nat) (fadd (terms0 !!! 1%nat) (terms0 !!! 2%nat)).

Lemma chi2_terms_any_order_witness :
  exists col,
    np_column 2 dist0 1 = Ok col /\
    Forall (fun d => is_finite d = true) col /\
    Rabs (to_R from_right - sumR (Rsqr <$> quotients col (self_eps star)))
    <= chi2_bound (quotients col (self_eps star)).
Proof.
  apply (chi2_terms_any_order star 2 dist0 1 terms0 from_right).
  - reflexivity.
  - reflexivity.
  - exact star_usable.
  - change (sums_to ([terms0 !!! 0%nat]
                     ++ ([terms0 !!! 1%nat] ++ [terms0 !!! 2%nat]))
              from_right).
    apply sums_app; [constructor |]. apply sums_app; constructor.
  - by vm_compute.
Defined.

(** ** Outside the range

    A candidate of positive parallax that is [2 ^ 600] away from the
    observations: the squares of its distances overflow, chi-square is
    plus infinity and the score minus infinity, the value the prior
    gives to a candidate of non-positive parallax. *)
Example overflow_scores_minus_infinity :
  compute_lnprob star (rows_5 [cand 4 (-8) 0x1p+600 0 2]) false
  = Ok (RetArray [neg_infinity]).
Proof. vm_compute. reflexivity. Qed.
